(* ===== verification/_CoqProject ===== *)
-Q . S2P
Prelude.v
StateM.v
CList.v
Bytes.v
Msg.v
Text.v
Os.v
Log.v
File.v
Dictionary.v
Structs.v
MainMemory.v
Compaction.v
Holes.v
Segments.v
Peer.v
MemoryStick.v
Sticks.v
SwapModule.v
KmSwap.v
KmProcess.v
SchedulerListener.v
CpuListener.v
KmServer.v
KmMain.v
Heap.v
StringHeap.v
MsgHeap.v
SwapHeap.v
IoHeap.v
KmHeap.v
StickServer.v
Threads.v
CountedJoin.v
ListenerEnd.v
SchedState.v
ExecLocks.v
WorkerLocks.v
RoutineLocks.v
ReadyLocks.v
Pcb.v
ReadyQueue.v
ProcessLists.v
KmReply.v
Queues.v
QueuesWf.v
Mutex.v
MutexWf.v
Routines.v
MutexRun.v
IoModule.v
IoConnection.v
CpuConnection.v
OtherThreads.v
CpuThread.v
IoService.v
IoKm.v
SchedHeap.v
SchedServer.v
SchedSystem.v
SchedKm.v
SchedCompact.v
Fueled.v
CpuHeap.v
StickHeap.v
CpuState.v
CpuConnect.v
CpuMemory.v
Mmu.v
CpuExec.v
CpuIsa.v
CpuKm.v
CpuScheduler.v
