(* ===== verification/Prelude.v ===== *)
(** * Operating System Simulator: verification development

    The program is a set of processes that together simulate an operating
    system and talk over TCP:

      - the _Kernel Scheduler_ (src/kernel_scheduler) keeps the process control
        blocks, decides what runs, and carries out the system calls: mutexes,
        IO, memory, process creation;
      - _Kernel Memory_ (src/kernel_memory) keeps the segment and hole tables,
        the scripts and the saved registers, and moves suspended processes to
        the swap;
      - each _memory stick_ (src/memory_stick) is a stretch of physical memory,
        and the _swap_ (src/swap) is a file of blocks;
      - each _CPU_ (src/cpu) fetches, decodes and executes instructions, reads
        and writes the sticks directly, and asks the scheduler after every
        instruction whether its process goes on;
      - each _IO module_ (src/io) serves STDIN, STDOUT or SLEEP requests;
      - src/utils holds lists, dictionaries, strings, files, messages, the log.

    The scheduler is a client of Kernel Memory; CPUs and IO modules are clients
    of the scheduler; CPUs, sticks and the swap are clients of Kernel Memory;
    CPUs are clients of the sticks too.

    ** How C is modelled

    A function becomes a function on explicit state.  [res] (here) says whether
    it returns ([Ok]) or meets undefined behaviour, a deadlock or an endless
    wait ([Undef], with its cause in [ub]); that a result is [Ok] is thus a
    statement of memory safety.  The scheduler's, the CPU's and the IO module's
    functions are written in the state monad of StateM.v.

    Integers are [Z], with [s32], [u32] and [u8] (here) at the places where the
    code converts or overflows: [int] arithmetic is taken to wrap.  Text and
    messages are lists of bytes (Bytes.v); what was never written is [None]
    ([buf] of Msg.v), and using it is [Undef Indeterminate].

    A [t_list] is a mathematical list, a [t_dictionary] a [gmap], by the
    refinements of CList.v and Dictionary.v, which work on the heap nodes of
    list.c and dictionary.c.  A pointer that several tables share stays a name:
    a [t_pcb*] of the scheduler is its pid in the store of SchedState.v, a
    [t_mutex*] the mutex's name, and a name whose object was destroyed is
    [Dangling].

    A socket is an [option] of an endpoint, NULL being [None].  What an endpoint
    does is the class [Transport] (Msg.v): send bytes, receive up to [n] bytes,
    shut down, close.  Os.v shows that sockets_linux.c implements it over the
    system calls.  It is instantiated by a script of what will arrive ([wire],
    Msg.v) and by a whole module at the other end ([peer], Peer.v), which is how
    modules are composed.

    ** Threads

    Three views are used, each for what it can show.  In most files a critical
    section is one step of the thread that runs it, a wait on a condition
    variable is [wait interfere cond], where [interfere] is anything the other
    threads may do meanwhile, and a started thread is an entry in the state.
    KmServer.v, KmMain.v, StickServer.v and SchedSystem.v put all the threads of
    a module in one transition system that interleaves them round by round.  For
    the scheduler, OtherThreads.v says what [interfere] may be: any rounds, in
    any order, of the IO modules', the workers' and the routines' threads
    ([waits]); that these satisfy what the proofs ask of [interfere]
    ([rely_cpu]) is the lemma [waits_rely].  Rounds of another CPU while a CPU's
    thread waits are not covered.  Threads.v and the files after it (CountedJoin, ListenerEnd,
    ExecLocks, WorkerLocks, RoutineLocks, ReadyLocks) take the statements of the
    locks apart: each lock, unlock, wait, signal and join is a step, so that
    deadlocks, lost wake-ups and lock orders are visible; what a critical
    section computes is then reduced to what the synchronisation depends on.

    ** Memory

    Most files hold the program's data by value.  Heap.v and the files named
    after it keep instead where each object was allocated: [malloc] and [free]
    change the set of the addresses that are allocated, freeing what is not is
    [Undef Dangling], and [own h0 O h] says that besides [h0] exactly [O] is
    allocated, each address once.  There the contents are kept only as far as
    the allocations depend on them.

    ** Files

    - Shared: Prelude (results, integers, lists), StateM, Fueled (functions
      without loops do not run out of fuel), Peer, Threads.
    - utils: CList (collections/list.c), Dictionary (collections/dictionary.c),
      Bytes, Text (string.c, config.c), File (file.c), Msg (msg.c), Structs
      (the structures that are sent), Os (sockets_linux.c, time_linux.c), Log
      (log.c), Heap (malloc, free and list.c with its links), StringHeap
      (string.c and config.c with their memory), MsgHeap (msg.c and log.c with
      theirs).
    - Kernel Memory: MainMemory ([t_main_memory] and its invariant), Holes
      (holes.c), Segments (segments.c), Compaction (compaction.c), Sticks
      (address_translation.c), KmSwap (swap.c), KmProcess (registry.c,
      init_process), SchedulerListener and CpuListener (the two request loops),
      KmServer (server.c, connections.c, stick_watchdog.c), KmMain (main.c,
      configurator.c, the end), KmHeap (initializer.c, cleanup.c: what is
      allocated and freed).
    - Memory stick and swap: MemoryStick (the bytes and the request loops),
      StickServer (main.c, kernel_memory.c, the server of cpu.c), StickHeap
      (what the stick allocates and frees), SwapModule, SwapHeap (the same for
      the swap).
    - Scheduler: SchedState (pcb.h, queue_types.h), Pcb (pcb.c), ReadyQueue,
      ProcessLists (exec_list.c, blocking_list.c), Queues (queues.c and the
      transitions of suspension.c), KmReply (the requests to Kernel Memory,
      shutdown.c), Mutex (syscalls/mutex.c), Routines (compaction.c, the workers
      of suspension.c, syscalls/memory.c), IoConnection, CpuConnection,
      SchedServer (main.c, app/, server.c), SchedHeap (what the scheduler
      allocates and frees).  Their theorems: QueuesWf, MutexWf, MutexRun,
      OtherThreads, CpuThread, IoService, SchedSystem.
    - IO module: IoModule, IoHeap (what it allocates and frees).
    - CPU: CpuState (registers.c), CpuConnect (connections.c and
      kernel_memory_protocol.c), CpuMemory (memory.c), CpuExec (handlers.c,
      cpu.c, main.c), CpuHeap (initializer.c, cleanup.c, main.c: what the CPU
      allocates and frees).  Their theorems: Mmu, CpuIsa.
    - Two modules together: SchedKm and SchedCompact (scheduler and Kernel
      Memory), CpuKm (CPU and Kernel Memory), CpuScheduler (CPU and scheduler),
      IoService (scheduler and IO module), IoKm (IO module, scheduler and Kernel
      Memory).

    Definitions carry the names of the C functions, types and fields they
    translate; a C function with a loop has a second definition for the loop.

    ** What is proved

    - _Data structures_: the list and the hash table implement sequences and
      finite maps, whatever the hash does; packets without empty elements,
      integers and structures survive being sent.
    - _Memory_: the segments and holes always tile the memory; allocation,
      release, suspension and resumption do to it what an allocator promises
      ([create_segment_refines], [remove_segment_refines]), choosing by best or
      worst fit; the sticks behave as one array, for Kernel Memory and for the
      CPUs; while a process's segments are numbered in table order the CPU's
      translation and Kernel Memory's agree, and the CPU's keeps processes apart;
      the swap is an array of blocks, and suspending a segment succeeds exactly
      when it has enough of them free.  Kernel Memory keeps its tables well
      formed in every state it reaches while its peers keep to [within_contract]:
      one scheduler, sticks of possible sizes, no empty segment and no script
      that does not exist.
    - _Scheduling_: every live process is in exactly the list its state names;
      states change only along the edges of the state diagram; the ready queue
      chooses by its policy.  In every state the scheduler's threads reach within
      [within_limits] (no mutex beside a multilevel ready queue, a pid left) the
      queues are well formed and no two CPUs run the same process
      ([scheduler_invariant]).  Mutexes, with a single ready queue: [mutex_wf]
      ties owners, waiters and states together, locking and unlocking keep it,
      hand over to the head of the list and lend priorities.  That the whole
      scheduler keeps [mutex_wf] is not proved: a process that ends while it owns
      a mutex breaks it ([owner_exit_dangles]).
    - _Conversations_: what the scheduler tells a CPU is what the CPU does; a CPU
      and Kernel Memory run programs of register instructions as the README says;
      IO requests are served with the right bytes, from the keyboard to the sticks;
      a process is created, allocates (with a compaction if no other CPU runs a
      process) and ends with both ends in step.
    - _Threads_: waiting for counted threads neither blocks nor misses one where
      leaving is a thread's last action; the functions of the ready and execute
      lists and of the suspender lock in one order, the compaction apart, which
      can stop the scheduler for ever in two ways
      ([compaction_deadlocks_with_suspender], [compaction_wait_never_returns]);
      Kernel Memory's end terminates if one scheduler connected.
    - _Memory of the modules_: Kernel Memory, the scheduler and the CPU free
      nothing twice, and how many objects they leave is computed from what
      happened ([lost] in KmHeap.v, SchedHeap.v and CpuHeap.v): none in a run
      without the failures named there; the runs that use a NULL or a field that
      was never written are told apart.  An array of strings is freed whole, and
      sending a message leaves nothing; a configuration is freed too, but for the
      values a repeated key replaced.  For the stick, the swap and the IO module
      the theorems are about runs without the paths that leak, which are lemmas
      beside them.

    Where the code does not do what it means to, the theorem states what it
    does: an IO request that is served before its process blocks is lost
    ([io_wakeup_lost]), a STDIN past the end of a segment overwrites the next
    ([stdin_overwrites_past_the_end]), and so on; some of these are plain lemmas
    beside the definitions.

    ** Fuel

    A loop over a list is structural recursion.  A loop that reads requests gets
    fuel, and [OutOfFuel] is never confused with another result.  For loops on a
    [wire], one more than the bytes that are left is enough: each round consumes
    a byte or ends, when nothing arrives ([packet_elements_fuel] in Msg.v, [run_fuel] in Peer.v, and the
    theorems about the loops of MemoryStick.v, SwapModule.v and CpuConnect.v).  Loops over sticks, list nodes, hash chains and lines have a
    bound computed from the data, proved enough by the theorem about the
    function, whose result is [Ok].  The hand-over of a mutex recurses along
    the chain of owners; MutexWf.v proves that the number of mutexes is
    enough.  A loop that runs until its peer leaves (a CPU's thread, an IO
    slot) is treated round by round.

    ** Parameters

    What is not under src/ is an argument: whether a connection succeeds
    ([open_client], [open_km]), the address of a peer, the files ([file_system]
    of File.v: a path's bytes, if it can be opened), whether a thread could be
    created, the clock, what [vsnprintf] printed, and the answers of the socket
    calls (Os.v).  Theorems that ask something of them say so and come with a
    witness where they are concrete.

    ** Not modelled

    - What is logged where: logging changes no state.  Log.v has the logger.
    - Initialisation and destruction of mutexes and conditions, apart from the
      memory they are in.  malloc never fails.
    - Frames of more than 2^31 - 1 bytes, whose length overflows the [int] of
      msg.c: the theorems about messages ask for [sendable] payloads.
    - Delays: that a sleep takes time has no effect on the state; the quantum
      and the times of blocked processes are arguments.
    - Weak memory: the threads see one memory.  Reads of shared data without
      its mutex happen at some point of the interleaving.
    - process_linux.c, file_linux.c, os.h: system calls without logic.
    - The test programs and drivers, the build, and the shell scripts. *)

From Stdlib Require Export ZArith Lia Sorted.
From Stdlib Require Import Strings.Byte Ascii String.
From stdpp Require Export base tactics option list numbers.
From stdpp Require Export gmap strings.

#[global] Open Scope Z_scope.

(** ** Results of C code

    A C function either returns normally or runs into undefined behaviour.
    [res] keeps the two apart, so that a theorem "the result is [Ok _]" is a
    memory-safety statement. *)

Inductive ub :=
  | NullDeref        (** a NULL pointer is dereferenced *)
  | Dangling         (** freed or never allocated memory is accessed *)
  | OutOfBounds      (** an array or buffer is accessed outside its extent *)
  | Indeterminate    (** a value that was never written is read *)
  | DivByZero        (** integer division or remainder by zero *)
  | Unrepresentable  (** [atoi] of a number that is no [int] *)
  | Deadlock         (** a plain mutex is locked again by its owner *)
  | Blocked          (** the thread waits for a condition that never holds *)
  | OutOfFuel.       (** the loop of the model ran out of fuel *)

Inductive res (A : Type) :=
  | Ok (a : A)
  | Undef (u : ub).
Arguments Ok {A} a.
Arguments Undef {A} u.

#[export] Instance res_ret : MRet res := fun A a => Ok a.
#[export] Instance res_bind : MBind res := fun A B f m =>
  match m with Ok a => f a | Undef u => Undef u end.

Lemma res_bind_Ok {A B} (f : A -> res B) (r : res A) y :
  mbind f r = Ok y <-> exists x, r = Ok x /\ f x = Ok y.
Proof. destruct r; cbn; naive_solver. Qed.

(** [inv_bind H]: the first step of a computation that returned. *)
Tactic Notation "inv_bind" hyp(H) "as" simple_intropattern(x) ident(E) :=
  apply res_bind_Ok in H as (x & E & H).

(** Dereferencing a pointer that may be NULL. *)
Definition deref {A} (p : option A) : res A :=
  match p with Some a => Ok a | None => Undef NullDeref end.

(** Indexing an array. *)
Definition at_index {A} (p : option A) : res A :=
  match p with Some a => Ok a | None => Undef OutOfBounds end.

Definition is_ok {A} (r : res A) : bool :=
  match r with Ok _ => true | Undef _ => false end.

(** A closure on each element, in order, with the state it acts on. *)
Fixpoint each {A W} (f : A -> W -> res W) (l : list A) (st : W) : res W :=
  match l with [] => Ok st | x :: r => st ← f x st; each f r st end.

(** A destroyer that may be NULL. *)
Definition call_destroyer {A W} (f : option (A -> W -> res W)) (x : A) (st : W) : res W :=
  match f with Some f => f x st | None => Ok st end.

Lemma each_app {A W} (f : A -> W -> res W) l1 l2 st :
  each f (l1 ++ l2) st = st ← each f l1 st; each f l2 st.
Proof.
  revert st. induction l1 as [|x l1 IH]; intros st; [done|]. cbn.
  destruct (f x st); [apply IH|done].
Qed.

Lemma each_nothing {A W} (l : list A) (st : W) : each (call_destroyer None) l st = Ok st.
Proof. by induction l. Qed.

(** ** Machine integers

    [int] and [int32_t] are 32-bit two's complement, [uint32_t] and [uint8_t]
    are unsigned.  Values are kept in [Z]; these functions are the conversions
    the compiler inserts. *)

Definition INT_MAX : Z := 2147483647.
Definition INT_MIN : Z := -2147483648.
Definition UINT32_MAX : Z := 4294967295.

Definition u8 (x : Z) : Z := x mod 256.
Definition u32 (x : Z) : Z := x mod 4294967296.
Definition s32 (x : Z) : Z := (x + 2147483648) mod 4294967296 - 2147483648.

Definition in_int (x : Z) : Prop := INT_MIN <= x <= INT_MAX.
Definition in_u32 (x : Z) : Prop := 0 <= x <= UINT32_MAX.

Ltac ints := unfold in_int, in_u32, INT_MAX, INT_MIN, UINT32_MAX in *.

Lemma s32_id x : INT_MIN <= x <= INT_MAX -> s32 x = x.
Proof. ints. intros. unfold s32. rewrite Z.mod_small; lia. Qed.

Lemma u32_id x : 0 <= x <= UINT32_MAX -> u32 x = x.
Proof. ints. intros. unfold u32. rewrite Z.mod_small; lia. Qed.

Lemma u8_id x : 0 <= x < 256 -> u8 x = x.
Proof. intros. unfold u8. rewrite Z.mod_small; lia. Qed.

Lemma s32_range x : INT_MIN <= s32 x <= INT_MAX.
Proof.
  ints. unfold s32.
  pose proof (Z.mod_pos_bound (x + 2147483648) 4294967296). lia.
Qed.

Lemma u32_range x : 0 <= u32 x <= UINT32_MAX.
Proof. ints. unfold u32. pose proof (Z.mod_pos_bound x 4294967296). lia. Qed.

Lemma u8_range x : 0 <= u8 x < 256.
Proof. unfold u8. apply Z.mod_pos_bound. lia. Qed.

Lemma s32_u32 x : s32 (u32 x) = s32 x.
Proof. unfold s32, u32. rewrite Zplus_mod_idemp_l. done. Qed.

Lemma u32_s32 x : u32 (s32 x) = u32 x.
Proof.
  unfold s32, u32. rewrite Zminus_mod_idemp_l. f_equal. lia.
Qed.

Lemma u32_idemp x : u32 (u32 x) = u32 x.
Proof. unfold u32. apply Zmod_mod. Qed.

Lemma s32_idemp x : s32 (s32 x) = s32 x.
Proof. apply s32_id, s32_range. Qed.

(** The four conversion identities close most goals about in-range values. *)
Create HintDb cint.
Create Rewrite HintDb cint.
#[export] Hint Rewrite s32_u32 u32_s32 u32_idemp s32_idemp : cint.
#[export] Hint Resolve s32_range u32_range u8_range : cint.

(** [cint] removes the conversions of values the context shows in range. *)
Ltac cint :=
  repeat match goal with
  | |- context [s32 ?x] => rewrite (s32_id x) by (ints; lia)
  | |- context [u32 ?x] => rewrite (u32_id x) by (ints; lia)
  | |- context [u8 ?x] => rewrite (u8_id x) by (ints; lia)
  | _ => progress autorewrite with cint
  end.
Tactic Notation "cint" "in" hyp(H) :=
  repeat match type of H with
  | context [s32 ?x] => rewrite (s32_id x) in H by (ints; lia)
  | context [u32 ?x] => rewrite (u32_id x) in H by (ints; lia)
  | context [u8 ?x] => rewrite (u8_id x) in H by (ints; lia)
  | _ => progress autorewrite with cint in H
  end.

(** ** Lists

    [t_list] hands out elements by an [int] index; NULL outside the range. *)

Definition l_get {A} (l : list A) (i : Z) : option A :=
  if decide (0 <= i) then l !! Z.to_nat i else None.

Definition l_size {A} (l : list A) : Z := Z.of_nat (length l).

(** Removing the element at an [int] index; out of range nothing happens. *)
Definition l_remove {A} (l : list A) (i : Z) : list A :=
  if decide (0 <= i) then delete (Z.to_nat i) l else l.

(** Removing the first element that satisfies a test. *)
Fixpoint l_remove_first {A} (p : A -> bool) (l : list A) : list A :=
  match l with
  | [] => []
  | x :: r => if p x then r else x :: l_remove_first p r
  end.

(** Inserting before the first element [y] with [before x y]. *)
Fixpoint l_insert {A} (before : A -> A -> bool) (x : A) (l : list A) : list A :=
  match l with
  | [] => [x]
  | y :: r => if before x y then x :: y :: r else y :: l_insert before x r
  end.

Fixpoint l_insert_pos {A} (before : A -> A -> bool) (x : A) (l : list A) : Z :=
  match l with
  | [] => 0
  | y :: r => if before x y then 0 else 1 + l_insert_pos before x r
  end.

(** The first element that satisfies a test, and its replacement. *)
Fixpoint l_find {A} (p : A -> bool) (l : list A) : option A :=
  match l with
  | [] => None
  | x :: r => if p x then Some x else l_find p r
  end.

Fixpoint l_update_first {A} (p : A -> bool) (f : A -> A) (l : list A) : list A :=
  match l with
  | [] => []
  | x :: r => if p x then f x :: r else x :: l_update_first p f r
  end.

Section list_lemmas.
Context {A : Type}.
Implicit Types (l : list A) (x y : A).

Lemma l_get_Some l i x :
  l_get l i = Some x <-> 0 <= i /\ l !! Z.to_nat i = Some x.
Proof. unfold l_get. case_decide; naive_solver. Qed.

Lemma l_get_range l i : is_Some (l_get l i) <-> 0 <= i < l_size l.
Proof.
  unfold l_get, l_size. case_decide.
  - rewrite lookup_lt_is_Some. lia.
  - split; [intros []; done | lia].
Qed.

Lemma l_get_out l i : i < 0 \/ l_size l <= i -> l_get l i = None.
Proof.
  intros Hi. destruct (l_get l i) as [x|] eqn:E; [|done].
  assert (is_Some (l_get l i)) as Hs by (rewrite E; by eexists).
  apply l_get_range in Hs. lia.
Qed.

Lemma l_get_nat l (n : nat) : l_get l (Z.of_nat n) = l !! n.
Proof. unfold l_get. rewrite decide_True by lia. by rewrite Nat2Z.id. Qed.

Lemma l_get_negative l i : i < 0 -> l_get l i = None.
Proof. intros. unfold l_get. by rewrite decide_False by lia. Qed.

Lemma l_insert_perm before x l : l_insert before x l ≡ₚ x :: l.
Proof.
  induction l as [|y l IH]; cbn; [done|].
  destruct (before x y); [done|]. rewrite IH. by constructor.
Qed.

Lemma l_insert_pos_nonneg before x l : 0 <= l_insert_pos before x l.
Proof. induction l as [|y l IH]; cbn; [lia|]. destruct (before x y); lia. Qed.

Lemma l_find_Some p l x :
  l_find p l = Some x -> p x = true /\ x ∈ l.
Proof.
  induction l as [|y l IH]; cbn; [done|].
  destruct (p y) eqn:E; intros; simplify_eq; set_solver.
Qed.

Lemma l_find_None p l :
  l_find p l = None <-> Forall (fun x => p x = false) l.
Proof.
  induction l as [|y l IH]; cbn; [by split|].
  rewrite Forall_cons. destruct (p y); naive_solver.
Qed.

Lemma l_remove_first_split p l x :
  l_find p l = Some x ->
  exists l1 l2, l = l1 ++ x :: l2 /\ l_remove_first p l = l1 ++ l2 /\
                Forall (fun y => p y = false) l1 /\ p x = true.
Proof.
  induction l as [|y l IH]; cbn; [done|].
  destruct (p y) eqn:E; intros H.
  - simplify_eq. exists [], l. repeat split; auto.
  - destruct (IH H) as (l1 & l2 & -> & -> & ? & ?).
    exists (y :: l1), l2. repeat split; auto.
Qed.

Lemma l_remove_first_perm p l x :
  l_find p l = Some x -> l ≡ₚ x :: l_remove_first p l.
Proof.
  intros (l1 & l2 & -> & -> & _)%l_remove_first_split.
  by rewrite Permutation_middle.
Qed.

Lemma l_remove_first_none p l :
  l_find p l = None -> l_remove_first p l = l.
Proof.
  induction l as [|y l IH]; cbn; [done|].
  destruct (p y); [done|]. intros. by rewrite IH.
Qed.

Lemma l_update_first_split p f l x :
  l_find p l = Some x ->
  exists l1 l2, l = l1 ++ x :: l2 /\ l_update_first p f l = l1 ++ f x :: l2 /\
                Forall (fun y => p y = false) l1 /\ p x = true.
Proof.
  induction l as [|y l IH]; cbn; [done|].
  destruct (p y) eqn:E; intros H.
  - simplify_eq. exists [], l. repeat split; auto.
  - destruct (IH H) as (l1 & l2 & -> & -> & ? & ?).
    exists (y :: l1), l2. repeat split; auto.
Qed.

Lemma l_remove_perm l i x :
  l_get l i = Some x -> l ≡ₚ x :: l_remove l i.
Proof.
  intros [? ?]%l_get_Some. unfold l_remove. rewrite decide_True by done.
  by apply delete_Permutation.
Qed.

Lemma elem_of_l_remove_first p l x : x ∈ l_remove_first p l -> x ∈ l.
Proof.
  induction l as [|y l IH]; cbn; [done|].
  destruct (p y); set_solver.
Qed.
End list_lemmas.

(** ** Sizes, slices and overwriting *)

Lemma l_size_app {A} (l1 l2 : list A) : l_size (l1 ++ l2) = l_size l1 + l_size l2.
Proof. unfold l_size. rewrite length_app. lia. Qed.

Lemma l_size_nonneg {A} (l : list A) : 0 <= l_size l.
Proof. unfold l_size. lia. Qed.

Lemma l_size_le_0 {A} (l : list A) : l_size l <= 0 -> l = [].
Proof. destruct l; [done|]. unfold l_size. cbn [length]. lia. Qed.

Lemma l_size_pos {A} (l : list A) : l ≠ [] -> 0 < l_size l.
Proof. destruct l; [done|]. unfold l_size. cbn [length]. lia. Qed.

Lemma l_get_middle {A} (l1 : list A) x l2 :
  l_get (l1 ++ x :: l2) (Z.of_nat (length l1)) = Some x.
Proof. rewrite l_get_nat. by apply list_lookup_middle. Qed.

(** Overwriting [length bs] bytes at an offset. *)
Definition overwrite {A} (off : nat) (bs mem : list A) : list A :=
  take off mem ++ bs ++ drop (off + length bs) mem.

Lemma overwrite_length {A} off (bs mem : list A) :
  (off + length bs <= length mem)%nat -> length (overwrite off bs mem) = length mem.
Proof.
  intros. unfold overwrite. rewrite !length_app, length_take, length_drop. lia.
Qed.

Lemma overwrite_read {A} off (bs mem : list A) :
  (off + length bs <= length mem)%nat ->
  take (length bs) (drop off (overwrite off bs mem)) = bs.
Proof.
  intros. unfold overwrite.
  rewrite drop_app_length' by (rewrite length_take; lia).
  by rewrite take_app_length.
Qed.

Lemma overwrite_nil {A} off (mem : list A) : overwrite off [] mem = mem.
Proof. unfold overwrite. cbn. by rewrite Nat.add_0_r, take_drop. Qed.

Lemma overwrite_span {A} off (b1 b2 mem r : list A) :
  (off + length b1 <= length mem)%nat ->
  b2 = [] \/ (off + length b1 = length mem)%nat ->
  overwrite off (b1 ++ b2) (mem ++ r) = overwrite off b1 mem ++ overwrite 0 b2 r.
Proof.
  intros Hb Hc. unfold overwrite. rewrite take_app_le by lia.
  rewrite <- !app_assoc. f_equal. f_equal. destruct Hc as [->|Hc].
  - cbn. rewrite app_nil_r. by rewrite drop_app_le by lia.
  - rewrite (drop_ge mem) by lia. rewrite take_0. cbn [app Nat.add]. f_equal.
    rewrite length_app, drop_app_ge by lia. f_equal. lia.
Qed.

Lemma overwrite_shift {A} off (bs m1 m2 : list A) :
  m1 ++ overwrite off bs m2 = overwrite (length m1 + off) bs (m1 ++ m2).
Proof.
  unfold overwrite. rewrite take_app_ge, drop_app_ge by lia.
  rewrite <- app_assoc. f_equal.
  replace (length m1 + off - length m1)%nat with off by lia. f_equal. f_equal.
  f_equal. lia.
Qed.

(** The [n] elements from [pa] on. *)
Definition slice {A} (pa n : Z) (l : list A) : list A :=
  take (Z.to_nat n) (drop (Z.to_nat pa) l).

Lemma slice_length {A} pa n (l : list A) :
  0 <= pa -> 0 <= n -> pa + n <= l_size l -> l_size (slice pa n l) = n.
Proof.
  intros. unfold slice, l_size in *. rewrite length_take, length_drop. lia.
Qed.

Lemma overwrite_lookup_out {A} off (c mem : list A) i :
  (i < off \/ off + length c <= i)%nat -> (off + length c <= length mem)%nat ->
  overwrite off c mem !! i = mem !! i.
Proof.
  intros Hi Hm. unfold overwrite. destruct Hi as [Hi|Hi].
  - rewrite lookup_app_l by (rewrite length_take; lia). by apply lookup_take_lt.
  - rewrite lookup_app_r by (rewrite length_take; lia).
    rewrite length_take, lookup_app_r, lookup_drop by lia. f_equal. lia.
Qed.

Lemma overwrite_lookup_in {A} n (bs l : list A) i :
  (n + length bs <= length l)%nat -> (i < length bs)%nat ->
  overwrite n bs l !! (n + i)%nat = bs !! i.
Proof.
  intros Hb Hi. unfold overwrite.
  rewrite lookup_app_r by (rewrite length_take; lia). rewrite length_take.
  rewrite lookup_app_l by lia. f_equal. lia.
Qed.

Lemma slice_app {A} (l : list A) pa a b :
  0 <= pa -> 0 <= a -> 0 <= b ->
  slice pa (a + b) l = slice pa a l ++ slice (pa + a) b l.
Proof.
  intros. unfold slice.
  replace (Z.to_nat (pa + a)) with (Z.to_nat pa + Z.to_nat a)%nat by lia.
  rewrite <- drop_drop, take_take_drop. f_equal. lia.
Qed.

Lemma overwrite_app {A} (l b1 b2 : list A) n :
  (n + length b1 <= length l)%nat ->
  overwrite (n + length b1) b2 (overwrite n b1 l) = overwrite n (b1 ++ b2) l.
Proof.
  intros. unfold overwrite. rewrite length_app, !app_assoc.
  rewrite take_app_le by (rewrite length_app, length_take; lia).
  rewrite take_ge by (rewrite length_app, length_take; lia).
  rewrite drop_app_ge by (rewrite length_app, length_take; lia).
  rewrite drop_drop, length_app, length_take, Nat.min_l by lia.
  do 2 f_equal. lia.
Qed.


Lemma overwrite_size {A} n (bs l : list A) :
  0 <= n -> n + l_size bs <= l_size l -> l_size (overwrite (Z.to_nat n) bs l) = l_size l.
Proof. intros. unfold l_size in *. f_equal. apply overwrite_length. lia. Qed.

Lemma slice_overwrite {A} n (bs l : list A) :
  0 <= n -> n + l_size bs <= l_size l -> slice n (l_size bs) (overwrite (Z.to_nat n) bs l) = bs.
Proof.
  intros. unfold slice, l_size in *. rewrite Nat2Z.id. apply overwrite_read. lia.
Qed.

Lemma slice_chunk {A} pa c n (m1 m m2 : list A) off :
  0 <= off -> 0 <= c <= n -> c <= l_size m - off -> pa = l_size m1 + off ->
  slice off c m ++ slice (pa + c) (n - c) (m1 ++ m ++ m2)
  = slice pa n (m1 ++ m ++ m2).
Proof.
  intros Ho Hc Hm ->. unfold slice, l_size in *.
  assert (drop (Z.to_nat (Z.of_nat (length m1) + off)) (m1 ++ m ++ m2)
          = drop (Z.to_nat off) m ++ m2) as E.
  { rewrite drop_app_ge by lia. rewrite drop_app_le by lia. f_equal.
    f_equal. lia. }
  replace (Z.to_nat (Z.of_nat (length m1) + off + c))
    with (Z.to_nat (Z.of_nat (length m1) + off) + Z.to_nat c)%nat by lia.
  rewrite <- drop_drop, E.
  rewrite <- (take_app_le (drop (Z.to_nat off) m) m2) by (rewrite length_drop; lia).
  rewrite take_take_drop. f_equal. lia.
Qed.

(** Insertion keeps a list sorted when the test is a total preorder whose
    ties go either way. *)
Section sorted.
Context {A : Type} (R : A -> A -> Prop) (before : A -> A -> bool).
Context (before_R : forall x y, before x y = true -> R x y).
Context (not_before_R : forall x y, before x y = false -> R y x).
Context `{!Transitive R}.

Lemma l_insert_sorted x l :
  StronglySorted R l -> StronglySorted R (l_insert before x l).
Proof using All.
  induction 1 as [|y l Hl IH Hy]; cbn; [by repeat constructor|].
  destruct (before x y) eqn:E.
  - repeat (constructor; auto).
    eapply Forall_impl; [exact Hy|]. eauto.
  - constructor; [done|].
    rewrite l_insert_perm. constructor; eauto.
Qed.
End sorted.

(** ** Sums *)

Fixpoint sum_with {A} (f : A -> Z) (l : list A) : Z :=
  match l with
  | [] => 0
  | x :: r => f x + sum_with f r
  end.

Lemma sum_with_app {A} (f : A -> Z) l1 l2 :
  sum_with f (l1 ++ l2) = sum_with f l1 + sum_with f l2.
Proof. induction l1; cbn; lia. Qed.

Lemma sum_with_nonneg {A} (f : A -> Z) l :
  Forall (fun x => 0 <= f x) l -> 0 <= sum_with f l.
Proof. induction 1; cbn; lia. Qed.

#[export] Instance sum_with_perm {A} (f : A -> Z) :
  Proper ((≡ₚ) ==> (=)) (sum_with f).
Proof. intros l1 l2 H. induction H; cbn; lia. Qed.

Lemma sum_with_insert {A} (f : A -> Z) l i x y :
  l !! i = Some x -> sum_with f (<[i := y]> l) = sum_with f l - f x + f y.
Proof.
  revert i. induction l as [|a l IH]; intros [|i]; [done..| |].
  - intros [= ->]. cbn. lia.
  - intros H. change (<[S i := y]> (a :: l)) with (a :: <[i := y]> l). cbn [sum_with].
    rewrite (IH i) by done. lia.
Qed.

Lemma sum_with_le_elem {A} (f : A -> Z) l x :
  Forall (fun y => 0 <= f y) l -> x ∈ l -> f x <= sum_with f l.
Proof.
  intros H. induction H as [|y l Hy Hl IH]; [set_solver|].
  intros [->|Hx]%elem_of_cons; cbn.
  - pose proof (sum_with_nonneg f l Hl). lia.
  - specialize (IH Hx). lia.
Qed.

(** The [int] accumulator of a C loop never wraps while the mathematical sum
    of its non-negative terms stays in range. *)
Lemma foldl_s32_sum {A} (f : A -> Z) l acc :
  Forall (fun x => 0 <= f x) l ->
  0 <= acc -> acc + sum_with f l <= INT_MAX ->
  foldl (fun t x => s32 (t + f x)) acc l = acc + sum_with f l.
Proof.
  intros H. revert acc. induction H as [|x l Hx Hl IH]; cbn; intros acc Ha Hb.
  - lia.
  - pose proof (sum_with_nonneg f l Hl).
    cint. rewrite IH by lia. lia.
Qed.

(** ** Automation *)

(** Case analysis on every [if] and [match] of a hypothesis or the goal. *)
Ltac cases :=
  repeat (case_match || case_decide || simplify_eq/=).

(** [bind_ok H]: a computation that returned went through each step. *)
Ltac bind_ok :=
  repeat match goal with
  | H : Ok _ = Ok _ |- _ => injection H as H; subst
  | H : Undef _ = Ok _ |- _ => discriminate H
  | H : Ok _ = Undef _ |- _ => discriminate H
  | H : context [mbind _ (Ok _)] |- _ => progress (cbn [mbind res_bind] in H)
  end.
