(* ===== verification/StateM.v ===== *)
(** * StateM: the monad of functions that change a state and may be undefined

    The scheduler's and the CPU's functions are written in it. *)

From S2P Require Import Prelude.

Definition St (X A : Type) : Type := X -> res (A * X).

#[export] Instance St_ret X : MRet (St X) := fun A a x => Ok (a, x).
#[export] Instance St_bind X : MBind (St X) := fun A B f m x =>
  match m x with Ok (a, x') => f a x' | Undef u => Undef u end.

Section monad.
Context {X : Type}.
Implicit Types (x : X).

Definition gets {A} (f : X -> A) : St X A := fun x => Ok (f x, x).
Definition modify (f : X -> X) : St X unit := fun x => Ok (tt, f x).
Definition lift {A} (r : res A) : St X A := fun x =>
  match r with Ok a => Ok (a, x) | Undef u => Undef u end.
Definition when (b : bool) (m : St X unit) : St X unit := if b then m else mret tt.

Lemma bind_M {A B} (f : A -> St X B) (m : St X A) x :
  mbind f m x = match m x with Ok (a, x') => f a x' | Undef u => Undef u end.
Proof. done. Qed.

Lemma ret_M {A} (a : A) x : (mret a : St X A) x = Ok (a, x).
Proof. done. Qed.

Lemma gets_M {A} (f : X -> A) x : gets f x = Ok (f x, x).
Proof. done. Qed.

Lemma modify_M f x : modify f x = Ok (tt, f x).
Proof. done. Qed.

Lemma lift_M {A} (r : res A) x :
  lift r x = match r with Ok a => Ok (a, x) | Undef u => Undef u end.
Proof. done. Qed.

Lemma lift_Ok {A} (r : res A) x a x' : lift r x = Ok (a, x') -> r = Ok a /\ x' = x.
Proof. rewrite lift_M. destruct r; [|done]. by intros [= <- <-]. Qed.

Lemma M_bind_Ok {A B} (f : A -> St X B) (m : St X A) x r x' :
  mbind f m x = Ok (r, x') <-> exists a x1, m x = Ok (a, x1) /\ f a x1 = Ok (r, x').
Proof.
  unfold mbind, St_bind. destruct (m x) as [[a x1]|u]; naive_solver.
Qed.
End monad.

(** [inv_M H as a x1 E]: the first step of a function that returned. *)
Tactic Notation "inv_M" hyp(H) "as" simple_intropattern(a) ident(x1) ident(E) :=
  apply M_bind_Ok in H as (a & x1 & E & H).

(** [run_M]: computes the steps that do not depend on the state. *)
Ltac run_M :=
  repeat first [rewrite bind_M | rewrite ret_M | rewrite gets_M | rewrite modify_M
               | progress cbv beta iota | progress cbn [when]].
Ltac run_M_in H :=
  repeat first [rewrite bind_M in H | rewrite ret_M in H | rewrite gets_M in H
               | rewrite modify_M in H | progress cbv beta iota in H
               | progress cbn [when] in H].

(** ** Relating the states before and after *)

(** Whatever it returns, [m] leaves the state related by [R]. *)
Definition keeps {X A} (R : relation X) (m : St X A) : Prop :=
  forall x a x', m x = Ok (a, x') -> R x x'.

Section keeps.
Context {X : Type} (R : relation X) `{!PreOrder R}.

Lemma keeps_bind {A B} (m : St X A) (f : A -> St X B) :
  keeps R m -> (forall a, keeps R (f a)) -> keeps R (mbind f m).
Proof. intros Hm Hf x b x' H. inv_M H as a x1 E. etrans; [by eapply Hm|by eapply Hf]. Qed.

Lemma keeps_ret {A} (a : A) : keeps R (mret a : St X A).
Proof. intros x b x' H. rewrite ret_M in H. by simplify_eq. Qed.

Lemma keeps_gets {A} (f : X -> A) : keeps R (gets f).
Proof. intros x b x' H. rewrite gets_M in H. by simplify_eq. Qed.

Lemma keeps_lift {A} (r : res A) : keeps R (lift r : St X A).
Proof. intros x b x' H. rewrite lift_M in H. destruct r; by simplify_eq. Qed.

Lemma keeps_modify f : (forall x, R x (f x)) -> keeps R (modify f).
Proof. intros Hf x b x' H. rewrite modify_M in H. by simplify_eq. Qed.

Lemma keeps_when b (m : St X unit) : keeps R m -> keeps R (when b m).
Proof. intros H. destruct b; cbn [when]; [done|by apply keeps_ret]. Qed.
End keeps.

Create HintDb keeps.
#[export] Hint Resolve keeps_ret keeps_gets keeps_lift keeps_when : keeps.

(** [keeps_tac]: the steps of a function one by one, its branches too. *)
Ltac keeps_tac :=
  repeat first
    [ progress intros
    | match goal with |- keeps _ (mbind _ _) => apply keeps_bind; [apply _|..] end
    | match goal with |- keeps _ (modify _) => apply keeps_modify; done end
    | solve [auto with keeps typeclass_instances]
    | case_match ].
