(* ===== verification/CList.v ===== *)
(** * CList: utils/src/utils/collections/list.c

    The linked list under every table of the program, with its heap and its
    slots (pointers to pointers).  [repr] relates it to a mathematical list;
    each operation is proved to implement the list operation of the Prelude
    that the other files use in its place. *)

From S2P Require Import Prelude.

(** ** The heap *)

Abbreviation loc := positive.

Record t_link_element (A : Type) := mk_link_element {
  data : A;
  next : option loc }.
Arguments mk_link_element {A} _ _.
Arguments data {A} _.
Arguments next {A} _.

Record t_list (A : Type) := mk_list {
  heap : gmap loc (t_link_element A);
  head : option loc;
  elements_count : Z }.
Arguments mk_list {A} _ _ _.
Arguments heap {A} _.
Arguments head {A} _.
Arguments elements_count {A} _.

(** A [t_link_element**]: the head field of the list, or a next field. *)
Inductive t_slot := SHead | SNext (l : loc).

Record t_list_iterator := mk_list_iterator {
  it_current : t_slot;
  it_next : t_slot;
  it_index : Z }.

Section operations.
Context {A : Type}.
Implicit Types (self : t_list A) (l : loc).

(** Accessing a cell that is not allocated is undefined. *)
Definition cell self l : res (t_link_element A) :=
  match heap self !! l with Some e => Ok e | None => Undef Dangling end.

Definition read_slot self (s : t_slot) : res (option loc) :=
  match s with
  | SHead => Ok (head self)
  | SNext l => e ← cell self l; Ok (next e)
  end.

Definition write_slot self (s : t_slot) (p : option loc) : res (t_list A) :=
  match s with
  | SHead => Ok (mk_list (heap self) p (elements_count self))
  | SNext l =>
      e ← cell self l;
      Ok (mk_list (<[l := mk_link_element (data e) p]> (heap self)) (head self)
            (elements_count self))
  end.

Definition set_count (f : Z -> Z) self : t_list A :=
  mk_list (heap self) (head self) (f (elements_count self)).

Definition free_cell self l : t_list A :=
  mk_list (delete l (heap self)) (head self) (elements_count self).

(** [malloc] of a cell, with its two fields. *)
Definition list_create_element self (x : A) (p : option loc)
    : loc * t_list A :=
  let l := fresh (dom (heap self)) in
  (l, mk_list (<[l := mk_link_element x p]> (heap self)) (head self)
        (elements_count self)).

Definition list_create : t_list A := mk_list ∅ None 0.

(** The next field of the cell a slot holds, as a slot. *)
Definition advance (p : option loc) : res t_slot :=
  l ← deref p; Ok (SNext l).

Fixpoint get_slot_loop self (n : nat) (slot : t_slot) : res t_slot :=
  match n with
  | O => Ok slot
  | S n =>
      p ← read_slot self slot;
      match p with
      | None => Ok slot
      | Some l => get_slot_loop self n (SNext l)
      end
  end.

Definition list_get_slot self (index : Z) : res t_slot :=
  get_slot_loop self (Z.to_nat index) SHead.

Definition list_add self (element : A) : res (Z * t_list A) :=
  slot ← list_get_slot self (elements_count self);
  let (l, self) := list_create_element self element None in
  self ← write_slot self slot (Some l);
  Ok (elements_count self, set_count (fun n => s32 (n + 1)) self).

Fixpoint sorted_slot (comparator : A -> A -> bool) (x : A) self (fuel : nat)
    (slot : t_slot) (index : Z) : res (t_slot * Z) :=
  match fuel with
  | O => Undef OutOfFuel
  | S fuel =>
      p ← read_slot self slot;
      match p with
      | None => Ok (slot, index)
      | Some l =>
          e ← cell self l;
          if comparator x (data e) then Ok (slot, index)
          else sorted_slot comparator x self fuel (SNext l) (s32 (index + 1))
      end
  end.

Definition list_add_sorted self (x : A) (comparator : A -> A -> bool)
    : res (Z * t_list A) :=
  '(slot, index) ← sorted_slot comparator x self (S (size (heap self))) SHead 0;
  p ← read_slot self slot;
  let (l, self) := list_create_element self x p in
  self ← write_slot self slot (Some l);
  Ok (index, set_count (fun n => s32 (n + 1)) self).

Definition list_get self (index : Z) : res (option A) :=
  if decide (index < 0 \/ elements_count self <= index) then Ok None else
  slot ← list_get_slot self index;
  p ← read_slot self slot;
  l ← deref p; e ← cell self l; Ok (Some (data e)).

(** Unlinking the cell a slot points to, and freeing it. *)
Definition unlink self (slot : t_slot) : res (A * t_list A) :=
  p ← read_slot self slot;
  l ← deref p; e ← cell self l;
  self ← write_slot self slot (next e);
  Ok (data e, set_count (fun n => s32 (n - 1)) (free_cell self l)).

Definition list_remove self (index : Z) : res (option A * t_list A) :=
  if decide (index < 0 \/ elements_count self <= index) then Ok (None, self) else
  slot ← list_get_slot self index;
  '(x, self) ← unlink self slot; Ok (Some x, self).

(** [list_remove_element]; [same] is the pointer comparison. *)
Fixpoint remove_element_loop (same : A -> bool) self (fuel : nat)
    (slot : t_slot) : res (bool * t_list A) :=
  match fuel with
  | O => Undef OutOfFuel
  | S fuel =>
      p ← read_slot self slot;
      match p with
      | None => Ok (false, self)
      | Some l =>
          e ← cell self l;
          if same (data e) then '(_, self) ← unlink self slot; Ok (true, self)
          else remove_element_loop same self fuel (SNext l)
      end
  end.

Definition list_remove_element self (same : A -> bool) : res (bool * t_list A) :=
  remove_element_loop same self (S (size (heap self))) SHead.

Definition list_size self : Z := elements_count self.
Definition list_is_empty self : bool := bool_decide (elements_count self = 0).

Definition list_iterator_create : t_list_iterator :=
  mk_list_iterator SHead SHead (-1).

Definition list_iterator_has_next self (it : t_list_iterator) : res bool :=
  p ← read_slot self (it_next it); Ok (bool_decide (p ≠ None)).

Definition list_iterator_next self (it : t_list_iterator)
    : res (A * t_list_iterator) :=
  let current := it_next it in
  p ← read_slot self current;
  next ← advance p; l ← deref p; e ← cell self l;
  Ok (data e, mk_list_iterator current next (s32 (it_index it + 1))).

Definition list_iterator_remove self (it : t_list_iterator)
    : res (t_list A * t_list_iterator) :=
  '(_, self) ← unlink self (it_current it);
  Ok (self, mk_list_iterator (it_current it) (it_current it)
              (s32 (it_index it - 1))).

(** A closure or a destroyer acts on what the elements point to, a state of its
    own; the loops follow the cells, so their number is enough fuel. *)
Section closures.
Context {W : Type}.
Implicit Types (st : W).

Fixpoint list_iterate_loop (closure : A -> W -> res W) self (fuel : nat)
    (element : option loc) st : res W :=
  match fuel with
  | O => Undef OutOfFuel
  | S fuel =>
      match element with
      | None => Ok st
      | Some l =>
          e ← cell self l;
          st ← closure (data e) st;
          list_iterate_loop closure self fuel (next e) st
      end
  end.

Definition list_iterate self (closure : A -> W -> res W) st : res W :=
  list_iterate_loop closure self (S (size (heap self))) (head self) st.

Fixpoint list_clean_loop (element_destroyer : option (A -> W -> res W)) self (fuel : nat)
    (element : option loc) st : res (t_list A * W) :=
  match fuel with
  | O => Undef OutOfFuel
  | S fuel =>
      match element with
      | None => Ok (self, st)
      | Some l =>
          e ← cell self l;
          st ← call_destroyer element_destroyer (data e) st;
          list_clean_loop element_destroyer (free_cell self l) fuel (next e) st
      end
  end.

Definition list_clean self (element_destroyer : option (A -> W -> res W)) st
    : res (t_list A * W) :=
  '(self, st) ← list_clean_loop element_destroyer self (S (size (heap self))) (head self) st;
  Ok (mk_list (heap self) None 0, st).

(** What the heap still holds once the list is freed, and the state. *)
Definition list_destroy self st : res (gmap loc (t_link_element A) * W) :=
  '(self, st) ← list_clean self None st; Ok (heap self, st).
Definition list_destroy_and_destroy_elements self (element_destroyer : A -> W -> res W) st
    : res (gmap loc (t_link_element A) * W) :=
  '(self, st) ← list_clean self (Some element_destroyer) st; Ok (heap self, st).

Definition list_remove_and_destroy_element self (index : Z)
    (element_destroyer : A -> W -> res W) st : res (t_list A * W) :=
  '(x, self) ← list_remove self index;
  match x with
  | Some x => st ← element_destroyer x st; Ok (self, st)
  | None => Ok (self, st)
  end.
End closures.
End operations.

(** ** Representation *)

Section representation.
Context {A : Type}.
Implicit Types (self : t_list A) (l : list A) (ls : list loc).
Implicit Types (h : gmap loc (t_link_element A)) (p q : option loc).

(** The cells [ls], linked from [p] to [q], hold the elements [l]. *)
Fixpoint lseg h p ls l q : Prop :=
  match ls, l with
  | [], [] => p = q
  | x :: ls, a :: l =>
      p = Some x /\ exists nx, h !! x = Some (mk_link_element a nx) /\ lseg h nx ls l q
  | _, _ => False
  end.

(** The slot reached after the cells [ls]. *)
Definition slot_after ls : t_slot :=
  match last ls with None => SHead | Some x => SNext x end.

(** The list holds [l1 ++ l2]; the cells of [l1] are [ls1], and those of [l2]
    are [ls2].  No other cell is allocated: nothing leaks. *)
Record split_at self ls1 l1 ls2 l2 : Prop := {
  sp_nodup : NoDup (ls1 ++ ls2);
  sp_left : lseg (heap self) (head self) ls1 l1 (hd_error ls2);
  sp_right : lseg (heap self) (hd_error ls2) ls2 l2 None;
  sp_dom : forall x, is_Some (heap self !! x) <-> x ∈ ls1 ++ ls2;
  sp_count : elements_count self = l_size (l1 ++ l2) }.

Definition repr self l : Prop := exists ls, split_at self [] [] ls l.

Lemma lseg_app h p ls1 l1 ls2 l2 q :
  length ls1 = length l1 ->
  lseg h p (ls1 ++ ls2) (l1 ++ l2) q <->
  exists m, lseg h p ls1 l1 m /\ lseg h m ls2 l2 q.
Proof.
  revert p l1. induction ls1 as [|x ls1 IH]; intros p [|a l1] Hl; try done; cbn.
  - naive_solver.
  - injection Hl as Hl. setoid_rewrite IH; [|done]. naive_solver.
Qed.

Lemma lseg_length h p ls l q : lseg h p ls l q -> length ls = length l.
Proof.
  revert p l. induction ls as [|x ls IH]; intros p [|a l]; cbn; try done.
  intros (_ & nx & _ & H). f_equal. by eapply IH.
Qed.

Lemma lseg_frame h h' p ls l q :
  (forall x, x ∈ ls -> h' !! x = h !! x) -> lseg h p ls l q -> lseg h' p ls l q.
Proof.
  revert p l. induction ls as [|x ls IH]; intros p [|a l] Hf; cbn; try done.
  intros (-> & nx & Hx & H). split; [done|]. exists nx. split.
  - rewrite Hf; [done|by left].
  - apply IH; [|done]. intros. apply Hf. by right.
Qed.

Lemma lseg_hd h p ls l : lseg h p ls l None -> p = hd_error ls.
Proof. destruct ls, l; cbn; naive_solver. Qed.

Lemma lseg_snoc_inv h p ls x l q :
  lseg h p (ls ++ [x]) l q ->
  exists l' a, l = l' ++ [a] /\ lseg h p ls l' (Some x) /\
               h !! x = Some (mk_link_element a q).
Proof.
  intros H. pose proof (lseg_length _ _ _ _ _ H) as Hl.
  destruct l as [|a l _] using rev_ind.
  { rewrite length_app in Hl. cbn in Hl. lia. }
  rewrite !length_app in Hl. cbn in Hl.
  apply lseg_app in H as (m & H1 & -> & nx & Hx & ->); [|lia]. eauto 10.
Qed.

Lemma slot_after_snoc ls x : slot_after (ls ++ [x]) = SNext x.
Proof. unfold slot_after. by rewrite last_snoc. Qed.

Lemma read_slot_after self ls l q :
  lseg (heap self) (head self) ls l q -> read_slot self (slot_after ls) = Ok q.
Proof.
  destruct ls as [|x ls _] using rev_ind; intros H.
  - destruct l; cbn in H; [by subst|done].
  - apply lseg_snoc_inv in H as (l' & a & -> & _ & Hx).
    rewrite slot_after_snoc. cbn. unfold cell. by rewrite Hx.
Qed.

Lemma write_slot_after self ls l q p :
  NoDup ls -> lseg (heap self) (head self) ls l q ->
  exists self', write_slot self (slot_after ls) p = Ok self' /\
    lseg (heap self') (head self') ls l p /\
    (forall x, x ∉ ls -> heap self' !! x = heap self !! x) /\
    (forall x, is_Some (heap self' !! x) <-> is_Some (heap self !! x)) /\
    elements_count self' = elements_count self.
Proof.
  destruct ls as [|x ls _] using rev_ind; intros Hnd H.
  - destruct l; [|done]. by eexists.
  - apply lseg_snoc_inv in H as (l' & a & -> & H & Hx).
    apply NoDup_app in Hnd as (Hnd & Hdis & _).
    rewrite slot_after_snoc. cbn. unfold cell. rewrite Hx. cbn [mbind res_bind].
    eexists. split_and!; [done| |..]; cbn [heap head].
    + apply lseg_app; [by eapply lseg_length|]. exists (Some x). split.
      * eapply lseg_frame; [|done]. intros y Hy. apply lookup_insert_ne.
        intros ->. apply (Hdis y Hy). by left.
      * cbn. split; [done|]. exists p. by rewrite lookup_insert_eq.
    + intros y Hy. apply lookup_insert_ne. intros ->. apply Hy. set_solver.
    + intros y. destruct (decide (y = x)) as [->|].
      * rewrite lookup_insert_eq, Hx. by split; eexists.
      * by rewrite lookup_insert_ne.
    + done.
Qed.

Lemma split_at_advance self ls1 l1 x ls2 a l2 :
  split_at self ls1 l1 (x :: ls2) (a :: l2) <->
  split_at self (ls1 ++ [x]) (l1 ++ [a]) ls2 l2.
Proof.
  split; intros [H1 H2 H3 H4 H5].
  - destruct H3 as (_ & nx & Hx & H3).
    pose proof (lseg_hd _ _ _ _ H3) as ->.
    constructor; try (by rewrite <- !app_assoc || done).
    + apply lseg_app; [by eapply lseg_length|]. exists (Some x). cbn. eauto.
  - apply lseg_snoc_inv in H2 as (l' & a' & E & H2 & Hx).
    apply app_inj_tail in E as [-> <-].
    constructor; try (by rewrite <- app_assoc in *); cbn; eauto.
Qed.

Lemma split_at_length self ls1 l1 ls2 l2 :
  split_at self ls1 l1 ls2 l2 -> length ls1 = length l1 /\ length ls2 = length l2.
Proof. intros []. split; by eapply lseg_length. Qed.

(** Any prefix of the elements gives a split. *)
Lemma repr_split self l1 l2 :
  repr self (l1 ++ l2) <-> exists ls1 ls2, split_at self ls1 l1 ls2 l2.
Proof.
  unfold repr. revert l2. induction l1 as [|a l1 IH] using rev_ind; intros l2.
  - split; [naive_solver|]. intros (ls1 & ls2 & H).
    pose proof (split_at_length _ _ _ _ _ H) as [Hl _].
    destruct ls1; [|done]. eauto.
  - rewrite <- app_assoc. cbn [app]. rewrite IH. split.
    + intros (ls1 & ls2 & H). pose proof (split_at_length _ _ _ _ _ H) as [_ Hl].
      destruct ls2 as [|x ls2]; [done|]. apply split_at_advance in H. eauto.
    + intros (ls1 & ls2 & H). pose proof (split_at_length _ _ _ _ _ H) as [Hl _].
      destruct ls1 as [|x ls1 _] using rev_ind.
      { rewrite length_app in Hl. cbn in Hl. lia. }
      apply split_at_advance in H. eauto.
Qed.

Lemma split_at_read self ls1 l1 ls2 l2 :
  split_at self ls1 l1 ls2 l2 ->
  read_slot self (slot_after ls1) = Ok (hd_error ls2).
Proof. intros []. by eapply read_slot_after. Qed.

Lemma split_at_cell self ls1 l1 x ls2 a l2 :
  split_at self ls1 l1 (x :: ls2) (a :: l2) ->
  cell self x = Ok (mk_link_element a (hd_error ls2)).
Proof.
  intros [_ _ (_ & nx & Hx & H) _ _]. unfold cell. rewrite Hx.
  by rewrite (lseg_hd _ _ _ _ H).
Qed.

(** ** Linking and unlinking at a slot *)

Lemma split_at_insert self ls1 l1 ls2 l2 a :
  split_at self ls1 l1 ls2 l2 -> l_size (l1 ++ l2) < INT_MAX ->
  let (x, self1) := list_create_element self a (hd_error ls2) in
  exists self2, write_slot self1 (slot_after ls1) (Some x) = Ok self2 /\
    elements_count self2 = elements_count self /\
    repr (set_count (fun n => s32 (n + 1)) self2) (l1 ++ a :: l2).
Proof.
  intros [Hnd Hl Hr Hd Hc] Hb. unfold list_create_element.
  set (x := fresh _).
  assert (heap self !! x = None) as Hx.
  { apply not_elem_of_dom. apply is_fresh. }
  assert (x ∉ ls1 ++ ls2) as Hxn by (intros Hin%Hd; rewrite Hx in Hin; by destruct Hin).
  set (self1 := mk_list _ _ _).
  pose proof Hnd as (Hnd1 & Hdis & Hnd2)%NoDup_app.
  destruct (write_slot_after self1 ls1 l1 (hd_error ls2) (Some x) Hnd1)
    as (self2 & Hw & Hl2 & Hf & Hdom & Hcnt).
  { eapply lseg_frame; [|done]. intros y Hy. cbn. apply lookup_insert_ne.
    intros ->. set_solver. }
  exists self2. split_and!; [done..|]. apply repr_split. exists ls1, (x :: ls2).
  constructor; cbn [set_count heap head elements_count].
  - apply NoDup_app. split_and!; [done| |apply NoDup_cons; set_solver].
    intros y Hy [->|Hy2]%elem_of_cons; [set_solver|by apply (Hdis y)].
  - done.
  - cbn. split; [done|]. exists (hd_error ls2). split.
    + rewrite Hf by set_solver. cbn. by rewrite lookup_insert_eq.
    + eapply lseg_frame; [|done]. intros y Hy. rewrite Hf.
      * cbn. apply lookup_insert_ne. intros ->. set_solver.
      * intros Hy1. by apply (Hdis y).
  - intros y. rewrite Hdom. cbn [heap self1]. rewrite lookup_insert_is_Some, Hd.
    rewrite !elem_of_app, elem_of_cons. destruct (decide (x = y)); naive_solver.
  - rewrite Hcnt. cbn [elements_count self1]. rewrite Hc.
    unfold l_size in *. rewrite !length_app in *. cbn [length]. cint. lia.
Qed.

Lemma split_at_unlink self ls1 l1 ls2 l2 a :
  split_at self ls1 l1 ls2 (a :: l2) -> l_size (l1 ++ a :: l2) <= INT_MAX ->
  exists self' ls2', unlink self (slot_after ls1) = Ok (a, self') /\
    split_at self' ls1 l1 ls2' l2.
Proof.
  intros H Hb. destruct (split_at_length _ _ _ _ _ H) as [_ Hlen].
  destruct ls2 as [|x ls2]; [done|]. unfold unlink.
  rewrite (split_at_read _ _ _ _ _ H). cbn [mbind res_bind deref hd_error].
  rewrite (split_at_cell _ _ _ _ _ _ _ H). cbn [mbind res_bind].
  destruct H as [Hnd Hl Hr Hd Hc].
  pose proof Hnd as (Hnd1 & Hdis & [Hx Hnd2]%NoDup_cons)%NoDup_app.
  destruct (write_slot_after self ls1 l1 _ (hd_error ls2) Hnd1 Hl)
    as (self2 & Hw & Hl2 & Hf & Hdom & Hcnt).
  cbn [data next]. rewrite Hw. cbn [mbind res_bind].
  eexists _, ls2. split; [done|].
  constructor; cbn [set_count free_cell heap head elements_count].
  - apply NoDup_app. split_and!; [done|set_solver|done].
  - eapply lseg_frame; [|done]. intros y Hy. apply lookup_delete_ne.
    intros <-. apply (Hdis x Hy). by left.
  - destruct Hr as (_ & nx & _ & Hr). rewrite (lseg_hd _ _ _ _ Hr) in Hr.
    eapply lseg_frame; [|done]. intros y Hy. rewrite lookup_delete_ne by set_solver.
    apply Hf. intros Hy1. apply (Hdis y Hy1). by right.
  - intros y. rewrite lookup_delete_is_Some, Hdom, Hd.
    rewrite !elem_of_app, elem_of_cons.
    assert (x ∉ ls1) by (intros Hin; apply (Hdis x Hin); by left).
    destruct (decide (x = y)); naive_solver.
  - rewrite Hcnt, Hc. unfold l_size in *. rewrite !length_app in *.
    cbn [length] in *. cint. lia.
Qed.

Lemma get_slot_loop_spec n self ls1 l1 ls2 l2 :
  split_at self ls1 l1 ls2 l2 ->
  exists ls1' ls2', get_slot_loop self n (slot_after ls1) = Ok (slot_after ls1') /\
    split_at self ls1' (l1 ++ take n l2) ls2' (drop n l2).
Proof.
  revert ls1 l1 ls2 l2. induction n as [|n IH]; intros ls1 l1 ls2 l2 H.
  - exists ls1, ls2. by rewrite take_0, app_nil_r.
  - cbn [get_slot_loop]. rewrite (split_at_read _ _ _ _ _ H).
    cbn [mbind res_bind].
    destruct (split_at_length _ _ _ _ _ H) as [_ Hl].
    destruct ls2 as [|x ls2], l2 as [|a l2]; try done; cbn [hd_error].
    + exists ls1, []. by rewrite app_nil_r.
    + rewrite <- (slot_after_snoc ls1 x). apply split_at_advance in H.
      destruct (IH _ _ _ _ H) as (ls1' & ls2' & -> & H').
      rewrite <- app_assoc in H'. eauto.
Qed.

(** The slot of an index, as a split of the list there. *)
Lemma list_get_slot_spec self l (i : Z) :
  repr self l ->
  exists ls1 ls2, list_get_slot self i = Ok (slot_after ls1) /\
    split_at self ls1 (take (Z.to_nat i) l) ls2 (drop (Z.to_nat i) l).
Proof.
  intros (ls & H). by apply (get_slot_loop_spec (Z.to_nat i)) in H.
Qed.

Lemma repr_count self l : repr self l -> elements_count self = l_size l.
Proof. by intros (ls & []). Qed.

Lemma repr_size self l : repr self l -> size (heap self) = length l.
Proof.
  intros (ls & H). destruct (split_at_length _ _ _ _ _ H) as [_ <-].
  destruct H as [Hnd _ _ Hd _]. cbn in *.
  rewrite <- size_dom, <- (size_list_to_set (C:=gset loc) ls) by done.
  f_equal. apply set_eq. intros x.
  by rewrite elem_of_dom, Hd, elem_of_list_to_set.
Qed.
End representation.

(** ** The operations implement lists *)

Section refinement.
Context {A : Type}.
Implicit Types (self : t_list A) (l : list A).

Lemma list_create_repr : repr (@list_create A) [].
Proof.
  exists []. constructor; cbn; try done; [constructor|].
  intros x. rewrite lookup_empty. split; [by intros []|set_solver].
Qed.

Lemma list_add_ok self l x :
  repr self l -> l_size l < INT_MAX ->
  exists self', list_add self x = Ok (l_size l, self') /\ repr self' (l ++ [x]).
Proof.
  intros H Hb. unfold list_add. pose proof (repr_count _ _ H) as Hc.
  destruct (list_get_slot_spec self l (elements_count self) H)
    as (ls1 & ls2 & -> & Hs). cbn [mbind res_bind].
  rewrite Hc in Hs. unfold l_size in Hs. rewrite Nat2Z.id in Hs.
  rewrite take_ge, drop_ge in Hs by lia.
  destruct (split_at_length _ _ _ _ _ Hs) as [_ Hl2].
  destruct ls2; [|done].
  pose proof (split_at_insert _ _ _ _ _ x Hs) as Hi.
  rewrite app_nil_r in Hi. specialize (Hi Hb). cbn [hd_error] in Hi.
  destruct (list_create_element self x None) as [y self1] eqn:E.
  destruct Hi as (self2 & -> & Hc2 & Hr). cbn [mbind res_bind].
  rewrite Hc2, Hc. by eexists.
Qed.

Lemma sorted_slot_ok cmp x self fuel i ls1 l1 ls2 l2 :
  split_at self ls1 l1 ls2 l2 -> (length l2 < fuel)%nat ->
  0 <= i -> i + l_size l2 <= INT_MAX ->
  exists ls1' ls2' m1 m2,
    sorted_slot cmp x self fuel (slot_after ls1) i
    = Ok (slot_after ls1', i + l_insert_pos cmp x l2) /\
    split_at self ls1' (l1 ++ m1) ls2' m2 /\
    l2 = m1 ++ m2 /\ l_insert cmp x l2 = m1 ++ x :: m2.
Proof.
  revert i ls1 l1 ls2 l2. induction fuel as [|fuel IH]; intros i ls1 l1 ls2 l2 H Hf Hi Hb;
    [lia|]. unfold l_size in *.
  cbn [sorted_slot]. rewrite (split_at_read _ _ _ _ _ H). cbn [mbind res_bind].
  destruct (split_at_length _ _ _ _ _ H) as [_ Hl].
  destruct ls2 as [|y ls2], l2 as [|a l2]; try done; cbn [hd_error].
  - exists ls1, [], [], []. rewrite app_nil_r. cbn. by rewrite Z.add_0_r.
  - rewrite (split_at_cell _ _ _ _ _ _ _ H). cbn [mbind res_bind data].
    cbn [l_insert l_insert_pos]. destruct (cmp x a).
    + exists ls1, (y :: ls2), [], (a :: l2).
      rewrite app_nil_r, Z.add_0_r. done.
    + cbn [length] in *. rewrite <- (slot_after_snoc ls1 y). cint.
      apply split_at_advance in H.
      destruct (IH (i + 1) _ _ _ _ H) as (ls1' & ls2' & m1 & m2 & -> & Hs & -> & ->);
        [lia..|].
      exists ls1', ls2', (a :: m1), m2. rewrite <- app_assoc in Hs.
      rewrite <- Z.add_assoc. done.
Qed.

Lemma list_add_sorted_ok self l x cmp :
  repr self l -> l_size l < INT_MAX ->
  exists self', list_add_sorted self x cmp = Ok (l_insert_pos cmp x l, self') /\
    repr self' (l_insert cmp x l).
Proof.
  intros H Hb. pose proof H as (ls & Hs). unfold list_add_sorted.
  destruct (sorted_slot_ok cmp x self (S (size (heap self))) 0 [] [] ls l)
    as (ls1 & ls2 & m1 & m2 & E & Hs' & -> & ->);
    [done|by rewrite (repr_size _ _ H); lia|lia|lia|].
  change (slot_after []) with SHead in E. rewrite E. cbn [mbind res_bind].
  rewrite (split_at_read _ _ _ _ _ Hs'). cbn [mbind res_bind app].
  pose proof (split_at_insert _ _ _ _ _ x Hs' Hb) as Hi.
  destruct (list_create_element self x (hd_error ls2)) as [y self1].
  destruct Hi as (self2 & -> & _ & Hr). cbn [mbind res_bind]. by eexists.
Qed.

Lemma l_get_in l i x :
  l_get l i = Some x -> take (Z.to_nat i) l ++ x :: drop (S (Z.to_nat i)) l = l /\
    drop (Z.to_nat i) l = x :: drop (S (Z.to_nat i)) l.
Proof.
  intros [Hi Hx]%l_get_Some. rewrite (drop_S _ _ _ Hx).
  split; [|done]. by rewrite take_drop_middle.
Qed.

Lemma list_get_ok self l i : repr self l -> list_get self i = Ok (l_get l i).
Proof.
  intros H. unfold list_get. rewrite (repr_count _ _ H). case_decide as Hi.
  - by rewrite l_get_out.
  - destruct (list_get_slot_spec self l i H) as (ls1 & ls2 & -> & Hs).
    cbn [mbind res_bind]. rewrite (split_at_read _ _ _ _ _ Hs).
    cbn [mbind res_bind].
    destruct (l_get_range l i) as [_ [x Hx]]; [lia|].
    destruct (l_get_in _ _ _ Hx) as [_ E]. rewrite E in Hs.
    destruct (split_at_length _ _ _ _ _ Hs) as [_ Hl]. destruct ls2; [done|].
    cbn [hd_error deref mbind res_bind].
    rewrite (split_at_cell _ _ _ _ _ _ _ Hs). cbn. by rewrite Hx.
Qed.

Lemma list_remove_ok self l i :
  repr self l -> l_size l <= INT_MAX ->
  exists self', list_remove self i = Ok (l_get l i, self') /\
    repr self' (l_remove l i).
Proof.
  intros H Hb. unfold list_remove. rewrite (repr_count _ _ H). case_decide as Hi.
  - rewrite l_get_out by done. exists self. split; [done|].
    unfold l_remove, l_size in *. case_decide; [|done].
    by rewrite delete_take_drop, take_ge, drop_ge, app_nil_r by lia.
  - destruct (list_get_slot_spec self l i H) as (ls1 & ls2 & -> & Hs).
    cbn [mbind res_bind].
    destruct (l_get_range l i) as [_ [x Hx]]; [lia|].
    destruct (l_get_in _ _ _ Hx) as [E E']. rewrite E' in Hs.
    destruct (split_at_unlink _ _ _ _ _ _ Hs) as (self' & ls2' & -> & Hr);
      [by rewrite E|].
    cbn [mbind res_bind]. rewrite Hx. eexists. split; [done|].
    assert (repr self' (take (Z.to_nat i) l ++ drop (S (Z.to_nat i)) l)) as Hr'
      by (apply repr_split; eauto).
    unfold l_remove. rewrite decide_True by lia. by rewrite delete_take_drop.
Qed.

Lemma remove_element_loop_ok same self fuel ls1 l1 ls2 l2 :
  split_at self ls1 l1 ls2 l2 -> (length l2 < fuel)%nat ->
  l_size (l1 ++ l2) <= INT_MAX ->
  exists self', remove_element_loop same self fuel (slot_after ls1)
    = Ok (existsb same l2, self') /\ repr self' (l1 ++ l_remove_first same l2).
Proof.
  revert ls1 l1 ls2 l2. induction fuel as [|fuel IH]; intros ls1 l1 ls2 l2 H Hf Hb;
    [lia|].
  cbn [remove_element_loop]. rewrite (split_at_read _ _ _ _ _ H).
  cbn [mbind res_bind].
  destruct (split_at_length _ _ _ _ _ H) as [_ Hl].
  destruct ls2 as [|y ls2], l2 as [|a l2]; try done; cbn [hd_error].
  - exists self. split; [done|]. apply repr_split. eauto.
  - rewrite (split_at_cell _ _ _ _ _ _ _ H). cbn [mbind res_bind data].
    cbn [existsb l_remove_first]. destruct (same a).
    + destruct (split_at_unlink _ _ _ _ _ _ H Hb) as (self' & ls2' & -> & Hr).
      exists self'. split; [done|]. apply repr_split. eauto.
    + rewrite <- (slot_after_snoc ls1 y). apply split_at_advance in H.
      destruct (IH _ _ _ _ H) as (self' & -> & Hr);
        [cbn in *; lia|by rewrite <- app_assoc|].
      exists self'. by rewrite <- app_assoc in Hr.
Qed.

Lemma list_remove_element_ok self l same :
  repr self l -> l_size l <= INT_MAX ->
  exists self', list_remove_element self same = Ok (existsb same l, self') /\
    repr self' (l_remove_first same l).
Proof.
  intros H Hb. pose proof H as (ls & Hs). unfold list_remove_element.
  change SHead with (slot_after []).
  eapply remove_element_loop_ok in Hs; [exact Hs|rewrite (repr_size _ _ H); lia|done].
Qed.

(** C33: the linked list implements sequences.  On a list that represents [l]
    every operation terminates without touching memory it does not own, gives
    the result of the corresponding operation on [l], and leaves a list that
    represents the result; indices out of range return NULL. *)
Theorem list_refines self l :
  repr self l -> l_size l < INT_MAX ->
  (forall x, exists self', list_add self x = Ok (l_size l, self') /\
     repr self' (l ++ [x])) /\
  (forall x cmp, exists self',
     list_add_sorted self x cmp = Ok (l_insert_pos cmp x l, self') /\
     repr self' (l_insert cmp x l)) /\
  (forall i, list_get self i = Ok (l_get l i)) /\
  (forall i, exists self', list_remove self i = Ok (l_get l i, self') /\
     repr self' (l_remove l i)) /\
  (forall same, exists self',
     list_remove_element self same = Ok (existsb same l, self') /\
     repr self' (l_remove_first same l)) /\
  list_size self = l_size l /\ list_is_empty self = bool_decide (l = []).
Proof.
  intros H Hb. split_and!; intros.
  - by apply list_add_ok.
  - by apply list_add_sorted_ok.
  - by apply list_get_ok.
  - apply list_remove_ok; [done|lia].
  - apply list_remove_element_ok; [done|lia].
  - by apply repr_count.
  - unfold list_is_empty. rewrite (repr_count _ _ H). apply bool_decide_ext.
    unfold l_size. by destruct l.
Qed.

(** ** Visiting and destroying *)

Lemma iterate_loop_ok {W} (f : A -> W -> res W) self fuel p ls l st :
  lseg (heap self) p ls l None -> (length l < fuel)%nat ->
  list_iterate_loop f self fuel p st = each f l st.
Proof.
  revert p ls l st. induction fuel as [|fuel IH]; intros p ls l st H Hf; [lia|].
  destruct ls as [|x ls], l as [|a l]; try done; cbn in H.
  - by subst.
  - destruct H as (-> & nx & Hx & H). cbn. unfold cell. rewrite Hx.
    cbn [mbind res_bind data next]. destruct (f a st) as [st'|]; [|done].
    cbn [mbind res_bind]. apply (IH _ ls); [done|cbn in Hf; lia].
Qed.

Lemma list_iterate_ok {W} (f : A -> W -> res W) self l st :
  repr self l -> list_iterate self f st = each f l st.
Proof.
  intros H. pose proof H as (ls & Hs). apply (iterate_loop_ok _ _ _ _ ls).
  - pose proof (sp_right _ _ _ _ _ Hs) as Hr. by rewrite (sp_left _ _ _ _ _ Hs).
  - rewrite (repr_size _ _ H). lia.
Qed.

(** The loop frees the cells it visits and no other. *)
Lemma clean_loop_ok {W} (f : option (A -> W -> res W)) self fuel p ls l st :
  lseg (heap self) p ls l None -> NoDup ls -> (length l < fuel)%nat ->
  match each (call_destroyer f) l st with
  | Ok st' => exists self', list_clean_loop f self fuel p st = Ok (self', st') /\
      forall x, is_Some (heap self' !! x) <-> is_Some (heap self !! x) /\ x ∉ ls
  | Undef u => list_clean_loop f self fuel p st = Undef u
  end.
Proof.
  revert self p ls l st. induction fuel as [|fuel IH]; intros self p ls l st H Hnd Hf; [lia|].
  destruct ls as [|x ls], l as [|a l]; try done; cbn in H.
  - subst. cbn. exists self. split; [done|]. set_solver.
  - destruct H as (-> & nx & Hx & H). apply NoDup_cons in Hnd as [Hxl Hnd].
    cbn. unfold cell. rewrite Hx. cbn [mbind res_bind data next].
    destruct (call_destroyer f a st) as [st'|]; [|done]. cbn [mbind res_bind].
    specialize (IH (free_cell self x) nx ls l st'). cbn [length] in Hf.
    destruct (each (call_destroyer f) l st') as [st2|]; [|apply IH; [|done|lia]].
    2: eapply lseg_frame, H; intros y Hy; apply lookup_delete_ne; set_solver.
    destruct IH as (self' & E & Hd); [|done|lia|].
    { eapply lseg_frame, H. intros y Hy. apply lookup_delete_ne. set_solver. }
    exists self'. split; [done|]. intros y. rewrite Hd. cbn [heap free_cell].
    rewrite lookup_delete_is_Some, not_elem_of_cons. naive_solver.
Qed.

Lemma list_clean_ok {W} (f : option (A -> W -> res W)) self l st :
  repr self l ->
  list_clean self f st = st' ← each (call_destroyer f) l st; Ok (list_create, st').
Proof.
  intros H. pose proof H as (ls & [Hnd Hl Hr Hd Hc]). cbn in Hl. rewrite <- Hl in Hr.
  unfold list_clean. pose proof (clean_loop_ok f self (S (size (heap self))) _ ls l st Hr Hnd)
    as E. rewrite (repr_size _ _ H) in *. specialize (E ltac:(lia)).
  destruct (each _ l st) as [st'|]; [|by rewrite E].
  destruct E as (self' & -> & Hd'). cbn [mbind res_bind]. unfold list_create. do 3 f_equal.
  apply map_empty. intros x. apply eq_None_not_Some. rewrite Hd', Hd. naive_solver.
Qed.

(** Visiting a list calls the closure on every element once, in order; freeing
    it, with or without its elements, frees every cell it has and touches no
    other, calls the destroyer on every element once, in order, and fails only
    where the destroyer does. *)
Theorem list_destroy_frees {W} (f : A -> W -> res W) self l st :
  repr self l ->
  list_iterate self f st = each f l st /\
  list_destroy self st = Ok (∅, st) /\
  list_destroy_and_destroy_elements self f st = (st' ← each f l st; Ok (∅, st')).
Proof.
  intros H. split_and!.
  - by apply list_iterate_ok.
  - unfold list_destroy. rewrite (list_clean_ok _ _ l) by done.
    assert (each (call_destroyer None) l st = Ok st) as -> by (clear H; by induction l).
    done.
  - unfold list_destroy_and_destroy_elements. rewrite (list_clean_ok _ _ l) by done.
    change (each (call_destroyer (Some f)) l st) with (each f l st).
    by destruct (each f l st).
Qed.

Lemma list_remove_and_destroy_ok {W} (f : A -> W -> res W) self l i st :
  repr self l -> l_size l <= INT_MAX ->
  exists self', repr self' (l_remove l i) /\
    list_remove_and_destroy_element self i f st
    = match l_get l i with Some x => st' ← f x st; Ok (self', st') | None => Ok (self', st) end.
Proof.
  intros H Hb. destruct (list_remove_ok _ _ i H Hb) as (self' & E & Hr).
  exists self'. split; [done|]. unfold list_remove_and_destroy_element. by rewrite E.
Qed.

(** ** Iterators

    The loop every user of an iterator writes: visit the elements in order, and
    remove those that satisfy a test, the first only ([once]) or all. *)
Fixpoint iterator_remove_loop (test : A -> bool) (once : bool) self
    (it : t_list_iterator) (fuel : nat) : res (list A * t_list A) :=
  match fuel with
  | O => Undef OutOfFuel
  | S fuel =>
      has ← list_iterator_has_next self it;
      if negb has then Ok ([], self) else
      '(x, it) ← list_iterator_next self it;
      if test x then
        '(self, it) ← list_iterator_remove self it;
        if once then Ok ([x], self)
        else '(removed, self) ← iterator_remove_loop test once self it fuel;
             Ok (x :: removed, self)
      else iterator_remove_loop test once self it fuel
  end.

Definition reject (test : A -> bool) l : list A :=
  base.filter (fun x => test x = false) l.
Definition select (test : A -> bool) l : list A :=
  base.filter (fun x => test x = true) l.

(** The iterator stands between [l1], visited, and [l2], to visit. *)
Definition iterator_at self (it : t_list_iterator) l1 l2 : Prop :=
  exists ls1 ls2, split_at self ls1 l1 ls2 l2 /\ it_next it = slot_after ls1.

Lemma iterator_has_next_ok self it l1 l2 :
  iterator_at self it l1 l2 ->
  list_iterator_has_next self it = Ok (bool_decide (l2 ≠ [])).
Proof.
  intros (ls1 & ls2 & H & E). unfold list_iterator_has_next. rewrite E.
  rewrite (split_at_read _ _ _ _ _ H). cbn [mbind res_bind]. f_equal.
  destruct (split_at_length _ _ _ _ _ H) as [_ Hl].
  apply bool_decide_ext. by destruct ls2, l2.
Qed.

(** A step visits one element; it can be removed there, and the iterator then
    stands between its neighbours. *)
Lemma iterator_step self it l1 x l2 :
  iterator_at self it l1 (x :: l2) -> l_size (l1 ++ x :: l2) <= INT_MAX ->
  exists it', list_iterator_next self it = Ok (x, it') /\
    iterator_at self it' (l1 ++ [x]) l2 /\
    exists self' it'', list_iterator_remove self it' = Ok (self', it'') /\
      iterator_at self' it'' l1 l2.
Proof.
  intros (ls1 & ls2 & H & E) Hb. unfold list_iterator_next. rewrite E.
  rewrite (split_at_read _ _ _ _ _ H). cbn [mbind res_bind].
  destruct (split_at_length _ _ _ _ _ H) as [_ Hl].
  destruct ls2 as [|y ls2]; [done|]. cbn [hd_error advance deref mbind res_bind].
  rewrite (split_at_cell _ _ _ _ _ _ _ H). cbn [mbind res_bind data].
  eexists. split_and!; [done| |].
  - exists (ls1 ++ [y]), ls2. split; [by apply split_at_advance|].
    by rewrite slot_after_snoc.
  - unfold list_iterator_remove. cbn [it_current].
    destruct (split_at_unlink _ _ _ _ _ _ H Hb) as (self' & ls2' & -> & H').
    cbn [mbind res_bind]. do 2 eexists. split; [done|]. by exists ls1, ls2'.
Qed.

Lemma iterator_remove_all_ok test self it l1 l2 fuel :
  iterator_at self it l1 l2 -> l_size (l1 ++ l2) <= INT_MAX ->
  (length l2 < fuel)%nat ->
  exists self', iterator_remove_loop test false self it fuel
    = Ok (select test l2, self') /\ repr self' (l1 ++ reject test l2).
Proof.
  revert self it l1 l2. induction fuel as [|fuel IH]; intros self it l1 l2 H Hb Hf;
    [lia|].
  cbn [iterator_remove_loop]. rewrite (iterator_has_next_ok _ _ _ _ H).
  cbn [mbind res_bind]. destruct l2 as [|x l2].
  - exists self. split; [done|]. destruct H as (ls1 & ls2 & H & _).
    apply repr_split. eauto.
  - rewrite bool_decide_true by done. cbn [negb].
    destruct (iterator_step _ _ _ _ _ H Hb) as (it' & -> & H1 & self' & it'' & E & H2).
    cbn [mbind res_bind]. unfold select, reject. rewrite !filter_cons.
    unfold l_size in *. rewrite length_app in Hb. cbn [length] in *.
    destruct (test x) eqn:Et.
    + rewrite E. cbn [mbind res_bind].
      destruct (IH _ _ _ _ H2) as (self2 & -> & Hr); [rewrite length_app; lia|lia|].
      by exists self2.
    + destruct (IH _ _ _ _ H1) as (self2 & -> & Hr);
        [rewrite !length_app; cbn; lia|lia|].
      exists self2. rewrite <- app_assoc in Hr. done.
Qed.

Lemma iterator_remove_once_ok test self it l1 l2 fuel :
  iterator_at self it l1 l2 -> l_size (l1 ++ l2) <= INT_MAX ->
  (length l2 < fuel)%nat ->
  exists self', iterator_remove_loop test true self it fuel
    = Ok (option_list (l_find test l2), self') /\
    repr self' (l1 ++ l_remove_first test l2).
Proof.
  revert self it l1 l2. induction fuel as [|fuel IH]; intros self it l1 l2 H Hb Hf;
    [lia|].
  cbn [iterator_remove_loop]. rewrite (iterator_has_next_ok _ _ _ _ H).
  cbn [mbind res_bind]. destruct l2 as [|x l2].
  - exists self. split; [done|]. destruct H as (ls1 & ls2 & H & _).
    apply repr_split. eauto.
  - rewrite bool_decide_true by done. cbn [negb l_find l_remove_first].
    destruct (iterator_step _ _ _ _ _ H Hb) as (it' & -> & H1 & self' & it'' & E & H2).
    cbn [mbind res_bind].
    unfold l_size in *. rewrite length_app in Hb. cbn [length] in *.
    destruct (test x) eqn:Et.
    + rewrite E. cbn [mbind res_bind]. exists self'. split; [done|].
      destruct H2 as (ls1 & ls2 & H2 & _). apply repr_split. eauto.
    + destruct (IH _ _ _ _ H1) as (self2 & -> & Hr);
        [rewrite !length_app; cbn; lia|lia|].
      exists self2. rewrite <- app_assoc in Hr. done.
Qed.

(** walking a list with an iterator visits every element once, in order,
    also when elements are removed on the way: removing the first element that
    satisfies a test, or all of them, removes exactly those. *)
Theorem iterator_removal_refines self l (test : A -> bool) :
  repr self l -> l_size l <= INT_MAX ->
  (exists self', iterator_remove_loop test true self list_iterator_create
       (S (length l)) = Ok (option_list (l_find test l), self') /\
     repr self' (l_remove_first test l)) /\
  (exists self', iterator_remove_loop test false self list_iterator_create
       (S (length l)) = Ok (select test l, self') /\
     repr self' (reject test l)).
Proof.
  intros (ls & H) Hb.
  assert (iterator_at self list_iterator_create [] l) as Hi by (by exists [], ls).
  split.
  - eapply iterator_remove_once_ok in Hi; [exact Hi|done|lia].
  - eapply iterator_remove_all_ok in Hi; [exact Hi|done|lia].
Qed.
End refinement.

(** A one-element list in memory. *)
Definition singleton_list : t_list Z :=
  mk_list {[ 1%positive := mk_link_element 7 None ]} (Some 1%positive) 1.

Lemma singleton_list_repr : repr singleton_list [7].
Proof.
  exists [1%positive].
  constructor; [apply NoDup_singleton|done| | |done].
  - split; [done|]. by exists None.
  - intros x. cbn [app heap singleton_list].
    rewrite lookup_singleton_is_Some. set_solver.
Qed.

Lemma list_refines_witness :
  let self := singleton_list in
  (forall x, exists self', list_add self x = Ok (l_size [7], self') /\
     repr self' ([7] ++ [x])) /\
  (forall x cmp, exists self',
     list_add_sorted self x cmp = Ok (l_insert_pos cmp x [7], self') /\
     repr self' (l_insert cmp x [7])) /\
  (forall i, list_get self i = Ok (l_get [7] i)) /\
  (forall i, exists self', list_remove self i = Ok (l_get [7] i, self') /\
     repr self' (l_remove [7] i)) /\
  (forall same, exists self',
     list_remove_element self same = Ok (existsb same [7], self') /\
     repr self' (l_remove_first same [7])) /\
  list_size self = l_size [7] /\ list_is_empty self = bool_decide ([7] = []).
Proof.
  apply (list_refines singleton_list [7]); [apply singleton_list_repr|done].
Defined.

Lemma iterator_removal_refines_witness :
  (exists self', iterator_remove_loop (Z.eqb 7) true singleton_list
       list_iterator_create 2 = Ok (option_list (l_find (Z.eqb 7) [7]), self') /\
     repr self' (l_remove_first (Z.eqb 7) [7])) /\
  (exists self', iterator_remove_loop (Z.eqb 7) false singleton_list
       list_iterator_create 2 = Ok (select (Z.eqb 7) [7], self') /\
     repr self' (reject (Z.eqb 7) [7])).
Proof.
  apply (iterator_removal_refines singleton_list [7] (Z.eqb 7));
    [apply singleton_list_repr|done].
Defined.

Lemma list_destroy_frees_witness :
  list_iterate singleton_list (fun x st => Ok (x + st)) 1 = Ok 8 /\
  list_destroy singleton_list 1 = Ok (∅, 1) /\
  list_destroy_and_destroy_elements singleton_list (fun x st => Ok (x + st)) 1 = Ok (∅, 8).
Proof.
  apply (list_destroy_frees (fun x st => Ok (x + st)) singleton_list [7] 1).
  apply singleton_list_repr.
Defined.
