(* ===== verification/Bytes.v ===== *)
(** * Bytes: C strings and the memory image of integers

    The modules exchange raw memory: an [int] or a [uint32_t] is its four bytes
    in little-endian order, a string is its bytes up to and including the
    terminating NUL. *)

From Stdlib Require Import Strings.Byte Strings.String.
From S2P Require Import Prelude.

Definition byte_of_Z (z : Z) : byte :=
  match Byte.of_N (Z.to_N (z mod 256)) with
  | Some b => b
  | None => x00
  end.

Definition Z_of_byte (b : byte) : Z := Z.of_N (Byte.to_N b).

#[export] Instance byte_eq_dec : EqDecision byte.
Proof. intros x y. destruct (Byte.byte_eq_dec x y); [by left | by right]. Defined.

#[export] Instance byte_inhabited : Inhabited byte := populate x00.

Lemma Z_of_byte_range b : 0 <= Z_of_byte b < 256.
Proof. unfold Z_of_byte. pose proof (Byte.to_N_bounded b). lia. Qed.

Lemma byte_of_Z_of_byte b : byte_of_Z (Z_of_byte b) = b.
Proof.
  unfold byte_of_Z. rewrite Z.mod_small by apply Z_of_byte_range.
  unfold Z_of_byte. rewrite N2Z.id, Byte.of_to_N. done.
Qed.

Lemma Z_of_byte_of_Z z : Z_of_byte (byte_of_Z z) = z mod 256.
Proof.
  unfold byte_of_Z. pose proof (Z.mod_pos_bound z 256).
  destruct (Byte.of_N _) as [b|] eqn:E.
  - apply Byte.to_of_N in E. unfold Z_of_byte. rewrite E. lia.
  - apply Byte.of_N_None_iff in E. lia.
Qed.

(** ** Little-endian integers *)

Fixpoint le_encode (n : nat) (z : Z) : list byte :=
  match n with
  | O => []
  | S k => byte_of_Z z :: le_encode k (z / 256)
  end.

Fixpoint le_decode (bs : list byte) : Z :=
  match bs with
  | [] => 0
  | b :: r => Z_of_byte b + 256 * le_decode r
  end.

Lemma le_encode_length n z : length (le_encode n z) = n.
Proof. revert z. induction n; cbn; auto. Qed.

Lemma le_decode_range bs : 0 <= le_decode bs < 256 ^ Z.of_nat (length bs).
Proof.
  induction bs as [|b bs IH]; cbn [le_decode length]; [lia|].
  rewrite Nat2Z.inj_succ, Z.pow_succ_r by lia.
  pose proof (Z_of_byte_range b). lia.
Qed.

Lemma le_decode_encode n z : le_decode (le_encode n z) = z mod 256 ^ Z.of_nat n.
Proof.
  revert z. induction n as [|n IH]; intros z; cbn [le_encode le_decode].
  - by rewrite Z.mod_1_r.
  - rewrite IH, Z_of_byte_of_Z, Nat2Z.inj_succ, Z.pow_succ_r by lia.
    rewrite Z.rem_mul_r by lia. lia.
Qed.

Lemma le_encode_decode bs : le_encode (length bs) (le_decode bs) = bs.
Proof.
  induction bs as [|b bs IH]; cbn [le_encode le_decode length]; [done|].
  pose proof (Z_of_byte_range b). f_equal.
  - rewrite <- (byte_of_Z_of_byte b) at 2. unfold byte_of_Z.
    by rewrite (Z.mul_comm 256), Z_mod_plus_full.
  - rewrite Z.mul_comm, Z.div_add, Z.div_small, Z.add_0_l by lia. exact IH.
Qed.

(** [int] and [uint32_t] in memory. *)
Definition int_bytes (z : Z) : list byte := le_encode 4 z.
Definition bytes_u32 (bs : list byte) : Z := le_decode bs.
Definition bytes_int (bs : list byte) : Z := s32 (le_decode bs).

Lemma int_bytes_length z : length (int_bytes z) = 4%nat.
Proof. apply le_encode_length. Qed.

Lemma bytes_u32_int_bytes z : bytes_u32 (int_bytes z) = u32 z.
Proof. apply (le_decode_encode 4). Qed.

Lemma bytes_int_int_bytes z : bytes_int (int_bytes z) = s32 z.
Proof.
  unfold bytes_int, int_bytes. rewrite le_decode_encode. apply s32_u32.
Qed.

Lemma int_bytes_bytes_u32 bs : length bs = 4%nat -> int_bytes (bytes_u32 bs) = bs.
Proof. intros H. unfold int_bytes. rewrite <- H. apply le_encode_decode. Qed.

(** ** C strings *)

(** The bytes before the first NUL, and whether there is one. *)
Fixpoint c_str (bs : list byte) : option (list byte) :=
  match bs with
  | [] => None
  | b :: r => if decide (b = x00) then Some [] else (cons b) <$> c_str r
  end.

(** [strlen] and friends run past a buffer that holds no NUL. *)
Definition str_read (bs : list byte) : res (list byte) := at_index (c_str bs).

(** A string literal: its characters and the NUL. *)
Definition lit (s : string) : list byte := list_byte_of_string s ++ [x00].

Lemma c_str_app bs rest :
  x00 ∉ bs -> c_str (bs ++ x00 :: rest) = Some bs.
Proof.
  induction bs as [|b bs IH]; cbn; intros H; [done|].
  apply not_elem_of_cons in H as [? ?].
  rewrite decide_False by congruence. by rewrite IH.
Qed.

Lemma c_str_Some bs s :
  c_str bs = Some s <-> exists rest, bs = s ++ x00 :: rest /\ x00 ∉ s.
Proof.
  split.
  - revert s. induction bs as [|b bs IH]; cbn; intros s; [done|].
    case_decide; intros Hs.
    + simplify_eq. exists bs. split; [done | set_solver].
    + destruct (c_str bs) as [s'|] eqn:E; simplify_eq/=.
      destruct (IH s' eq_refl) as (rest & -> & ?).
      exists rest. split; [done|]. set_solver.
  - intros (rest & -> & ?). by apply c_str_app.
Qed.

(** ** Buffers received from a socket

    A byte that was never delivered has an indeterminate value: [None]. *)
Abbreviation buf := (list (option byte)).

Definition defined (b : buf) : res (list byte) :=
  match mapM id b with
  | Some bs => Ok bs
  | None => Undef Indeterminate
  end.

(** A buffer every byte of which was delivered. *)
Definition written (bs : list byte) : buf := Some <$> bs.

(** The NUL-terminated string at the start of a received buffer. *)
Definition c_text (b : buf) : res (list byte) := bs ← defined b; str_read bs.

Lemma defined_Some bs : defined (Some <$> bs) = Ok bs.
Proof.
  unfold defined. replace (mapM id (Some <$> bs)) with (Some bs); [done|].
  induction bs as [|b bs IH]; cbn; [done|]. by rewrite <- IH.
Qed.

Lemma defined_length b bs : defined b = Ok bs -> length bs = length b.
Proof.
  unfold defined. destruct (mapM id b) as [l|] eqn:E; [|done]. intros [= <-].
  apply mapM_Some_1, Forall2_length in E. done.
Qed.
