(* ===== verification/Msg.v ===== *)
(** * Msg: the wire protocol (utils/src/utils/msg.c, msg.h, sockets_linux.c)

    Every message is an [int] operation code followed by an [int] size and that
    many payload bytes.  A packet's payload is a sequence of elements, each an
    [int] size followed by the element's bytes.

    The operating system's [send] and [recv] are the two operations of the
    class [Transport]; everything above them is the repository's code. *)

From Stdlib Require Import Strings.Byte Strings.String.
From S2P Require Import Prelude Bytes.

(** ** Operation codes *)

Inductive t_op_code :=
  | OP_CODE_ERROR | OP_HANDSHAKE
  | OP_ID_CPU | OP_RESUME_PROCESS
  | OP_INTERRUPT | OP_NO_INTERRUPT
  | OP_CPU_CYCLE_OK | OP_SEG_FAULT
  | OP_SYSCALL_MUTEX_CREATE | OP_SYSCALL_MUTEX_LOCK
  | OP_SYSCALL_MUTEX_UNLOCK | OP_SYSCALL_MEM_ALLOC
  | OP_SYSCALL_MEM_FREE | OP_SYSCALL_SLEEP
  | OP_SYSCALL_STDOUT | OP_SYSCALL_STDIN
  | OP_SYSCALL_INIT_PROC | OP_SYSCALL_EXIT
  | OP_KERNEL_MEMORY_RUNNING | OP_NEW_PROCESS
  | OP_END_PROCESS | OP_CREATE_SEGMENT
  | OP_DELETE_SEGMENT | OP_REQUEST_FREE_MEMORY
  | OP_REQUEST_PROCESS_SIZE | OP_SUSPEND_PROCESS
  | OP_RESUME_SUSPENDED_PROCESS | OP_CAN_COMPACT
  | OP_KERNEL_SCHEDULER_SHUTDOWN | OP_PROCESS_STARTED
  | OP_FREE_MEMORY | OP_PROCESS_SIZE
  | OP_MEMORY_ALLOCATED | OP_MEMORY_FREED
  | OP_SEGMENT_SIZE_EXCEEDED | OP_NOT_ENOUGH_MEMORY
  | OP_COMPACTION_NEEDED | OP_COMPACTION_DONE
  | OP_SUSPENSION_OK | OP_SUSPENSION_FAILED
  | OP_RESUME_SUSPENSION_OK | OP_RESUME_SUSPENSION_FAILED
  | OP_NEW_MEMORY_STICK | OP_MEMORY_CORRUPTED
  | OP_IO_TYPE | OP_IO_STDIN_REQUEST
  | OP_IO_STDOUT_REQUEST | OP_IO_SLEEP_REQUEST
  | OP_STDIN_RESPONSE | OP_STDOUT_RESPONSE
  | OP_SLEEP_RESPONSE | OP_REQUEST_CONTEXT
  | OP_UPDATED_CONTEXT | OP_NEXT_INSTRUCTION
  | OP_UPDATED_SEGMENT_TABLE | OP_STICK_DISCONNECTED
  | OP_SEND_CONTEXT | OP_SEND_INSTRUCTION
  | OP_SEGMENT_TABLE | OP_MAX_SEGMENT_SIZE
  | OP_PACKET | OP_MEMORY_SIZE
  | OP_PORT | OP_MEMORY_STICK_READ
  | OP_MEMORY_STICK_WRITE | OP_MEMORY_STICK_READ_DONE
  | OP_MEMORY_STICK_WRITE_DONE | OP_INFO_SWAP
  | OP_DISK_WRITE | OP_DISK_READ
  | OP_DISK_WRITE_DONE | OP_DISK_READ_DONE.

#[export] Instance t_op_code_eq_dec : EqDecision t_op_code.
Proof. solve_decision. Defined.

(** The enumerators in declaration order: the position is the value. *)
Definition t_op_codes : list t_op_code :=
  [ OP_CODE_ERROR; OP_HANDSHAKE; OP_ID_CPU; OP_RESUME_PROCESS; OP_INTERRUPT;
    OP_NO_INTERRUPT; OP_CPU_CYCLE_OK; OP_SEG_FAULT; OP_SYSCALL_MUTEX_CREATE;
    OP_SYSCALL_MUTEX_LOCK; OP_SYSCALL_MUTEX_UNLOCK; OP_SYSCALL_MEM_ALLOC;
    OP_SYSCALL_MEM_FREE; OP_SYSCALL_SLEEP; OP_SYSCALL_STDOUT;
    OP_SYSCALL_STDIN; OP_SYSCALL_INIT_PROC; OP_SYSCALL_EXIT;
    OP_KERNEL_MEMORY_RUNNING; OP_NEW_PROCESS; OP_END_PROCESS;
    OP_CREATE_SEGMENT; OP_DELETE_SEGMENT; OP_REQUEST_FREE_MEMORY;
    OP_REQUEST_PROCESS_SIZE; OP_SUSPEND_PROCESS; OP_RESUME_SUSPENDED_PROCESS;
    OP_CAN_COMPACT; OP_KERNEL_SCHEDULER_SHUTDOWN; OP_PROCESS_STARTED;
    OP_FREE_MEMORY; OP_PROCESS_SIZE; OP_MEMORY_ALLOCATED; OP_MEMORY_FREED;
    OP_SEGMENT_SIZE_EXCEEDED; OP_NOT_ENOUGH_MEMORY; OP_COMPACTION_NEEDED;
    OP_COMPACTION_DONE; OP_SUSPENSION_OK; OP_SUSPENSION_FAILED;
    OP_RESUME_SUSPENSION_OK; OP_RESUME_SUSPENSION_FAILED; OP_NEW_MEMORY_STICK;
    OP_MEMORY_CORRUPTED; OP_IO_TYPE; OP_IO_STDIN_REQUEST;
    OP_IO_STDOUT_REQUEST; OP_IO_SLEEP_REQUEST; OP_STDIN_RESPONSE;
    OP_STDOUT_RESPONSE; OP_SLEEP_RESPONSE; OP_REQUEST_CONTEXT;
    OP_UPDATED_CONTEXT; OP_NEXT_INSTRUCTION; OP_UPDATED_SEGMENT_TABLE;
    OP_STICK_DISCONNECTED; OP_SEND_CONTEXT; OP_SEND_INSTRUCTION;
    OP_SEGMENT_TABLE; OP_MAX_SEGMENT_SIZE; OP_PACKET; OP_MEMORY_SIZE; OP_PORT;
    OP_MEMORY_STICK_READ; OP_MEMORY_STICK_WRITE; OP_MEMORY_STICK_READ_DONE;
    OP_MEMORY_STICK_WRITE_DONE; OP_INFO_SWAP; OP_DISK_WRITE; OP_DISK_READ;
    OP_DISK_WRITE_DONE; OP_DISK_READ_DONE ].

Definition op_value (op : t_op_code) : Z :=
  match op with
  | OP_CODE_ERROR => 0 | OP_HANDSHAKE => 1
  | OP_ID_CPU => 2 | OP_RESUME_PROCESS => 3
  | OP_INTERRUPT => 4 | OP_NO_INTERRUPT => 5
  | OP_CPU_CYCLE_OK => 6 | OP_SEG_FAULT => 7
  | OP_SYSCALL_MUTEX_CREATE => 8 | OP_SYSCALL_MUTEX_LOCK => 9
  | OP_SYSCALL_MUTEX_UNLOCK => 10 | OP_SYSCALL_MEM_ALLOC => 11
  | OP_SYSCALL_MEM_FREE => 12 | OP_SYSCALL_SLEEP => 13
  | OP_SYSCALL_STDOUT => 14 | OP_SYSCALL_STDIN => 15
  | OP_SYSCALL_INIT_PROC => 16 | OP_SYSCALL_EXIT => 17
  | OP_KERNEL_MEMORY_RUNNING => 18 | OP_NEW_PROCESS => 19
  | OP_END_PROCESS => 20 | OP_CREATE_SEGMENT => 21
  | OP_DELETE_SEGMENT => 22 | OP_REQUEST_FREE_MEMORY => 23
  | OP_REQUEST_PROCESS_SIZE => 24 | OP_SUSPEND_PROCESS => 25
  | OP_RESUME_SUSPENDED_PROCESS => 26 | OP_CAN_COMPACT => 27
  | OP_KERNEL_SCHEDULER_SHUTDOWN => 28 | OP_PROCESS_STARTED => 29
  | OP_FREE_MEMORY => 30 | OP_PROCESS_SIZE => 31
  | OP_MEMORY_ALLOCATED => 32 | OP_MEMORY_FREED => 33
  | OP_SEGMENT_SIZE_EXCEEDED => 34 | OP_NOT_ENOUGH_MEMORY => 35
  | OP_COMPACTION_NEEDED => 36 | OP_COMPACTION_DONE => 37
  | OP_SUSPENSION_OK => 38 | OP_SUSPENSION_FAILED => 39
  | OP_RESUME_SUSPENSION_OK => 40 | OP_RESUME_SUSPENSION_FAILED => 41
  | OP_NEW_MEMORY_STICK => 42 | OP_MEMORY_CORRUPTED => 43
  | OP_IO_TYPE => 44 | OP_IO_STDIN_REQUEST => 45
  | OP_IO_STDOUT_REQUEST => 46 | OP_IO_SLEEP_REQUEST => 47
  | OP_STDIN_RESPONSE => 48 | OP_STDOUT_RESPONSE => 49
  | OP_SLEEP_RESPONSE => 50 | OP_REQUEST_CONTEXT => 51
  | OP_UPDATED_CONTEXT => 52 | OP_NEXT_INSTRUCTION => 53
  | OP_UPDATED_SEGMENT_TABLE => 54 | OP_STICK_DISCONNECTED => 55
  | OP_SEND_CONTEXT => 56 | OP_SEND_INSTRUCTION => 57
  | OP_SEGMENT_TABLE => 58 | OP_MAX_SEGMENT_SIZE => 59
  | OP_PACKET => 60 | OP_MEMORY_SIZE => 61
  | OP_PORT => 62 | OP_MEMORY_STICK_READ => 63
  | OP_MEMORY_STICK_WRITE => 64 | OP_MEMORY_STICK_READ_DONE => 65
  | OP_MEMORY_STICK_WRITE_DONE => 66 | OP_INFO_SWAP => 67
  | OP_DISK_WRITE => 68 | OP_DISK_READ => 69
  | OP_DISK_WRITE_DONE => 70 | OP_DISK_READ_DONE => 71
  end.

(** The enumerator an [int] stands for, when it is one: a [switch]. *)
Definition op_of_value (z : Z) : option t_op_code := l_get t_op_codes z.

Lemma op_of_value_op_value op : op_of_value (op_value op) = Some op.
Proof. by destruct op. Qed.

Lemma op_value_of_value z op : op_of_value z = Some op -> op_value op = z.
Proof.
  unfold op_of_value. intros H.
  assert (Hr : 0 <= z < l_size t_op_codes) by (apply l_get_range; eauto).
  destruct (Z_of_nat_complete z) as [n ->]; [lia|].
  rewrite l_get_nat in H. revert H. clear. revert n.
  do 72 (intros [|n]; [intros H; injection H as <-; reflexivity | revert n]).
  intros n H. destruct n; discriminate H.
Qed.

Lemma op_value_inj op1 op2 : op_value op1 = op_value op2 -> op1 = op2.
Proof.
  intros H. apply (f_equal op_of_value) in H.
  rewrite !op_of_value_op_value in H. congruence.
Qed.

Lemma op_value_range op : 0 <= op_value op <= INT_MAX.
Proof. ints. destruct op; cbn; lia. Qed.

Inductive t_module_id :=
  | MID_KERNEL_SCHEDULER | MID_KERNEL_MEMORY | MID_CPU
  | MID_MEMORY_STICK | MID_SWAP | MID_IO | MID_MODULE_ID_ERROR.

#[export] Instance t_module_id_eq_dec : EqDecision t_module_id.
Proof. solve_decision. Defined.

(** [HANDSHAKE_MSG]; [None] is the index past its end. *)
Definition HANDSHAKE_MSG (id : t_module_id) : option string :=
  match id with
  | MID_KERNEL_SCHEDULER => Some "kernel_scheduler"
  | MID_KERNEL_MEMORY => Some "kernel_memory"
  | MID_CPU => Some "cpu"
  | MID_MEMORY_STICK => Some "memory_stick"
  | MID_SWAP => Some "swap"
  | MID_IO => Some "io"
  | MID_MODULE_ID_ERROR => None
  end%string.

(** ** Sockets *)

Class Transport (T : Type) := {
  (** [send(2)] of a whole buffer: what it returns, and the new state. *)
  os_send : list byte -> T -> Z * T;
  (** [recv(2)] with [MSG_WAITALL]: the bytes delivered, fewer than asked for
      only when the peer is gone. *)
  os_recv : nat -> T -> list byte * T;
  (** [shutdown(2)] in both directions. *)
  os_shutdown : T -> T;
}.

(** A [t_socket*]: NULL or closed ([None]), or open. *)
Abbreviation t_socket T := (option T).

Section sockets.
Context {T : Type} `{!Transport T}.
Implicit Types (s : t_socket T).

Definition socket_send (s : t_socket T) (data : list byte)
    : bool * t_socket T :=
  match s with
  | None => (false, None)
  | Some h => let (n, h') := os_send data h in (bool_decide (0 < n), Some h')
  end.

(** The bytes the caller's buffer holds afterwards: the delivered ones, then
    the ones never written. *)
Definition socket_receive (s : t_socket T) (size : nat)
    : bool * buf * t_socket T :=
  match s with
  | None => (false, replicate size None, None)
  | Some h =>
      let (bs, h') := os_recv size h in
      (bool_decide (0 < length bs)%nat,
       take size ((Some <$> bs) ++ replicate size None), Some h')
  end.

Definition socket_close (s : t_socket T) : t_socket T := None.

Definition socket_shutdown (s : t_socket T) : t_socket T := option_map os_shutdown s.

(** ** Receiving *)

Definition receive_op_code (s : t_socket T) : res (Z * t_socket T) :=
  let '(ok, b, s') := socket_receive s 4 in
  if ok then bs ← defined b; Ok (bytes_int bs, s')
  else Ok (op_value OP_CODE_ERROR, s').

(** The received buffer ([None] is NULL) and the out-parameter [size]. *)
Definition receive_buffer (s : t_socket T)
    : res (option buf * Z * t_socket T) :=
  let '(ok, b, s1) := socket_receive s 4 in
  if negb ok then Ok (None, 0, s1) else
  bs ← defined b;
  let size := bytes_int bs in
  if decide (size = 0) then Ok (None, 0, s1) else
  if decide (size < 0) then Undef OutOfBounds else
  let '(_, b, s2) := socket_receive s1 (Z.to_nat size) in
  Ok (Some b, size, s2).

Definition receive_string (s : t_socket T) : res (option buf * t_socket T) :=
  '(b, _, s') ← receive_buffer s; Ok (b, s').

(** ** Sending *)

(** [t_packet]: the operation code and the buffer's stream, whose length is
    the buffer's [size]. *)
Record t_packet := mk_packet { op_code : Z; stream : list byte }.

Definition create_packet (op : t_op_code) : t_packet :=
  mk_packet (op_value op) [].

Definition packet_append (p : t_packet) (value : list byte) : t_packet :=
  mk_packet (op_code p)
    (stream p ++ int_bytes (l_size value) ++ value).

Definition packet_append_string (p : t_packet) (value : list byte)
    : res t_packet :=
  v ← str_read value; Ok (packet_append p (v ++ [x00])).

(** The frame.  Its length, [bytes], is an [int] of the caller: a longer payload than
    [sendable] allows (see below) overflows it and [malloc] gets a negative size. *)
Definition serialize_packet (p : t_packet) : list byte :=
  int_bytes (op_code p) ++ int_bytes (l_size (stream p)) ++ stream p.

Definition send_packet (p : t_packet) (s : t_socket T)
    : bool * t_socket T :=
  socket_send s (serialize_packet p).

Definition send_buffer (op : t_op_code) (buffer : list byte) (s : t_socket T)
    : bool * t_socket T :=
  socket_send s (serialize_packet (mk_packet (op_value op) buffer)).

(** [send_string] copies [strlen(message) + 1] bytes. *)
Definition send_string (op : t_op_code) (message : list byte)
    (s : t_socket T) : res (bool * t_socket T) :=
  m ← str_read message;
  Ok (socket_send s (serialize_packet (mk_packet (op_value op) (m ++ [x00])))).

(** ** Handshakes *)

Definition handshake_msg_to_module_id (handshake_msg : list byte)
    : res t_module_id :=
  m ← str_read handshake_msg;
  let named id := bool_decide (Some m = list_byte_of_string <$> HANDSHAKE_MSG id) in
  Ok (if named MID_KERNEL_SCHEDULER then MID_KERNEL_SCHEDULER
      else if named MID_KERNEL_MEMORY then MID_KERNEL_MEMORY
      else if named MID_CPU then MID_CPU
      else if named MID_MEMORY_STICK then MID_MEMORY_STICK
      else if named MID_SWAP then MID_SWAP
      else if named MID_IO then MID_IO
      else MID_MODULE_ID_ERROR).

Definition send_handshake (id : t_module_id) (s : t_socket T)
    : res (bool * t_socket T) :=
  m ← at_index (HANDSHAKE_MSG id); send_string OP_HANDSHAKE (lit m) s.

Definition receive_handshake (s : t_socket T)
    : res (t_module_id * t_socket T) :=
  '(op, s1) ← receive_op_code s;
  if decide (op ≠ op_value OP_HANDSHAKE) then Ok (MID_MODULE_ID_ERROR, s1) else
  '(b, s2) ← receive_string s1;
  b ← deref b; m ← defined b;
  id ← handshake_msg_to_module_id m;
  Ok (id, s2).
End sockets.

(** ** Receiving packets *)

(** The loop of [receive_packet] over the part of the buffer at [offset] and
    beyond.  Each round consumes the four size bytes, so the buffer's length is
    enough fuel. *)
Fixpoint packet_elements (fuel : nat) (rest : buf) : res (list buf) :=
  match rest with
  | [] => Ok []
  | _ =>
    match fuel with
    | O => Undef OutOfFuel
    | S fuel =>
      if decide (length rest < 4)%nat then Undef OutOfBounds else
      sz ← defined (take 4 rest);
      let element_size := bytes_int sz in
      let rest := drop 4 rest in
      if decide (element_size = 0) then Ok [] else
      if decide (element_size < 0 \/ l_size rest < element_size)
      then Undef OutOfBounds else
      values ← packet_elements fuel (drop (Z.to_nat element_size) rest);
      Ok (take (Z.to_nat element_size) rest :: values)
    end
  end.

Definition receive_packet {T} `{!Transport T} (s : t_socket T)
    : res (list buf * t_socket T) :=
  '(buffer, size, s') ← receive_buffer s;
  values ← packet_elements (length (default [] buffer)) (default [] buffer);
  Ok (values, s').

(** ** A socket with a scripted peer

    [rx] is what the peer has sent and we have not read, [tx] what we have
    sent, [up] whether sends still succeed. *)
Record wire := mk_wire { rx : list byte; tx : list byte; up : bool }.

#[export] Instance wire_transport : Transport wire := {|
  os_send bs w :=
    if up w then (l_size bs, mk_wire (rx w) (tx w ++ bs) true) else (-1, w);
  os_recv n w := (take n (rx w), mk_wire (drop n (rx w)) (tx w) (up w));
  os_shutdown w := mk_wire [] (tx w) false;
|}.

(** A message as it travels. *)
Definition frame (op : t_op_code) (payload : list byte) : list byte :=
  serialize_packet (mk_packet (op_value op) payload).

#[global] Arguments frame : simpl never.

(** The payload of a packet with the given elements. *)
Definition elements (els : list (list byte)) : list byte :=
  concat ((fun v => int_bytes (l_size v) ++ v) <$> els).

(** What a message must satisfy to travel: C keeps the length of the frame,
    [size + 2 * sizeof(int)], in an [int]. *)
Definition sendable (payload : list byte) : Prop := l_size payload + 8 <= INT_MAX.

(** Sending a string literal sends its characters and the NUL. *)
Lemma send_string_lit {T} `{!Transport T} op str (s : t_socket T) :
  bool_decide (x00 ∈ list_byte_of_string str) = false ->
  send_string op (lit str) s = Ok (socket_send s (frame op (lit str))).
Proof.
  intros H%bool_decide_eq_false. unfold send_string, str_read, lit.
  by rewrite c_str_app.
Qed.

Lemma send_handshake_frame {T} `{!Transport T} id str (s : t_socket T) :
  HANDSHAKE_MSG id = Some str ->
  send_handshake id s = Ok (socket_send s (frame OP_HANDSHAKE (lit str))).
Proof.
  intros H. unfold send_handshake. rewrite H. cbn [at_index mbind res_bind].
  apply send_string_lit. destruct id; simplify_eq/=; reflexivity.
Qed.

(** [sends] replaces the sending of literals by what goes on the wire. *)
Ltac sends :=
  repeat (rewrite send_string_lit by reflexivity; cbn [mbind res_bind]).

(** A text that was sent with [send_string]. *)
Lemma send_string_text {T} `{!Transport T} op (m : list byte) (s : t_socket T) :
  x00 ∉ m -> send_string op (m ++ [x00]) s = Ok (socket_send s (frame op (m ++ [x00]))).
Proof. intros H. unfold send_string, str_read. by rewrite c_str_app. Qed.

Section wire_lemmas.
Implicit Types (w : wire) (bs payload rest : list byte).

Lemma wire_receive bs rest t u :
  bs <> [] ->
  socket_receive (Some (mk_wire (bs ++ rest) t u)) (length bs)
  = (true, Some <$> bs, Some (mk_wire rest t u)).
Proof.
  intros Hne. cbn. rewrite take_app_length, drop_app_length.
  rewrite take_app_le by (rewrite length_fmap; lia).
  rewrite take_ge by (rewrite length_fmap; lia).
  rewrite bool_decide_true; [done|]. destruct bs; [done|cbn; lia].
Qed.

Lemma wire_receive_4 bs rest t u :
  length bs = 4%nat ->
  socket_receive (Some (mk_wire (bs ++ rest) t u)) 4
  = (true, Some <$> bs, Some (mk_wire rest t u)).
Proof. intros H. rewrite <- H. apply wire_receive. by destruct bs. Qed.

Lemma wire_send bs r t :
  bs <> [] ->
  socket_send (Some (mk_wire r t true)) bs
  = (true, Some (mk_wire r (t ++ bs) true)).
Proof.
  intros. cbn. rewrite bool_decide_true; [done|].
  unfold l_size. destruct bs; [done|cbn; lia].
Qed.

Lemma wire_send_down bs r t :
  socket_send (Some (mk_wire r t false)) bs
  = (false, Some (mk_wire r t false)).
Proof. done. Qed.

Lemma serialize_packet_ne p : serialize_packet p <> [].
Proof. by destruct p. Qed.

Lemma receive_op_code_wire z rest t u :
  receive_op_code (Some (mk_wire (int_bytes z ++ rest) t u))
  = Ok (s32 z, Some (mk_wire rest t u)).
Proof.
  unfold receive_op_code. rewrite wire_receive_4 by apply int_bytes_length.
  rewrite defined_Some. cbn [mbind res_bind]. by rewrite bytes_int_int_bytes.
Qed.

Lemma receive_op_code_eof t u :
  receive_op_code (Some (mk_wire [] t u))
  = Ok (op_value OP_CODE_ERROR, Some (mk_wire [] t u)).
Proof. done. Qed.

Lemma receive_op_code_frame op payload rest t u :
  receive_op_code (Some (mk_wire (frame op payload ++ rest) t u))
  = Ok (op_value op,
        Some (mk_wire (int_bytes (l_size payload) ++ payload ++ rest) t u)).
Proof.
  unfold frame, serialize_packet. cbn [op_code stream].
  rewrite <- !app_assoc, receive_op_code_wire.
  by rewrite s32_id by (pose proof (op_value_range op); ints; lia).
Qed.

Lemma receive_buffer_wire payload rest t u :
  payload <> [] -> sendable payload ->
  receive_buffer
    (Some (mk_wire (int_bytes (l_size payload) ++ payload ++ rest) t u))
  = Ok (Some (Some <$> payload), l_size payload, Some (mk_wire rest t u)).
Proof.
  unfold sendable. intros Hne Hs. unfold receive_buffer.
  rewrite wire_receive_4 by apply int_bytes_length. cbn [negb].
  rewrite defined_Some. cbn [mbind res_bind].
  assert (0 < l_size payload) by (unfold l_size; destruct payload; cbn; [done|lia]).
  rewrite bytes_int_int_bytes. cint.
  rewrite !decide_False by lia.
  unfold l_size. rewrite Nat2Z.id, wire_receive by done. done.
Qed.

Lemma receive_buffer_wire_empty rest t u :
  receive_buffer (Some (mk_wire (int_bytes 0 ++ rest) t u))
  = Ok (None, 0, Some (mk_wire rest t u)).
Proof.
  unfold receive_buffer. rewrite wire_receive_4 by apply int_bytes_length.
  cbn [negb]. rewrite defined_Some. cbn [mbind res_bind].
  by rewrite bytes_int_int_bytes, s32_id by (ints; lia).
Qed.

Lemma packet_elements_cons fuel v rest :
  v <> [] -> sendable v ->
  packet_elements (S fuel) (Some <$> (int_bytes (l_size v) ++ v ++ rest))
  = values ← packet_elements fuel (Some <$> rest); Ok ((Some <$> v) :: values).
Proof.
  unfold sendable. intros Hne Hs.
  assert (0 < l_size v) by (unfold l_size; destruct v; cbn; [done|lia]).
  pose proof (int_bytes_length (l_size v)) as Hl.
  rewrite !fmap_app. set (h := Some <$> int_bytes _).
  assert (length h = 4%nat) as Hh by (subst h; by rewrite length_fmap).
  cbn [packet_elements].
  destruct (h ++ _) as [|x r] eqn:E; [destruct h; done|]. rewrite <- E.
  rewrite decide_False by (rewrite length_app; lia).
  rewrite take_app_length', drop_app_length' by done.
  subst h. rewrite defined_Some. cbn [mbind res_bind].
  rewrite bytes_int_int_bytes. cint.
  rewrite decide_False by lia.
  rewrite decide_False by (unfold l_size in *;
    rewrite length_app, !length_fmap; lia).
  unfold l_size. rewrite Nat2Z.id.
  rewrite take_app_length', drop_app_length' by (by rewrite length_fmap). done.
Qed.

(** A zero size ends the loop, whatever follows. *)
Lemma packet_elements_zero fuel rest :
  packet_elements (S fuel) (Some <$> (int_bytes 0 ++ rest)) = Ok [].
Proof.
  rewrite fmap_app. set (h := Some <$> int_bytes _).
  assert (length h = 4%nat) as Hh by done.
  cbn [packet_elements].
  destruct (h ++ _) as [|x r] eqn:E; [destruct h; done|]. rewrite <- E.
  rewrite decide_False by (rewrite length_app; lia).
  rewrite take_app_length' by done. done.
Qed.

Lemma packet_elements_parse els fuel :
  Forall (fun v => v <> [] /\ sendable v) els ->
  (length (elements els) <= fuel)%nat ->
  packet_elements fuel (Some <$> elements els)
  = Ok (written <$> els).
Proof.
  intros H. revert fuel. induction H as [|v els [Hne Hs] H IH]; intros fuel Hf.
  { by destruct fuel. }
  unfold elements in *. cbn [fmap list_fmap concat] in *.
  rewrite !length_app, int_bytes_length in Hf.
  destruct fuel as [|fuel]; [lia|].
  rewrite <- app_assoc, packet_elements_cons, IH by (done || lia). done.
Qed.

Lemma receive_packet_wire els rest t u :
  Forall (fun v => v <> [] /\ sendable v) els -> sendable (elements els) ->
  receive_packet
    (Some (mk_wire (int_bytes (l_size (elements els)) ++ elements els ++ rest)
                   t u))
  = Ok (written <$> els, Some (mk_wire rest t u)).
Proof.
  intros H Hs. unfold receive_packet.
  destruct (decide (elements els = [])) as [He|Hne].
  - rewrite He. cbn [app]. rewrite receive_buffer_wire_empty.
    destruct H as [|v els [Hne Hv] H]; [done|].
    destruct v; [done|]. discriminate He.
  - rewrite receive_buffer_wire by done.
    cbn [mbind res_bind default from_option id].

    rewrite packet_elements_parse; [done..|]. by rewrite length_fmap.
Qed.
Lemma receive_handshake_frame id str rest t u :
  HANDSHAKE_MSG id = Some str ->
  receive_handshake (Some (mk_wire (frame OP_HANDSHAKE (lit str) ++ rest) t u))
  = Ok (id, Some (mk_wire rest t u)).
Proof.
  intros H. unfold receive_handshake. rewrite receive_op_code_frame. cbn [mbind res_bind].
  rewrite decide_False by (intros E; by apply E). unfold receive_string.
  rewrite receive_buffer_wire; [|by destruct id; simplify_eq/=..].
  cbn [mbind res_bind deref]. rewrite defined_Some. cbn [mbind res_bind].
  by destruct id; simplify_eq/=.
Qed.

End wire_lemmas.

(** Receiving never runs out of fuel: every round consumes four bytes. *)
Lemma packet_elements_fuel fuel rest :
  (length rest <= fuel)%nat -> packet_elements fuel rest <> Undef OutOfFuel.
Proof.
  revert rest. induction fuel as [|fuel IH]; intros [|b rest] Hf; try done.
  { cbn in Hf. lia. }
  cbn [packet_elements]. set (l := b :: rest) in *.
  case_decide; [done|].
  unfold defined at 1. destruct (mapM id (take 4 l)); [|done].
  cbn [mbind res_bind]. case_decide; [done|]. case_decide; [done|].
  specialize (IH (drop (Z.to_nat (bytes_int l0)) (drop 4 l))).
  rewrite !length_drop in IH.
  destruct (packet_elements fuel _); [done|].
  cbn. intros [=->]. apply IH; [lia|done].
Qed.

(** ** Progress of receive loops

    [reads n w r]: a computation on a socket with [w] behind it either fails
    for another reason than fuel, or keeps the socket and consumes at least [n]
    bytes of what the peer sent. *)
Definition reads {X} (n : nat) (w : wire) (r : res (X * t_socket wire)) : Prop :=
  match r with
  | Ok (_, s) => exists w', s = Some w' /\ (length (rx w') + n <= length (rx w))%nat
  | Undef u => u <> OutOfFuel
  end.

Lemma reads_bind {X Y} n m w (r : res (X * t_socket wire))
    (f : X * t_socket wire -> res (Y * t_socket wire)) :
  reads n w r -> (forall x w', reads m w' (f (x, Some w'))) ->
  reads (n + m) w (mbind f r).
Proof.
  intros Hr Hf. destruct r as [[x s]|u]; [|done].
  destruct Hr as (w' & -> & Hw). cbn [mbind res_bind].
  specialize (Hf x w'). destruct (f _) as [[y s]|u]; [|done].
  destruct Hf as (w'' & -> & Hw'). exists w''. split; [done|lia].
Qed.

Lemma reads_bind_0 {X Y} w (r : res (X * t_socket wire))
    (f : X * t_socket wire -> res (Y * t_socket wire)) :
  reads 0 w r -> (forall x w', reads 0 w' (f (x, Some w'))) ->
  reads 0 w (mbind f r).
Proof. apply (reads_bind 0 0). Qed.

(** A step that does not touch the socket. *)
Lemma reads_pure {X Y} w (r : res X) (f : X -> res (Y * t_socket wire)) :
  (forall u, r = Undef u -> u <> OutOfFuel) ->
  (forall x, r = Ok x -> reads 0 w (f x)) -> reads 0 w (mbind f r).
Proof. intros Hr Hf. destruct r as [x|u]; cbn; [by apply Hf|by apply Hr]. Qed.

Lemma reads_ret {X} w (x : X) : reads 0 w (Ok (x, Some w)).
Proof. exists w. split; [done|lia]. Qed.

Lemma reads_weaken {X} n w (r : res (X * t_socket wire)) : reads n w r -> reads 0 w r.
Proof.
  destruct r as [[x s]|u]; cbn; [|done]. intros (w' & -> & H).
  exists w'. split; [done|lia].
Qed.

Lemma defined_not_fuel b u : defined b = Undef u -> u <> OutOfFuel.
Proof. unfold defined. destruct (mapM id b); [done|]. by intros [= <-]. Qed.

Lemma str_read_not_fuel b u : str_read b = Undef u -> u <> OutOfFuel.
Proof. unfold str_read. destruct (c_str b); [done|]. by intros [= <-]. Qed.

Lemma socket_receive_rx n w :
  exists ok b, socket_receive (Some w) n
    = (ok, b, Some (mk_wire (drop n (rx w)) (tx w) (up w))) /\
    (ok = true -> rx w <> []).
Proof.
  cbn. do 2 eexists. split; [done|]. intros H%bool_decide_eq_true.
  destruct (rx w); [|done]. rewrite take_nil in H. cbn in H. lia.
Qed.

Lemma receive_op_code_reads w :
  (exists z, receive_op_code (Some w)
     = Ok (z, Some (mk_wire (drop 4 (rx w)) (tx w) (up w))) /\
     (rx w = [] -> z = op_value OP_CODE_ERROR)) \/
  receive_op_code (Some w) = Undef Indeterminate.
Proof.
  unfold receive_op_code.
  destruct (socket_receive_rx 4 w) as (ok & b & -> & Hok).
  destruct ok; [|left; by eexists].
  unfold defined. destruct (mapM id b); [left|by right].
  eexists. split; [done|]. intros H. by destruct (Hok eq_refl).
Qed.

Lemma receive_buffer_reads w :
  reads 0 w (receive_buffer (Some w)).
Proof.
  unfold receive_buffer.
  destruct (socket_receive_rx 4 w) as (ok & b & -> & _).
  destruct ok; cbn [negb].
  - destruct (defined b) as [bs|u] eqn:E; [|by eapply defined_not_fuel].
    cbn [mbind res_bind]. case_decide; [|case_decide; [done|]].
    + eexists. split; [done|]. cbn. rewrite length_drop. lia.
    + cbn. eexists. split; [done|]. cbn. rewrite !length_drop. lia.
  - eexists. split; [done|]. cbn. rewrite length_drop. lia.
Qed.

Lemma receive_string_reads w : reads 0 w (receive_string (Some w)).
Proof.
  unfold receive_string. apply reads_bind_0; [apply receive_buffer_reads|].
  intros [b z] w'. apply reads_ret.
Qed.

Lemma receive_packet_reads w : reads 0 w (receive_packet (Some w)).
Proof.
  unfold receive_packet. apply reads_bind_0; [apply receive_buffer_reads|].
  intros [b z] w'. apply reads_pure; [|intros; apply reads_ret].
  intros u E ->. by eapply packet_elements_fuel in E.
Qed.

Lemma socket_send_reads bs w :
  exists ok w', socket_send (Some w) bs = (ok, Some w') /\ rx w' = rx w.
Proof. cbn. destruct (up w); do 2 eexists; split; done. Qed.

Lemma send_string_reads op m w : reads 0 w (send_string op m (Some w)).
Proof.
  unfold send_string. apply reads_pure; [apply str_read_not_fuel|]. intros x _.
  destruct (socket_send_reads (serialize_packet (mk_packet (op_value op) (x ++ [x00]))) w)
    as (ok & w' & -> & E).
  exists w'. rewrite E. split; [done|lia].
Qed.

(** A loop that reads an operation code each round, and stops on the code of a
    closed connection, runs at most as many rounds as there are bytes. *)
Lemma op_loop_step {X} w (f : Z * t_socket wire -> res (bool * X * t_socket wire)) :
  (forall z w', reads 0 w' (f (z, Some w'))) ->
  (forall w', exists x, f (op_value OP_CODE_ERROR, Some w') = Ok (false, x, Some w')) ->
  match (r ← receive_op_code (Some w); f r) with
  | Ok (true, _, s) => exists w', s = Some w' /\ (length (rx w') < length (rx w))%nat
  | Ok (false, _, _) => True
  | Undef u => u <> OutOfFuel
  end.
Proof.
  intros Hf He. destruct (receive_op_code_reads w) as [(z & -> & Hz)| ->]; [|done].
  cbn [mbind res_bind]. specialize (Hf z (mk_wire (drop 4 (rx w)) (tx w) (up w))).
  destruct (f _) as [[[b x] s]|u] eqn:E; [|done]. destruct b; [|done].
  destruct Hf as (w' & -> & H). exists w'. split; [done|].
  cbn [rx] in H. rewrite length_drop in H.
  destruct (rx w) eqn:Er; [|cbn [length] in *; lia].
  rewrite Hz in E by done. destruct (He (mk_wire (drop 4 []) (tx w) (up w))) as (y & Hy).
  rewrite Hy in E. done.
Qed.

(** The packet [packet_append] builds from a list of values. *)
Definition packet_of (op : t_op_code) (els : list (list byte)) : t_packet :=
  foldl packet_append (create_packet op) els.

Lemma packet_of_stream op els :
  packet_of op els = mk_packet (op_value op) (elements els).
Proof.
  unfold packet_of. cut (forall p, foldl packet_append p els
    = mk_packet (op_code p) (stream p ++ elements els)).
  { intros H. by rewrite H. }
  induction els as [|v els IH]; intros p; cbn [foldl].
  - unfold elements. cbn. rewrite app_nil_r. by destruct p.
  - rewrite IH. unfold packet_append. cbn [op_code stream].
    unfold elements. cbn [fmap list_fmap concat]. by rewrite <- !app_assoc.
Qed.

Lemma l_size_int_bytes z : l_size (int_bytes z) = 4.
Proof. unfold l_size. by rewrite int_bytes_length. Qed.

Lemma int_bytes_element z : int_bytes z ≠ [] /\ sendable (int_bytes z).
Proof. split; [done|]. unfold sendable, l_size. rewrite int_bytes_length. ints. lia. Qed.

Lemma elements_length els :
  l_size (elements els) = sum_with (fun v => 4 + l_size v) els.
Proof.
  unfold elements, l_size. induction els as [|v els IH]; [done|].
  cbn [fmap list_fmap concat sum_with]. rewrite !length_app, int_bytes_length. lia.
Qed.

(** The parts of a message that can be sent can be sent. *)
Lemma elements_sendable els :
  Forall (fun v => v ≠ []) els -> sendable (elements els) ->
  Forall (fun v => v ≠ [] /\ sendable v) els.
Proof.
  unfold sendable. rewrite elements_length, !Forall_forall. intros Hne Hs v Hv.
  split; [by apply Hne|].
  enough (4 + l_size v <= sum_with (fun v => 4 + l_size v) els) by lia.
  apply (sum_with_le_elem (fun v => 4 + l_size v)); [|done].
  apply Forall_forall. intros w _. unfold l_size. lia.
Qed.

Lemma frame_size op payload : l_size (frame op payload) = 8 + l_size payload.
Proof.
  unfold frame, serialize_packet, l_size. cbn [op_code stream].
  rewrite !length_app, !int_bytes_length. lia.
Qed.

(** What one side of a connection sends is what the other can read. *)
Definition peer_of (w : wire) : wire := mk_wire (tx w) [] true.

(** ** Properties *)

(** a message sent with [send_buffer] and read back with
    [receive_op_code] and [receive_buffer] arrives with the same operation code
    and the same payload, whatever follows it on the connection. *)
Theorem send_receive_buffer_roundtrip (op : t_op_code) (payload : list byte)
    (w : wire) :
  payload <> [] -> sendable payload -> up w = true -> tx w = [] ->
  exists w', send_buffer op payload (Some w) = (true, Some w') /\
    ('(z, s1) ← receive_op_code (Some (peer_of w'));
     '(b, size, s2) ← receive_buffer s1;
     Ok (z, b, size, s2))
    = Ok (op_value op, Some (Some <$> payload), l_size payload,
          Some (mk_wire [] [] true)).
Proof.
  intros Hne Hs Hup Htx. destruct w as [r t u]; cbn in Hup, Htx. subst.
  eexists. split; [apply wire_send, serialize_packet_ne|].
  unfold peer_of. cbn [tx app].
  change (serialize_packet _) with (frame op payload).
  rewrite <- (app_nil_r (frame op payload)), receive_op_code_frame.
  cbn [mbind res_bind]. by rewrite receive_buffer_wire.
Qed.

Lemma send_receive_buffer_roundtrip_witness :
  exists w', send_buffer OP_END_PROCESS (int_bytes 7) (Some (mk_wire [] [] true))
             = (true, Some w') /\
    ('(z, s1) ← receive_op_code (Some (peer_of w'));
     '(b, size, s2) ← receive_buffer s1;
     Ok (z, b, size, s2))
    = Ok (op_value OP_END_PROCESS, Some (Some <$> int_bytes 7),
          l_size (int_bytes 7), Some (mk_wire [] [] true)).
Proof.
  apply (send_receive_buffer_roundtrip OP_END_PROCESS (int_bytes 7)
           (mk_wire [] [] true)); vm_compute; try done.
Defined.

(** C38: a packet built with [packet_append], sent with [send_packet] and read
    with [receive_op_code] and [receive_packet] arrives as the same operation
    code and the same list of elements, and nothing is left to read, if no
    element is empty and the frame's length fits in an [int].  (An empty element
    ends the packet for the reader: [receive_packet_stops_at_empty_element].) *)
Theorem send_receive_packet_roundtrip (op : t_op_code) (els : list (list byte))
    (w : wire) :
  Forall (fun v => v <> [] /\ sendable v) els -> sendable (elements els) ->
  up w = true -> tx w = [] ->
  exists w', send_packet (packet_of op els) (Some w) = (true, Some w') /\
    ('(z, s1) ← receive_op_code (Some (peer_of w'));
     '(values, s2) ← receive_packet s1;
     Ok (z, values, s2))
    = Ok (op_value op, written <$> els,
          Some (mk_wire [] [] true)).
Proof.
  intros Hels Hs Hup Htx. destruct w as [r t u]; cbn in Hup, Htx. subst.
  rewrite packet_of_stream.
  eexists. split; [apply wire_send, serialize_packet_ne|].
  unfold peer_of. cbn [tx app].
  change (serialize_packet _) with (frame op (elements els)).
  rewrite <- (app_nil_r (frame op (elements els))), receive_op_code_frame.
  cbn [mbind res_bind]. by rewrite receive_packet_wire.
Qed.

Lemma send_receive_packet_roundtrip_witness :
  exists w', send_packet (packet_of OP_NEW_PROCESS [lit "a.prc"; int_bytes 3])
               (Some (mk_wire [] [] true)) = (true, Some w') /\
    ('(z, s1) ← receive_op_code (Some (peer_of w'));
     '(values, s2) ← receive_packet s1;
     Ok (z, values, s2))
    = Ok (op_value OP_NEW_PROCESS,
          written <$> [lit "a.prc"; int_bytes 3],
          Some (mk_wire [] [] true)).
Proof.
  apply (send_receive_packet_roundtrip OP_NEW_PROCESS
           [lit "a.prc"; int_bytes 3] (mk_wire [] [] true));
    [repeat constructor; vm_compute; done | vm_compute; done | done | done].
Defined.

(** an empty element ends [receive_packet]'s loop early: the elements after
    it are lost, so the round trip needs its hypothesis. *)
Theorem receive_packet_stops_at_empty_element (v : list byte)
    (els : list (list byte)) (rest : list byte) (t : list byte) (u : bool) :
  v <> [] -> sendable (elements (v :: [] :: els)) ->
  receive_packet
    (Some (mk_wire (int_bytes (l_size (elements (v :: [] :: els)))
                    ++ elements (v :: [] :: els) ++ rest) t u))
  = Ok ([Some <$> v], Some (mk_wire rest t u)).
Proof.
  intros Hne Hs. unfold receive_packet.
  assert (elements (v :: [] :: els) <> []) by (destruct v; done).
  rewrite receive_buffer_wire by done. cbn [mbind res_bind default from_option id].
  assert (elements (v :: [] :: els)
          = int_bytes (l_size v) ++ v ++ int_bytes 0 ++ elements els) as Ee.
  { unfold elements. cbn [fmap list_fmap concat]. by rewrite <- !app_assoc. }
  rewrite Ee in *. rewrite length_fmap.
  unfold sendable, l_size in Hs. rewrite !length_app, !int_bytes_length in Hs.
  assert (sendable v) by (unfold sendable, l_size; lia).
  rewrite !length_app, !int_bytes_length. cbn [Nat.add].
  rewrite packet_elements_cons by done.
  by rewrite !Nat.add_succ_r, packet_elements_zero.
Qed.

Lemma receive_packet_stops_at_empty_element_witness :
  receive_packet
    (Some (mk_wire (int_bytes (l_size (elements [int_bytes 5; []; int_bytes 9]))
                    ++ elements [int_bytes 5; []; int_bytes 9] ++ []) [] true))
  = Ok ([Some <$> int_bytes 5], Some (mk_wire [] [] true)).
Proof.
  apply (receive_packet_stops_at_empty_element (int_bytes 5) [int_bytes 9]
           [] [] true); vm_compute; done.
Defined.
