(* ===== verification/Text.v ===== *)
(** * Text: utils/src/utils/string.c, config.c and numbers in decimal

    A C string is kept as its bytes before the NUL.  Trimming, splitting, the
    configuration file's lines, and the decimal conversions of the C library
    the modules rely on. *)

From Stdlib Require Import Strings.Byte Strings.String.
From S2P Require Import Prelude Bytes.

Abbreviation text := (list byte).

(** A string literal as text. *)
Definition txt (s : string) : text := list_byte_of_string s.

#[export] Instance byte_countable : Countable byte.
Proof.
  apply (inj_countable' Z_of_byte byte_of_Z). apply byte_of_Z_of_byte.
Defined.

(** ** The C library on strings *)

Definition isspace (b : byte) : bool :=
  let z := Z_of_byte b in bool_decide (z = 32 \/ 9 <= z <= 13).

Definition isdigit (b : byte) : bool :=
  bool_decide (48 <= Z_of_byte b <= 57).

Definition tolower (b : byte) : byte :=
  if decide (65 <= Z_of_byte b <= 90) then byte_of_Z (Z_of_byte b + 32) else b.

Fixpoint drop_while {A} (p : A -> bool) (l : list A) : list A :=
  match l with
  | [] => []
  | x :: r => if p x then drop_while p r else l
  end.

Fixpoint take_while {A} (p : A -> bool) (l : list A) : list A :=
  match l with
  | [] => []
  | x :: r => if p x then x :: take_while p r else []
  end.

(** [strncmp(text, prefix, strlen(prefix)) == 0]. *)
Fixpoint starts_with (t prefix : text) {struct prefix} : bool :=
  match prefix, t with
  | [], _ => true
  | p :: ps, c :: cs => bool_decide (p = c) && starts_with cs ps
  | _, [] => false
  end.

(** [strstr]: what precedes the first match, and the text from the match on. *)
Fixpoint strstr (t sub : text) : option (text * text) :=
  if starts_with t sub then Some ([], t) else
  match t with
  | [] => None
  | c :: r => '(before, m) ← strstr r sub; Some (c :: before, m)
  end.

(** [strchr]: what precedes the first occurrence, and what follows it. *)
Fixpoint strchr (t : text) (c : byte) : option (text * text) :=
  match t with
  | [] => None
  | x :: r =>
      if decide (x = c) then Some ([], r)
      else '(before, after) ← strchr r c; Some (x :: before, after)
  end.

(** ** [atoi] and ["%u"] *)

Definition digits_value (ds : text) : Z :=
  foldl (fun n d => 10 * n + (Z_of_byte d - 48)) 0 ds.

(** Leading white space, an optional sign, digits; what follows is ignored. *)
Definition atoi (t : text) : res Z :=
  let t := drop_while isspace t in
  let '(sign, t) :=
    match t with
    | x2d :: r => (-1, r)
    | x2b :: r => (1, r)
    | _ => (1, t)
    end in
  let n := sign * digits_value (take_while isdigit t) in
  if decide (INT_MIN <= n <= INT_MAX) then Ok n else Undef Unrepresentable.

Definition digit (n : Z) : byte := byte_of_Z (48 + n mod 10).

Fixpoint print_digits (fuel : nat) (n : Z) (acc : text) : text :=
  match fuel with
  | O => acc
  | S k =>
      if decide (n < 10) then digit n :: acc
      else print_digits k (n / 10) (digit n :: acc)
  end.

(** ["%u"] of a [uint32_t]: at most ten digits. *)
Definition print_u32 (n : Z) : text := print_digits 10 (u32 n) [].

(** ** string.c *)

Definition string_is_empty (t : option text) : bool :=
  match t with None => true | Some t => bool_decide (t = []) end.

Definition string_starts_with (t prefix : text) : bool := starts_with t prefix.

Definition string_equals_ignore_case (a b : text) : bool :=
  bool_decide (tolower <$> a = tolower <$> b).

Definition drop_trailing (p : byte -> bool) (t : text) : text :=
  reverse (drop_while p (reverse t)).

Definition string_trim (t : text) : text :=
  drop_trailing isspace (drop_while isspace t).

(** The loop of [string_split] from [start]; an empty separator never leaves
    the loop. *)
Fixpoint split_loop (fuel : nat) (start separator : text) : res (list text) :=
  match fuel with
  | O => Undef OutOfFuel
  | S k =>
      match strstr start separator with
      | None => Ok [start]
      | Some (token, match_) =>
          rest ← split_loop k (drop (length separator) match_) separator;
          Ok (token :: rest)
      end
  end.

Definition string_split (t separator : text) : res (list text) :=
  split_loop (S (length t)) t separator.

Definition string_array_size {A} (array : list A) : Z := l_size array.

Definition string_get_string_as_array (t : option text) : res (list text) :=
  match t with
  | None => Ok []
  | Some t =>
      let len := l_size t in
      let inner_length := if decide (2 <= len) then len - 2 else 0 in
      if decide (inner_length = 0) then Ok []
      else
        values ← string_split (take (Z.to_nat inner_length) (drop 1 t)) [x2c];
        Ok (fmap (M:=list) string_trim values)
  end.

(** ** config.c *)

Definition t_properties := gmap text text.

Definition config_load_line (self : t_properties) (line : text) : t_properties :=
  let trimmed := string_trim line in
  if string_is_empty (Some trimmed) || string_starts_with trimmed (txt "#")
  then self else
  match strchr trimmed x3d with
  | None => self
  | Some (key, value) => <[string_trim key := string_trim value]> self
  end.

(** [config_create] on the lines of the file. *)
Definition config_load (lines : list text) : t_properties :=
  foldl config_load_line ∅ lines.

Definition config_get_string_value (self : t_properties) (key : text)
    : option text := self !! key.

Definition config_get_int_value (self : t_properties) (key : text) : res Z :=
  value ← deref (config_get_string_value self key); atoi value.

Definition config_get_array_value (self : t_properties) (key : text)
    : res (list text) :=
  string_get_string_as_array (config_get_string_value self key).

(** ** Trimming *)

Lemma drop_while_spec {A} (p : A -> bool) l :
  exists l1, l = l1 ++ drop_while p l /\ Forall (fun x => p x = true) l1 /\
    match drop_while p l with [] => True | x :: _ => p x = false end.
Proof.
  induction l as [|x l (l1 & E & H1 & H2)]; cbn; [by exists []|].
  destruct (p x) eqn:Ex; [|by exists []].
  exists (x :: l1). cbn. rewrite <- E. by auto.
Qed.

Lemma drop_trailing_spec (p : byte -> bool) l :
  exists l2, l = drop_trailing p l ++ l2 /\ Forall (fun x => p x = true) l2 /\
    match last (drop_trailing p l) with None => True | Some x => p x = false end.
Proof.
  unfold drop_trailing.
  destruct (drop_while_spec p (reverse l)) as (l1 & E & H1 & H2).
  exists (reverse l1). split_and!.
  - rewrite <- reverse_app, <- E. by rewrite reverse_involutive.
  - by apply Forall_reverse.
  - rewrite last_reverse. by destruct (drop_while p (reverse l)).
Qed.

(** No white space at either end. *)
Definition trimmed (t : text) : Prop :=
  match t with [] => True | x :: _ => isspace x = false end /\
  match last t with None => True | Some x => isspace x = false end.

Lemma string_trim_spec t :
  trimmed (string_trim t) /\
  exists t1 t2, t = t1 ++ string_trim t ++ t2 /\
    Forall (fun c => isspace c = true) (t1 ++ t2).
Proof.
  unfold string_trim.
  destruct (drop_while_spec isspace t) as (t1 & E1 & H1 & Hh).
  destruct (drop_trailing_spec isspace (drop_while isspace t)) as (t2 & E2 & H2 & Hl).
  split; [split; [|done]|].
  - destruct (drop_trailing _ _) as [|x r] eqn:E; [done|].
    by rewrite E2 in Hh.
  - exists t1, t2. rewrite <- E2. split; [done|]. by apply Forall_app.
Qed.

Lemma drop_while_id {A} (p : A -> bool) l :
  match l with [] => True | x :: _ => p x = false end -> drop_while p l = l.
Proof. destruct l as [|x l]; cbn; [done|]. by intros ->. Qed.

Lemma string_trim_id t : trimmed t -> string_trim t = t.
Proof.
  intros [Hh Hl]. unfold string_trim, drop_trailing.
  rewrite (drop_while_id isspace t) by done.
  rewrite drop_while_id; [apply reverse_involutive|].
  rewrite <- (reverse_involutive t), last_reverse in Hl.
  by destruct (reverse t).
Qed.

(** ** Splitting *)

Lemma starts_with_spec t prefix :
  starts_with t prefix = true <-> exists r, t = prefix ++ r.
Proof.
  revert t. induction prefix as [|p ps IH]; intros [|c cs]; cbn.
  - split; [by exists []|done].
  - split; [by eexists|done].
  - split; [done|]. by intros (r & ?).
  - rewrite andb_true_iff, bool_decide_eq_true, IH. split.
    + intros [-> (r & ->)]. by exists r.
    + intros (r & E). simplify_eq. eauto.
Qed.

Lemma strstr_Some t sub before m :
  strstr t sub = Some (before, m) ->
  t = before ++ m /\ exists r, m = sub ++ r.
Proof.
  revert before m. induction t as [|c t IH]; intros before m;
    cbn [strstr].
  - destruct (starts_with [] sub) eqn:E; [|done].
    intros [= <- <-]. split; [done|]. by apply starts_with_spec.
  - destruct (starts_with (c :: t) sub) eqn:E.
    + intros [= <- <-]. split; [done|]. by apply starts_with_spec.
    + destruct (strstr t sub) as [[b' m']|] eqn:Es; [|done].
      cbn. intros [= <- <-]. destruct (IH b' m' eq_refl) as [-> ?]. by split.
Qed.

(** The pieces, with the separator between them. *)
Fixpoint join (sep : text) (pieces : list text) : text :=
  match pieces with
  | [] => []
  | [p] => p
  | p :: r => p ++ sep ++ join sep r
  end.

Lemma join_cons sep p pieces :
  pieces ≠ [] -> join sep (p :: pieces) = p ++ sep ++ join sep pieces.
Proof. by destruct pieces. Qed.

Lemma split_loop_spec fuel t sep :
  sep ≠ [] -> (length t < fuel)%nat ->
  exists pieces, split_loop fuel t sep = Ok pieces /\ pieces ≠ [] /\
    join sep pieces = t.
Proof.
  intros Hsep. revert t. induction fuel as [|fuel IH]; intros t Hf; [lia|].
  cbn [split_loop]. destruct (strstr t sep) as [[token m]|] eqn:E.
  - apply strstr_Some in E as (-> & r & ->). rewrite drop_app_length.
    rewrite !length_app in Hf.
    destruct (IH r) as (ps & -> & Hne & Hj); [destruct sep; cbn in *; [done|lia]|].
    cbn [mbind res_bind]. eexists. split_and!; [done|done|].
    rewrite join_cons by done. by rewrite Hj.
  - by exists [t].
Qed.

Lemma strstr_char_none p c : c ∉ p -> strstr p [c] = None.
Proof.
  induction p as [|x p IH]; cbn; [done|]. intros [Hx Hp]%not_elem_of_cons.
  rewrite bool_decide_false by done. cbn. by rewrite IH.
Qed.

Lemma strstr_char p c r : c ∉ p -> strstr (p ++ c :: r) [c] = Some (p, c :: r).
Proof.
  induction p as [|x p IH]; cbn; [by rewrite bool_decide_true|].
  intros [Hx Hp]%not_elem_of_cons.
  rewrite bool_decide_false by done. cbn. by rewrite IH.
Qed.

Lemma split_loop_join c pieces fuel :
  pieces ≠ [] -> Forall (fun p => c ∉ p) pieces ->
  (length (join [c] pieces) < fuel)%nat ->
  split_loop fuel (join [c] pieces) [c] = Ok pieces.
Proof.
  intros Hne H. revert fuel. induction H as [|p ps Hp H IH]; intros fuel Hf; [done|].
  destruct fuel as [|fuel]; [lia|]. cbn [split_loop].
  destruct ps as [|p' ps]; [cbn; by rewrite strstr_char_none|].
  rewrite join_cons in * by done. cbn [app] in *.
  rewrite strstr_char by done. rewrite length_app in Hf. cbn in Hf.
  cbn [length drop]. rewrite IH by (done || cbn; lia). done.
Qed.

(** ** Decimal numbers *)

Definition digit_step (n : Z) (d : byte) : Z := 10 * n + (Z_of_byte d - 48).

Lemma Z_of_digit n : Z_of_byte (digit n) = 48 + n mod 10.
Proof.
  unfold digit. rewrite Z_of_byte_of_Z. pose proof (Z.mod_pos_bound n 10).
  rewrite Z.mod_small; lia.
Qed.

Lemma print_digits_value fuel n acc :
  (fuel ≠ 0)%nat -> 0 <= n < 10 ^ Z.of_nat fuel ->
  foldl digit_step 0 (print_digits fuel n acc) = foldl digit_step n acc.
Proof.
  revert n acc. induction fuel as [|fuel IH]; intros n acc Hf Hn; [done|].
  rewrite Nat2Z.inj_succ, Z.pow_succ_r in Hn by lia. cbn [print_digits].
  case_decide as Hd.
  - cbn [foldl]. f_equal. unfold digit_step. rewrite Z_of_digit, Z.mod_small; lia.
  - destruct (decide (fuel = 0%nat)) as [->|]; [cbn in Hn; lia|].
    rewrite IH; [|done|].
    + cbn [foldl]. f_equal. unfold digit_step. rewrite Z_of_digit.
      pose proof (Z.div_mod n 10). lia.
    + split; [apply Z.div_pos; lia|]. apply Z.div_lt_upper_bound; lia.
Qed.

Lemma isdigit_digit n : isdigit (digit n) = true.
Proof.
  unfold isdigit. rewrite Z_of_digit. apply bool_decide_true.
  pose proof (Z.mod_pos_bound n 10). lia.
Qed.

Lemma print_digits_isdigit fuel n acc :
  Forall (fun d => isdigit d = true) acc ->
  Forall (fun d => isdigit d = true) (print_digits fuel n acc).
Proof.
  revert n acc. induction fuel as [|fuel IH]; intros n acc H; [done|].
  cbn [print_digits].
  case_decide; [|apply IH]; constructor; auto using isdigit_digit.
Qed.

Lemma take_while_digits ds r :
  Forall (fun d => isdigit d = true) ds ->
  match r with [] => True | x :: _ => isdigit x = false end ->
  take_while isdigit (ds ++ r) = ds.
Proof.
  intros H Hr. induction H as [|d ds Hd H IH]; cbn.
  - destruct r as [|x r]; cbn; [done|]. by rewrite Hr.
  - by rewrite Hd, IH.
Qed.

Lemma print_u32_isdigit n : Forall (fun d => isdigit d = true) (print_u32 n).
Proof. by apply print_digits_isdigit. Qed.

(** A digit is neither white space nor a sign. *)
Lemma isdigit_not_special d :
  isdigit d = true -> isspace d = false /\ d ≠ x2d /\ d ≠ x2b.
Proof.
  unfold isdigit, isspace. rewrite bool_decide_eq_true, bool_decide_eq_false.
  intros H. split; [lia|]. split; intros ->; cbn in H; lia.
Qed.

Lemma atoi_digits d ds r :
  Forall (fun d => isdigit d = true) (d :: ds) ->
  match r with [] => True | x :: _ => isdigit x = false end ->
  atoi (d :: ds ++ r)
  = (let n := digits_value (d :: ds) in
     if decide (INT_MIN <= n <= INT_MAX) then Ok n else Undef Unrepresentable).
Proof.
  intros H Hr. pose proof (Forall_inv H) as Hd.
  apply isdigit_not_special in Hd as (Hs & Hm & Hp). unfold atoi.
  cbn [drop_while]. rewrite Hs.
  assert (match d with x2d => (-1, ds ++ r) | x2b => (1, ds ++ r)
          | _ => (1, d :: ds ++ r) end = (1, d :: ds ++ r)) as -> by (by destruct d).
  change (d :: ds ++ r) with ((d :: ds) ++ r).
  rewrite take_while_digits by done. by rewrite Z.mul_1_l.
Qed.

Lemma print_digits_ne fuel n acc :
  (fuel ≠ 0)%nat -> print_digits fuel n acc ≠ [].
Proof.
  revert n acc. induction fuel as [|fuel IH]; intros n acc H; [done|].
  cbn [print_digits]. case_decide; [done|]. destruct fuel; [done|]. by apply IH.
Qed.

Lemma print_digits_length fuel k n acc :
  (fuel ≠ 0)%nat -> 0 <= n < 10 ^ Z.of_nat (S k) ->
  (length (print_digits fuel n acc) <= S k + length acc)%nat.
Proof.
  revert k n acc. induction fuel as [|fuel IH]; intros k n acc Hf Hn; [done|].
  cbn [print_digits]. case_decide; [cbn; lia|].
  rewrite Nat2Z.inj_succ, Z.pow_succ_r in Hn by lia.
  destruct k as [|k]; [cbn in Hn; lia|].
  destruct fuel as [|fuel]; [cbn; lia|].
  specialize (IH k (n / 10) (digit n :: acc)). cbn [length] in IH.
  assert (0 <= n / 10 < 10 ^ Z.of_nat (S k)); [|lia].
  split; [apply Z.div_pos; lia|apply Z.div_lt_upper_bound; lia].
Qed.

(** ** Properties *)

(** [string_split] terminates for every text and non-empty separator, and
    joining the pieces with the separator gives the text back; for the
    one-character separators the modules use it is also the inverse of
    joining. *)
Theorem string_split_join (t sep : text) :
  sep ≠ [] ->
  (exists pieces, string_split t sep = Ok pieces /\ join sep pieces = t) /\
  (forall c pieces, sep = [c] -> pieces ≠ [] ->
     Forall (fun p => c ∉ p) pieces -> t = join [c] pieces ->
     string_split t sep = Ok pieces).
Proof.
  intros Hsep. unfold string_split. split.
  - destruct (split_loop_spec (S (length t)) t sep) as (ps & -> & _ & Hj);
      [done|lia|]. by exists ps.
  - intros c pieces -> Hne Hall ->. apply split_loop_join; done || lia.
Qed.

Lemma string_split_join_witness :
  (exists pieces, string_split (txt "SET AX 10") (txt " ") = Ok pieces /\
     join (txt " ") pieces = txt "SET AX 10") /\
  (forall c pieces, txt " " = [c] -> pieces ≠ [] ->
     Forall (fun p => c ∉ p) pieces -> txt "SET AX 10" = join [c] pieces ->
     string_split (txt "SET AX 10") (txt " ") = Ok pieces).
Proof. apply string_split_join. discriminate. Defined.

Example split_instruction :
  string_split (txt "SET AX 10") (txt " ") = Ok [txt "SET"; txt "AX"; txt "10"].
Proof. reflexivity. Qed.

(** a number printed in decimal, followed by anything that is not a digit,
    reads back as itself. *)
Theorem atoi_print_u32 (n : Z) (rest : text) :
  0 <= n <= INT_MAX ->
  match rest with [] => True | c :: _ => isdigit c = false end ->
  atoi (print_u32 n ++ rest) = Ok n.
Proof.
  intros Hn Hr. pose proof (print_u32_isdigit n) as Hd.
  assert (digits_value (print_u32 n) = n) as Hv.
  { unfold print_u32. cint. unfold digits_value. fold digit_step.
    rewrite print_digits_value; [done|done|]. ints. lia. }
  destruct (print_u32 n) as [|d ds] eqn:E.
  { by apply print_digits_ne in E. }
  cbn [app]. rewrite atoi_digits by done. cbv zeta. rewrite Hv.
  rewrite decide_True; [done|]. ints. lia.
Qed.

Lemma atoi_print_u32_witness : atoi (print_u32 4096 ++ txt " bytes") = Ok 4096.
Proof. apply atoi_print_u32; [ints; lia|reflexivity]. Defined.

Section configuration.
Implicit Types (a b c d k v : text).

Definition blank (t : text) : Prop := Forall (fun x => isspace x = true) t.

Lemma drop_while_all {A} (p : A -> bool) l l' :
  Forall (fun x => p x = true) l -> drop_while p (l ++ l') = drop_while p l'.
Proof. induction 1 as [|x l Hx Hl IH]; cbn; [done|]. by rewrite Hx. Qed.

Lemma string_trim_pad a k d :
  blank a -> blank d -> trimmed k -> string_trim (a ++ k ++ d) = k.
Proof.
  intros Ha Hd [Hh Hl]. unfold string_trim. rewrite drop_while_all by done.
  unfold drop_trailing. destruct k as [|x k].
  - cbn [app]. rewrite <- (app_nil_r d), drop_while_all by done. done.
  - cbn [app]. cbn [drop_while]. rewrite Hh.
    change (x :: k ++ d) with ((x :: k) ++ d). rewrite reverse_app.
    rewrite drop_while_all by (by apply Forall_reverse).
    rewrite drop_while_id; [apply reverse_involutive|].
    rewrite <- (reverse_involutive (x :: k)), last_reverse in Hl.
    by destruct (reverse (x :: k)).
Qed.

Lemma strchr_app t (c : byte) r : c ∉ t -> strchr (t ++ c :: r) c = Some (t, r).
Proof.
  induction t as [|x t IH]; cbn; [by rewrite decide_True|].
  intros [Hx Ht]%not_elem_of_cons.
  rewrite decide_False by congruence. by rewrite IH.
Qed.

Lemma blank_not_elem t (c : byte) : blank t -> isspace c = false -> c ∉ t.
Proof.
  intros H Hc Hin. unfold blank in H. rewrite Forall_forall in H.
  rewrite (H c Hin) in Hc. done.
Qed.

(** The line without its outer white space. *)
Lemma config_line_trim a k b c v d :
  blank a -> blank c -> blank d -> trimmed k -> trimmed v -> k ≠ [] ->
  exists w, string_trim (a ++ k ++ b ++ x3d :: c ++ v ++ d) = k ++ b ++ x3d :: w
            /\ string_trim w = v.
Proof.
  intros Ha Hc Hd Hk Hv Hne.
  exists (if decide (v = []) then [] else c ++ v). case_decide as Ev.
  - subst v. split; [|done]. cbn [app].
    replace (a ++ k ++ b ++ x3d :: c ++ d)
      with (a ++ (k ++ b ++ [x3d]) ++ (c ++ d)) by (by rewrite <- !app_assoc).
    apply string_trim_pad; [done|by apply Forall_app|].
    split; [destruct k as [|x k]; [done|apply Hk]|].
    by rewrite app_assoc, last_snoc.
  - split.
    + replace (a ++ k ++ b ++ x3d :: c ++ v ++ d)
        with (a ++ (k ++ b ++ x3d :: c ++ v) ++ d)
        by (rewrite <- !app_assoc; cbn; by rewrite <- !app_assoc).
      apply string_trim_pad; [done..|].
      split; [destruct k as [|x k]; [done|apply Hk]|].
      rewrite !app_assoc, app_comm_cons, app_assoc.
      destruct v as [|x v _] using rev_ind; [done|].
      rewrite app_assoc, last_snoc. destruct Hv as [_ Hv].
      by rewrite last_snoc in Hv.
    + rewrite <- (app_nil_r v) at 1.
      by apply string_trim_pad; [done|constructor|].
Qed.

(** a configuration line [key = value], with any white space around the key
    and the value, sets exactly that key; blank lines and comments change
    nothing. *)
Theorem config_load_line_spec (self : t_properties) a k b c v d :
  blank a -> blank b -> blank c -> blank d ->
  trimmed k -> trimmed v -> x3d ∉ k ->
  match k with [] => False | x :: _ => x ≠ x23 end ->
  config_load_line self (a ++ k ++ b ++ x3d :: c ++ v ++ d) = <[k := v]> self /\
  config_load_line self (a ++ d) = self /\
  config_load_line self (a ++ x23 :: k) = self.
Proof.
  intros Ha Hb Hc Hd Hk Hv Heq Hhash. split_and!.
  - destruct (config_line_trim a k b c v d) as (w & E & Hw);
      [done..|by destruct k|].
    unfold config_load_line. rewrite E.
    destruct k as [|x k]; [done|]. cbn [app string_is_empty].
    rewrite bool_decide_false by done. unfold string_starts_with.
    change (txt "#") with [x23]. cbn [starts_with orb].
    rewrite bool_decide_false by congruence. cbn [andb].
    change (x :: k ++ b ++ x3d :: w) with ((x :: k) ++ b ++ x3d :: w).
    rewrite app_assoc, strchr_app.
    + rewrite Hw. f_equal.
      by apply (string_trim_pad [] (x :: k) b); [constructor|..].
    + rewrite elem_of_app. intros [?|Hin]; [done|].
      by apply (blank_not_elem b x3d) in Hin.
  - unfold config_load_line. change (a ++ d) with (a ++ [] ++ d).
    by rewrite string_trim_pad.
  - unfold config_load_line, string_trim. rewrite drop_while_all by done.
    assert (drop_while isspace (x23 :: k) = x23 :: k) as -> by reflexivity.
    destruct (drop_trailing_spec isspace (x23 :: k)) as (l2 & E & H2 & _).
    destruct (drop_trailing isspace (x23 :: k)) as [|y r]; [done|].
    injection E as <- _. reflexivity.
Qed.

Lemma config_load_line_spec_witness :
  config_load_line ∅ (txt "  " ++ txt "LOG_LEVEL" ++ [] ++ x3d :: txt " "
                      ++ txt "INFO" ++ txt " ") = <[txt "LOG_LEVEL" := txt "INFO"]> ∅ /\
  config_load_line ∅ (txt "  " ++ txt " ") = ∅ /\
  config_load_line ∅ (txt "  " ++ x23 :: txt "LOG_LEVEL") = ∅.
Proof.
  apply config_load_line_spec;
    [by repeat constructor|constructor|by repeat constructor
    |by repeat constructor|done|done| |done].
  apply (bool_decide_unpack (x3d ∉ txt "LOG_LEVEL")). vm_compute. done.
Defined.
End configuration.
