(* ===== verification/Os.v ===== *)
(** * Os: utils/src/utils/sockets_linux.c, time_linux.c and
      kernel_scheduler/common/time.c

    The layer over the system calls.  What the system answers is a parameter;
    its state is the table of open handles.  The sockets of Msg.v, on which all
    the modules are built, are proved to be what this layer implements. *)

From Stdlib Require Import Strings.Byte Strings.String.
From S2P Require Import Prelude Bytes Text Msg.

(** ** Sockets *)

Definition INVALID_HANDLE : Z := -1.

(** The struct behind a [t_socket*]; its mutex has no data. *)
Record t_sock := mk_sock { handle : Z; has_mutex : bool }.

(** What a handle stands for: a connection, or a listening socket, which works
    if its address could be bound and listened to. *)
Inductive endpoint (T : Type) := Stream (t : T) | Listener (works : bool).
Arguments Stream {T} _.
Arguments Listener {T} _.

(** The system: the open handles, and the results of [getaddrinfo] not freed. *)
Record t_os (T : Type) := mk_os { endpoints : gmap Z (endpoint T); addrinfos : Z }.
Arguments mk_os {T} _ _.
Arguments endpoints {T} _.
Arguments addrinfos {T} _.

Section sockets.
Context {T : Type} `{!Transport T}.
Implicit Types (os : t_os T) (p : option t_sock).

Definition set_endpoints f os : t_os T := mk_os (f (endpoints os)) (addrinfos os).
Definition set_addrinfos f os : t_os T := mk_os (endpoints os) (f (addrinfos os)).

Definition socket_handle_is_valid (h : Z) : bool := bool_decide (h ≠ INVALID_HANDLE).

(** A new struct; [None] is NULL. *)
Definition wrap_handle (h : Z) (with_mutex : bool) : option t_sock :=
  if negb (socket_handle_is_valid h) then None else Some (mk_sock h with_mutex).

(** The guard of every operation: the handle, if there is one. *)
Definition valid_handle p : option Z :=
  match p with
  | Some s => if socket_handle_is_valid (handle s) then Some (handle s) else None
  | None => None
  end.

(** [send(2)], [recv(2)] and [shutdown(2)] of a handle; on one that is not a
    connection they fail. *)
Definition sys_send (h : Z) (data : list byte) os : Z * t_os T :=
  match endpoints os !! h with
  | Some (Stream t) =>
      let (n, t') := os_send data t in (n, set_endpoints <[h := Stream t']> os)
  | _ => (-1, os)
  end.
Definition sys_recv (h : Z) (size : nat) os : list byte * t_os T :=
  match endpoints os !! h with
  | Some (Stream t) =>
      let (bs, t') := os_recv size t in (bs, set_endpoints <[h := Stream t']> os)
  | _ => ([], os)
  end.
Definition sys_shutdown (h : Z) os : t_os T :=
  match endpoints os !! h with
  | Some (Stream t) => set_endpoints <[h := Stream (os_shutdown t)]> os
  | Some (Listener _) => set_endpoints <[h := Listener false]> os
  | None => os
  end.

Definition socket_send p (data : list byte) os : bool * t_os T :=
  match valid_handle p with
  | None => (false, os)
  | Some h => let (n, os) := sys_send h data os in (bool_decide (0 < n), os)
  end.

(** The result, and the caller's buffer. *)
Definition socket_receive p (size : nat) os : bool * buf * t_os T :=
  match valid_handle p with
  | None => (false, replicate size None, os)
  | Some h =>
      let (bs, os) := sys_recv h size os in
      (bool_decide (0 < length bs)%nat,
       take size ((Some <$> bs) ++ replicate size None), os)
  end.

(** The program only uses SOCKET_SHUTDOWN_BOTH. *)
Definition socket_shutdown p os : t_os T :=
  match valid_handle p with None => os | Some h => sys_shutdown h os end.

(** The struct is changed in place. *)
Definition socket_close p os : option t_sock * t_os T :=
  match p, valid_handle p with
  | Some s, Some h =>
      (Some (mk_sock INVALID_HANDLE (has_mutex s)), set_endpoints (delete h) os)
  | _, _ => (p, os)
  end.

(** The struct is freed. *)
Definition socket_destroy p os : t_os T := (socket_close p os).2.

(** [accept(2)] gives a handle or -1. *)
Definition socket_accept (sys_accept : Z) (with_mutex : bool) : option t_sock :=
  wrap_handle sys_accept with_mutex.

(** [create_client]: what [getaddrinfo], [socket] and [connect] answer are
    [info_ok], [h] and [connected]. *)
Definition create_client (info_ok : bool) (h : Z) (connected : option T) (with_mutex : bool) os
    : option t_sock * t_os T :=
  if negb info_ok then (None, os) else
  let os := set_addrinfos (fun n => n + 1) os in
  if negb (socket_handle_is_valid h) then (None, set_addrinfos (fun n => n - 1) os) else
  let os := set_endpoints <[h := Listener false]> os in
  match connected with
  | None => (None, set_endpoints (delete h) (set_addrinfos (fun n => n - 1) os))
  | Some t =>
      let os := set_addrinfos (fun n => n - 1) (set_endpoints <[h := Stream t]> os) in
      (wrap_handle h with_mutex, os)
  end.

(** [create_server]; [None] is a use of [servinfo] that [getaddrinfo] did not
    write.  Whether [bind] and [listen] worked is not looked at. *)
Definition create_server (info_ok : bool) (h : Z) (listens : bool) (with_mutex : bool) os
    : res (option t_sock * t_os T) :=
  if negb info_ok then Undef Indeterminate else
  let os := if socket_handle_is_valid h then set_endpoints <[h := Listener listens]> os
            else os in
  Ok (wrap_handle h with_mutex, os).

Inductive t_socket_kind := SOCKET_KIND_CLIENT | SOCKET_KIND_SERVER.
Definition socket_create (kind : t_socket_kind) (info_ok : bool) (h : Z) (connected : option T)
    (listens with_mutex : bool) os : res (option t_sock * t_os T) :=
  match kind with
  | SOCKET_KIND_CLIENT => Ok (create_client info_ok h connected with_mutex os)
  | SOCKET_KIND_SERVER => create_server info_ok h listens with_mutex os
  end.
End sockets.

(** *** Addresses *)

(** An IPv4 address: its octets. *)
Definition in_addr : Type := Z * Z * Z * Z.

(** [inet_ntop]: the address as text, if it fits with its NUL. *)
Definition inet_ntop '((a, b, c, d) : in_addr) (size : Z) : option text :=
  let t := print_u32 a ++ txt "." ++ print_u32 b ++ txt "." ++ print_u32 c ++ txt "." ++ print_u32 d in
  if decide (l_size t < size) then Some t else None.

(** [ntohs]: the bytes of a 16-bit number are swapped. *)
Definition ntohs (x : Z) : Z := x mod 256 * 256 + x / 256 mod 256.

(** What [getpeername] and [getsockname] write is [peer] and [name]: [None] if they
    fail. *)
Definition socket_get_peer_ip (p : option t_sock) (peer : option in_addr) (size : Z) : option text :=
  match valid_handle p with
  | None => None
  | Some _ => address ← peer; inet_ntop address size
  end.
Definition socket_get_local_port (p : option t_sock) (name : option Z) : Z :=
  match valid_handle p with
  | None => -1
  | Some _ => match name with None => -1 | Some sin_port => ntohs sin_port end
  end.

(** ** Time *)

(** [clock_gettime] is a [timespec]: seconds and nanoseconds. *)
Definition u64 (x : Z) : Z := x mod 2 ^ 64.

Definition time_now_ms (tv_sec tv_nsec : Z) : Z := u64 (u64 (tv_sec * 1000) + tv_nsec / 1000000).

Definition millis := time_now_ms.
Definition time_diff (time_1 time_2 : Z) : Z :=
  if decide (time_1 > time_2) then time_1 - time_2 else time_2 - time_1.

(** The [timespec] of [time_sleep_ms]. *)
Definition sleep_spec (milliseconds : Z) : Z * Z :=
  (milliseconds / 1000, (milliseconds mod 1000) * 1000000).
Definition nanoseconds (t : Z * Z) : Z := t.1 * 1000000000 + t.2.

(** The loop of [time_sleep_ms]: [signals] are how long each sleep lasts that a
    signal interrupts; [nanosleep] leaves what remains.  The result is the
    nanoseconds slept. *)
Fixpoint sleep_loop (signals : list Z) (remaining : Z) : Z :=
  match signals with
  | [] => remaining
  | after :: r => if decide (after < remaining) then after + sleep_loop r (remaining - after)
                  else remaining
  end.
Definition time_sleep_ms (signals : list Z) (milliseconds : Z) : Z :=
  sleep_loop signals (nanoseconds (sleep_spec milliseconds)).

(** ** The layer implements the sockets of Msg.v *)

Section refinement.
Context {T : Type} `{!Transport T}.
Implicit Types (os : t_os T) (p q : option t_sock).

(** The [t_socket] of Msg.v: NULL, closed and not connected are the same. *)
Definition view os p : t_socket T :=
  match valid_handle p with
  | None => None
  | Some h => match endpoints os !! h with Some (Stream t) => Some t | _ => None end
  end.

(** The sockets of other handles are as they were. *)
Definition others_same p os os' : Prop :=
  forall q, valid_handle q ≠ valid_handle p -> view os' q = view os q.

Lemma others_insert p h e os :
  valid_handle p = Some h -> others_same p os (set_endpoints <[h := e]> os).
Proof.
  intros Hp q Hq. unfold view. destruct (valid_handle q) as [h'|]; [|done]. cbn.
  by rewrite lookup_insert_ne by congruence.
Qed.

Lemma view_insert p h t os :
  valid_handle p = Some h -> view (set_endpoints <[h := Stream t]> os) p = Some t.
Proof. intros Hp. unfold view. rewrite Hp. cbn. by rewrite lookup_insert_eq. Qed.

Lemma socket_send_refines p data os :
  let '(ok, os') := socket_send p data os in
  Msg.socket_send (view os p) data = (ok, view os' p) /\ others_same p os os'.
Proof.
  unfold socket_send, sys_send. destruct (valid_handle p) as [h|] eqn:Hp.
  - unfold view at 1. rewrite Hp. destruct (endpoints os !! h) as [[t|b]|] eqn:E.
    + cbn [Msg.socket_send]. destruct (os_send data t) as [n t'].
      rewrite (view_insert p h) by done. split; [done|by apply others_insert].
    + unfold view. by rewrite Hp, E.
    + unfold view. by rewrite Hp, E.
  - unfold view. by rewrite Hp.
Qed.

Lemma socket_receive_refines p size os :
  let '(ok, b, os') := socket_receive p size os in
  Msg.socket_receive (view os p) size = (ok, b, view os' p) /\ others_same p os os'.
Proof.
  unfold socket_receive, sys_recv. destruct (valid_handle p) as [h|] eqn:Hp.
  - assert (take size (replicate size (None : option byte)) = replicate size None) as Hn
      by (rewrite take_ge; [done|by rewrite length_replicate]).
    unfold view at 1. rewrite Hp. destruct (endpoints os !! h) as [[t|b]|] eqn:E.
    + cbn [Msg.socket_receive]. destruct (os_recv size t) as [bs t'].
      rewrite (view_insert p h) by done. split; [done|by apply others_insert].
    + unfold view. rewrite Hp, E. cbn. by rewrite Hn.
    + unfold view. rewrite Hp, E. cbn. by rewrite Hn.
  - unfold view. by rewrite Hp.
Qed.

Lemma socket_shutdown_refines p os :
  view (socket_shutdown p os) p = Msg.socket_shutdown (view os p) /\
  others_same p os (socket_shutdown p os).
Proof.
  unfold socket_shutdown, sys_shutdown. destruct (valid_handle p) as [h|] eqn:Hp.
  - unfold view at 2. rewrite Hp. destruct (endpoints os !! h) as [[t|b]|] eqn:E.
    + rewrite (view_insert p h) by done. split; [done|by apply others_insert].
    + split; [|by apply others_insert]. unfold view. rewrite Hp. cbn.
      by rewrite lookup_insert_eq.
    + unfold view. by rewrite Hp, E.
  - unfold view. by rewrite Hp.
Qed.

Lemma socket_close_refines p os :
  let '(p', os') := socket_close p os in
  view os' p' = Msg.socket_close (view os p) /\ others_same p os os'.
Proof.
  unfold socket_close. destruct p as [s|]; [|done].
  destruct (valid_handle (Some s)) as [h|] eqn:Hp.
  - split; [done|]. intros q Hq. rewrite Hp in Hq. unfold view.
    destruct (valid_handle q) as [h'|]; [|done]. cbn.
    by rewrite lookup_delete_ne by congruence.
  - unfold view. by rewrite Hp.
Qed.

(** Every operation on a socket, valid or not, does to it what Msg.v says and
    nothing to the sockets of other handles. *)
Theorem sockets_refine p data size os :
  (let '(ok, os') := socket_send p data os in
   Msg.socket_send (view os p) data = (ok, view os' p) /\ others_same p os os') /\
  (let '(ok, b, os') := socket_receive p size os in
   Msg.socket_receive (view os p) size = (ok, b, view os' p) /\ others_same p os os') /\
  (view (socket_shutdown p os) p = Msg.socket_shutdown (view os p) /\
   others_same p os (socket_shutdown p os)) /\
  (let '(p', os') := socket_close p os in
   view os' p' = Msg.socket_close (view os p) /\ others_same p os os').
Proof.
  split_and!.
  - apply socket_send_refines.
  - apply socket_receive_refines.
  - apply socket_shutdown_refines.
  - apply socket_shutdown_refines.
  - apply socket_close_refines.
Qed.

(** Whatever the system answers, [create_client] frees what [getaddrinfo] gave
    it, and leaves a new handle open only if it returns its socket, which is
    then connected. *)
Theorem create_client_releases info_ok h connected with_mutex os :
  endpoints os !! h = None ->
  let '(p, os') := create_client info_ok h connected with_mutex os in
  addrinfos os' = addrinfos os /\
  match p with
  | None => endpoints os' = endpoints os
  | Some s => exists t, connected = Some t /\ view os' p = Some t /\
      endpoints os' = <[handle s := Stream t]> (endpoints os)
  end.
Proof.
  intros Hh. unfold create_client. destruct info_ok; [|done]. cbn [negb].
  destruct (socket_handle_is_valid h) eqn:Ev; cbn [negb]; [|cbn; split; [lia|done]].
  destruct connected as [t|].
  - unfold wrap_handle. rewrite Ev. cbn [negb]. split; [cbn; lia|].
    exists t. split; [done|]. cbn [handle]. split.
    + unfold view, valid_handle. cbn [handle]. rewrite Ev. cbn. by rewrite lookup_insert_eq.
    + cbn. by rewrite insert_insert_eq.
  - cbn. split; [lia|]. by rewrite delete_insert_id.
Qed.

(** A server socket is returned although its port could not be bound. *)
Theorem create_server_ignores_bind h with_mutex os :
  h ≠ INVALID_HANDLE ->
  exists os', create_server true h false with_mutex os = Ok (Some (mk_sock h with_mutex), os') /\
    endpoints os' !! h = Some (Listener false).
Proof.
  intros Hh. unfold create_server, wrap_handle, socket_handle_is_valid.
  rewrite bool_decide_true by done. cbn [negb]. eexists. split; [done|]. cbn.
  by rewrite lookup_insert_eq.
Qed.
End refinement.

(** ** Time *)

Lemma sleep_loop_whole signals remaining :
  Forall (fun n => 0 <= n) signals -> 0 <= remaining -> sleep_loop signals remaining = remaining.
Proof.
  intros H. revert remaining. induction H as [|a l Ha _ IH]; intros r Hr; [done|].
  cbn. case_decide; [|done]. rewrite IH by lia. lia.
Qed.

(** [time_sleep_ms] sleeps the whole time, however often it is interrupted. *)
Theorem time_sleep_ms_whole signals ms :
  Forall (fun n => 0 <= n) signals -> 0 <= ms ->
  time_sleep_ms signals ms = ms * 1000000.
Proof.
  intros Hs Hm. unfold time_sleep_ms. pose proof (Z.div_mod ms 1000 ltac:(lia)).
  pose proof (Z.mod_pos_bound ms 1000 ltac:(lia)).
  rewrite sleep_loop_whole; unfold nanoseconds, sleep_spec; cbn; lia || done.
Qed.

(** The time between two instants, in whichever order they are given. *)
Lemma time_diff_abs a b : time_diff a b = Z.abs (a - b).
Proof. unfold time_diff. case_decide; lia. Qed.

(** ** Addresses *)

Lemma print_octet_length n : 0 <= n < 256 -> (length (print_u32 n) <= 3)%nat.
Proof.
  intros Hn. unfold print_u32, u32. rewrite Z.mod_small by lia.
  pose proof (print_digits_length 10 2 n [] ltac:(done) ltac:(cbn; lia)) as H. cbn [length] in H. lia.
Qed.

(** The 16 bytes of a stick's address hold any address, so only a socket that is
    closed or has no peer cannot be resolved. *)
Theorem peer_ip_fits s a b c d :
  handle s ≠ INVALID_HANDLE -> 0 <= a < 256 -> 0 <= b < 256 -> 0 <= c < 256 -> 0 <= d < 256 ->
  is_Some (socket_get_peer_ip (Some s) (Some (a, b, c, d)) 16).
Proof.
  intros Hs Ha Hb Hc Hd. unfold socket_get_peer_ip, valid_handle, socket_handle_is_valid.
  rewrite bool_decide_true by done. cbn [mbind option_bind]. unfold inet_ntop. cbv zeta.
  rewrite decide_True; [by eexists|].
  apply print_octet_length in Ha, Hb, Hc, Hd.
  unfold l_size. rewrite !length_app. change (length (txt ".")) with 1%nat. lia.
Qed.

(** The port the system wrote in network order; -1 tells that there is none. *)
Lemma local_port_of s port :
  handle s ≠ INVALID_HANDLE -> 0 <= port < 65536 ->
  socket_get_local_port (Some s) (Some (ntohs port)) = port.
Proof.
  intros Hs Hp. unfold socket_get_local_port, valid_handle, socket_handle_is_valid.
  rewrite bool_decide_true by done. unfold ntohs. Z.div_mod_to_equations. lia.
Qed.

Lemma peer_ip_fits_witness :
  is_Some (socket_get_peer_ip (Some (mk_sock 3 false)) (Some (127, 0, 0, 255)) 16).
Proof. apply peer_ip_fits; [done|lia|lia|lia|lia]. Defined.
