(* ===== verification/Log.v ===== *)
(** * Log: utils/src/utils/log.c

    The logger.  The other files leave logging out, since no module reads it
    back; this one says what an entry is and which entries are written.  The
    text that [vsnprintf] makes of a message is an argument. *)

From Stdlib Require Import Strings.Byte Strings.String.
From S2P Require Import Prelude Bytes Text.

(** [t_log_level]; the enumeration has no negative value, so it is an
    [unsigned int] and the -1 of an unknown name is [UINT32_MAX]. *)
Definition LOG_LEVEL_TRACE : Z := 0.
Definition LOG_LEVEL_DEBUG : Z := 1.
Definition LOG_LEVEL_INFO : Z := 2.
Definition LOG_LEVEL_WARNING : Z := 3.
Definition LOG_LEVEL_ERROR : Z := 4.

Definition LEVEL_NAMES : list text :=
  [txt "TRACE"; txt "DEBUG"; txt "INFO"; txt "WARNING"; txt "ERROR"].

(** The escape sequences "\x1b[36m", ... *)
Definition escape (code : string) : text := x1b :: txt "[" ++ txt code ++ txt "m".
Definition LEVEL_COLORS : list text :=
  [escape "36"; escape "32"; txt ""; escape "33"; escape "31"].
Definition COLOR_RESET : text := escape "0".

(** [t_log]: what was appended to its file, if it has one, and what it printed. *)
Record t_log := mk_log {
  log_file : option text;
  console : text;
  is_active_console : bool;
  detail : Z;
  program_name : text;
  log_pid : Z }.

(** [opened]: whether [fopen] of the file succeeded. *)
Definition log_create (file : option text) (opened : bool) (name : text) (active : bool)
    (level pid : Z) : option t_log :=
  match file with
  | Some _ => if opened then Some (mk_log (Some []) [] active (u32 level) name pid) else None
  | None => Some (mk_log None [] active (u32 level) name pid)
  end.

Definition log_level_as_string (level : Z) : res text := at_index (l_get LEVEL_NAMES level).

(** The loop over [LEVEL_NAMES] from index [i]. *)
Fixpoint level_from (level : text) (i : Z) (names : list text) : Z :=
  match names with
  | [] => UINT32_MAX
  | name :: r => if string_equals_ignore_case level name then i else level_from level (i + 1) r
  end.
Definition log_level_from_string (level : text) : Z := level_from level 0 LEVEL_NAMES.

(** ["%0wd"] of a number that is not negative. *)
Definition padded (w : nat) (n : Z) : text :=
  let t := print_u32 n in replicate (w - length t) x30 ++ t.

Record t_local_time := mk_local_time {
  hour : Z; minute : Z; second : Z; millisecond : Z }.

(** [time_local_now]: [localtime_r] of what the clock gave, and its nanoseconds. *)
Definition time_local_now (tm_hour tm_min tm_sec tv_nsec : Z) : t_local_time :=
  mk_local_time tm_hour tm_min tm_sec (tv_nsec / 1000000).

Definition format_timestamp (now : t_local_time) : text :=
  padded 2 (hour now) ++ txt ":" ++ padded 2 (minute now) ++ txt ":"
  ++ padded 2 (second now) ++ txt ":" ++ padded 3 (millisecond now).

Definition is_level_enabled (logger : t_log) (level : Z) : bool :=
  bool_decide (detail logger <= level).

(** The part of an entry that the file and the console share. *)
Definition entry (logger : t_log) (name : text) (now : t_local_time) (tid : Z)
    (message : text) : text :=
  txt "[" ++ name ++ txt "] " ++ format_timestamp now ++ txt " " ++ program_name logger
  ++ txt "/(" ++ print_u32 (log_pid logger) ++ txt ":" ++ print_u32 tid ++ txt "): " ++ message.

Definition log_write (logger : t_log) (level : Z) (now : t_local_time) (tid : Z)
    (message : text) : res t_log :=
  if negb (is_level_enabled logger level) then Ok logger else
  name ← log_level_as_string level;
  color ← at_index (l_get LEVEL_COLORS level);
  let e := entry logger name now tid message in
  Ok (mk_log (option_map (fun f => f ++ e ++ [x0a]) (log_file logger))
        (if is_active_console logger
         then console logger ++ color ++ e ++ COLOR_RESET ++ [x0a] else console logger)
        (is_active_console logger) (detail logger) (program_name logger) (log_pid logger)).

(** ** Properties *)

(** One call of [log_trace] ... [log_error]. *)
Record t_call := mk_call { c_level : Z; c_now : t_local_time; c_tid : Z; c_message : text }.

Definition is_level (level : Z) : Prop := LOG_LEVEL_TRACE <= level <= LOG_LEVEL_ERROR.

Fixpoint log_all (logger : t_log) (calls : list t_call) : res t_log :=
  match calls with
  | [] => Ok logger
  | c :: r =>
      logger ← log_write logger (c_level c) (c_now c) (c_tid c) (c_message c);
      log_all logger r
  end.

(** The line of a call, empty when its level is not enabled. *)
Definition line_of (logger : t_log) (c : t_call) : text :=
  if is_level_enabled logger (c_level c)
  then entry logger (default [] (l_get LEVEL_NAMES (c_level c))) (c_now c) (c_tid c) (c_message c)
       ++ [x0a]
  else [].

Lemma level_cases level :
  is_level level -> level = 0 \/ level = 1 \/ level = 2 \/ level = 3 \/ level = 4.
Proof. unfold is_level, LOG_LEVEL_TRACE, LOG_LEVEL_ERROR. lia. Qed.

Lemma log_write_line logger c f :
  log_file logger = Some f -> is_level (c_level c) ->
  exists con, log_write logger (c_level c) (c_now c) (c_tid c) (c_message c)
    = Ok (mk_log (Some (f ++ line_of logger c)) con (is_active_console logger) (detail logger)
            (program_name logger) (log_pid logger)).
Proof.
  intros Hf Hl. unfold log_write, line_of. destruct (is_level_enabled _ _) eqn:E; cbn [negb].
  - unfold log_level_as_string. rewrite Hf.
    destruct (level_cases _ Hl) as [->|[->|[->|[->| ->]]]]; by eexists.
  - exists (console logger). rewrite app_nil_r, <- Hf. by destruct logger.
Qed.

(** The file of a logger is one line for every call whose level is enabled, in
    the order of the calls, whole; the others leave no trace. *)
Theorem log_file_lines logger calls f :
  log_file logger = Some f -> Forall (fun c => is_level (c_level c)) calls ->
  exists logger', log_all logger calls = Ok logger' /\
    log_file logger' = Some (f ++ concat (line_of logger <$> calls)).
Proof.
  intros Hf H. revert logger f Hf. induction H as [|c calls Hc _ IH]; intros logger f Hf.
  - exists logger. cbn. by rewrite app_nil_r.
  - cbn [log_all]. destruct (log_write_line logger c f Hf Hc) as [con ->].
    cbn [mbind res_bind]. set (l1 := mk_log _ _ _ _ _ _).
    destruct (IH l1 (f ++ line_of logger c) eq_refl) as (l' & E1 & E2).
    exists l'. split; [done|]. rewrite E2. change (line_of l1) with (line_of logger).
    cbn. by rewrite <- app_assoc.
Qed.

Lemma log_file_lines_witness :
  let logger := mk_log (Some []) [] false LOG_LEVEL_INFO (txt "swap") 7 in
  let now := mk_local_time 9 5 0 42 in
  let calls := [mk_call LOG_LEVEL_DEBUG now 8 (txt "hidden");
                mk_call LOG_LEVEL_INFO now 8 (txt "shown")] in
  concat (line_of logger <$> calls)
  = txt "[INFO] 09:05:00:042 swap/(7:8): shown" ++ [x0a] /\
  exists logger', log_all logger calls = Ok logger' /\
    log_file logger' = Some ([] ++ concat (line_of logger <$> calls)).
Proof.
  intros logger now calls. split; [vm_compute; reflexivity|].
  apply (log_file_lines logger calls []); [reflexivity|].
  repeat constructor; vm_compute; discriminate.
Defined.

(** The name of a level, in whatever case, is read back as the level. *)
Theorem log_level_roundtrip level name t :
  log_level_as_string level = Ok name -> string_equals_ignore_case t name = true ->
  log_level_from_string t = level.
Proof.
  intros Hn Ht. assert (is_level level) as Hl.
  { unfold log_level_as_string in Hn. destruct (l_get LEVEL_NAMES level) eqn:E; [|done].
    assert (is_Some (l_get LEVEL_NAMES level)) as [? ?]%l_get_range by by eexists.
    change (l_size LEVEL_NAMES) with 5 in *. unfold is_level, LOG_LEVEL_TRACE, LOG_LEVEL_ERROR.
    lia. }
  unfold string_equals_ignore_case in Ht. apply bool_decide_eq_true in Ht.
  unfold log_level_from_string, LEVEL_NAMES. cbn [level_from].
  unfold string_equals_ignore_case. rewrite Ht.
  destruct (level_cases _ Hl) as [->|[->|[->|[->| ->]]]]; vm_compute in Hn;
    injection Hn as <-; reflexivity.
Qed.

Lemma log_level_roundtrip_witness : log_level_from_string (txt "Warning") = 3.
Proof. apply (log_level_roundtrip 3 (txt "WARNING")); vm_compute; reflexivity. Defined.

(** A configuration with an unknown level logs nothing. *)
Lemma unknown_level_logs_nothing logger level now tid message :
  detail logger = UINT32_MAX -> is_level level ->
  log_write logger level now tid message = Ok logger.
Proof.
  intros Hd Hl. unfold log_write, is_level_enabled. rewrite Hd, bool_decide_false; [done|].
  unfold is_level, LOG_LEVEL_ERROR, UINT32_MAX in *. lia.
Qed.

(** What the clock gives is written in 12 characters, within the 32 bytes there are
    for it. *)
Lemma padded_length w n :
  0 <= n < 10 ^ Z.of_nat w -> (w ≠ 0)%nat -> (w <= 10)%nat -> length (padded w n) = w.
Proof.
  intros Hn Hw Hw'. unfold padded. rewrite length_app, length_replicate.
  destruct w as [|k]; [done|]. unfold print_u32, u32.
  assert (10 ^ Z.of_nat (S k) <= 10 ^ 9 \/ k = 9%nat) as Hk.
  { destruct (decide (k = 9%nat)); [by right|left]. apply Z.pow_le_mono_r; lia. }
  pose proof (print_digits_length 10 k (n mod 4294967296) [] ltac:(done)) as H.
  cbn [length] in H. enough (0 <= n mod 4294967296 < 10 ^ Z.of_nat (S k)) as Hm.
  { specialize (H Hm). lia. }
  pose proof (Z.mod_pos_bound n 4294967296 ltac:(lia)). pose proof (Z.mod_le n 4294967296). lia.
Qed.

Theorem timestamp_length tm_hour tm_min tm_sec tv_nsec :
  0 <= tm_hour <= 23 -> 0 <= tm_min <= 59 -> 0 <= tm_sec <= 60 -> 0 <= tv_nsec < 10 ^ 9 ->
  length (format_timestamp (time_local_now tm_hour tm_min tm_sec tv_nsec)) = 12%nat.
Proof.
  intros. unfold format_timestamp. cbn [hour minute second millisecond time_local_now].
  assert (0 <= tv_nsec / 1000000 < 10 ^ Z.of_nat 3) by (cbn; Z.div_mod_to_equations; lia).
  rewrite !length_app, !padded_length by (done || (cbn; lia)). done.
Qed.

Lemma timestamp_length_witness :
  length (format_timestamp (time_local_now 23 59 60 999999999)) = 12%nat.
Proof. apply timestamp_length; lia. Defined.
