(* ===== verification/File.v ===== *)
(** * File: utils/src/utils/file.c, and config.c's reading of a file

    A file is the bytes that are left to read.  [file_read_line] reads lines of
    any length into a buffer it doubles; configuration files and the keyboard
    are read with it. *)

From Stdlib Require Import Strings.Byte Strings.String.
From S2P Require Import Prelude Bytes Text.

(** What the file system holds at a path. *)
Definition file_system := text -> option text.

(** [fgets(line, n + 1, f)]: at most [n] bytes, up to and including a newline. *)
Fixpoint fgets (n : nat) (content : text) : text * text :=
  match n, content with
  | O, _ => ([], content)
  | _, [] => ([], [])
  | S n, c :: r =>
      if decide (c = x0a) then ([c], r)
      else let (line, rest) := fgets n r in (c :: line, rest)
  end.

Definition INITIAL_CAPACITY : nat := 128.

(** The bytes of a buffer before its NUL. *)
Definition before_nul (chunk : text) : text :=
  take_while (fun c => negb (bool_decide (c = x00))) chunk.

(** The loop of [file_read_line]: the line read so far and the buffer's
    capacity.  Every round that goes on has consumed a byte. *)
Fixpoint read_line_loop (fuel capacity : nat) (line content : text)
    : res (option text * text) :=
  match fuel with
  | O => Undef OutOfFuel
  | S fuel =>
      match content with
      | [] => Ok (if decide (line = []) then None else Some line, [])
      | _ =>
          let (chunk, rest) := fgets (capacity - length line - 1) content in
          let line := line ++ before_nul chunk in
          if decide (last line = Some x0a) then Ok (Some (removelast line), rest)
          else read_line_loop fuel
                 (if decide (length line + 1 = capacity)%nat then 2 * capacity else capacity)
                 line rest
      end
  end.

Definition file_read_line (content : text) : res (option text * text) :=
  read_line_loop (S (length content)) INITIAL_CAPACITY [] content.

(** The loop of [config_create]. *)
Fixpoint config_lines (fuel : nat) (self : t_properties) (content : text) : res t_properties :=
  match fuel with
  | O => Undef OutOfFuel
  | S fuel =>
      '(line, content) ← file_read_line content;
      match line with
      | None => Ok self
      | Some line => config_lines fuel (config_load_line self line) content
      end
  end.

(** [None] is NULL: the file could not be opened. *)
Definition config_create (fs : file_system) (path : text) : res (option t_properties) :=
  match fs path with
  | None => Ok None
  | Some content => self ← config_lines (S (length content)) ∅ content; Ok (Some self)
  end.

(** ** [fgets] *)

Lemma fgets_spec n content :
  let (line, rest) := fgets n content in
  content = line ++ rest /\ (length line <= n)%nat /\
  ((n ≠ 0)%nat -> content ≠ [] -> line ≠ []).
Proof.
  revert content. induction n as [|n IH]; intros [|c r]; cbn; try by repeat split.
  - split_and!; [done|lia|done].
  - case_decide; [split_and!; [done|cbn; lia|done]|].
    specialize (IH r). destruct (fgets n r) as [line rest].
    destruct IH as (-> & Hl & _). split_and!; [done|cbn; lia|done].
Qed.

(** A line short enough is read in one go. *)
Lemma fgets_line n line rest :
  x0a ∉ line -> (length line < n)%nat -> fgets n (line ++ x0a :: rest) = (line ++ [x0a], rest).
Proof.
  revert n. induction line as [|c line IH]; intros [|n] Hn Hl; cbn in *; try lia.
  - by rewrite decide_True.
  - apply not_elem_of_cons in Hn as [? ?].
    rewrite decide_False by congruence. rewrite IH by (done || lia). done.
Qed.

(** A line longer than the buffer fills it. *)
Lemma fgets_full n content :
  x0a ∉ take n content -> fgets n content = (take n content, drop n content).
Proof.
  revert content. induction n as [|n IH]; intros [|c r]; cbn; try done.
  intros [Hc Hr]%not_elem_of_cons. rewrite decide_False by congruence. by rewrite IH.
Qed.

Lemma before_nul_id chunk : x00 ∉ chunk -> before_nul chunk = chunk.
Proof.
  unfold before_nul. induction chunk as [|c r IH]; cbn; [done|].
  intros [Hc Hr]%not_elem_of_cons. rewrite bool_decide_false by congruence. cbn. by rewrite IH.
Qed.

(** ** Reading a line *)

(** What reading one line off [content] gives, when [line] has been read. *)
Definition first_line (line content : text) : option text * text :=
  match strchr content x0a with
  | Some (before, after) => (Some (line ++ before), after)
  | None => (if decide (line ++ content = []) then None else Some (line ++ content), [])
  end.

Lemma strchr_None t c : strchr t c = None -> c ∉ t.
Proof.
  induction t as [|x t IH]; cbn; [intros _; apply not_elem_of_nil|].
  case_decide as Hx; [done|]. destruct (strchr t c) as [[b a]|]; [done|].
  intros _. apply not_elem_of_cons. split; [congruence|by apply IH].
Qed.

Lemma strchr_Some t c before after :
  strchr t c = Some (before, after) -> t = before ++ c :: after /\ c ∉ before.
Proof.
  revert before. induction t as [|x t IH]; intros before; cbn; [done|].
  case_decide as Hx.
  - intros [= <- <-]. subst. split; [done|apply not_elem_of_nil].
  - destruct (strchr t c) as [[b a]|]; [|done]. cbn. intros [= <- <-].
    destruct (IH b eq_refl) as [-> ?]. split; [done|]. by apply not_elem_of_cons.
Qed.

Lemma first_line_step line chunk rest :
  x0a ∉ chunk -> first_line (line ++ chunk) rest = first_line line (chunk ++ rest).
Proof.
  intros Hn. unfold first_line. destruct (strchr rest x0a) as [[b a]|] eqn:E.
  - apply strchr_Some in E as [-> Hb]. rewrite app_assoc, strchr_app; [by rewrite app_assoc|].
    rewrite elem_of_app. tauto.
  - apply strchr_None in E. destruct (strchr (chunk ++ rest) x0a) as [[b a]|] eqn:E2.
    + apply strchr_Some in E2 as [E2 _]. exfalso.
      assert (x0a ∈ chunk ++ rest) as Hin by (rewrite E2; set_solver). set_solver.
    + by rewrite app_assoc.
Qed.

(** The buffer has always room for one more byte and the NUL. *)
Lemma read_line_loop_first fuel capacity line content :
  (length content < fuel)%nat -> (length line + 1 < capacity)%nat ->
  (x0a ∉ line) -> x00 ∉ content ->
  read_line_loop fuel capacity line content = Ok (first_line line content).
Proof.
  revert capacity line content. induction fuel as [|fuel IH];
    intros capacity line content Hf Hc Hl Hz; [lia|].
  cbn [read_line_loop]. destruct content as [|x r] eqn:Econ.
  { unfold first_line. cbn. by rewrite app_nil_r. }
  rewrite <- Econ in *. set (n := (capacity - length line - 1)%nat).
  assert (1 <= n)%nat as Hn by lia.
  assert (x00 ∉ take n content) as Hz1 
    by (intros H; apply Hz; rewrite <- (take_drop n content); apply elem_of_app; by left).
  destruct (strchr (take n content) x0a) as [[before after]|] eqn:E.
  - apply strchr_Some in E as [E Hb].
    assert (content = before ++ x0a :: (after ++ drop n content)) as Ec
      by (rewrite <- (take_drop n content) at 1; by rewrite E, <- app_assoc).
    assert (length before < n)%nat as Hlen.
    { apply (f_equal length) in E. rewrite length_take, length_app in E. cbn in E. lia. }
    rewrite Ec at 1. rewrite fgets_line by done.
    rewrite before_nul_id by (rewrite E in Hz1; set_solver).
    rewrite app_assoc, last_snoc, decide_True by done. rewrite removelast_last.
    set (rest := after ++ _) in *. clearbody rest.
    unfold first_line. by rewrite Ec, strchr_app by done.
  - apply strchr_None in E. rewrite fgets_full by done. rewrite before_nul_id by done.
    rewrite decide_False.
    2: { intros [l' Hl']%last_Some. assert (x0a ∈ line ++ take n content) as Hin
           by (rewrite Hl'; apply elem_of_app; right; by left).
         apply elem_of_app in Hin. tauto. }
    rewrite IH; [by rewrite first_line_step, take_drop|..].
    + rewrite length_drop. subst content. cbn in Hf |- *. lia.
    + rewrite length_app, length_take. case_decide; lia.
    + set_solver.
    + intros H. apply Hz. rewrite <- (take_drop n content). apply elem_of_app. by right.
Qed.

(** the keyboard's and the configuration's reader returns the next line without
    its newline, however long it is, and leaves what follows; [NULL] only at the
    end of the file. *)
Theorem file_read_line_first (content : text) :
  x00 ∉ content ->
  file_read_line content
  = Ok (match strchr content x0a with
        | Some (line, rest) => (Some line, rest)
        | None => (if decide (content = []) then None else Some content, [])
        end).
Proof.
  intros Hz. unfold file_read_line. rewrite read_line_loop_first; [done|lia|..|done].
  - unfold INITIAL_CAPACITY. cbn. lia.
  - apply not_elem_of_nil.
Qed.

Lemma file_read_line_first_witness :
  file_read_line (replicate 300 x61 ++ x0a :: txt "b")
  = Ok (match strchr (replicate 300 x61 ++ x0a :: txt "b") x0a with
        | Some (line, rest) => (Some line, rest)
        | None => (if decide (replicate 300 x61 ++ x0a :: txt "b" = []) then None
                   else Some (replicate 300 x61 ++ x0a :: txt "b"), [])
        end).
Proof.
  apply file_read_line_first.
  match goal with |- ?P => apply (bool_decide_unpack P); vm_compute; done end.
Defined.

(** ** Configuration files *)

(** Lines as a file holds them. *)
Definition file_of (lines : list text) : text := concat ((fun l => l ++ [x0a]) <$> lines).

Lemma file_of_no_nul lines : Forall (fun l : text => x00 ∉ l) lines -> x00 ∉ file_of lines.
Proof.
  induction 1 as [|l lines Hl H IH]; [apply not_elem_of_nil|]. unfold file_of in *. cbn.
  rewrite !elem_of_app. intros [[?|Hx]|?]; [done| |done].
  apply list_elem_of_singleton in Hx. done.
Qed.

Lemma config_lines_load fuel self lines :
  Forall (fun l : text => x00 ∉ l) lines -> Forall (fun l : text => x0a ∉ l) lines ->
  (length (file_of lines) < fuel)%nat ->
  config_lines fuel self (file_of lines) = Ok (foldl config_load_line self lines).
Proof.
  revert fuel self. induction lines as [|l lines IH]; intros fuel self Hz Hn Hf;
    (destruct fuel as [|fuel]; [lia|]); cbn [config_lines].
  - done.
  - pose proof (file_of_no_nul _ Hz) as Hz'.
    unfold file_read_line. rewrite read_line_loop_first;
      [|lia|unfold INITIAL_CAPACITY; cbn; lia|apply not_elem_of_nil|done].
    apply Forall_cons in Hz as [_ Hz], Hn as [Hl Hn].
    assert (file_of (l :: lines) = l ++ x0a :: file_of lines) as E
      by (unfold file_of; cbn; by rewrite <- app_assoc).
    unfold first_line. rewrite E, strchr_app by done. cbn [mbind res_bind app foldl].
    apply IH; [done..|]. rewrite E, length_app in Hf. cbn in Hf. lia.
Qed.

(** a configuration file is loaded line by line, whatever the lines' lengths. *)
Theorem config_create_loads (fs : file_system) (path : text) (lines : list text) :
  fs path = Some (file_of lines) ->
  Forall (fun l : text => x00 ∉ l) lines -> Forall (fun l : text => x0a ∉ l) lines ->
  config_create fs path = Ok (Some (config_load lines)).
Proof.
  intros E Hz Hn. unfold config_create. rewrite E.
  rewrite config_lines_load by (done || lia). done.
Qed.
