(* ===== verification/Dictionary.v ===== *)
(** * Dictionary: utils/src/utils/collections/dictionary.c

    The string-keyed hash table, proved to implement finite maps: this is what
    lets the other files use [gmap] for configurations and mutex tables. *)

From Stdlib Require Import Strings.Byte.
From S2P Require Import Prelude Bytes Text.

Definition DICTIONARY_INITIAL_SIZE : Z := 20.

(** A collision chain is a list of these. *)
Record t_hash_element (V : Type) := mk_hash_element {
  he_key : text;
  hashcode : Z;
  he_data : V }.
Arguments mk_hash_element {V} _ _ _.
Arguments he_key {V} _.
Arguments hashcode {V} _.
Arguments he_data {V} _.

Record t_dictionary (V : Type) := mk_dictionary {
  dict_elements : list (list (t_hash_element V));
  table_size : Z;
  elements_amount : Z }.
Arguments mk_dictionary {V} _ _ _.
Arguments dict_elements {V} _.
Arguments table_size {V} _.
Arguments elements_amount {V} _.

(** ** Jenkins one-at-a-time hash, in [unsigned int] arithmetic *)

Definition hash_step (hash : Z) (c : byte) : Z :=
  let hash := u32 (hash + Z_of_byte c) in
  let hash := u32 (hash + u32 (Z.shiftl hash 10)) in
  Z.lxor hash (Z.shiftr hash 6).

Definition dictionary_hash (key : text) : Z :=
  let hash := foldl hash_step 0 key in
  let hash := u32 (hash + u32 (Z.shiftl hash 3)) in
  let hash := Z.lxor hash (Z.shiftr hash 11) in
  u32 (hash + u32 (Z.shiftl hash 15)).

Section dictionary.
Context {V : Type}.
Implicit Types (self : t_dictionary V) (key : text) (e : t_hash_element V).

Definition dictionary_create : t_dictionary V :=
  mk_dictionary (replicate (Z.to_nat DICTIONARY_INITIAL_SIZE) [])
    DICTIONARY_INITIAL_SIZE 0.

Definition same_key (hash : Z) key e : bool :=
  bool_decide (hashcode e = hash /\ he_key e = key).

(** The chain [self->elements[hashcode % self->table_size]]. *)
Definition chain_of self (hash : Z) : res (list (t_hash_element V)) :=
  if decide (table_size self = 0) then Undef DivByZero
  else at_index (l_get (dict_elements self) (hash mod table_size self)).

Definition dictionary_find self key : res (option (t_hash_element V)) :=
  let hash := dictionary_hash key in
  c ← chain_of self hash; Ok (l_find (same_key hash key) c).

Definition set_chain self (hash : Z) (c : list (t_hash_element V))
    : t_dictionary V :=
  mk_dictionary
    (<[Z.to_nat (hash mod table_size self) := c]> (dict_elements self))
    (table_size self) (elements_amount self).

(** [existing->data = data] updates the element found, in its chain. *)
Definition set_data (d : V) e : t_hash_element V :=
  mk_hash_element (he_key e) (hashcode e) d.

Definition dictionary_put self key (d : V) : res (t_dictionary V) :=
  let hash := dictionary_hash key in
  existing ← dictionary_find self key;
  c ← chain_of self hash;
  match existing with
  | Some _ =>
      Ok (set_chain self hash
            (l_update_first (same_key hash key) (set_data d) c))
  | None =>
      let self := set_chain self hash (mk_hash_element key hash d :: c) in
      Ok (mk_dictionary (dict_elements self) (table_size self)
            (s32 (elements_amount self + 1)))
  end.

Definition dictionary_get self key : res (option V) :=
  e ← dictionary_find self key; Ok (fmap (M:=option) he_data e).

Definition dictionary_has_key self key : res bool :=
  e ← dictionary_find self key; Ok (bool_decide (is_Some (e : option _))).

(** [dictionary_clean]: the data of every chain is destroyed, and the chain
    freed; [data_destroyer] may be NULL. *)
Fixpoint clean_loop {W} (data_destroyer : option (V -> W -> res W)) (n : nat) (index : Z)
    self (st : W) : res (t_dictionary V * W) :=
  match n with
  | O => Ok (self, st)
  | S n =>
      c ← at_index (l_get (dict_elements self) index);
      st ← each (call_destroyer data_destroyer) (he_data <$> c) st;
      clean_loop data_destroyer n (index + 1)
        (mk_dictionary (<[Z.to_nat index := []]> (dict_elements self)) (table_size self)
           (elements_amount self)) st
  end.

Definition dictionary_clean {W} self (data_destroyer : option (V -> W -> res W)) (st : W)
    : res (t_dictionary V * W) :=
  '(self, st) ← clean_loop data_destroyer (Z.to_nat (table_size self)) 0 self st;
  Ok (mk_dictionary (dict_elements self) (table_size self) 0, st).

(** What is left of the chains when the dictionary is freed, and the state. *)
Definition dictionary_destroy {W} self (st : W) : res (list (t_hash_element V) * W) :=
  '(self, st) ← dictionary_clean self None st; Ok (concat (dict_elements self), st).
Definition dictionary_destroy_and_destroy_elements {W} self (data_destroyer : V -> W -> res W)
    (st : W) : res (list (t_hash_element V) * W) :=
  '(self, st) ← dictionary_clean self (Some data_destroyer) st;
  Ok (concat (dict_elements self), st).

(** ** Representation *)

(** The map a chain of distinct keys stands for. *)
Fixpoint chain_map (c : list (t_hash_element V)) : gmap text V :=
  match c with
  | [] => ∅
  | e :: r => <[he_key e := he_data e]> (chain_map r)
  end.

(** The chain at index [i] holds exactly the bindings of [m] whose key hashes
    there, each once, with its hash code. *)
Record dict_repr self (m : gmap text V) : Prop := {
  dr_size : 0 < table_size self;
  dr_length : l_size (dict_elements self) = table_size self;
  dr_hash : forall i c e, dict_elements self !! i = Some c -> e ∈ c ->
    hashcode e = dictionary_hash (he_key e) /\
    Z.of_nat i = hashcode e mod table_size self;
  dr_nodup : forall i c, dict_elements self !! i = Some c ->
    NoDup (he_key <$> c);
  dr_map : forall i c k, dict_elements self !! i = Some c ->
    Z.of_nat i = dictionary_hash k mod table_size self ->
    chain_map c !! k = m !! k;
  dr_amount : elements_amount self = Z.of_nat (size m) }.

Lemma dict_elements_lookup self m hash :
  dict_repr self m ->
  exists i c, chain_of self hash = Ok c /\ dict_elements self !! i = Some c /\
    Z.of_nat i = hash mod table_size self /\
    Z.to_nat (hash mod table_size self) = i.
Proof.
  intros [Hs Hl _ _ _ _]. unfold chain_of. rewrite decide_False by lia.
  pose proof (Z.mod_pos_bound hash (table_size self) Hs).
  destruct (l_get_range (dict_elements self) (hash mod table_size self))
    as [_ [c Hc]]; [lia|].
  rewrite Hc. apply l_get_Some in Hc as [? Hc].
  eexists _, c. split_and!; [done|exact Hc|lia|done].
Qed.

Lemma chain_map_find c key hash :
  Forall (fun e => hashcode e = dictionary_hash (he_key e)) c ->
  hash = dictionary_hash key ->
  he_data <$> l_find (same_key hash key) c = chain_map c !! key.
Proof.
  intros H ->. induction H as [|e c He Hc IH]; cbn; [by rewrite lookup_empty|].
  unfold same_key at 1. case_bool_decide as Hd.
  - destruct Hd as [_ <-]. by rewrite lookup_insert_eq.
  - destruct (decide (he_key e = key)) as [<-|Hne]; [naive_solver|].
    by rewrite lookup_insert_ne.
Qed.

Lemma dictionary_find_ok self m key :
  dict_repr self m ->
  exists o, dictionary_find self key = Ok o /\ he_data <$> o = m !! key.
Proof.
  intros H. unfold dictionary_find.
  destruct (dict_elements_lookup self m (dictionary_hash key) H)
    as (i & c & -> & Hi & Hm & _). cbn [mbind res_bind].
  eexists. split; [done|]. rewrite chain_map_find; [|apply Forall_forall|done].
  - by apply (dr_map _ _ H i).
  - intros e He. by apply (dr_hash _ _ H i c).
Qed.

Lemma chain_map_update c key d :
  Forall (fun e => hashcode e = dictionary_hash (he_key e)) c ->
  is_Some (l_find (same_key (dictionary_hash key) key) c) ->
  chain_map (l_update_first (same_key (dictionary_hash key) key) (set_data d) c)
  = <[key := d]> (chain_map c).
Proof.
  intros H. induction H as [|e c He Hc IH]; cbn; [by intros []|].
  destruct (same_key _ key e) eqn:E; intros Hs; cbn.
  - apply bool_decide_eq_true in E as [_ <-]. by rewrite insert_insert_eq.
  - rewrite IH by done. rewrite insert_insert_ne; [done|]. intros Hk.
    apply bool_decide_eq_false in E. naive_solver.
Qed.

Lemma update_first_keys p d (c : list (t_hash_element V)) :
  he_key <$> l_update_first p (set_data d) c = he_key <$> c.
Proof.
  induction c as [|e c IH]; cbn; [done|].
  destruct (p e); cbn; [done|]. by rewrite IH.
Qed.

Lemma elem_of_update_first p d (c : list (t_hash_element V)) e :
  e ∈ l_update_first p (set_data d) c ->
  exists e', e' ∈ c /\ he_key e = he_key e' /\ hashcode e = hashcode e'.
Proof.
  induction c as [|x c IH]; cbn; [set_solver|].
  destruct (p x); intros [->|Hin]%elem_of_cons.
  - exists x. cbn. set_solver.
  - exists e. set_solver.
  - exists x. set_solver.
  - destruct (IH Hin) as (e' & ? & ?). exists e'. set_solver.
Qed.

(** Replacing the chain of [key] by one that also binds [key] to [d]. *)
Lemma set_chain_repr self m key d i c c' n :
  dict_repr self m -> dict_elements self !! i = Some c ->
  Z.of_nat i = dictionary_hash key mod table_size self ->
  (forall e, e ∈ c' -> hashcode e = dictionary_hash (he_key e) /\
     Z.of_nat i = hashcode e mod table_size self) ->
  NoDup (he_key <$> c') -> chain_map c' = <[key := d]> (chain_map c) ->
  n = Z.of_nat (size (<[key := d]> m)) ->
  dict_repr (mk_dictionary
    (dict_elements (set_chain self (dictionary_hash key) c'))
    (table_size self) n) (<[key := d]> m).
Proof.
  intros H Hc Hi Hh Hnd Hm ->. unfold set_chain. rewrite <- Hi, Nat2Z.id.
  cbn [dict_elements]. pose proof (lookup_lt_Some _ _ _ Hc) as Hlt.
  assert (forall j x, <[i:=c']> (dict_elements self) !! j = Some x ->
    (j = i /\ x = c') \/ (j ≠ i /\ dict_elements self !! j = Some x)) as Hj.
  { intros j x. destruct (decide (j = i)) as [->|].
    - rewrite list_lookup_insert_eq by done. naive_solver.
    - rewrite list_lookup_insert_ne by done. naive_solver. }
  constructor; cbn [dict_elements table_size elements_amount].
  - apply H.
  - unfold l_size. rewrite length_insert. apply H.
  - intros j x e [[-> ->]|[? Hx]]%Hj He; [by apply Hh|by apply (dr_hash _ _ H j x)].
  - intros j x [[-> ->]|[? Hx]]%Hj; [done|by apply (dr_nodup _ _ H j x)].
  - intros j x k [[-> ->]|[Hne Hx]]%Hj Hk.
    + rewrite Hm. destruct (decide (k = key)) as [->|].
      * by rewrite !lookup_insert_eq.
      * rewrite !lookup_insert_ne by done. by apply (dr_map _ _ H i).
    + rewrite lookup_insert_ne; [by apply (dr_map _ _ H j)|].
      intros ->. apply Hne. lia.
  - done.
Qed.

Lemma l_find_absent c key :
  Forall (fun e => hashcode e = dictionary_hash (he_key e)) c ->
  l_find (same_key (dictionary_hash key) key) c = None -> key ∉ he_key <$> c.
Proof.
  intros H Hf (e & -> & He)%list_elem_of_fmap.
  rewrite l_find_None, Forall_forall in Hf. rewrite Forall_forall in H.
  specialize (Hf e He). apply bool_decide_eq_false in Hf. naive_solver.
Qed.

Lemma dictionary_put_ok self m key d :
  dict_repr self m -> Z.of_nat (size m) < INT_MAX ->
  exists self', dictionary_put self key d = Ok self' /\
                dict_repr self' (<[key := d]> m).
Proof.
  intros H Hb. unfold dictionary_put.
  destruct (dictionary_find_ok self m key H) as (o & E & Hm).
  rewrite E. unfold dictionary_find in E. cbn [mbind res_bind].
  destruct (dict_elements_lookup self m (dictionary_hash key) H)
    as (i & c & Ec & Hc & Hi & Hi'). rewrite Ec in *. cbn [mbind res_bind] in *.
  injection E as Ho. pose proof (dr_hash _ _ H i c) as Hh.
  assert (Forall (fun e => hashcode e = dictionary_hash (he_key e)) c) as Hall.
  { apply Forall_forall. intros e He. by apply Hh. }
  destruct o as [e|]; (eexists; split; [done|]).
  - eapply (set_chain_repr self m key d i c); [done..| | | |].
    + intros x (e' & He' & -> & ->)%elem_of_update_first. auto.
    + rewrite update_first_keys. by apply (dr_nodup _ _ H i).
    + apply chain_map_update; [done|]. rewrite Ho. by eexists.
    + cbn. rewrite map_size_insert_Some by (by rewrite <- Hm). apply H.
  - eapply (set_chain_repr self m key d i c); [done..| | | |].
    + intros x [->|Hx]%elem_of_cons; [done|auto].
    + cbn. constructor; [by apply l_find_absent|by apply (dr_nodup _ _ H i)].
    + done.
    + cbn. rewrite map_size_insert_None by (by rewrite <- Hm).
      rewrite (dr_amount _ _ H). cint. lia.
Qed.

Lemma dictionary_create_repr : dict_repr dictionary_create ∅.
Proof.
  constructor; cbn [dictionary_create dict_elements table_size elements_amount];
    try done.
  - intros i c e [-> _]%lookup_replicate He. set_solver.
  - intros i c [-> _]%lookup_replicate. constructor.
  - intros i c k [-> _]%lookup_replicate _. done.
Qed.

(** C34: the hash table implements finite maps: creation gives the empty map,
    [dictionary_put] updates it at one key, [dictionary_get] and
    [dictionary_has_key] look it up, whatever collides. *)
Theorem dictionary_refines self (m : gmap text V) key d :
  dict_repr self m -> Z.of_nat (size m) < INT_MAX ->
  dict_repr dictionary_create ∅ /\
  dictionary_get self key = Ok (m !! key) /\
  dictionary_has_key self key = Ok (bool_decide (is_Some (m !! key))) /\
  exists self', dictionary_put self key d = Ok self' /\
                dict_repr self' (<[key := d]> m).
Proof.
  intros H Hb. destruct (dictionary_find_ok self m key H) as (o & E & Hm).
  unfold dictionary_get, dictionary_has_key. rewrite E. cbn [mbind res_bind].
  split_and!.
  - apply dictionary_create_repr.
  - by rewrite Hm.
  - f_equal. rewrite <- Hm. apply bool_decide_ext. by rewrite fmap_is_Some.
  - by apply dictionary_put_ok.
Qed.

(** ** Destruction *)

Lemma chain_clean_ok {W} (f : option (V -> W -> res W)) pre rest size amount st :
  clean_loop f (length rest) (l_size pre)
    (mk_dictionary (pre ++ rest) size amount) st
  = st' ← each (call_destroyer f) (he_data <$> concat rest) st;
    Ok (mk_dictionary (pre ++ replicate (length rest) []) size amount, st').
Proof.
  revert pre st. induction rest as [|c rest IH]; intros pre st; [done|].
  cbn [clean_loop length dict_elements]. 
  rewrite (l_get_middle pre c rest : l_get _ (l_size pre) = _).
  cbn [at_index mbind res_bind concat replicate]. rewrite fmap_app, each_app.
  destruct (each _ (he_data <$> c) st) as [st'|]; [|done]. cbn [mbind res_bind].
  unfold l_size at 2. rewrite Nat2Z.id, insert_app_r_alt, Nat.sub_diag by done. cbn.
  specialize (IH (pre ++ [[]]) st'). rewrite <- !app_assoc in IH. cbn in IH.
  rewrite <- IH. f_equal. rewrite l_size_app. done.
Qed.

Lemma dictionary_clean_ok {W} (f : option (V -> W -> res W)) self m st :
  dict_repr self m ->
  dictionary_clean self f st
  = st' ← each (call_destroyer f) (he_data <$> concat (dict_elements self)) st;
    Ok (mk_dictionary (replicate (Z.to_nat (table_size self)) []) (table_size self) 0, st').
Proof.
  intros H. unfold dictionary_clean. pose proof (dr_length _ _ H) as Hl.
  destruct self as [els size amount]. cbn [dict_elements table_size elements_amount] in *.
  assert (Z.to_nat size = length els) as -> by (unfold l_size in Hl; lia).
  rewrite (chain_clean_ok f [] els size amount st
    : clean_loop f _ 0 (mk_dictionary els size amount) _ = _).
  by destruct (each _ _ _).
Qed.

(** The bindings of the chains. *)
Definition binding e : text * V := (he_key e, he_data e).

Lemma chain_map_elem c k d :
  NoDup (he_key <$> c) -> chain_map c !! k = Some d <-> (k, d) ∈ binding <$> c.
Proof.
  induction c as [|e c IH]; cbn; [intros _; rewrite lookup_empty; split; set_solver|].
  intros [He Hc]%NoDup_cons. rewrite elem_of_cons, lookup_insert_Some, IH by done.
  unfold binding at 2. split; [naive_solver|].
  intros [[= -> ->]|Hin]; [by left|right]. split; [|done]. intros <-. apply He.
  apply list_elem_of_fmap in Hin as (x & [= -> ->] & Hx). by apply list_elem_of_fmap_2.
Qed.

(** Keys in different chains differ: the hash of a key says which is its own. *)
Lemma concat_nodup (h : text -> Z) (l : list (list (t_hash_element V))) k :
  (forall i c e, l !! i = Some c -> e ∈ c -> Z.of_nat (k + i) = h (he_key e)) ->
  (forall i c, l !! i = Some c -> NoDup (he_key <$> c)) ->
  NoDup (he_key <$> concat l).
Proof.
  revert k. induction l as [|c l IH]; intros k Hh Hn; [constructor|].
  cbn [concat]. rewrite fmap_app. apply NoDup_app. split_and!.
  - by apply (Hn 0%nat).
  - intros x (e & -> & He)%list_elem_of_fmap (e' & E & He')%list_elem_of_fmap.
    apply list_elem_of_In, in_concat in He' as (c' & [i Hc']%list_elem_of_In%list_elem_of_lookup & Hin).
    apply list_elem_of_In in Hin.
    pose proof (Hh 0%nat c e eq_refl He) as H0. pose proof (Hh (S i) c' e' Hc' Hin) as H1.
    rewrite <- E in H1. lia.
  - apply (IH (S k)); [|intros i; by apply (Hn (S i))].
    intros i c' e Hc He. rewrite <- (Hh (S i) c' e Hc He). f_equal. lia.
Qed.

Lemma bindings_of_map self m :
  dict_repr self m -> binding <$> concat (dict_elements self) ≡ₚ map_to_list m.
Proof.
  intros H. assert (NoDup (he_key <$> concat (dict_elements self))) as Hn.
  { apply (concat_nodup (fun k => dictionary_hash k mod table_size self) _ 0);
      [|apply (dr_nodup _ _ H)].
    intros i c e Hc He. destruct (dr_hash _ _ H i c e Hc He) as [<- ?]. done. }
  apply NoDup_Permutation; [|apply NoDup_map_to_list|].
  - apply (NoDup_fmap_1 fst). by rewrite <- list_fmap_compose.
  - intros [k d]. rewrite elem_of_map_to_list, list_elem_of_fmap.
    destruct (dict_elements_lookup self m (dictionary_hash k) H)
      as (i & c & _ & Hc & Hi & _).
    rewrite <- (dr_map _ _ H i c k Hc Hi), (chain_map_elem c) by by apply (dr_nodup _ _ H i).
    rewrite list_elem_of_fmap. split; intros (e & E & He); exists e; (split; [done|]).
    + apply list_elem_of_In, in_concat in He as (c' & [j Hj]%list_elem_of_In%list_elem_of_lookup
        & Hin%list_elem_of_In). injection E as -> ->.
      destruct (dr_hash _ _ H j c' e Hj Hin) as [Eh Ej]. rewrite Eh in Ej.
      assert (j = i) as -> by lia. congruence.
    + apply list_elem_of_In, in_concat. exists c.
      split; apply list_elem_of_In; [by eapply list_elem_of_lookup_2|done].
Qed.

(** Freeing a dictionary, with or without its data, frees every chain, calls the
    destroyer exactly once for the value of every key, and fails only where the
    destroyer does. *)
Theorem dictionary_destroy_frees {W} (f : V -> W -> res W) self m st :
  dict_repr self m ->
  dictionary_destroy self st = Ok ([], st) /\
  exists values, values ≡ₚ (map_to_list m).*2 /\
    dictionary_destroy_and_destroy_elements self f st = (st' ← each f values st; Ok ([], st')).
Proof.
  intros H. assert (forall n, concat (replicate n ([] : list (t_hash_element V))) = []) as Hc
    by by induction n.
  split.
  - unfold dictionary_destroy. rewrite (dictionary_clean_ok _ _ m), each_nothing by done.
    cbn. by rewrite Hc.
  - exists (he_data <$> concat (dict_elements self)). split.
    + rewrite <- (bindings_of_map _ _ H), <- list_fmap_compose. done.
    + unfold dictionary_destroy_and_destroy_elements.
      rewrite (dictionary_clean_ok _ _ m) by done.
      change (each (call_destroyer (Some f))) with (each f).
      destruct (each _ _ _); [|done]. cbn. by rewrite Hc.
Qed.
End dictionary.

Lemma dictionary_refines_witness :
  let self := @dictionary_create Z in
  dict_repr (@dictionary_create Z) ∅ /\
  dictionary_get self (txt "PORT") = Ok ((∅ : gmap text Z) !! txt "PORT") /\
  dictionary_has_key self (txt "PORT")
  = Ok (bool_decide (is_Some ((∅ : gmap text Z) !! txt "PORT"))) /\
  exists self', dictionary_put self (txt "PORT") 8000 = Ok self' /\
                dict_repr self' (<[txt "PORT" := 8000]> ∅).
Proof. apply dictionary_refines; [apply dictionary_create_repr|done]. Defined.

Lemma dictionary_destroy_frees_witness :
  dictionary_destroy (@dictionary_create Z) 5 = Ok ([], 5) /\
  exists values, values ≡ₚ (map_to_list (∅ : gmap text Z)).*2 /\
    dictionary_destroy_and_destroy_elements dictionary_create (fun x st => Ok (x + st)) 5
    = (st' ← each (fun x st => Ok (x + st)) values 5; Ok ([], st')).
Proof.
  apply (dictionary_destroy_frees (fun x st => Ok (x + st)) dictionary_create ∅ 5).
  apply dictionary_create_repr.
Defined.
