(* ===== verification/Structs.v ===== *)
(** * Structs: the records the modules share and send each other

    utils/src/utils/registers_cpu.h, syscalls.h, swap_km.h and
    kernel_memory/src/kernel_memory/structs.h, with the memory image of the
    structures that travel as raw bytes. *)

From Stdlib Require Import Strings.Byte.
From S2P Require Import Prelude Bytes Msg.

(** ** Fields of a received buffer *)

Definition read_bytes (b : buf) (off n : nat) : res (list byte) :=
  if decide (off + n <= length b)%nat then defined (take n (drop off b))
  else Undef OutOfBounds.

Definition read_u32 (b : buf) (off : nat) : res Z :=
  bs ← read_bytes b off 4; Ok (bytes_u32 bs).
Definition read_int (b : buf) (off : nat) : res Z :=
  bs ← read_bytes b off 4; Ok (bytes_int bs).
Definition read_u8 (b : buf) (off : nat) : res Z :=
  bs ← read_bytes b off 1; Ok (bytes_u32 bs).

Lemma read_bytes_app a v c n off :
  length a = off -> length v = n ->
  read_bytes (Some <$> (a ++ v ++ c)) off n = Ok v.
Proof.
  intros <- <-. unfold read_bytes.
  rewrite decide_True by (rewrite length_fmap, !length_app; lia).
  rewrite !fmap_app, drop_app_length' by (by rewrite length_fmap).
  rewrite take_app_length' by (by rewrite length_fmap).
  apply defined_Some.
Qed.

Lemma read_u32_app a z c off :
  length a = off -> read_u32 (Some <$> (a ++ int_bytes z ++ c)) off = Ok (u32 z).
Proof.
  intros H. unfold read_u32. rewrite read_bytes_app by done.
  cbn [mbind res_bind]. by rewrite bytes_u32_int_bytes.
Qed.

Lemma read_int_app a z c off :
  length a = off -> read_int (Some <$> (a ++ int_bytes z ++ c)) off = Ok (s32 z).
Proof.
  intros H. unfold read_int. rewrite read_bytes_app by done.
  cbn [mbind res_bind]. by rewrite bytes_int_int_bytes.
Qed.

Lemma read_int_int_bytes z : read_int (written (int_bytes z)) 0 = Ok (s32 z).
Proof.
  unfold written. rewrite <- (app_nil_r (int_bytes z)).
  by apply (read_int_app [] z []).
Qed.

Lemma bytes_u32_range bs : length bs = 4%nat -> 0 <= bytes_u32 bs <= UINT32_MAX.
Proof.
  intros H. unfold bytes_u32. pose proof (le_decode_range bs) as Hr.
  rewrite H in Hr. change (256 ^ Z.of_nat 4) with 4294967296 in Hr. ints. lia.
Qed.

Lemma read_u32_range b off x : read_u32 b off = Ok x -> 0 <= x <= UINT32_MAX.
Proof.
  unfold read_u32, read_bytes. intros H. inv_bind H as bs E. simplify_eq.
  case_decide as Hd; [|done]. apply bytes_u32_range. apply defined_length in E.
  rewrite E, length_take, length_drop. lia.
Qed.

Lemma read_int_not_fuel b off u : read_int b off = Undef u -> u ≠ OutOfFuel.
Proof.
  unfold read_int, read_bytes. case_decide; cbn; [|by intros [= <-]].
  destruct (defined _) eqn:E; cbn; [done|]. intros [= <-]. by eapply defined_not_fuel.
Qed.

(** [read_all]: a received buffer [int_bytes a ++ int_bytes b ++ ...] read
    field by field. *)
Ltac read_field lem pre :=
  rewrite (lem pre) by (rewrite ?length_app, ?int_bytes_length; reflexivity).

(** ** Registers *)

Record t_registers := mk_registers {
  AX : Z; BX : Z; CX : Z; DX : Z;
  PC : Z; EAX : Z; EBX : Z; ECX : Z; EDX : Z; SI : Z; DI : Z }.

Definition zero_registers : t_registers := mk_registers 0 0 0 0 0 0 0 0 0 0 0.

Definition registers_wf (r : t_registers) : Prop :=
  Forall (fun x => 0 <= x < 256) [AX r; BX r; CX r; DX r] /\
  Forall (fun x => 0 <= x <= UINT32_MAX)
    [PC r; EAX r; EBX r; ECX r; EDX r; SI r; DI r].

Definition registers_bytes (r : t_registers) : list byte :=
  [byte_of_Z (AX r); byte_of_Z (BX r); byte_of_Z (CX r); byte_of_Z (DX r)]
  ++ int_bytes (PC r) ++ int_bytes (EAX r) ++ int_bytes (EBX r)
  ++ int_bytes (ECX r) ++ int_bytes (EDX r) ++ int_bytes (SI r)
  ++ int_bytes (DI r).

Definition registers_of (b : buf) : res t_registers :=
  ax ← read_u8 b 0; bx ← read_u8 b 1; cx ← read_u8 b 2; dx ← read_u8 b 3;
  pc ← read_u32 b 4; eax ← read_u32 b 8; ebx ← read_u32 b 12;
  ecx ← read_u32 b 16; edx ← read_u32 b 20; si ← read_u32 b 24;
  di ← read_u32 b 28;
  Ok (mk_registers ax bx cx dx pc eax ebx ecx edx si di).

(** ** Segments, holes and system-call requests *)

Record t_segment := mk_segment {
  seg_id : Z; seg_pid : Z; seg_base : Z; seg_size : Z }.

#[export] Instance t_segment_eq_dec : EqDecision t_segment.
Proof. solve_decision. Defined.

Definition segment_bytes (s : t_segment) : list byte :=
  int_bytes (seg_id s) ++ int_bytes (seg_pid s) ++ int_bytes (seg_base s)
  ++ int_bytes (seg_size s).

Definition segment_of (b : buf) : res t_segment :=
  i ← read_u32 b 0; p ← read_u32 b 4; ba ← read_int b 8; sz ← read_int b 12;
  Ok (mk_segment i p ba sz).

Definition segment_typed (s : t_segment) : Prop :=
  in_u32 (seg_id s) /\ in_u32 (seg_pid s) /\ in_int (seg_base s)
  /\ in_int (seg_size s).

Record t_stdin_request := mk_stdin_request {
  in_pid : Z; bytes_to_read : Z; in_logical_address : Z }.
Record t_stdout_request := mk_stdout_request {
  out_pid : Z; bytes_to_write : Z; out_logical_address : Z }.
Record t_sleep_request := mk_sleep_request {
  sleep_pid : Z; blocked_time_ms : Z }.
Record t_syscall_memory := mk_syscall_memory {
  sm_pid : Z; sm_segment_id : Z; sm_size : Z }.

Definition three_bytes (a b c : Z) : list byte :=
  int_bytes a ++ int_bytes b ++ int_bytes c.

Definition stdin_request_bytes (r : t_stdin_request) : list byte :=
  three_bytes (in_pid r) (bytes_to_read r) (in_logical_address r).
Definition stdout_request_bytes (r : t_stdout_request) : list byte :=
  three_bytes (out_pid r) (bytes_to_write r) (out_logical_address r).
Definition syscall_memory_bytes (r : t_syscall_memory) : list byte :=
  three_bytes (sm_pid r) (sm_segment_id r) (sm_size r).
Definition sleep_request_bytes (r : t_sleep_request) : list byte :=
  int_bytes (sleep_pid r) ++ int_bytes (blocked_time_ms r).

Definition stdin_request_of (b : buf) : res t_stdin_request :=
  p ← read_u32 b 0; n ← read_u32 b 4; a ← read_u32 b 8;
  Ok (mk_stdin_request p n a).
Definition stdout_request_of (b : buf) : res t_stdout_request :=
  p ← read_u32 b 0; n ← read_u32 b 4; a ← read_u32 b 8;
  Ok (mk_stdout_request p n a).
Definition syscall_memory_of (b : buf) : res t_syscall_memory :=
  p ← read_u32 b 0; i ← read_u32 b 4; n ← read_u32 b 8;
  Ok (mk_syscall_memory p i n).
Definition sleep_request_of (b : buf) : res t_sleep_request :=
  p ← read_u32 b 0; n ← read_u32 b 4; Ok (mk_sleep_request p n).

(** [t_swap_config]: the swap module's geometry. *)
Record t_swap_config := mk_swap_config { cfg_swap_size : Z; cfg_block_size : Z }.

Definition swap_config_bytes (c : t_swap_config) : list byte :=
  int_bytes (cfg_swap_size c) ++ int_bytes (cfg_block_size c).
Definition swap_config_of (b : buf) : res t_swap_config :=
  s ← read_int b 0; z ← read_int b 4; Ok (mk_swap_config s z).

(** ** Round trips of the memory images *)

Section roundtrips.
(** Reading three consecutive [uint32_t]. *)
Lemma three_bytes_read a b c :
  read_u32 (Some <$> three_bytes a b c) 0 = Ok (u32 a) /\
  read_u32 (Some <$> three_bytes a b c) 4 = Ok (u32 b) /\
  read_u32 (Some <$> three_bytes a b c) 8 = Ok (u32 c).
Proof.
  unfold three_bytes. repeat split.
  - apply (read_u32_app [] a). reflexivity.
  - apply (read_u32_app (int_bytes a) b). reflexivity.
  - rewrite <- (app_nil_r (int_bytes c)), app_assoc.
    apply (read_u32_app (int_bytes a ++ int_bytes b) c). reflexivity.
Qed.

Lemma syscall_memory_roundtrip r :
  in_u32 (sm_pid r) -> in_u32 (sm_segment_id r) -> in_u32 (sm_size r) ->
  syscall_memory_of (Some <$> syscall_memory_bytes r) = Ok r.
Proof.
  intros. unfold syscall_memory_of, syscall_memory_bytes.
  destruct (three_bytes_read (sm_pid r) (sm_segment_id r) (sm_size r))
    as (-> & -> & ->).
  cbn [mbind res_bind]. cint. by destruct r.
Qed.

Lemma stdin_request_roundtrip r :
  in_u32 (in_pid r) -> in_u32 (bytes_to_read r) ->
  in_u32 (in_logical_address r) ->
  stdin_request_of (Some <$> stdin_request_bytes r) = Ok r.
Proof.
  intros. unfold stdin_request_of, stdin_request_bytes.
  destruct (three_bytes_read (in_pid r) (bytes_to_read r)
    (in_logical_address r)) as (-> & -> & ->).
  cbn [mbind res_bind]. cint. by destruct r.
Qed.

Lemma stdout_request_roundtrip r :
  in_u32 (out_pid r) -> in_u32 (bytes_to_write r) ->
  in_u32 (out_logical_address r) ->
  stdout_request_of (Some <$> stdout_request_bytes r) = Ok r.
Proof.
  intros. unfold stdout_request_of, stdout_request_bytes.
  destruct (three_bytes_read (out_pid r) (bytes_to_write r)
    (out_logical_address r)) as (-> & -> & ->).
  cbn [mbind res_bind]. cint. by destruct r.
Qed.
End roundtrips.

(** A field of a structure whose image is at hand. *)
Lemma read_bytes_at bs off n v :
  take n (drop off bs) = v -> (off + n <= length bs)%nat ->
  read_bytes (written bs) off n = Ok v.
Proof.
  intros <- H. unfold read_bytes, written.
  rewrite decide_True by (by rewrite length_fmap).
  rewrite <- fmap_drop, <- fmap_take. apply defined_Some.
Qed.

Lemma read_u32_at bs off z :
  take 4 (drop off bs) = int_bytes z -> (off + 4 <= length bs)%nat ->
  0 <= z <= UINT32_MAX -> read_u32 (written bs) off = Ok z.
Proof.
  intros H Hl Hz. unfold read_u32. erewrite read_bytes_at by done.
  cbn [mbind res_bind]. rewrite bytes_u32_int_bytes. by cint.
Qed.

Lemma read_u8_at bs off z :
  take 1 (drop off bs) = [byte_of_Z z] -> (off + 1 <= length bs)%nat ->
  0 <= z < 256 -> read_u8 (written bs) off = Ok z.
Proof.
  intros H Hl Hz. unfold read_u8. erewrite read_bytes_at by done.
  cbn [mbind res_bind]. unfold bytes_u32. cbn [le_decode].
  rewrite Z_of_byte_of_Z, Z.mod_small by lia. f_equal. lia.
Qed.

Lemma registers_bytes_length r : length (registers_bytes r) = 32%nat.
Proof. reflexivity. Qed.

Lemma registers_roundtrip r :
  registers_wf r -> registers_of (written (registers_bytes r)) = Ok r.
Proof.
  intros [H8 H32]. rewrite !Forall_cons in H8. rewrite !Forall_cons in H32.
  destruct_and!.
  unfold registers_of.
  rewrite (read_u8_at _ 0 (AX r)), (read_u8_at _ 1 (BX r)), (read_u8_at _ 2 (CX r)),
    (read_u8_at _ 3 (DX r)) by (reflexivity || (rewrite registers_bytes_length; lia) || lia).
  cbn [mbind res_bind].
  rewrite (read_u32_at _ 4 (PC r)), (read_u32_at _ 8 (EAX r)),
    (read_u32_at _ 12 (EBX r)), (read_u32_at _ 16 (ECX r)), (read_u32_at _ 20 (EDX r)),
    (read_u32_at _ 24 (SI r)), (read_u32_at _ 28 (DI r))
    by (reflexivity || (rewrite registers_bytes_length; lia) || lia).
  cbn [mbind res_bind]. by destruct r.
Qed.

Lemma segment_bytes_length s : length (segment_bytes s) = 16%nat.
Proof. reflexivity. Qed.

Lemma read_int_at bs off z :
  take 4 (drop off bs) = int_bytes z -> (off + 4 <= length bs)%nat ->
  INT_MIN <= z <= INT_MAX -> read_int (written bs) off = Ok z.
Proof.
  intros H Hl Hz. unfold read_int. erewrite read_bytes_at by done.
  cbn [mbind res_bind]. rewrite bytes_int_int_bytes. by cint.
Qed.

Lemma segment_roundtrip s :
  segment_typed s -> segment_of (written (segment_bytes s)) = Ok s.
Proof.
  intros (? & ? & ? & ?). unfold in_u32, in_int in *. unfold segment_of.
  rewrite (read_u32_at _ 0 (seg_id s)), (read_u32_at _ 4 (seg_pid s)),
    (read_int_at _ 8 (seg_base s)), (read_int_at _ 12 (seg_size s))
    by (reflexivity || (rewrite segment_bytes_length; lia) || lia).
  cbn [mbind res_bind]. by destruct s.
Qed.
