(* ===== verification/MainMemory.v ===== *)
(** * MainMemory: the segment and hole tables of the Kernel Memory

    [t_main_memory] and its well-formedness: the extents of the segments and
    of the holes tile [0, total_size) exactly, and no two holes touch. *)

From S2P Require Import Prelude Bytes Msg Structs.

Inductive t_allocation_strategy := AS_BEST | AS_WORST.

(** The configuration may hold neither value: [allocation_from_string] returns
    -1 for an unknown name. *)
Definition strategy_of_value (z : Z) : option t_allocation_strategy :=
  if decide (z = 0) then Some AS_BEST
  else if decide (z = 1) then Some AS_WORST
  else None.

Record t_hole := mk_hole { hole_base : Z; hole_size : Z }.

#[export] Instance t_hole_eq_dec : EqDecision t_hole.
Proof. solve_decision. Defined.

Record t_main_memory := mk_main_memory {
  compaction_delay : Z;
  total_size : Z;
  max_segment_size : Z;
  segments : list t_segment;
  holes : list t_hole;
  allocation_strategy : Z }.

Definition set_segments (f : list t_segment -> list t_segment)
    (m : t_main_memory) : t_main_memory :=
  mk_main_memory (compaction_delay m) (total_size m) (max_segment_size m)
    (f (segments m)) (holes m) (allocation_strategy m).

Definition set_holes (f : list t_hole -> list t_hole)
    (m : t_main_memory) : t_main_memory :=
  mk_main_memory (compaction_delay m) (total_size m) (max_segment_size m)
    (segments m) (f (holes m)) (allocation_strategy m).

Definition set_total_size (n : Z) (m : t_main_memory) : t_main_memory :=
  mk_main_memory (compaction_delay m) n (max_segment_size m)
    (segments m) (holes m) (allocation_strategy m).

(** [init_main_memory] of initializer.c. *)
Definition init_main_memory (max_segment_size allocation_strategy
    compaction_delay : Z) : t_main_memory :=
  mk_main_memory compaction_delay 0 max_segment_size [] [] allocation_strategy.

(** ** Tilings of an interval *)

(** A base and a size. *)
Abbreviation extent := (Z * Z)%type.

(** The extents of [l], in this order, cover [lo, hi) without gap or
    overlap. *)
Fixpoint chain (lo : Z) (l : list extent) (hi : Z) : Prop :=
  match l with
  | [] => lo = hi
  | (b, s) :: r => b = lo /\ 0 < s /\ chain (lo + s) r hi
  end.

(** Some order of the extents covers [0, total). *)
Definition tiled (es : list extent) (total : Z) : Prop :=
  exists l, l ≡ₚ es /\ chain 0 l total.

#[export] Instance tiled_perm : Proper ((≡ₚ) ==> (=) ==> iff) tiled.
Proof.
  intros l1 l2 H t ? <-. unfold tiled.
  split; intros (l & ? & ?); exists l; split; auto; by rewrite H || rewrite <- H.
Qed.

Lemma chain_app lo l1 l2 hi :
  chain lo (l1 ++ l2) hi <-> exists mid, chain lo l1 mid /\ chain mid l2 hi.
Proof.
  revert lo. induction l1 as [|[b s] l1 IH]; intros lo; cbn.
  - naive_solver.
  - rewrite IH. naive_solver.
Qed.

Lemma chain_bounds lo l hi :
  chain lo l hi ->
  lo <= hi /\ Forall (fun '(b, s) => lo <= b /\ 0 < s /\ b + s <= hi) l.
Proof.
  revert lo. induction l as [|[b s] l IH]; intros lo; cbn.
  - intros ->. by split; [lia|].
  - intros (-> & Hs & H). apply IH in H as [Hle Hall]. split; [lia|].
    constructor; [lia|].
    eapply Forall_impl; [exact Hall|]. intros [b' s']. lia.
Qed.

Lemma chain_sum lo l hi : chain lo l hi -> sum_with snd l = hi - lo.
Proof.
  revert lo. induction l as [|[b s] l IH]; intros lo; cbn; [lia|].
  intros (_ & _ & H). apply IH in H. lia.
Qed.

(** An extent of a chain, with what comes before and after it. *)
Lemma chain_split lo l hi b s :
  chain lo l hi -> (b, s) ∈ l ->
  exists l1 l2, l = l1 ++ (b, s) :: l2 /\ chain lo l1 b /\ 0 < s /\
                chain (b + s) l2 hi.
Proof.
  intros H (l1 & l2 & ->)%list_elem_of_split.
  apply chain_app in H as (mid & H1 & -> & Hs & H2). eauto 10.
Qed.

Lemma chain_elem lo l hi b s :
  chain lo l hi -> (b, s) ∈ l -> lo <= b /\ 0 < s /\ b + s <= hi.
Proof.
  intros H Hin. apply chain_bounds in H as [_ H].
  rewrite Forall_forall in H. by apply (H (b, s)).
Qed.

(** ** What a tiling gives *)

Section tiled_lemmas.
Implicit Types (es : list extent) (total b s t : Z).

Lemma tiled_nil : tiled [] 0.
Proof. by exists []. Qed.

Lemma tiled_bounds es total b s :
  tiled es total -> (b, s) ∈ es -> 0 <= b /\ 0 < s /\ b + s <= total.
Proof.
  intros (l & Hp & Hc) Hin. rewrite <- Hp in Hin. by eapply chain_elem.
Qed.

Lemma tiled_sum es total : tiled es total -> sum_with snd es = total.
Proof. intros (l & <- & Hc). apply chain_sum in Hc. lia. Qed.

Lemma tiled_disjoint e1 e2 es total :
  tiled (e1 :: e2 :: es) total ->
  e1.1 + e1.2 <= e2.1 \/ e2.1 + e2.2 <= e1.1.
Proof.
  destruct e1 as [b1 s1], e2 as [b2 s2]. intros (l & Hp & Hc). cbn.
  assert ((b1, s1) ∈ l) as Hin by (rewrite Hp; set_solver).
  destruct (chain_split _ _ _ _ _ Hc Hin) as (l1 & l2 & -> & H1 & Hs & H2).
  rewrite <- Permutation_middle in Hp. apply Permutation_cons_inv in Hp.
  assert ((b2, s2) ∈ l1 ++ l2) as Hin2 by (rewrite Hp; set_solver).
  apply elem_of_app in Hin2 as [Hin2|Hin2].
  - eapply chain_elem in Hin2; [|done]. lia.
  - eapply chain_elem in Hin2; [|done]. lia.
Qed.

(** Allocating the first [k] bytes of an extent. *)
Lemma tiled_split b s k es total :
  tiled ((b, s) :: es) total -> 0 < k < s ->
  tiled ((b, k) :: (b + k, s - k) :: es) total.
Proof.
  intros (l & Hp & Hc) Hk.
  assert ((b, s) ∈ l) as Hin by (rewrite Hp; set_solver).
  destruct (chain_split _ _ _ _ _ Hc Hin) as (l1 & l2 & -> & H1 & Hs & H2).
  rewrite <- Permutation_middle in Hp. apply Permutation_cons_inv in Hp.
  exists (l1 ++ (b, k) :: (b + k, s - k) :: l2). split.
  - rewrite <- Hp. by rewrite <- !Permutation_middle.
  - apply chain_app. exists b. split; [done|]. cbn.
    repeat split; try lia. by replace (b + k + (s - k)) with (b + s) by lia.
Qed.

(** Joining two extents that touch. *)
Lemma tiled_merge b s t es total :
  tiled ((b, s) :: (b + s, t) :: es) total -> tiled ((b, s + t) :: es) total.
Proof.
  intros (l & Hp & Hc).
  assert ((b, s) ∈ l) as Hin by (rewrite Hp; set_solver).
  destruct (chain_split _ _ _ _ _ Hc Hin) as (l1 & l2 & -> & H1 & Hs & H2).
  rewrite <- Permutation_middle in Hp. apply Permutation_cons_inv in Hp.
  assert ((b + s, t) ∈ l1 ++ l2) as Hin2 by (rewrite Hp; set_solver).
  apply elem_of_app in Hin2 as [Hin2|Hin2].
  { eapply chain_elem in Hin2; [|done]. lia. }
  destruct l2 as [|[b' s'] l3]; [set_solver|].
  destruct H2 as (-> & Hs' & H3).
  assert (s' = t) as ->.
  { apply elem_of_cons in Hin2 as [?|Hin2]; [by simplify_eq|].
    eapply chain_elem in Hin2; [|done]. lia. }
  rewrite <- Permutation_middle in Hp. apply Permutation_cons_inv in Hp.
  exists (l1 ++ (b, s + t) :: l3). split.
  - rewrite <- Hp. by rewrite <- Permutation_middle.
  - apply chain_app. exists b. split; [done|]. cbn.
    repeat split; try lia. by replace (b + (s + t)) with (b + s + t) by lia.
Qed.

(** Growing the interval at its end. *)
Lemma tiled_extend es total s :
  tiled es total -> 0 < s -> tiled ((total, s) :: es) (total + s).
Proof.
  intros (l & Hp & Hc) Hs. exists (l ++ [(total, s)]). split.
  - rewrite Hp. by rewrite Permutation_app_comm.
  - apply chain_app. exists total. cbn. repeat split; lia || done.
Qed.

(** The extent that ends at [total], if any, can be grown in place. *)
Lemma tiled_grow_last b t es total s :
  tiled ((b, t) :: es) total -> b + t = total -> 0 < s ->
  tiled ((b, t + s) :: es) (total + s).
Proof.
  intros H <- Hs. apply tiled_extend with (s := s) in H; [|done].
  apply tiled_merge. by rewrite (Permutation_swap (b + t, s) (b, t)).
Qed.
End tiled_lemmas.

(** ** Well-formed main memory *)

Definition seg_extent (s : t_segment) : extent := (seg_base s, seg_size s).
Definition hole_extent (h : t_hole) : extent := (hole_base h, hole_size h).

Definition extents (m : t_main_memory) : list extent :=
  (seg_extent <$> segments m) ++ (hole_extent <$> holes m).

(** No hole ends where another one begins. *)
Definition coalesced (hs : list t_hole) : Prop :=
  forall h1 h2, h1 ∈ hs -> h2 ∈ hs -> hole_base h1 + hole_size h1 ≠ hole_base h2.

Record memory_wf (m : t_main_memory) : Prop := {
  wf_total : 0 <= total_size m <= INT_MAX;
  wf_tiled : tiled (extents m) (total_size m);
  wf_coalesced : coalesced (holes m) }.

(** Bytes in segments and bytes in holes. *)
Definition used (m : t_main_memory) : Z := sum_with seg_size (segments m).
Definition free_bytes (m : t_main_memory) : Z := sum_with hole_size (holes m).

Lemma sum_with_fmap {A B} (g : A -> B) (f : B -> Z) l :
  sum_with f (g <$> l) = sum_with (fun x => f (g x)) l.
Proof. induction l as [|x l IH]; cbn; [done|]. by rewrite <- IH. Qed.

Lemma wf_sum m : memory_wf m -> used m + free_bytes m = total_size m.
Proof.
  intros []. apply tiled_sum in wf_tiled0. unfold extents in *.
  by rewrite sum_with_app, !sum_with_fmap in wf_tiled0.
Qed.

Lemma wf_hole m h :
  memory_wf m -> h ∈ holes m ->
  0 <= hole_base h /\ 0 < hole_size h /\ hole_base h + hole_size h <= total_size m.
Proof.
  intros [] Hh. eapply tiled_bounds; [done|]. unfold extents.
  apply elem_of_app. right. by apply (list_elem_of_fmap_2 hole_extent).
Qed.

Lemma wf_segment m s :
  memory_wf m -> s ∈ segments m ->
  0 <= seg_base s /\ 0 < seg_size s /\ seg_base s + seg_size s <= total_size m.
Proof.
  intros [] Hs. eapply tiled_bounds; [done|]. unfold extents.
  apply elem_of_app. left. by apply (list_elem_of_fmap_2 seg_extent).
Qed.

Lemma wf_holes_nonneg m :
  memory_wf m -> Forall (fun h => 0 <= hole_size h) (holes m).
Proof.
  intros H. apply Forall_forall. intros h Hh.
  pose proof (wf_hole _ _ H Hh). lia.
Qed.

Lemma wf_segments_nonneg m :
  memory_wf m -> Forall (fun s => 0 <= seg_size s) (segments m).
Proof.
  intros H. apply Forall_forall. intros s Hs.
  pose proof (wf_segment _ _ H Hs). lia.
Qed.

Lemma free_bytes_bounds m : memory_wf m -> 0 <= free_bytes m <= INT_MAX.
Proof.
  intros H. pose proof (wf_sum _ H). pose proof (wf_total _ H).
  pose proof (sum_with_nonneg hole_size _ (wf_holes_nonneg _ H)).
  pose proof (sum_with_nonneg seg_size _ (wf_segments_nonneg _ H)).
  unfold used, free_bytes in *. lia.
Qed.

(** Two holes at the same base are the same hole. *)
Lemma wf_hole_base_inj m h1 h2 l :
  memory_wf m -> holes m ≡ₚ h1 :: h2 :: l -> hole_base h1 ≠ hole_base h2.
Proof.
  intros [_ Ht _] Hp Heq. unfold extents in Ht. rewrite Hp in Ht. cbn in Ht.
  rewrite <- !Permutation_middle in Ht.
  pose proof Ht as Hd. apply tiled_disjoint in Hd. cbn in Hd.
  pose proof (tiled_bounds _ _ (hole_base h1) (hole_size h1) Ht
    ltac:(by left)) as H1.
  pose proof (tiled_bounds _ _ (hole_base h2) (hole_size h2) Ht
    ltac:(right; by left)) as H2.
  lia.
Qed.

(** The empty memory. *)
Lemma init_main_memory_wf ms st d : memory_wf (init_main_memory ms st d).
Proof.
  constructor; cbn.
  - ints. lia.
  - apply tiled_nil.
  - intros h1 h2 H. set_solver.
Qed.
