(* ===== verification/Compaction.v ===== *)
(** * Compaction: kernel_memory/src/kernel_memory/compaction.c

    Packing the segments at the start of memory, rebuilding the hole table, and
    the exchange with the scheduler before and after. *)

From Stdlib Require Import Strings.Byte Strings.String.
From S2P Require Import Prelude Bytes Msg Structs MainMemory.

Definition set_seg_base (b : Z) (s : t_segment) : t_segment :=
  mk_segment (seg_id s) (seg_pid s) b (seg_size s).

(** The inner loop of [compact_segments]: each segment starts where the
    previous one now ends. *)
Fixpoint compact_after (current_segment : t_segment) (l : list t_segment)
    : list t_segment :=
  match l with
  | [] => []
  | next_segment :: r =>
      let next_segment :=
        set_seg_base (s32 (seg_base current_segment + seg_size current_segment))
          next_segment in
      next_segment :: compact_after next_segment r
  end.

Definition compact_segments (l : list t_segment) : list t_segment :=
  match l with
  | [] => []
  | current_segment :: r =>
      let current_segment := set_seg_base 0 current_segment in
      current_segment :: compact_after current_segment r
  end.

Definition compute_last_segment_end (l : list t_segment) : res Z :=
  last_segment ← deref (l_get l (l_size l - 1));
  Ok (s32 (seg_base last_segment + seg_size last_segment)).

Definition compact_holes (memory_total base_final_segment : Z) : list t_hole :=
  [mk_hole base_final_segment (s32 (memory_total - base_final_segment))].

Section compaction.
Context {T : Type} `{!Transport T}.

(** Always returns true in C; the delay is not modelled. *)
Definition compact_memory (socket_scheduler : t_socket T)
    (main_memory : t_main_memory) : res (t_main_memory * t_socket T) :=
  let main_memory := set_segments compact_segments main_memory in
  last_end ← compute_last_segment_end (segments main_memory);
  let main_memory :=
    set_holes (fun _ => compact_holes (total_size main_memory) last_end)
      main_memory in
  '(_, s) ← send_string OP_COMPACTION_DONE (lit "Compaction finished")
              socket_scheduler;
  Ok (main_memory, s).

Definition notify_compaction (socket_scheduler : t_socket T)
    : res (t_socket T) :=
  '(_, s) ← send_string OP_COMPACTION_NEEDED
              (lit "Memory needs to be compacted") socket_scheduler;
  '(code, s) ← receive_op_code s;
  if decide (code = op_value OP_CAN_COMPACT) then
    '(_, s) ← receive_string s; Ok s
  else Ok s.
End compaction.

(** ** What compaction does to the tables *)

(** The segments laid end to end from [lo]. *)
Fixpoint packed (lo : Z) (l : list t_segment) : list t_segment :=
  match l with
  | [] => []
  | s :: r => set_seg_base lo s :: packed (lo + seg_size s) r
  end.

Lemma compact_after_packed c l :
  Forall (fun s => 0 <= seg_size s) l ->
  0 <= seg_base c + seg_size c ->
  seg_base c + seg_size c + sum_with seg_size l <= INT_MAX ->
  compact_after c l = packed (seg_base c + seg_size c) l.
Proof.
  intros H. revert c. induction H as [|s l Hs Hl IH]; intros c Hc Hb; [done|].
  cbn [compact_after packed sum_with] in *.
  pose proof (sum_with_nonneg seg_size l Hl). cint.
  f_equal. by rewrite IH by (cbn; lia).
Qed.

Lemma compact_segments_packed l :
  Forall (fun s => 0 <= seg_size s) l -> sum_with seg_size l <= INT_MAX ->
  compact_segments l = packed 0 l.
Proof.
  intros H Hb. destruct H as [|s r Hs Hr]; [done|]. cbn in *.
  f_equal. by rewrite compact_after_packed by (cbn; lia || done).
Qed.

Lemma packed_chain lo l :
  Forall (fun s => 0 < seg_size s) l ->
  chain lo (seg_extent <$> packed lo l) (lo + sum_with seg_size l).
Proof.
  intros H. revert lo. induction H as [|s l Hs Hl IH]; intros lo; cbn; [lia|].
  repeat split; [done|].
  by replace (lo + (seg_size s + sum_with seg_size l))
    with (lo + seg_size s + sum_with seg_size l) by lia.
Qed.

Lemma packed_length lo l : length (packed lo l) = length l.
Proof. revert lo. induction l; cbn; auto. Qed.

Lemma packed_last lo l s :
  last (packed lo l) = Some s -> seg_base s + seg_size s = lo + sum_with seg_size l.
Proof.
  revert lo. induction l as [|x l IH]; intros lo; [done|].
  cbn [packed sum_with]. destruct l as [|y l].
  - cbn. intros [= <-]. cbn. lia.
  - cbn [packed]. rewrite last_cons_cons. intros H.
    apply (IH (lo + seg_size x)) in H. cbn in *. lia.
Qed.

Lemma packed_used lo l : sum_with seg_size (packed lo l) = sum_with seg_size l.
Proof. revert lo. induction l as [|s l IH]; intros; cbn; [done|]. by rewrite IH. Qed.

(** Everything but the base is kept, in the same order. *)
Lemma packed_same lo l :
  Forall2 (fun s s' => seg_id s' = seg_id s /\ seg_pid s' = seg_pid s /\
                       seg_size s' = seg_size s) l (packed lo l).
Proof. revert lo. induction l; intros; cbn; constructor; auto. Qed.

Lemma l_get_last {A} (l : list A) : l_get l (l_size l - 1) = last l.
Proof.
  destruct l as [|x l]; [done|]. unfold l_size.
  replace (Z.of_nat (length (x :: l)) - 1) with (Z.of_nat (length l))
    by (cbn; lia).
  rewrite l_get_nat, last_lookup. done.
Qed.

Lemma wf_segments_pos m :
  memory_wf m -> Forall (fun s => 0 < seg_size s) (segments m).
Proof.
  intros H. apply Forall_forall. intros s Hs.
  pose proof (wf_segment _ _ H Hs). lia.
Qed.

(** The tables after compaction. *)
Definition compacted (m : t_main_memory) : t_main_memory :=
  set_holes (fun _ => [mk_hole (used m) (free_bytes m)])
    (set_segments (packed 0) m).

Lemma compacted_wf m :
  memory_wf m -> 0 < free_bytes m -> memory_wf (compacted m).
Proof.
  intros H Hf. pose proof (wf_sum _ H) as Hs. constructor; cbn.
  - apply H.
  - eexists. split; [reflexivity|]. unfold extents. cbn.
    apply chain_app. exists (used m). split.
    + apply (packed_chain 0), wf_segments_pos, H.
    + cbn. unfold free_bytes in *. lia.
  - intros h1 h2 ->%list_elem_of_singleton ->%list_elem_of_singleton. cbn. lia.
Qed.

Lemma compact_memory_ok {T} `{!Transport T} (s : t_socket T) m :
  memory_wf m -> segments m ≠ [] ->
  compact_memory s m
  = '(_, s) ← send_string OP_COMPACTION_DONE (lit "Compaction finished") s;
    Ok (compacted m, s).
Proof.
  intros H Hne. unfold compact_memory. cbn [segments set_segments total_size].
  pose proof (wf_sum _ H) as Hs. pose proof (wf_total _ H) as Ht.
  pose proof (free_bytes_bounds _ H) as Hfb.
  rewrite compact_segments_packed
    by (apply wf_segments_nonneg, H || (unfold used in *; lia)).
  unfold compute_last_segment_end. rewrite l_get_last.
  destruct (last (packed 0 (segments m))) as [x|] eqn:E.
  2: { apply last_None in E. apply (f_equal length) in E.
       rewrite packed_length in E. by destruct (segments m). }
  cbn [deref mbind res_bind]. apply packed_last in E. rewrite E.
  unfold used in *.
  pose proof (sum_with_nonneg _ _ (wf_segments_nonneg _ H)).
  unfold compacted, compact_holes, set_holes, set_segments, used. cbn.
  cint. rewrite compact_segments_packed
    by (apply wf_segments_nonneg, H || lia).
  rewrite ?Z.add_0_l. cint.
  by replace (total_size m - sum_with seg_size (segments m))
    with (free_bytes m) by lia.
Qed.
