(* ===== verification/Holes.v ===== *)
(** * Holes: kernel_memory/src/kernel_memory/holes.c

    Free-space accounting, hole selection, the hole table, and [create_segment],
    the entry point of MEM_ALLOC. *)

From Stdlib Require Import Strings.Byte Strings.String.
From S2P Require Import Prelude Bytes Msg Structs MainMemory Compaction.

(** ** Operations *)

Definition compute_free_space (hs : list t_hole) : Z :=
  foldl (fun total h => s32 (total + hole_size h)) 0 hs.

(** The hole [add_total_memory] extends is the first that ends at the old top
    of memory; without one, a new hole is appended. *)
Fixpoint grow_hole_at (new_base memory_total : Z) (hs : list t_hole)
    : option (list t_hole) :=
  match hs with
  | [] => None
  | h :: r =>
      if decide (s32 (hole_base h + hole_size h) = new_base)
      then Some (mk_hole (hole_base h) (s32 (hole_size h + memory_total)) :: r)
      else cons h <$> grow_hole_at new_base memory_total r
  end.

Definition add_total_memory (memory_total : Z) (m : t_main_memory)
    : t_main_memory :=
  let new_base := total_size m in
  let m := set_total_size (s32 (total_size m + memory_total)) m in
  match grow_hole_at new_base memory_total (holes m) with
  | Some hs => set_holes (fun _ => hs) m
  | None => set_holes (fun hs => hs ++ [mk_hole new_base memory_total]) m
  end.

(** The hole kept so far, against the next one.  [size] is a [uint32_t], so the
    hole's [int] size is converted for the comparison. *)
Definition hole_step (size : Z) (st : t_allocation_strategy)
    (chosen current : t_hole) : t_hole :=
  if decide (size <= u32 (hole_size current)) then
    match st with
    | AS_BEST =>
        if decide (hole_size chosen = -1 \/ hole_size current < hole_size chosen)
        then current else chosen
    | AS_WORST =>
        if decide (hole_size chosen = -1 \/ hole_size chosen < hole_size current)
        then current else chosen
    end
  else chosen.

Definition no_hole : t_hole := mk_hole (-1) (-1).

Definition hole_selection_algorithm (size : Z) (hs : list t_hole)
    (st : t_allocation_strategy) : t_hole :=
  foldl (hole_step size st) no_hole hs.

(** The loop of [update_hole_table], up to its [break]. *)
Fixpoint take_from_hole (base size : Z) (hs : list t_hole) : list t_hole :=
  match hs with
  | [] => []
  | h :: r =>
      if decide (hole_base h = base) then
        let h' := mk_hole (s32 (hole_base h + size)) (s32 (hole_size h - size)) in
        if decide (hole_size h' = 0) then r else h' :: r
      else h :: take_from_hole base size r
  end.

Definition update_hole_table (chosen : t_hole) (size : Z) (m : t_main_memory)
    : t_main_memory :=
  set_holes (take_from_hole (hole_base chosen) size) m.

Definition select_hole (size : Z) (m : t_main_memory)
    : t_hole * t_main_memory :=
  match strategy_of_value (allocation_strategy m) with
  | None => (no_hole, m)
  | Some st =>
      let chosen := hole_selection_algorithm size (holes m) st in
      (chosen, update_hole_table chosen size m)
  end.

Definition update_segment_list (chosen : t_hole) (size pid id : Z)
    (m : t_main_memory) : t_main_memory :=
  set_segments (fun l => l ++ [mk_segment id pid (hole_base chosen) size]) m.

Section create.
Context {T : Type} `{!Transport T}.

(** [create_segment].  The too-large reply does not end the function. *)
Definition create_segment (id pid size : Z) (m : t_main_memory)
    (s : t_socket T) : res (t_main_memory * t_socket T) :=
  s ← (if decide (max_segment_size m < size) then
         '(_, s) ← send_string OP_SEGMENT_SIZE_EXCEEDED
            (lit "The requested size exceeds the max segment size.") s;
         Ok s
       else Ok s);
  if decide (compute_free_space (holes m) < size) then
    '(_, s) ← send_string OP_NOT_ENOUGH_MEMORY
                (lit "There are not memory enough") s;
    Ok (m, s)
  else
    let (chosen, m) := select_hole (u32 size) m in
    '(chosen, m, s) ←
      (if decide (hole_size chosen = -1) then
         s ← notify_compaction s;
         '(m, s) ← compact_memory s m;
         let (chosen, m) := select_hole (u32 size) m in
         Ok (chosen, m, s)
       else Ok (chosen, m, s));
    let m := update_segment_list chosen size pid id m in
    '(_, s) ← send_string OP_MEMORY_ALLOCATED (lit "Memory allocated") s;
    Ok (m, s).
End create.

(** ** Hole selection *)

(** What each strategy asks of the chosen hole against any other that fits. *)
Definition preferred (st : t_allocation_strategy) (h h' : t_hole) : Prop :=
  match st with
  | AS_BEST => hole_size h <= hole_size h'
  | AS_WORST => hole_size h' <= hole_size h
  end.

Definition selection_spec (size : Z) (st : t_allocation_strategy)
    (hs : list t_hole) (r : t_hole) : Prop :=
  (r = no_hole /\ Forall (fun h => hole_size h < size) hs) \/
  (r ∈ hs /\ size <= hole_size r /\
   forall h, h ∈ hs -> size <= hole_size h -> preferred st r h).

Lemma hole_selection_spec size st hs :
  Forall (fun h => 0 < hole_size h <= INT_MAX) hs ->
  selection_spec size st hs (hole_selection_algorithm size hs st).
Proof.
  intros Hall. unfold hole_selection_algorithm.
  induction hs as [|h hs IH] using rev_ind; [by left|].
  apply Forall_app in Hall as [Hall [Hh _]%Forall_cons].
  specialize (IH Hall). rewrite foldl_app. cbn [foldl].
  set (r := foldl _ _ hs) in *. unfold hole_step. cint.
  assert (Hpos : forall x, x ∈ hs -> hole_size x ≠ -1).
  { intros x Hx. rewrite Forall_forall in Hall. specialize (Hall x Hx). lia. }
  destruct IH as [[Hr Hno]|(Hr & Hfit & Hbest)].
  - rewrite Hr. case_decide as Hd; [|left; split; [done|]].
    + right. destruct st; rewrite decide_True by (by left);
        (split; [set_solver|split; [done|]]);
        intros x [Hx | ->%list_elem_of_singleton]%elem_of_app Hs; cbn; try lia;
        rewrite Forall_forall in Hno; specialize (Hno x Hx); lia.
    + apply Forall_app. split; [done|]. constructor; [lia|done].
  - right. specialize (Hpos r Hr).
    case_decide as Hd; [|split; [set_solver|split; [done|]]].
    + destruct st; case_decide as Hc; (split; [set_solver|split; [done|]]);
        intros x [Hx | ->%list_elem_of_singleton]%elem_of_app Hs; cbn;
        try specialize (Hbest x Hx Hs); cbn in *; lia.
    + intros x [Hx | ->%list_elem_of_singleton]%elem_of_app Hs; [auto|lia].
Qed.

(** ** The hole table *)

Lemma compute_free_space_spec m :
  memory_wf m -> compute_free_space (holes m) = free_bytes m.
Proof.
  intros H. unfold compute_free_space, free_bytes.
  rewrite foldl_s32_sum; [lia|by apply wf_holes_nonneg|lia|].
  pose proof (free_bytes_bounds _ H). unfold free_bytes in *. lia.
Qed.

Lemma wf_holes_int m :
  memory_wf m -> Forall (fun h => 0 < hole_size h <= INT_MAX) (holes m).
Proof.
  intros H. apply Forall_forall. intros h Hh.
  pose proof (wf_hole _ _ H Hh). pose proof (wf_total _ H). lia.
Qed.

Lemma take_from_hole_none base size hs :
  Forall (fun h => hole_base h ≠ base) hs -> take_from_hole base size hs = hs.
Proof.
  induction 1 as [|h hs Hh Hl IH]; cbn; [done|].
  rewrite decide_False by done. by rewrite IH.
Qed.

(** What is left of a hole after [size] bytes are taken from its start. *)
Definition remainder (h : t_hole) (size : Z) : list t_hole :=
  if decide (hole_size h = size) then []
  else [mk_hole (hole_base h + size) (hole_size h - size)].

Lemma take_from_hole_split m h size :
  memory_wf m -> h ∈ holes m -> 0 < size <= hole_size h ->
  exists l, holes m ≡ₚ h :: l /\
            take_from_hole (hole_base h) size (holes m) ≡ₚ remainder h size ++ l.
Proof.
  intros Hwf Hh Hs.
  pose proof (wf_hole _ _ Hwf Hh) as Hb. pose proof (wf_total _ Hwf) as Ht.
  destruct (list_elem_of_split _ _ Hh) as (l1 & l2 & E).
  exists (l1 ++ l2). split; [by rewrite E, <- Permutation_middle|].
  assert (Forall (fun h' => hole_base h' ≠ hole_base h) l1) as Hl1.
  { apply Forall_forall. intros h' Hh' Heq.
    destruct (list_elem_of_split _ _ Hh') as (k1 & k2 & ->).
    eapply (wf_hole_base_inj m h' h (k1 ++ k2 ++ l2) Hwf); [|done].
    rewrite E. rewrite <- Permutation_middle. solve_Permutation. }
  rewrite E. clear Hh E.
  induction Hl1 as [|h' l1 Hh' Hl1 IH]; cbn [app take_from_hole].
  - rewrite decide_True by done. cbn [hole_size]. cint.
    unfold remainder. repeat case_decide; cbn in *; lia || done.
  - rewrite decide_False by done. rewrite IH.
    by rewrite Permutation_middle.
Qed.

(** [place m h size s]: the segment [s] now occupies the first [size] bytes of
    the hole [h]. *)
Lemma take_and_place_wf m h size pid id :
  memory_wf m -> h ∈ holes m -> 0 < size <= hole_size h ->
  memory_wf (update_segment_list h size pid id (update_hole_table h size m)).
Proof.
  intros Hwf Hh Hs.
  destruct (take_from_hole_split _ _ _ Hwf Hh Hs) as (l & Hp & Hp').
  pose proof Hwf as [Ht Htile Hco].
  assert (tiled ((hole_base h, size)
    :: (hole_extent <$> remainder h size)
    ++ (seg_extent <$> segments m) ++ (hole_extent <$> l)) (total_size m)) as Hn.
  { unfold extents in Htile. rewrite Hp in Htile. cbn in Htile.
    rewrite <- Permutation_middle in Htile.
    unfold remainder. case_decide as Hd; cbn.
    - by rewrite <- Hd.
    - apply tiled_split; [done|lia]. }
  constructor; cbn; [done| |].
  - unfold extents. cbn. rewrite fmap_app, Hp'. cbn.
    rewrite fmap_app. eapply tiled_perm; [|reflexivity|exact Hn].
    solve_Permutation.
  - intros h1 h2. rewrite Hp', !elem_of_app. intros H1 H2.
    assert (Hin : forall x, x ∈ l -> x ∈ holes m) by (intros; rewrite Hp; by right).
    unfold remainder in *.
    destruct (decide (hole_size h = size)) as [Hd|Hd].
    { apply Hco; apply Hin; set_solver. }
    assert (Hdis : forall x, x ∈ l ->
      hole_base x + hole_size x <= hole_base h \/
      hole_base h + hole_size h <= hole_base x).
    { intros x (k1 & k2 & ->)%list_elem_of_split.
      unfold extents in Htile. rewrite Hp in Htile. cbn in Htile.
      rewrite fmap_app in Htile. cbn in Htile.
      assert (tiled (hole_extent x :: hole_extent h
        :: (seg_extent <$> segments m) ++ (hole_extent <$> k1)
        ++ (hole_extent <$> k2)) (total_size m)) as Htd.
      { eapply tiled_perm; [|reflexivity|exact Htile]. solve_Permutation. }
      by apply tiled_disjoint in Htd. }
    pose proof (wf_hole _ _ Hwf Hh) as Hbh.
    destruct H1 as [->%list_elem_of_singleton|H1],
      H2 as [->%list_elem_of_singleton|H2]; cbn.
    + lia.
    + pose proof (Hco h h2 Hh (Hin _ H2)). lia.
    + pose proof (wf_hole _ _ Hwf (Hin _ H1)). specialize (Hdis _ H1). lia.
    + auto.
Qed.

(** ** Growing memory *)

Lemma grow_hole_at_Some b n hs hs' :
  grow_hole_at b n hs = Some hs' ->
  exists l1 h l2, hs = l1 ++ h :: l2 /\ s32 (hole_base h + hole_size h) = b /\
    hs' = l1 ++ mk_hole (hole_base h) (s32 (hole_size h + n)) :: l2.
Proof.
  revert hs'. induction hs as [|h hs IH]; cbn; intros hs' H; [done|].
  case_decide.
  - simplify_eq. by exists [], h, hs.
  - destruct (grow_hole_at b n hs) as [hs1|]; simplify_eq/=.
    destruct (IH hs1 eq_refl) as (l1 & h' & l2 & -> & ? & ->).
    by exists (h :: l1), h', l2.
Qed.

Lemma grow_hole_at_None b n hs h :
  grow_hole_at b n hs = None -> h ∈ hs -> s32 (hole_base h + hole_size h) ≠ b.
Proof.
  induction hs as [|h' hs IH]; cbn; intros H Hin; [set_solver|].
  case_decide; [done|]. destruct (grow_hole_at b n hs) eqn:E; [done|].
  apply elem_of_cons in Hin as [->|Hin]; auto.
Qed.

(** The end of a hole of a well-formed memory does not wrap. *)
Lemma wf_hole_end m h :
  memory_wf m -> h ∈ holes m ->
  s32 (hole_base h + hole_size h) = hole_base h + hole_size h.
Proof.
  intros H Hh. pose proof (wf_hole _ _ H Hh). pose proof (wf_total _ H).
  apply s32_id. ints. lia.
Qed.

(** The last hole ends at the old top and is extended. *)
Lemma grow_last_hole_wf m n l1 h l2 :
  memory_wf m -> 0 < n -> total_size m + n <= INT_MAX ->
  holes m = l1 ++ h :: l2 -> hole_base h + hole_size h = total_size m ->
  memory_wf (set_holes
    (fun _ => l1 ++ mk_hole (hole_base h) (hole_size h + n) :: l2)
    (set_total_size (total_size m + n) m)).
Proof.
  intros Hwf Hn Hmax E Hh. pose proof Hwf as [Ht Htile Hco].
  assert (h ∈ holes m) as Hin by (rewrite E; set_solver).
  pose proof (wf_hole _ _ Hwf Hin) as Hb.
  constructor; cbn; [lia| |].
  - unfold extents in *. cbn. rewrite E in Htile.
    rewrite fmap_app, fmap_cons in *.
    eapply tiled_perm; [|reflexivity|apply (tiled_grow_last (hole_base h)
      (hole_size h) ((seg_extent <$> segments m) ++ (hole_extent <$> l1)
      ++ (hole_extent <$> l2)) (total_size m) n); [|done..]].
    + unfold hole_extent at 2. cbn. solve_Permutation.
    + eapply tiled_perm; [|reflexivity|exact Htile].
      change (hole_base h, hole_size h) with (hole_extent h). solve_Permutation.
  - assert (forall x, x ∈ l1 ++ l2 -> x ∈ holes m) as Hl
      by (intros x; rewrite E; set_solver).
    intros h1 h2. rewrite <- Permutation_middle.
    intros [->|H1]%elem_of_cons [->|H2]%elem_of_cons; cbn.
    + lia.
    + pose proof (wf_hole _ _ Hwf (Hl _ H2)). lia.
    + apply (Hco h1 h); auto.
    + auto.
Qed.

(** No hole reaches the old top: the new bytes are a hole of their own. *)
Lemma append_hole_wf m n :
  memory_wf m -> 0 < n -> total_size m + n <= INT_MAX ->
  (forall h, h ∈ holes m -> hole_base h + hole_size h ≠ total_size m) ->
  memory_wf (set_holes (fun hs => hs ++ [mk_hole (total_size m) n])
    (set_total_size (total_size m + n) m)).
Proof.
  intros Hwf Hn Hmax Hno. pose proof Hwf as [Ht Htile Hco].
  constructor; cbn; [lia| |].
  - unfold extents in *. cbn. rewrite fmap_app.
    eapply tiled_perm; [|reflexivity|exact (tiled_extend _ _ n Htile Hn)].
    cbn. unfold hole_extent at 2. cbn. solve_Permutation.
  - intros h1 h2. rewrite !elem_of_app, !list_elem_of_singleton.
    intros [H1| ->] [H2| ->]; cbn; auto; [|lia].
    pose proof (wf_hole _ _ Hwf H2). lia.
Qed.

Lemma add_total_memory_cases m n :
  memory_wf m -> 0 < n -> total_size m + n <= INT_MAX ->
  (exists l1 h l2, holes m = l1 ++ h :: l2 /\
     hole_base h + hole_size h = total_size m /\
     add_total_memory n m = set_holes
       (fun _ => l1 ++ mk_hole (hole_base h) (hole_size h + n) :: l2)
       (set_total_size (total_size m + n) m)) \/
  ((forall h, h ∈ holes m -> hole_base h + hole_size h ≠ total_size m) /\
   add_total_memory n m
   = set_holes (fun hs => hs ++ [mk_hole (total_size m) n])
       (set_total_size (total_size m + n) m)).
Proof.
  intros Hwf Hn Hmax. pose proof (wf_total _ Hwf).
  unfold add_total_memory. cbn [set_total_size holes].
  assert (s32 (total_size m + n) = total_size m + n) as ->
    by (apply s32_id; ints; lia).
  destruct (grow_hole_at _ _ _) as [hs|] eqn:E; [left|right].
  - apply grow_hole_at_Some in E as (l1 & h & l2 & E & Hh & ->).
    assert (h ∈ holes m) as Hin by (rewrite E; set_solver).
    pose proof (wf_hole _ _ Hwf Hin). rewrite (wf_hole_end m) in Hh by done.
    rewrite s32_id by (ints; lia). eauto 10.
  - split; [|done]. intros h Hin.
    pose proof (grow_hole_at_None _ _ _ _ E Hin) as He.
    by rewrite (wf_hole_end m) in He.
Qed.

(** a new memory stick keeps the tables well formed, adds exactly its bytes
    to the total and to the free space, and touches no segment. *)
Theorem add_total_memory_wf (m : t_main_memory) (n : Z) :
  memory_wf m -> 0 < n -> total_size m + n <= INT_MAX ->
  memory_wf (add_total_memory n m) /\
  total_size (add_total_memory n m) = total_size m + n /\
  segments (add_total_memory n m) = segments m /\
  free_bytes (add_total_memory n m) = free_bytes m + n.
Proof.
  intros Hwf Hn Hmax. unfold free_bytes.
  destruct (add_total_memory_cases m n) as
    [(l1 & h & l2 & E & Hh & ->)|[Hno ->]]; [done..| |].
  - split_and!; [by apply grow_last_hole_wf|done..|].
    cbn. rewrite E, !sum_with_app. cbn. lia.
  - split_and!; [by apply append_hole_wf|done..|].
    cbn. rewrite sum_with_app. cbn. lia.
Qed.

Lemma add_total_memory_wf_witness :
  let m := init_main_memory 64 0 0 in
  memory_wf (add_total_memory 100 m) /\
  total_size (add_total_memory 100 m) = 100 /\
  segments (add_total_memory 100 m) = [] /\
  free_bytes (add_total_memory 100 m) = 100.
Proof.
  apply (add_total_memory_wf (init_main_memory 64 0 0) 100);
    [apply init_main_memory_wf | reflexivity | cbn; ints; lia].
Defined.

(** ** [select_hole] on a well-formed memory *)

Definition valid_strategy (m : t_main_memory) : Prop :=
  is_Some (strategy_of_value (allocation_strategy m)).

Definition fits (m : t_main_memory) (size : Z) : Prop :=
  exists h, h ∈ holes m /\ size <= hole_size h.

Lemma fits_le_free m size : memory_wf m -> fits m size -> size <= free_bytes m.
Proof.
  intros H (h & Hh & Hs).
  pose proof (sum_with_le_elem hole_size _ _ (wf_holes_nonneg _ H) Hh).
  unfold free_bytes. lia.
Qed.

Lemma not_fits m size :
  ~ fits m size -> Forall (fun h => hole_size h < size) (holes m).
Proof.
  intros H. apply Forall_forall. intros h Hh.
  destruct (decide (size <= hole_size h)); [|lia]. destruct H. by exists h.
Qed.

Lemma select_hole_fits m size :
  memory_wf m -> valid_strategy m -> 0 < size -> fits m size ->
  exists st h, strategy_of_value (allocation_strategy m) = Some st /\
    h ∈ holes m /\ size <= hole_size h /\
    (forall h', h' ∈ holes m -> size <= hole_size h' -> preferred st h h') /\
    select_hole size m = (h, update_hole_table h size m).
Proof.
  intros Hwf [st Hst] Hs (h0 & Hh0 & Hf).
  unfold select_hole. rewrite Hst. exists st.
  destruct (hole_selection_spec size st _ (wf_holes_int _ Hwf))
    as [[_ Hno]|(Hin & Hle & Hpref)].
  - rewrite Forall_forall in Hno. specialize (Hno _ Hh0). lia.
  - eauto 10.
Qed.

Lemma select_hole_none m size :
  memory_wf m -> valid_strategy m -> ~ fits m size ->
  select_hole size m = (no_hole, m).
Proof.
  intros Hwf [st Hst] Hno. unfold select_hole. rewrite Hst.
  destruct (hole_selection_spec size st _ (wf_holes_int _ Hwf))
    as [[-> _]|(Hin & Hle & _)].
  - unfold update_hole_table. rewrite (surjective_pairing (no_hole, _)).
    cbn [fst snd]. f_equal. unfold set_holes. rewrite take_from_hole_none.
    + by destruct m.
    + apply Forall_forall. intros h Hh. pose proof (wf_hole _ _ Hwf Hh).
      cbn. lia.
  - destruct Hno. eexists. eauto.
Qed.

(** A memory without segments is a single hole. *)
Lemma wf_no_segments m :
  memory_wf m -> segments m = [] ->
  forall h, h ∈ holes m -> hole_size h = free_bytes m.
Proof.
  intros [_ (l & Hp & Hc) Hco] Hs h Hh. unfold extents in Hp.
  rewrite Hs in Hp. cbn [app fmap list_fmap] in Hp.
  assert (forall e, e ∈ l -> exists h, h ∈ holes m /\ e = hole_extent h) as Hl.
  { intros e. rewrite Hp. intros (h' & -> & ?)%list_elem_of_fmap. eauto. }
  assert (length l = length (holes m)) as Hlen
    by (rewrite Hp; apply length_fmap).
  destruct l as [|e1 [|e2 l]].
  - destruct (holes m); [set_solver|done].
  - unfold free_bytes. destruct (holes m) as [|h' [|]]; [done| |done].
    apply list_elem_of_singleton in Hh as ->. cbn. lia.
  - exfalso. destruct (Hl e1) as (h1 & Hh1 & ->); [set_solver|].
    destruct (Hl e2) as (h2 & Hh2 & ->); [set_solver|].
    destruct Hc as (H1 & _ & H2 & _). apply (Hco h1 h2 Hh1 Hh2). lia.
Qed.

Lemma wf_needs_compaction m size :
  memory_wf m -> 0 < size <= free_bytes m -> ~ fits m size -> segments m ≠ [].
Proof.
  intros Hwf Hs Hno He. apply Hno.
  destruct (holes m) as [|h hs] eqn:E.
  - unfold free_bytes in Hs. rewrite E in Hs. cbn in Hs. lia.
  - exists h. rewrite E. split; [by left|].
    rewrite (wf_no_segments m) by (done || (rewrite E; by left)). lia.
Qed.

(** ** [create_segment] on every branch *)

Definition placed (m : t_main_memory) (h : t_hole) (size pid id : Z)
    : t_main_memory :=
  update_segment_list h size pid id (update_hole_table h size m).

Lemma placed_free m h size pid id :
  memory_wf m -> h ∈ holes m -> 0 < size <= hole_size h ->
  free_bytes (placed m h size pid id) = free_bytes m - size.
Proof.
  intros Hwf Hh Hs.
  pose proof (wf_sum _ (take_and_place_wf m h size pid id Hwf Hh Hs)) as H1.
  pose proof (wf_sum _ Hwf) as H2. unfold placed in *.
  unfold used in *. cbn in *. rewrite sum_with_app in H1. cbn in H1. lia.
Qed.

Lemma compacted_select m size st :
  memory_wf m -> 0 < size <= free_bytes m ->
  strategy_of_value (allocation_strategy m) = Some st ->
  let h := mk_hole (used m) (free_bytes m) in
  select_hole size (compacted m)
  = (h, update_hole_table h size (compacted m)).
Proof.
  intros Hwf Hs Hst. unfold select_hole. cbn [compacted allocation_strategy
    set_holes set_segments holes]. rewrite Hst.
  pose proof (free_bytes_bounds _ Hwf).
  unfold hole_selection_algorithm. cbn [foldl]. unfold hole_step.
  cbn [hole_size]. cint. rewrite decide_True by lia.
  destruct st; by rewrite decide_True by (by left).
Qed.

(** The memory after an allocation that had to compact first. *)
Definition compact_placed (m : t_main_memory) (size pid id : Z)
    : t_main_memory :=
  placed (compacted m) (mk_hole (used m) (free_bytes m)) size pid id.

Section create_lemmas.
Context {T : Type} `{!Transport T}.
Implicit Types (s : t_socket T).

Lemma create_segment_fits id pid size m s :
  memory_wf m -> valid_strategy m -> 0 < size <= max_segment_size m ->
  fits m size ->
  exists st h, strategy_of_value (allocation_strategy m) = Some st /\
    h ∈ holes m /\ size <= hole_size h /\
    (forall h', h' ∈ holes m -> size <= hole_size h' -> preferred st h h') /\
    create_segment id pid size m s
    = Ok (placed m h size pid id,
          (socket_send s (frame OP_MEMORY_ALLOCATED (lit "Memory allocated"))).2).
Proof.
  intros Hwf Hst Hs Hf.
  pose proof (fits_le_free _ _ Hwf Hf). pose proof (free_bytes_bounds _ Hwf).
  destruct (select_hole_fits m size) as (st & h & Es & Hh & Hle & Hpref & E);
    [done..|lia|done|].
  exists st, h. split_and!; [done..|].
  unfold create_segment. rewrite decide_False by lia. cbn [mbind res_bind].
  rewrite compute_free_space_spec, decide_False by (done || lia).
  cint. rewrite E.
  rewrite decide_False by (pose proof (wf_hole _ _ Hwf Hh); lia).
  cbn [mbind res_bind]. sends. by destruct (socket_send _ _).
Qed.

Lemma create_segment_full id pid size m s :
  memory_wf m -> size <= max_segment_size m -> free_bytes m < size ->
  create_segment id pid size m s
  = Ok (m, (socket_send s (frame OP_NOT_ENOUGH_MEMORY
                             (lit "There are not memory enough"))).2).
Proof.
  intros Hwf Hs Hf. unfold create_segment. rewrite decide_False by lia.
  cbn [mbind res_bind].
  rewrite compute_free_space_spec, decide_True by (done || lia).
  sends. by destruct (socket_send _ _).
Qed.
End create_lemmas.

(** What the scheduler has to have answered for compaction to go ahead. *)
Definition can_compact (w : wire) (payload rest : list byte) : Prop :=
  up w = true /\ rx w = frame OP_CAN_COMPACT payload ++ rest /\
  payload ≠ [] /\ sendable payload.

Lemma notify_compaction_wire w payload rest :
  can_compact w payload rest ->
  notify_compaction (Some w)
  = Ok (Some (mk_wire rest (tx w ++ frame OP_COMPACTION_NEEDED
                              (lit "Memory needs to be compacted")) true)).
Proof.
  destruct w as [r t u]. intros (Hu & Hr & Hp & Hs). cbn [rx up tx] in *. subst.
  unfold notify_compaction. sends. rewrite wire_send by done.
  rewrite receive_op_code_frame. cbn [mbind res_bind].
  rewrite decide_True by done. unfold receive_string.
  by rewrite receive_buffer_wire.
Qed.

Lemma create_segment_compacting id pid size m w payload rest :
  memory_wf m -> valid_strategy m -> 0 < size <= max_segment_size m ->
  size <= free_bytes m -> ~ fits m size -> can_compact w payload rest ->
  create_segment id pid size m (Some w)
  = Ok (compact_placed m size pid id,
        Some (mk_wire rest (tx w
          ++ frame OP_COMPACTION_NEEDED (lit "Memory needs to be compacted")
          ++ frame OP_COMPACTION_DONE (lit "Compaction finished")
          ++ frame OP_MEMORY_ALLOCATED (lit "Memory allocated")) true)).
Proof.
  intros Hwf [st Hst] Hs Hfree Hno Hw. pose proof (free_bytes_bounds _ Hwf).
  unfold create_segment. rewrite decide_False by lia. cbn [mbind res_bind].
  rewrite compute_free_space_spec, decide_False by (done || lia). cint.
  rewrite select_hole_none by (done || by exists st).
  rewrite decide_True by done.
  rewrite (notify_compaction_wire _ _ _ Hw). cbn [mbind res_bind].
  rewrite compact_memory_ok
    by (done || (apply (wf_needs_compaction m size); done || lia)).
  sends. rewrite wire_send by done.
  cbn [mbind res_bind].
  rewrite (compacted_select m size st) by (done || lia).
  cbn [mbind res_bind].
  sends. rewrite wire_send by done.
  unfold compact_placed, placed. by rewrite <- !app_assoc.
Qed.

(** ** What the allocator promises

    The abstract memory: which segments exist, with their sizes, in table
    order; bases and holes are the implementation's business. *)
Definition contents (m : t_main_memory) : list (Z * Z * Z) :=
  (fun s => (seg_id s, seg_pid s, seg_size s)) <$> segments m.

Lemma contents_placed m h size pid id :
  contents (placed m h size pid id) = contents m ++ [(id, pid, size)].
Proof. unfold contents, placed. cbn. by rewrite fmap_app. Qed.

Lemma contents_packed lo l :
  (fun s => (seg_id s, seg_pid s, seg_size s)) <$> packed lo l
  = (fun s => (seg_id s, seg_pid s, seg_size s)) <$> l.
Proof. revert lo. induction l as [|s l IH]; intros; cbn; [done|]. by rewrite IH. Qed.

Lemma contents_compacted m : contents (compacted m) = contents m.
Proof. apply contents_packed. Qed.

Lemma compacted_free m : free_bytes (compacted m) = free_bytes m.
Proof. unfold free_bytes. cbn. unfold free_bytes. lia. Qed.

Lemma compact_placed_spec m size pid id :
  memory_wf m -> segments m ≠ [] -> 0 < size <= free_bytes m ->
  memory_wf (compact_placed m size pid id) /\
  contents (compact_placed m size pid id) = contents m ++ [(id, pid, size)] /\
  free_bytes (compact_placed m size pid id) = free_bytes m - size.
Proof.
  intros Hwf Hne Hs. unfold compact_placed.
  assert (memory_wf (compacted m)) as Hc by (apply compacted_wf; done || lia).
  assert (mk_hole (used m) (free_bytes m) ∈ holes (compacted m)) as Hh by (by left).
  split_and!.
  - by apply take_and_place_wf.
  - by rewrite contents_placed, contents_compacted.
  - by rewrite placed_free, compacted_free.
Qed.

#[export] Instance fits_dec m size : Decision (fits m size).
Proof.
  destruct (decide (Exists (fun h => size <= hole_size h) (holes m))) as [H|H];
    rewrite Exists_exists in H; [left|right]; exact H.
Defined.

(** The contract of [create_segment] towards its caller. *)
Definition alloc_spec (id pid size : Z) (m : t_main_memory) (w : wire)
    (m' : t_main_memory) (w' : wire) : Prop :=
  memory_wf m' /\
  if decide (size <= free_bytes m) then
    contents m' = contents m ++ [(id, pid, size)] /\
    free_bytes m' = free_bytes m - size /\
    exists pre, tx w' = tx w ++ pre
                        ++ frame OP_MEMORY_ALLOCATED (lit "Memory allocated")
  else
    m' = m /\
    tx w' = tx w ++ frame OP_NOT_ENOUGH_MEMORY (lit "There are not memory enough").

(** C5: [create_segment] implements its contract: on a well-formed memory, a
    request that fits in the free space succeeds however fragmented memory is
    (compacting when no hole is large enough and the scheduler agrees), a
    larger one leaves memory as it was; the tables stay well formed. *)
Theorem create_segment_refines (id pid size : Z) (m : t_main_memory)
    (w : wire) (payload rest : list byte) :
  memory_wf m -> valid_strategy m -> 0 < size <= max_segment_size m ->
  can_compact w payload rest ->
  exists m' w', create_segment id pid size m (Some w) = Ok (m', Some w') /\
                alloc_spec id pid size m w m' w'.
Proof.
  intros Hwf Hst Hs Hw. unfold alloc_spec.
  assert (up w = true) as Hup by apply Hw.
  destruct w as [r t u]; cbn in Hup; subst u.
  destruct (decide (size <= free_bytes m)) as [Hfree|Hfull].
  - destruct (decide (fits m size)) as [Hf|Hf].
    + destruct (create_segment_fits id pid size m (Some (mk_wire r t true)))
        as (st & h & _ & Hh & Hle & _ & ->); [done..|].
      rewrite wire_send by done. do 2 eexists. split_and!; [done|..].
      * apply take_and_place_wf; done || lia.
      * apply contents_placed.
      * apply placed_free; done || lia.
      * by exists [].
    + rewrite (create_segment_compacting _ _ _ _ _ payload rest) by done.
      destruct (compact_placed_spec m size pid id) as (H1 & H2 & H3);
        [done|apply (wf_needs_compaction m size); done || lia|lia|].
      do 2 eexists. split_and!; [done..|].
      eexists. cbn [tx]. by rewrite (app_assoc (frame OP_COMPACTION_NEEDED _)).
  - rewrite create_segment_full by (done || lia).
    rewrite wire_send by done. by do 2 eexists.
Qed.

(** Two segments of 30 bytes with 20 free bytes on each side of the second. *)
Definition fragmented : t_main_memory :=
  mk_main_memory 0 100 64
    [mk_segment 0 1 0 30; mk_segment 0 2 50 30]
    [mk_hole 30 20; mk_hole 80 20] 0.

Lemma fragmented_wf : memory_wf fragmented.
Proof.
  constructor; cbn.
  - ints. lia.
  - exists [(0, 30); (30, 20); (50, 30); (80, 20)]. split.
    + unfold extents. cbn. unfold seg_extent, hole_extent. cbn.
      solve_Permutation.
    + cbn. repeat split; lia.
  - intros h1 h2. rewrite !elem_of_cons. intros. set_unfold.
    repeat match goal with H : _ \/ _ |- _ => destruct H end;
      subst; cbn; (lia || done).
Qed.

Lemma create_segment_refines_witness :
  let w := mk_wire (frame OP_CAN_COMPACT (lit "ok") ++ []) [] true in
  exists m' w',
    create_segment 1 2 35 fragmented (Some w) = Ok (m', Some w') /\
    alloc_spec 1 2 35 fragmented w m' w'.
Proof.
  apply (create_segment_refines 1 2 35 fragmented
    (mk_wire (frame OP_CAN_COMPACT (lit "ok") ++ []) [] true) (lit "ok") []).
  - apply fragmented_wf.
  - by eexists.
  - done.
  - repeat split; [done|vm_compute; done].
Defined.

(** C35: when some hole is large enough nothing is moved: the segment is placed
    at the start of the hole the configured strategy prefers (the smallest that
    fits for BEST, the largest for WORST), the other segments and the other
    holes stay where they are, and one reply is sent. *)
Theorem create_segment_best_worst_fit {T} `{!Transport T} (id pid size : Z)
    (m : t_main_memory) (s : t_socket T) :
  memory_wf m -> valid_strategy m -> 0 < size <= max_segment_size m ->
  fits m size ->
  exists st h m', strategy_of_value (allocation_strategy m) = Some st /\
    h ∈ holes m /\
    (forall h', h' ∈ holes m -> size <= hole_size h' -> preferred st h h') /\
    create_segment id pid size m s
    = Ok (m', (socket_send s (frame OP_MEMORY_ALLOCATED
                                (lit "Memory allocated"))).2) /\
    segments m' = segments m ++ [mk_segment id pid (hole_base h) size] /\
    (forall h', h' ∈ holes m -> h' ≠ h -> h' ∈ holes m') /\
    (hole_size h ≠ size ->
     mk_hole (hole_base h + size) (hole_size h - size) ∈ holes m').
Proof.
  intros Hwf Hst Hs Hf.
  destruct (create_segment_fits id pid size m s)
    as (st & h & Est & Hh & Hle & Hpref & ->); [done..|].
  destruct (take_from_hole_split m h size Hwf Hh) as (l & Hp & Hp'); [lia|].
  exists st, h, (placed m h size pid id).
  split_and!; [done..| |].
  - intros h' Hin Hne. cbn. rewrite Hp'. rewrite Hp in Hin.
    apply elem_of_app. right. by apply elem_of_cons in Hin as [?|?].
  - intros Hne. cbn. rewrite Hp'. unfold remainder.
    rewrite decide_False by done. by left.
Qed.

Lemma create_segment_best_worst_fit_witness :
  exists st h m', strategy_of_value 0 = Some st /\
    h ∈ holes fragmented /\
    (forall h', h' ∈ holes fragmented -> 15 <= hole_size h' ->
       preferred st h h') /\
    create_segment 7 9 15 fragmented (@None wire)
    = Ok (m', (socket_send None (frame OP_MEMORY_ALLOCATED
                                (lit "Memory allocated"))).2) /\
    segments m' = segments fragmented ++ [mk_segment 7 9 (hole_base h) 15] /\
    (forall h', h' ∈ holes fragmented -> h' ≠ h -> h' ∈ holes m') /\
    (hole_size h ≠ 15 ->
     mk_hole (hole_base h + 15) (hole_size h - 15) ∈ holes m').
Proof.
  apply (create_segment_best_worst_fit 7 9 15 fragmented (@None wire));
    [apply fragmented_wf | by eexists | done |].
  exists (mk_hole 30 20). split; [by left|done].
Defined.

(** ** The tables stay well formed whatever the peer does *)

Section create_wf.
Context {T : Type} `{!Transport T}.

(** The memory, its configuration untouched, after an operation. *)
Definition wf_config (m m' : t_main_memory) : Prop :=
  memory_wf m' /\ allocation_strategy m' = allocation_strategy m /\
  max_segment_size m' = max_segment_size m.

Lemma placed_config m h size pid id :
  memory_wf m -> h ∈ holes m -> 0 < size <= hole_size h ->
  wf_config m (placed m h size pid id).
Proof. intros. split_and!; [by apply take_and_place_wf|done..]. Qed.

Lemma compact_placed_config m size pid id :
  memory_wf m -> segments m ≠ [] -> 0 < size <= free_bytes m ->
  wf_config m (compact_placed m size pid id).
Proof. intros. split_and!; [by apply compact_placed_spec|done..]. Qed.

Lemma create_segment_wf id pid size m (s s' : t_socket T) m' :
  memory_wf m -> valid_strategy m -> 0 < size <= INT_MAX ->
  create_segment id pid size m s = Ok (m', s') -> wf_config m m'.
Proof.
  intros Hwf Hst Hs H. unfold create_segment in H.
  inv_bind H as s1 E1. rewrite compute_free_space_spec in H by done.
  case_decide as Hfree; [inv_bind H as [b s2] E2; by simplify_eq|].
  rewrite u32_id in H by (ints; lia).
  destruct (decide (fits m size)) as [Hf|Hf].
  - destruct (select_hole_fits m size) as (st & h & _ & Hh & Hle & _ & E);
      [done..|lia|done|].
    rewrite E, decide_False in H by lia. cbn [mbind res_bind] in H.
    inv_bind H as [b s2] E2. simplify_eq. apply placed_config; done || lia.
  - rewrite (select_hole_none m size), decide_True in H by done.
    inv_bind H as [[h2 m2] s2] E2. inv_bind E2 as s3 E3. inv_bind E2 as [m3 s4] E4.
    assert (segments m ≠ []) as Hne
      by (apply (wf_needs_compaction m size); done || lia).
    rewrite compact_memory_ok in E4 by done. inv_bind E4 as [b1 s5] E5. simplify_eq.
    destruct Hst as [st Hst].
    rewrite (compacted_select m size st) in E2 by (done || lia). simplify_eq.
    inv_bind H as [b2 s6] E6. simplify_eq. apply compact_placed_config; done || lia.
Qed.
End create_wf.
