(* ===== verification/Segments.v ===== *)
(** * Segments: kernel_memory/src/kernel_memory/segments.c

    The segment table: removal with merging of the freed bytes into the
    neighbouring holes (MEM_FREE), lookup by ordinal, per-process views. *)

From Stdlib Require Import Strings.Byte Strings.String.
From S2P Require Import Prelude Bytes Msg Structs MainMemory Compaction Holes.

(** ** Operations *)

Definition is_segment (id pid : Z) (s : t_segment) : bool :=
  bool_decide (seg_id s = id /\ seg_pid s = pid).

(** The segment found ([None] is NULL), unlinked from the table. *)
Definition find_and_remove_segment (id pid : Z) (m : t_main_memory)
    : option t_segment * t_main_memory :=
  (l_find (is_segment id pid) (segments m),
   set_segments (l_remove_first (is_segment id pid)) m).

(** The loop of [find_adjacent_hole_indices] from index [i]. *)
Fixpoint adjacent_from (i : Z) (hs : list t_hole) (segment_base segment_end : Z)
    (index_before index_after : Z) : Z * Z :=
  match hs with
  | [] => (index_before, index_after)
  | h :: r =>
      adjacent_from (i + 1) r segment_base segment_end
        (if decide (s32 (hole_base h + hole_size h) = segment_base)
         then i else index_before)
        (if decide (hole_base h = segment_end) then i else index_after)
  end.

Definition find_adjacent_hole_indices (hs : list t_hole)
    (segment_base segment_size : Z) : Z * Z :=
  adjacent_from 0 hs segment_base (s32 (segment_base + segment_size)) (-1) (-1).

(** The hole table after the bytes of [segment_aux] come back. *)
Definition release_segment (segment_aux : t_segment) (hs : list t_hole)
    : res (list t_hole) :=
  let (index_before, index_after) :=
    find_adjacent_hole_indices hs (seg_base segment_aux) (seg_size segment_aux) in
  if decide (index_before ≠ -1 /\ index_after ≠ -1) then
    hole_before ← deref (l_get hs index_before);
    hole_after ← deref (l_get hs index_after);
    let new_hole := mk_hole (hole_base hole_before)
      (s32 (seg_size segment_aux
            + s32 (hole_size hole_before + hole_size hole_after))) in
    let hs :=
      if decide (index_before < index_after)
      then l_remove (l_remove hs index_after) index_before
      else l_remove (l_remove hs index_before) index_after in
    Ok (hs ++ [new_hole])
  else if decide (index_before ≠ -1) then
    hole_before ← deref (l_get hs index_before);
    Ok (l_remove hs index_before
        ++ [mk_hole (hole_base hole_before)
              (s32 (seg_size segment_aux + hole_size hole_before))])
  else if decide (index_after ≠ -1) then
    hole_after ← deref (l_get hs index_after);
    Ok (l_remove hs index_after
        ++ [mk_hole (seg_base segment_aux)
              (s32 (seg_size segment_aux + hole_size hole_after))])
  else
    Ok (hs ++ [mk_hole (seg_base segment_aux) (seg_size segment_aux)]).

Definition remove_segment (id pid : Z) (m : t_main_memory)
    : res t_main_memory :=
  let (found, m) := find_and_remove_segment id pid m in
  match found with
  | None => Ok m
  | Some segment_aux =>
      hs ← release_segment segment_aux (holes m);
      Ok (set_holes (fun _ => hs) m)
  end.

Definition hole_before_segment (base_segment final_segment : Z)
    (hs : list t_hole) : bool :=
  existsb (fun h => bool_decide (s32 (hole_base h + hole_size h) = base_segment)) hs.

Definition hole_after_segment (base_segment final_segment : Z)
    (hs : list t_hole) : bool :=
  existsb (fun h => bool_decide (hole_base h = final_segment)) hs.

(** [pid] is an [int] here; the comparison converts it. *)
Definition filter_process_segments (pid : Z) (m : t_main_memory)
    : list t_segment :=
  base.filter (fun s => seg_pid s = u32 pid) (segments m).

Definition add_segments_to_packet (segs : list t_segment) (p : t_packet)
    : t_packet :=
  foldl (fun p s => packet_append p (segment_bytes s)) p segs.

(** The loop of [find_segment]: the [segment_number]-th segment of [pid] in
    table order, which need not be the one with that id. *)
Fixpoint find_segment_from (pid_segment_count : Z) (l : list t_segment)
    (pid segment_number : Z) : option t_segment :=
  match l with
  | [] => None
  | s :: r =>
      if decide (seg_pid s = pid) then
        if decide (pid_segment_count = segment_number) then Some s
        else find_segment_from (u32 (pid_segment_count + 1)) r pid segment_number
      else find_segment_from pid_segment_count r pid segment_number
  end.

Definition find_segment (m : t_main_memory) (pid segment_number : Z)
    : option t_segment :=
  find_segment_from 0 (segments m) pid segment_number.

Definition compute_process_size (pid : Z) (m : t_main_memory) : Z :=
  foldl (fun size s =>
           if decide (seg_pid s = pid) then s32 (size + seg_size s) else size)
    0 (segments m).

(** ** Finding the neighbours *)

(** What an index returned by the scan says: none, or the position of a hole
    that satisfies [P]. *)
Definition found_at (hs : list t_hole) (P : t_hole -> Prop) (i : Z) : Prop :=
  (i = -1 /\ forall h, h ∈ hs -> ~ P h) \/
  (i ≠ -1 /\ exists h, l_get hs i = Some h /\ P h).

Lemma l_get_snoc_last {A} (l : list A) x : l_get (l ++ [x]) (l_size l) = Some x.
Proof. unfold l_size. rewrite l_get_nat. by apply list_lookup_middle. Qed.

Lemma l_get_snoc {A} (l : list A) x y i :
  l_get l i = Some y -> l_get (l ++ [x]) i = Some y.
Proof.
  rewrite !l_get_Some. intros [? H]. split; [done|]. by apply lookup_app_l_Some.
Qed.

Lemma found_at_snoc hs h P `{!Decision (P h)} i :
  found_at hs P i ->
  found_at (hs ++ [h]) P (if decide (P h) then l_size hs else i).
Proof.
  intros Hi. case_decide as HP.
  - right. split; [unfold l_size; lia|]. exists h. by rewrite l_get_snoc_last.
  - destruct Hi as [[-> Hno]|(Hne & x & Hx & HPx)].
    + left. split; [done|]. intros x [Hx| ->%list_elem_of_singleton]%elem_of_app;
        auto.
    + right. split; [done|]. exists x. split; [by apply l_get_snoc|done].
Qed.

Lemma adjacent_from_snoc hs h i b e ib ia :
  adjacent_from i (hs ++ [h]) b e ib ia
  = let (jb, ja) := adjacent_from i hs b e ib ia in
    (if decide (s32 (hole_base h + hole_size h) = b)
     then i + l_size hs else jb,
     if decide (hole_base h = e) then i + l_size hs else ja).
Proof.
  unfold l_size. revert i ib ia. induction hs as [|x hs IH]; intros i ib ia.
  - cbn. rewrite Z.add_0_r. done.
  - cbn [app adjacent_from]. rewrite IH. destruct (adjacent_from _ _ _ _ _ _).
    by replace (i + 1 + Z.of_nat (length hs)) with
      (i + Z.of_nat (length (x :: hs))) by (cbn [length]; lia).
Qed.

Lemma find_adjacent_spec hs b n :
  let (ib, ia) := find_adjacent_hole_indices hs b n in
  found_at hs (fun h => s32 (hole_base h + hole_size h) = b) ib /\
  found_at hs (fun h => hole_base h = s32 (b + n)) ia.
Proof.
  unfold find_adjacent_hole_indices.
  induction hs as [|h hs IH] using rev_ind.
  - split; left; (split; [done|]); set_solver.
  - rewrite adjacent_from_snoc. destruct (adjacent_from 0 hs b _ _ _) as [ib ia].
    destruct IH. rewrite Z.add_0_l. split; by apply found_at_snoc.
Qed.

(** ** Returning an extent to the hole table *)

(** [neighbours hs s ob oa l]: [ob] ends where [s] begins, [oa] begins where it
    ends, [l] are the other holes. *)
Record neighbours (hs : list t_hole) (s : t_segment) (ob oa : option t_hole)
    (l : list t_hole) : Prop := {
  nb_perm : hs ≡ₚ option_list ob ++ option_list oa ++ l;
  nb_before : forall h, ob = Some h -> hole_base h + hole_size h = seg_base s;
  nb_no_before : ob = None ->
    forall h, h ∈ hs -> hole_base h + hole_size h ≠ seg_base s;
  nb_after : forall h, oa = Some h -> hole_base h = seg_base s + seg_size s;
  nb_no_after : oa = None ->
    forall h, h ∈ hs -> hole_base h ≠ seg_base s + seg_size s }.

Definition size_or_0 (o : option t_hole) : Z := from_option hole_size 0 o.

Definition merged (s : t_segment) (ob oa : option t_hole) : t_hole :=
  mk_hole (from_option hole_base (seg_base s) ob)
    (seg_size s + (size_or_0 ob + size_or_0 oa)).

Lemma merged_tiled s ob oa l hs rest total :
  neighbours hs s ob oa l ->
  tiled (seg_extent s :: (hole_extent <$> option_list ob)
         ++ (hole_extent <$> option_list oa) ++ rest) total ->
  tiled (hole_extent (merged s ob oa) :: rest) total.
Proof.
  intros [_ Hb _ Ha _] Ht. unfold merged, seg_extent, hole_extent in *.
  destruct oa as [ha|]; cbn in *.
  - specialize (Ha ha eq_refl). rewrite Ha in Ht.
    assert (tiled ((seg_base s, seg_size s + hole_size ha)
      :: ((fun h => (hole_base h, hole_size h)) <$> option_list ob) ++ rest) total)
      as Ht'.
    { apply tiled_merge. eapply tiled_perm; [|reflexivity|exact Ht].
      solve_Permutation. }
    clear Ht. destruct ob as [hb|]; cbn in *; [|by rewrite Z.add_0_l].
    specialize (Hb hb eq_refl). rewrite <- Hb in Ht'.
    rewrite Permutation_swap in Ht'. apply tiled_merge in Ht'.
    by replace (seg_size s + (hole_size hb + hole_size ha))
      with (hole_size hb + (seg_size s + hole_size ha)) by lia.
  - destruct ob as [hb|]; cbn in *; [|by rewrite Z.add_0_r].
    specialize (Hb hb eq_refl). rewrite <- Hb in Ht.
    rewrite Permutation_swap in Ht. apply tiled_merge in Ht.
    by replace (seg_size s + (hole_size hb + 0))
      with (hole_size hb + seg_size s) by lia.
Qed.

Lemma merged_coalesced m s ob oa l :
  memory_wf m -> s ∈ segments m -> neighbours (holes m) s ob oa l ->
  coalesced (merged s ob oa :: l).
Proof.
  intros Hwf Hs [Hp Hb Hnb Ha Hna]. pose proof (wf_coalesced _ Hwf) as Hco.
  pose proof (wf_segment _ _ Hwf Hs) as Hsb.
  assert (Hl : forall x, x ∈ l -> x ∈ holes m) by (intros; rewrite Hp; set_solver).
  assert (forall x, ob = Some x -> x ∈ holes m) as Hbin
    by (intros x ->; rewrite Hp; set_solver).
  assert (forall x, oa = Some x -> x ∈ holes m) as Hain
    by (intros x ->; rewrite Hp; set_solver).
  assert (hole_base (merged s ob oa) + hole_size (merged s ob oa)
          = seg_base s + seg_size s + size_or_0 oa) as Hend.
  { unfold merged. cbn. destruct ob as [x|]; cbn; [|lia].
    specialize (Hb x eq_refl). lia. }
  assert (0 <= size_or_0 ob /\ 0 <= size_or_0 oa) as Hnn.
  { split; [destruct ob as [x|]|destruct oa as [x|]]; cbn; try lia.
    - pose proof (wf_hole _ _ Hwf (Hbin x eq_refl)). lia.
    - pose proof (wf_hole _ _ Hwf (Hain x eq_refl)). lia. }
  intros h1 h2 [->|H1]%elem_of_cons [->|H2]%elem_of_cons.
  - cbn. lia.
  - rewrite Hend. destruct oa as [x|]; cbn.
    + specialize (Ha x eq_refl). rewrite <- Ha. auto.
    + rewrite Z.add_0_r. intros He. by apply (Hna eq_refl h2 (Hl _ H2)).
  - cbn. destruct ob as [x|]; cbn; auto.
  - auto.
Qed.

Lemma release_wf m s segs ob oa l hs' :
  memory_wf m -> segments m ≡ₚ s :: segs -> neighbours (holes m) s ob oa l ->
  hs' ≡ₚ merged s ob oa :: l ->
  let m' := set_holes (fun _ => hs') (set_segments (fun _ => segs) m) in
  memory_wf m' /\ free_bytes m' = free_bytes m + seg_size s.
Proof.
  intros Hwf Hsegs Hn Hhs'. pose proof Hwf as [Ht Htile _].
  assert (s ∈ segments m) as Hs by (rewrite Hsegs; by left).
  pose proof (nb_perm _ _ _ _ _ Hn) as Hp. split.
  - constructor; cbn; [done| |].
    + unfold extents in *. rewrite Hsegs, Hp in Htile. cbn in *. rewrite Hhs'.
      rewrite !fmap_app in Htile. rewrite fmap_cons, <- Permutation_middle.
      eapply merged_tiled; [done|].
      eapply tiled_perm; [|reflexivity|exact Htile]. solve_Permutation.
    + intros h1 h2. rewrite Hhs'. by apply (merged_coalesced m).
  - unfold free_bytes. cbn. rewrite Hhs', Hp, !sum_with_app. cbn.
    destruct ob, oa; cbn; lia.
Qed.

Lemma l_remove_below {A} (l : list A) i j x :
  l_get l i = Some x -> i < j -> l_get (l_remove l j) i = Some x.
Proof.
  rewrite !l_get_Some. intros [Hi H] Hj. split; [done|].
  unfold l_remove. rewrite decide_True by lia.
  rewrite list_lookup_delete_lt; [done|lia].
Qed.

(** Removing two elements, the later one first. *)
Lemma l_remove_two_perm {A} (l : list A) i j x y :
  l_get l i = Some x -> l_get l j = Some y -> i < j ->
  l ≡ₚ x :: y :: l_remove (l_remove l j) i.
Proof.
  intros Hi Hj Hlt. rewrite (l_remove_perm _ _ _ Hj) at 1.
  rewrite Permutation_swap. f_equiv. apply l_remove_perm.
  by apply l_remove_below.
Qed.

(** The indices of the two neighbours differ. *)
Lemma neighbour_indices m s i j hb ha :
  memory_wf m -> s ∈ segments m ->
  l_get (holes m) i = Some hb -> l_get (holes m) j = Some ha ->
  hole_base hb + hole_size hb = seg_base s ->
  hole_base ha = seg_base s + seg_size s -> i ≠ j.
Proof.
  intros Hwf Hs Hi Hj Hb Ha ->. rewrite Hi in Hj. simplify_eq.
  pose proof (wf_segment _ _ Hwf Hs).
  assert (ha ∈ holes m) as Hin.
  { apply l_get_Some in Hi as [_ Hi]. by apply list_elem_of_lookup_2 in Hi. }
  pose proof (wf_hole _ _ Hwf Hin). lia.
Qed.

Lemma l_get_elem {A} (l : list A) i x : l_get l i = Some x -> x ∈ l.
Proof. intros [_ H]%l_get_Some. by apply list_elem_of_lookup_2 in H. Qed.

(** [found_at] as an optional hole. *)
Lemma found_at_option m s (P : t_hole -> Prop) (Q : t_hole -> t_segment -> Prop) i :
  memory_wf m -> (forall h, h ∈ holes m -> P h <-> Q h s) ->
  found_at (holes m) P i ->
  exists o, (i = -1 /\ o = None /\ forall h, h ∈ holes m -> ~ Q h s) \/
            (i ≠ -1 /\ exists h : t_hole, o = Some h /\
               l_get (holes m) i = Some h /\ Q h s).
Proof.
  intros Hwf HPQ [[-> Hno]|(Hi & h & Hh & HP)].
  - exists None. left. split_and!; [done..|]. intros h Hin HQ.
    by apply (Hno h Hin), HPQ.
  - exists (Some h). right. split; [done|]. exists h. split_and!; [done..|].
    apply HPQ; [by eapply l_get_elem|done].
Qed.

Lemma release_segment_spec m s :
  memory_wf m -> s ∈ segments m ->
  exists hs' ob oa l, release_segment s (holes m) = Ok hs' /\
    neighbours (holes m) s ob oa l /\ hs' ≡ₚ merged s ob oa :: l.
Proof.
  intros Hwf Hs. pose proof (wf_segment _ _ Hwf Hs) as Hsb.
  pose proof (wf_total _ Hwf) as Ht. unfold release_segment.
  pose proof (find_adjacent_spec (holes m) (seg_base s) (seg_size s)) as H.
  destruct (find_adjacent_hole_indices _ _ _) as [ib ia]. destruct H as [Hb Ha].
  apply (found_at_option m s _
    (fun h s => hole_base h + hole_size h = seg_base s)) in Hb; [|done|].
  2: { intros h Hh. by rewrite (wf_hole_end m). }
  apply (found_at_option m s _
    (fun h s => hole_base h = seg_base s + seg_size s)) in Ha; [|done|].
  2: { intros h Hh. by rewrite s32_id by (ints; lia). }
  assert (forall h, h ∈ holes m -> 0 <= hole_base h /\ 0 < hole_size h /\
    hole_base h + hole_size h <= total_size m) as Hhb by (intros; by apply wf_hole).
  destruct Hb as (ob & [(-> & -> & Hnb)|(Hib & hb & -> & Hgb & Hb)]),
    Ha as (oa & [(-> & -> & Hna)|(Hia & ha & -> & Hga & Ha)]);
    rewrite ?(decide_True (P := _ /\ _)), ?(decide_False (P := _ /\ _)) by naive_solver;
    rewrite ?(decide_True (P := ib ≠ -1)), ?(decide_False (P := -1 ≠ -1)),
      ?(decide_True (P := ia ≠ -1)) by naive_solver;
    try (pose proof (Hhb _ (l_get_elem _ _ _ Hgb)));
    try (pose proof (Hhb _ (l_get_elem _ _ _ Hga)));
    rewrite ?Hgb, ?Hga; cbn [deref mbind res_bind]; cint.
  - eexists _, None, None, (holes m). split_and!; [done|by constructor|].
    unfold merged. cbn. rewrite Z.add_0_r. apply Permutation_app_comm.
  - eexists _, None, (Some ha), (l_remove (holes m) ia). split_and!; [done| |].
    + constructor; naive_solver (eauto using l_remove_perm).
    + unfold merged. cbn. apply Permutation_app_comm.
  - eexists _, (Some hb), None, (l_remove (holes m) ib). split_and!; [done| |].
    + constructor; naive_solver (eauto using l_remove_perm).
    + unfold merged. cbn. rewrite Z.add_0_r. apply Permutation_app_comm.
  - pose proof (neighbour_indices m s ib ia hb ha Hwf Hs Hgb Hga Hb Ha).
    eexists _, (Some hb), (Some ha), (if decide (ib < ia)
        then l_remove (l_remove (holes m) ia) ib
        else l_remove (l_remove (holes m) ib) ia). split_and!; [done| |].
    + constructor; [cbn|naive_solver..].
      case_decide; [by apply l_remove_two_perm|].
      rewrite Permutation_swap. apply l_remove_two_perm; lia || done.
    + unfold merged. cbn. apply Permutation_app_comm.
Qed.

(** ** MEM_FREE *)

Lemma l_find_remove_perm (m : t_main_memory) id pid s :
  l_find (is_segment id pid) (segments m) = Some s ->
  s ∈ segments m /\
  segments m ≡ₚ s :: l_remove_first (is_segment id pid) (segments m).
Proof.
  intros H. split; [by apply l_find_Some in H as [_ H]|].
  by apply l_remove_first_perm.
Qed.

(** Freeing a segment that exists, and one that does not. *)
Lemma remove_segment_found (id pid : Z) (m : t_main_memory) s :
  memory_wf m -> l_find (is_segment id pid) (segments m) = Some s ->
  exists m', remove_segment id pid m = Ok m' /\ memory_wf m' /\
    total_size m' = total_size m /\ free_bytes m' = free_bytes m + seg_size s /\
    segments m' = l_remove_first (is_segment id pid) (segments m).
Proof.
  intros Hwf E. unfold remove_segment, find_and_remove_segment. rewrite E.
  destruct (l_find_remove_perm m id pid s E) as [Hs Hp].
  destruct (release_segment_spec m s Hwf Hs) as (hs' & ob & oa & l & Hr & Hn & Hp').
  cbn [set_segments holes]. rewrite Hr. cbn [mbind res_bind].
  destruct (release_wf m s _ ob oa l hs' Hwf Hp Hn Hp') as [H1 H2].
  eexists. by split_and!; [done|exact H1|done|exact H2|].
Qed.

Lemma remove_segment_absent (id pid : Z) (m : t_main_memory) :
  l_find (is_segment id pid) (segments m) = None -> remove_segment id pid m = Ok m.
Proof.
  intros E. unfold remove_segment, find_and_remove_segment. rewrite E. unfold set_segments.
  rewrite l_remove_first_none by done. by destruct m.
Qed.

(** C6: freeing a segment of a well-formed memory returns exactly its bytes:
    the entry disappears, the freed extent is merged with the holes it touches
    so that the tables stay a tiling without adjacent holes; freeing a segment
    that does not exist changes nothing. *)
Theorem remove_segment_refines (id pid : Z) (m : t_main_memory) :
  memory_wf m ->
  exists m', remove_segment id pid m = Ok m' /\ memory_wf m' /\
    total_size m' = total_size m /\
    match l_find (is_segment id pid) (segments m) with
    | Some s =>
        free_bytes m' = free_bytes m + seg_size s /\
        segments m' = l_remove_first (is_segment id pid) (segments m)
    | None => m' = m
    end.
Proof.
  intros Hwf. destruct (l_find _ _) as [s|] eqn:E.
  - destruct (remove_segment_found id pid m s Hwf E) as (m' & ? & ? & ? & ? & ?). by exists m'.
  - exists m. by rewrite remove_segment_absent.
Qed.

Lemma remove_segment_refines_witness :
  exists m', remove_segment 0 2 fragmented = Ok m' /\ memory_wf m' /\
    total_size m' = total_size fragmented /\
    match l_find (is_segment 0 2) (segments fragmented) with
    | Some s =>
        free_bytes m' = free_bytes fragmented + seg_size s /\
        segments m' = l_remove_first (is_segment 0 2) (segments fragmented)
    | None => m' = fragmented
    end.
Proof. apply (remove_segment_refines 0 2 fragmented), fragmented_wf. Defined.

(** The segment freed above sat between two holes: one hole remains. *)
Example remove_between_holes :
  remove_segment 0 2 fragmented
  = Ok (mk_main_memory 0 100 64 [mk_segment 0 1 0 30] [mk_hole 30 70] 0).
Proof. reflexivity. Qed.

Lemma l_find_app_none {A} (p : A -> bool) l x :
  l_find p l = None -> p x = true ->
  l_find p (l ++ [x]) = Some x /\ l_remove_first p (l ++ [x]) = l.
Proof.
  intros H Hx. induction l as [|y l IH]; cbn in *; [by rewrite Hx|].
  destruct (p y); [done|]. destruct (IH H) as [-> ->]. done.
Qed.

(** MEM_ALLOC followed by MEM_FREE of the new segment gives the segment
    table back exactly, and all the free space, wherever it was placed. *)
Theorem create_then_remove (id pid size : Z) (m m' : t_main_memory)
    (s s' : t_socket wire) :
  memory_wf m -> valid_strategy m -> 0 < size <= max_segment_size m ->
  fits m size -> l_find (is_segment id pid) (segments m) = None ->
  create_segment id pid size m s = Ok (m', s') ->
  exists m'', remove_segment id pid m' = Ok m'' /\ memory_wf m'' /\
    segments m'' = segments m /\ free_bytes m'' = free_bytes m.
Proof.
  intros Hwf Hst Hs Hf Hnew Hc.
  destruct (create_segment_fits id pid size m s)
    as (st & h & _ & Hh & Hle & _ & E); [done..|].
  rewrite E in Hc. simplify_eq. clear E.
  pose proof (take_and_place_wf m h size pid id Hwf Hh) as Hwf'.
  pose proof (placed_free m h size pid id Hwf Hh) as Hfree.
  destruct (l_find_app_none (is_segment id pid) (segments m)
    (mk_segment id pid (hole_base h) size)) as [Hfind Hrem]; [done| |].
  { by apply bool_decide_eq_true. }
  destruct (l_find_remove_perm (placed m h size pid id) id pid _ Hfind)
    as [Hin Hp].
  destruct (release_segment_spec (placed m h size pid id) _ (Hwf' ltac:(lia)) Hin)
    as (hs' & ob & oa & l & Hr & Hn & Hp').
  unfold remove_segment, find_and_remove_segment.
  change (segments (placed m h size pid id))
    with (segments m ++ [mk_segment id pid (hole_base h) size]) in *.
  rewrite Hfind. cbn [set_segments holes]. rewrite Hr. cbn [mbind res_bind].
  destruct (release_wf _ _ _ ob oa l hs' (Hwf' ltac:(lia)) Hp Hn Hp') as [H1 H2].
  eexists. split_and!; [done| | |].
  - cbn. exact H1.
  - exact Hrem.
  - etrans; [exact H2|]. fold (placed m h size pid id). rewrite Hfree; cbn; lia.
Qed.

Lemma create_then_remove_witness :
  let m' := mk_main_memory 0 100 64
    [mk_segment 0 1 0 30; mk_segment 0 2 50 30; mk_segment 3 1 30 20]
    [mk_hole 80 20] 0 in
  exists m'', remove_segment 3 1 m' = Ok m'' /\ memory_wf m'' /\
    segments m'' = segments fragmented /\ free_bytes m'' = free_bytes fragmented.
Proof.
  apply (create_then_remove 3 1 20 fragmented _ None None);
    [apply fragmented_wf | by eexists | done | | done | reflexivity].
  exists (mk_hole 30 20). split; [by left|done].
Defined.

(** ** Per-process views *)

Lemma find_segment_from_nth l pid n k :
  0 <= n -> k + l_size l <= UINT32_MAX -> 0 <= k <= n ->
  find_segment_from k l pid n
  = l_get (base.filter (fun s => seg_pid s = pid) l) (n - k).
Proof.
  unfold l_size. revert k. induction l as [|s l IH]; intros k Hn Hb Hk.
  - cbn. unfold l_get. by case_decide.
  - cbn [find_segment_from length] in *. rewrite filter_cons.
    case_decide as Hp.
    + case_decide as Hkn.
      * subst. by rewrite Z.sub_diag.
      * cint. rewrite IH by lia.
        unfold l_get. rewrite !decide_True by lia.
        by replace (Z.to_nat (n - k)) with (S (Z.to_nat (n - (k + 1)))) by lia.
    + apply IH; lia.
Qed.

Lemma filter_process_segments_pid pid m s :
  in_u32 pid -> s ∈ filter_process_segments pid m <->
  seg_pid s = pid /\ s ∈ segments m.
Proof.
  intros. unfold filter_process_segments. cint. by rewrite list_elem_of_filter.
Qed.

(** [find_segment] returns the [segment_number]-th entry of the process in
    table order: the ordinal of the segment, whatever its id. *)
Theorem find_segment_by_ordinal (m : t_main_memory) (pid segment_number : Z) :
  in_u32 pid -> 0 <= segment_number -> l_size (segments m) <= UINT32_MAX ->
  find_segment m pid segment_number
  = l_get (filter_process_segments pid m) segment_number.
Proof.
  intros Hp Hn Hl. unfold find_segment, filter_process_segments. cint.
  rewrite find_segment_from_nth by lia. by rewrite Z.sub_0_r.
Qed.

(** After MEM_FREE of segment 0, the ordinal 1 of the process is gone although
    its segment 1 is still allocated. *)
Lemma find_segment_by_ordinal_witness :
  let m := mk_main_memory 0 100 64
    [mk_segment 1 5 10 20; mk_segment 2 5 30 20] [] 0 in
  find_segment m 5 1 = l_get (filter_process_segments 5 m) 1.
Proof. apply find_segment_by_ordinal; vm_compute; intuition congruence. Defined.

Lemma compute_process_size_acc pid l acc :
  Forall (fun s => 0 <= seg_size s) l -> 0 <= acc ->
  acc + sum_with seg_size l <= INT_MAX ->
  foldl (fun size s =>
    if decide (seg_pid s = pid) then s32 (size + seg_size s) else size) acc l
  = acc + sum_with seg_size (base.filter (fun s => seg_pid s = pid) l).
Proof.
  intros H. revert acc. induction H as [|s l Hs Hl IH]; intros acc Ha Hb;
    cbn [foldl sum_with] in *.
  - cbn. lia.
  - pose proof (sum_with_nonneg seg_size _ Hl). rewrite filter_cons.
    case_decide; [cint; rewrite IH by lia; cbn; lia|]. apply IH; lia.
Qed.

Lemma compute_process_size_spec pid m :
  memory_wf m -> in_u32 pid ->
  compute_process_size pid m
  = sum_with seg_size (filter_process_segments pid m).
Proof.
  intros Hwf Hp. unfold compute_process_size, filter_process_segments. cint.
  pose proof (wf_sum _ Hwf). pose proof (wf_total _ Hwf).
  pose proof (free_bytes_bounds _ Hwf). unfold used in *.
  rewrite compute_process_size_acc by (lia || by apply wf_segments_nonneg). lia.
Qed.

Lemma add_segments_to_packet_stream segs p :
  stream (add_segments_to_packet segs p)
  = stream p ++ elements (segment_bytes <$> segs).
Proof.
  unfold add_segments_to_packet, elements. revert p.
  induction segs as [|s segs IH]; intros p; cbn [foldl].
  - by rewrite app_nil_r.
  - rewrite IH. cbn. by rewrite <- !app_assoc.
Qed.

Lemma add_segments_to_packet_op segs p :
  op_code (add_segments_to_packet segs p) = op_code p.
Proof.
  unfold add_segments_to_packet. revert p.
  induction segs as [|s segs IH]; intros p; cbn [foldl]; [done|].
  by rewrite IH.
Qed.

(** ** Segments of size zero

    Nothing rejects MEM_ALLOC of size 0, and two such segments at the same
    address, freed after the hole they came from was used up, remove a hole
    that has nothing to do with them. *)
Lemma adjacent_from_none i hs b e ib ia :
  Forall (fun h => s32 (hole_base h + hole_size h) ≠ b /\ hole_base h ≠ e) hs ->
  adjacent_from i hs b e ib ia = (ib, ia).
Proof.
  intros H. revert i. induction H as [|h hs [H1 H2] H IH]; intros i; [done|].
  cbn [adjacent_from]. by rewrite !decide_False by done.
Qed.

(** freeing a zero-size segment next to a zero-size hole deletes the hole
    that follows in the table: its bytes are neither free nor allocated any
    more. *)
Theorem remove_empty_segment_loses_hole (m : t_main_memory) (id pid b : Z)
    (h : t_hole) (rest : list t_hole) :
  l_find (is_segment id pid) (segments m) = Some (mk_segment id pid b 0) ->
  holes m = mk_hole b 0 :: h :: rest -> in_int b ->
  Forall (fun x => s32 (hole_base x + hole_size x) ≠ b /\ hole_base x ≠ b)
    (h :: rest) ->
  exists m', remove_segment id pid m = Ok m' /\
    holes m' = rest ++ [mk_hole b 0] /\
    free_bytes m' = free_bytes m - hole_size h.
Proof.
  intros Hf Hh Hb Hno. ints.
  unfold remove_segment, find_and_remove_segment, release_segment.
  rewrite Hf. cbn [set_segments holes seg_base seg_size]. rewrite Hh.
  assert (find_adjacent_hole_indices (mk_hole b 0 :: h :: rest) b 0 = (0, 0))
    as ->.
  { unfold find_adjacent_hole_indices. rewrite !Z.add_0_r. cint.
    etrans; [|exact (adjacent_from_none 1 (h :: rest) b b 0 0 Hno)].
    unfold adjacent_from at 1. fold adjacent_from. cbn [hole_base hole_size].
    rewrite !Z.add_0_r, (s32_id b) by (ints; lia).
    rewrite !(decide_True (P := b = b)) by done. reflexivity. }
  rewrite decide_True by lia. cbn [deref mbind res_bind].
  rewrite decide_False by lia. eexists. split_and!; [done|done|].
  unfold free_bytes. rewrite Hh. cbn. rewrite sum_with_app.
  change (l_remove (l_remove _ 0) 0) with rest.
  change (s32 (0 + s32 (0 + 0))) with 0. cbn. lia.
Qed.

(** Process 1 allocates 0, 0, 10 and 20 bytes of a 50-byte memory and frees the
    first and the last segment. *)
Definition leaking : t_main_memory :=
  mk_main_memory 0 50 64 [mk_segment 1 1 0 0; mk_segment 2 1 0 10]
    [mk_hole 0 0; mk_hole 10 40] 0.

Definition leaking_run : res t_main_memory :=
  let m := add_total_memory 50 (init_main_memory 64 0 0) in
  '(m, s) ← create_segment 0 1 0 m (@None wire);
  '(m, s) ← create_segment 1 1 0 m s;
  '(m, s) ← create_segment 2 1 10 m s;
  '(m, s) ← create_segment 3 1 20 m s;
  m ← remove_segment 0 1 m;
  remove_segment 3 1 m.

Example leaking_reachable : leaking_run = Ok leaking.
Proof. reflexivity. Qed.

Lemma remove_empty_segment_loses_hole_witness :
  exists m', remove_segment 1 1 leaking = Ok m' /\
    holes m' = [] ++ [mk_hole 0 0] /\
    free_bytes m' = free_bytes leaking - hole_size (mk_hole 10 40).
Proof.
  apply (remove_empty_segment_loses_hole leaking 1 1 0 (mk_hole 10 40) []);
    try reflexivity.
  - ints. lia.
  - repeat constructor; vm_compute; discriminate.
Defined.
