(* ===== verification/Peer.v ===== *)
(** * Peer: a module behind a socket

    A module that answers requests in a loop is given by one round of that
    loop.  [peer] puts such a module at the other end of a socket: sending a
    request runs one round, and what the round sends is what can be received.
    Kernel Memory and the CPUs use sticks and swap by one request at a time
    under a lock, so running the round when the request arrives is every
    behaviour there is. *)

From Stdlib Require Import Strings.Byte.
From S2P Require Import Prelude Bytes Msg.

(** One round: whether to keep running, the new state, the socket. *)
Class Server (S : Type) :=
  serve : S -> t_socket wire -> res (bool * S * t_socket wire).

Record peer (S : Type) := mk_peer {
  pr_state : S;
  pr_out : list byte;      (** replies not read yet *)
  pr_up : bool }.          (** whether its process is running *)
Arguments mk_peer {S} _ _ _.
Arguments pr_state {S} _.
Arguments pr_out {S} _.
Arguments pr_up {S} _.

(** ** Service loops *)

(** The loop around a round. *)
Fixpoint run {S T} (step : S -> t_socket T -> res (bool * S * t_socket T))
    (fuel : nat) (st : S) (s : t_socket T) : res (S * t_socket T) :=
  match fuel with
  | O => Undef OutOfFuel
  | S fuel =>
      '(keep_running, st, s) ← step st s;
      if (keep_running : bool) then run step fuel st s else Ok (st, s)
  end.

(** Nothing is left to read, nor will be: the socket was shut down or closed. *)
Definition down (s : t_socket wire) : Prop :=
  match s with Some w => rx w = [] | None => True end.

Lemma down_shutdown s : down (socket_shutdown s).
Proof. by destruct s. Qed.

Lemma receive_op_code_down s :
  down s -> receive_op_code s = Ok (op_value OP_CODE_ERROR, s).
Proof. destruct s as [[r t u]|]; [|done]. by intros [= ->]. Qed.

(** A round that goes on has consumed input. *)
Definition progress {S} (w : wire) (r : res (bool * S * t_socket wire)) : Prop :=
  match r with
  | Ok (true, _, s) => exists w', s = Some w' /\ (length (rx w') < length (rx w))%nat
  | Ok (false, _, _) => True
  | Undef u => u ≠ OutOfFuel
  end.

(** The loops stop when the peer hangs up. *)
Lemma run_fuel {S} (step : S -> t_socket wire -> _) fuel st w :
  (forall st w, progress w (step st (Some w))) ->
  (length (rx w) < fuel)%nat -> run step fuel st (Some w) ≠ Undef OutOfFuel.
Proof.
  intros Hstep. revert st w. induction fuel as [|fuel IH]; intros st w Hf; [lia|].
  cbn [run]. specialize (Hstep st w). unfold progress in Hstep.
  destruct (step st (Some w)) as [[[[|] st'] s]|u]; cbn [mbind res_bind].
  - destruct Hstep as (w' & -> & Hw). apply IH. lia.
  - done.
  - congruence.
Qed.

Lemma op_loop_progress {S} w (f : Z * t_socket wire -> res (bool * S * t_socket wire)) :
  (forall z w', reads 0 w' (f (z, Some w'))) ->
  (forall w', exists x, f (op_value OP_CODE_ERROR, Some w') = Ok (false, x, Some w')) ->
  progress w (r ← receive_op_code (Some w); f r).
Proof. apply op_loop_step. Qed.

Section peers.
Context {S : Type} `{!Server S}.
Implicit Types (k : peer S).

#[export] Instance peer_transport : Transport (peer S) := {|
  os_send bs k :=
    if pr_up k then
      match serve (pr_state k) (Some (mk_wire bs (pr_out k) true)) with
      | Ok (true, s, Some w) => (l_size bs, mk_peer s (tx w) true)
      | _ => (l_size bs, mk_peer (pr_state k) (pr_out k) false)
      end
    else (-1, k);
  os_recv n k := (take n (pr_out k), mk_peer (pr_state k) (drop n (pr_out k)) (pr_up k));
  os_shutdown k := mk_peer (pr_state k) [] false;
|}.

(** Receiving from a peer is receiving from its pending replies. *)
Definition as_peer k (s : t_socket wire) : t_socket (peer S) :=
  match s with
  | None => None
  | Some w => Some (mk_peer (pr_state k) (rx w) (pr_up k))
  end.

Definition on_peer {X} k (r : res (X * t_socket wire))
    : res (X * t_socket (peer S)) :=
  match r with Ok (x, s) => Ok (x, as_peer k s) | Undef u => Undef u end.

Lemma socket_receive_peer k n :
  socket_receive (Some k) n
  = let '(ok, b, s) := socket_receive (Some (mk_wire (pr_out k) [] true)) n in
    (ok, b, as_peer k s).
Proof. done. Qed.

Lemma receive_op_code_peer k :
  receive_op_code (Some k)
  = on_peer k (receive_op_code (Some (mk_wire (pr_out k) [] true))).
Proof.
  unfold receive_op_code. rewrite socket_receive_peer.
  destruct (socket_receive_rx 4 (mk_wire (pr_out k) [] true)) as (ok & b & -> & _).
  destruct ok; [|done]. by destruct (defined b).
Qed.

Lemma receive_buffer_peer k :
  receive_buffer (Some k)
  = on_peer k (receive_buffer (Some (mk_wire (pr_out k) [] true))).
Proof.
  unfold receive_buffer. rewrite socket_receive_peer.
  destruct (socket_receive_rx 4 (mk_wire (pr_out k) [] true)) as (ok & b & -> & _).
  destruct ok; [|done]. cbn [negb]. destruct (defined b); [|done].
  cbn [mbind res_bind]. case_decide; [done|]. by case_decide.
Qed.

Lemma receive_reply k op payload :
  pr_out k = frame op payload -> payload ≠ [] -> sendable payload ->
  exists k2, receive_op_code (Some k) = Ok (op_value op, Some k2) /\
    receive_buffer (Some k2)
    = Ok (Some (written payload), l_size payload,
          Some (mk_peer (pr_state k) [] (pr_up k))).
Proof.
  intros E Hne Hs. rewrite receive_op_code_peer, E.
  rewrite <- (app_nil_r (frame _ _)), receive_op_code_frame.
  eexists. split; [done|]. rewrite receive_buffer_peer. cbn [rx pr_out].
  by rewrite receive_buffer_wire.
Qed.

(** A request that the module serves with one reply. *)
Lemma peer_request s s' op payload reply :
  serve s (Some (mk_wire (frame op payload ++ []) [] true))
  = Ok (true, s', Some (mk_wire [] ([] ++ reply) true)) ->
  socket_send (Some (mk_peer s [] true)) (frame op payload)
  = (true, Some (mk_peer s' reply true)).
Proof.
  intros H. rewrite app_nil_r in H.
  cbn [socket_send os_send peer_transport pr_up pr_state pr_out]. rewrite H.
  rewrite bool_decide_true; [done|]. rewrite frame_size. unfold l_size. lia.
Qed.

Definition idle k (s : S) : Prop := k = mk_peer s [] true.
End peers.
