(* ===== verification/MemoryStick.v ===== *)
(** * MemoryStick: memory_stick/src (main.c, memory_stick/memory_stick.c, cpu.c)

    A memory stick: a byte array and the loops that serve READ and WRITE
    requests from Kernel Memory and from the CPUs.  [Stick] is what a stick
    promises to those who hold a socket to it; the stick of this file, put
    behind a socket by [Peer], keeps the promise. *)

From Stdlib Require Import Strings.Byte Strings.String.
From S2P Require Import Prelude Bytes Msg Text Structs Peer.

(** [t_ms]: the fields the requests use. *)
Record t_ms := mk_ms { memory : list byte }.

(** [get_args] of the command line, without the program name. *)
Definition get_args (args : list text) : res (option (text * text * Z)) :=
  match args with
  | [config_path; size_str] =>
      size ← atoi size_str;
      if decide (0 < size) then Ok (Some (config_path, size_str, size))
      else Ok None
  | _ => Ok None
  end.

(** The memory reserved by [init_module]: [calloc(atoi(size), 1)]. *)
Definition init_memory (size : text) : res t_ms :=
  n ← atoi size; Ok (mk_ms (replicate (Z.to_nat n) x00)).

(** [memcpy] from and to the stick's memory: outside it, undefined. *)
Definition ms_read (ms : t_ms) (start_position byte_count : Z)
    : res (list byte) :=
  if decide (0 <= start_position /\ 0 <= byte_count /\
             start_position + byte_count <= l_size (memory ms))
  then Ok (take (Z.to_nat byte_count)
             (drop (Z.to_nat start_position) (memory ms)))
  else Undef OutOfBounds.

Definition ms_write (ms : t_ms) (start_position : Z) (bytes_to_write : buf)
    (byte_count : Z) : res t_ms :=
  if decide (0 <= start_position /\ 0 <= byte_count <= l_size bytes_to_write /\
             start_position + byte_count <= l_size (memory ms))
  then bs ← defined (take (Z.to_nat byte_count) bytes_to_write);
       Ok (mk_ms (overwrite (Z.to_nat start_position) bs (memory ms)))
  else Undef OutOfBounds.

Section requests.
Context {T : Type} `{!Transport T}.
Implicit Types (ms : t_ms) (s : t_socket T).

Definition read_memory ms (start_position byte_count : Z) (dest_socket : t_socket T)
    : res (t_socket T) :=
  bytes_to_return ← ms_read ms start_position byte_count;
  Ok (send_buffer OP_MEMORY_STICK_READ_DONE bytes_to_return dest_socket).2.

Definition write_memory ms (start_position : Z) (bytes_to_write : buf)
    (byte_count : Z) (dest_socket : t_socket T) : res (t_ms * t_socket T) :=
  ms ← ms_write ms start_position bytes_to_write byte_count;
  '(_, s) ← send_string OP_MEMORY_STICK_WRITE_DONE (lit "Write successful")
              dest_socket;
  Ok (ms, s).

(** The READ case of both loops: a packet of two elements. *)
Definition handle_read ms s : res (t_ms * t_socket T) :=
  '(packet, s) ← receive_packet s;
  match packet with
  | [e0; e1] =>
      start_position ← read_int e0 0;
      byte_count ← read_int e1 0;
      s ← read_memory ms start_position byte_count s;
      Ok (ms, s)
  | _ => Ok (ms, s)
  end.

(** The WRITE case: three elements. *)
Definition handle_write ms s : res (t_ms * t_socket T) :=
  '(packet, s) ← receive_packet s;
  match packet with
  | [e0; bytes_to_write; e2] =>
      start_position ← read_int e0 0;
      byte_count ← read_int e2 0;
      write_memory ms start_position bytes_to_write byte_count s
  | _ => Ok (ms, s)
  end.

(** One round of the loop of [main]: whether to keep running. *)
Definition main_step ms s : res (bool * t_ms * t_socket T) :=
  '(op_code, s) ← receive_op_code s;
  match op_of_value op_code with
  | Some OP_MEMORY_STICK_READ => '(ms, s) ← handle_read ms s; Ok (true, ms, s)
  | Some OP_MEMORY_STICK_WRITE => '(ms, s) ← handle_write ms s; Ok (true, ms, s)
  | Some OP_KERNEL_MEMORY_RUNNING =>
      '(_, s) ← receive_string s; Ok (true, ms, s)
  | _ => Ok (false, ms, s)
  end.

(** One round of the loop of [handle_cpu_client]. *)
Definition handle_cpu_client_step ms s : res (bool * t_ms * t_socket T) :=
  '(op_code, s) ← receive_op_code s;
  match op_of_value op_code with
  | Some OP_MEMORY_STICK_READ => '(ms, s) ← handle_read ms s; Ok (true, ms, s)
  | Some OP_MEMORY_STICK_WRITE => '(ms, s) ← handle_write ms s; Ok (true, ms, s)
  | _ => Ok (false, ms, s)
  end.

Definition main := run main_step.
Definition handle_cpu_client := run handle_cpu_client_step.
End requests.

(** ** Requests *)

(** The request for [n] bytes at [off], and for storing [bs] at [off]. *)
Definition read_request (off n : Z) : list byte :=
  frame OP_MEMORY_STICK_READ (elements [int_bytes off; int_bytes n]).
Definition write_request (off : Z) (bs : list byte) : list byte :=
  frame OP_MEMORY_STICK_WRITE
    (elements [int_bytes off; bs; int_bytes (l_size bs)]).

Section requests_on_a_wire.
Implicit Types (ms : t_ms) (rest t : list byte) (u : bool).

Lemma receive_request els rest t u :
  Forall (fun v => v ≠ [] /\ sendable v) els -> sendable (elements els) ->
  receive_packet (Some (mk_wire (int_bytes (l_size (elements els)) ++ elements els
                                   ++ rest) t u))
  = Ok (written <$> els, Some (mk_wire rest t u)).
Proof. apply receive_packet_wire. Qed.

Lemma handle_read_ok ms off n rest t :
  0 <= off -> 0 <= n -> off + n <= l_size (memory ms) -> l_size (memory ms) <= INT_MAX ->
  main_step ms (Some (mk_wire (read_request off n ++ rest) t true))
  = Ok (true, ms, Some (mk_wire rest (t ++ frame OP_MEMORY_STICK_READ_DONE
      (take (Z.to_nat n) (drop (Z.to_nat off) (memory ms)))) true)).
Proof.
  intros Ho Hn Hb Hm. unfold main_step, read_request.
  rewrite receive_op_code_frame. cbn [mbind res_bind].
  rewrite op_of_value_op_value. unfold handle_read.
  rewrite receive_request; cycle 1.
  - repeat constructor; apply int_bytes_element.
  - unfold sendable. rewrite elements_length. cbn [sum_with].
    rewrite !l_size_int_bytes. ints. lia.
  - cbn [mbind res_bind fmap list_fmap]. rewrite !read_int_int_bytes.
    cbn [mbind res_bind]. cint. unfold read_memory, ms_read.
    rewrite decide_True by lia. cbn [mbind res_bind].
    unfold send_buffer. rewrite wire_send by apply serialize_packet_ne. done.
Qed.

Lemma handle_write_ok ms off bs rest t :
  0 <= off -> bs ≠ [] -> off + l_size bs <= l_size (memory ms) ->
  l_size (memory ms) <= INT_MAX - 100 ->
  main_step ms (Some (mk_wire (write_request off bs ++ rest) t true))
  = Ok (true, mk_ms (overwrite (Z.to_nat off) bs (memory ms)),
        Some (mk_wire rest (t ++ frame OP_MEMORY_STICK_WRITE_DONE
                                   (lit "Write successful")) true)).
Proof.
  intros Ho Hne Hb Hm. unfold main_step, write_request.
  assert (0 <= l_size bs) by (unfold l_size; lia).
  rewrite receive_op_code_frame. cbn [mbind res_bind].
  rewrite op_of_value_op_value. unfold handle_write.
  rewrite receive_request; cycle 1.
  - repeat constructor; try apply int_bytes_element; [done|].
    unfold sendable. ints. lia.
  - unfold sendable. rewrite elements_length. cbn [sum_with].
    rewrite !l_size_int_bytes. ints. lia.
  - cbn [mbind res_bind fmap list_fmap]. rewrite !read_int_int_bytes.
    cbn [mbind res_bind]. ints. cint. unfold write_memory, ms_write.
    assert (l_size (written bs) = l_size bs) as Hw
      by (unfold l_size, written; by rewrite length_fmap).
    rewrite decide_True by lia. rewrite take_ge
      by (unfold written, l_size; rewrite length_fmap, Nat2Z.id; lia).
    unfold written at 1. rewrite defined_Some. cbn [mbind res_bind].
    sends. by rewrite wire_send.
Qed.
End requests_on_a_wire.

(** ** A stick behind a socket *)

#[export] Instance ms_server : Server t_ms := main_step.

Abbreviation stick_peer := (peer t_ms).

(** What a stick promises to those who hold a socket to it: reads return the
    bytes of its memory, writes replace them. *)
Class Stick (T : Type) `{!Transport T} := {
  (** idle, with this memory *)
  stick_holds : T -> list byte -> Prop;
  stick_read h mem off n :
    stick_holds h mem -> 0 <= off -> 0 < n -> off + n <= l_size mem ->
    l_size mem <= INT_MAX - 100 ->
    exists h1 h2 h3,
      socket_send (Some h) (read_request off n) = (true, Some h1) /\
      receive_op_code (Some h1) = Ok (op_value OP_MEMORY_STICK_READ_DONE, Some h2) /\
      receive_buffer (Some h2)
      = Ok (Some (written (take (Z.to_nat n) (drop (Z.to_nat off) mem))), n, Some h3) /\
      stick_holds h3 mem;
  stick_write h mem off bs :
    stick_holds h mem -> 0 <= off -> bs ≠ [] -> off + l_size bs <= l_size mem ->
    l_size mem <= INT_MAX - 100 ->
    exists h1 h2 h3 b,
      socket_send (Some h) (write_request off bs) = (true, Some h1) /\
      receive_op_code (Some h1) = Ok (op_value OP_MEMORY_STICK_WRITE_DONE, Some h2) /\
      receive_string (Some h2) = Ok (b, Some h3) /\
      stick_holds h3 (overwrite (Z.to_nat off) bs mem);
}.

Definition stick_idle (k : stick_peer) (mem : list byte) : Prop :=
  idle k (mk_ms mem).

Lemma stick_peer_read k mem off n :
  stick_idle k mem -> 0 <= off -> 0 < n -> off + n <= l_size mem ->
  l_size mem <= INT_MAX - 100 ->
  exists h1 h2 h3,
    socket_send (Some k) (read_request off n) = (true, Some h1) /\
    receive_op_code (Some h1) = Ok (op_value OP_MEMORY_STICK_READ_DONE, Some h2) /\
    receive_buffer (Some h2)
    = Ok (Some (written (take (Z.to_nat n) (drop (Z.to_nat off) mem))), n, Some h3) /\
    stick_idle h3 mem.
Proof.
  intros -> Hoff Hn Hb Hm. set (bs := take _ _).
  assert (l_size bs = n) as Hl.
  { subst bs. unfold l_size in *. rewrite length_take, length_drop. lia. }
  destruct (receive_reply (mk_peer (mk_ms mem) (frame OP_MEMORY_STICK_READ_DONE bs) true)
    OP_MEMORY_STICK_READ_DONE bs) as (k2 & H2 & H3); [done| | |].
  { intros E. rewrite E in Hl. unfold l_size in Hl. cbn in Hl. lia. }
  { unfold sendable. lia. }
  eexists _, k2, _. rewrite Hl in H3. split; [|done].
  apply peer_request.
  apply (handle_read_ok (mk_ms mem)); cbn [memory]; (lia || ints; lia).
Qed.

Lemma stick_peer_write k mem off bs :
  stick_idle k mem -> 0 <= off -> bs ≠ [] -> off + l_size bs <= l_size mem ->
  l_size mem <= INT_MAX - 100 ->
  exists h1 h2 h3 b,
    socket_send (Some k) (write_request off bs) = (true, Some h1) /\
    receive_op_code (Some h1) = Ok (op_value OP_MEMORY_STICK_WRITE_DONE, Some h2) /\
    receive_string (Some h2) = Ok (b, Some h3) /\
    stick_idle h3 (overwrite (Z.to_nat off) bs mem).
Proof.
  intros -> Hoff Hn Hb Hm. set (mem' := overwrite _ _ _).
  destruct (receive_reply (mk_peer (mk_ms mem')
    (frame OP_MEMORY_STICK_WRITE_DONE (lit "Write successful")) true)
    OP_MEMORY_STICK_WRITE_DONE (lit "Write successful"))
    as (k2 & H2 & H3); [done|done|done|].
  eexists _, k2, _, _. unfold receive_string. rewrite H3.
  split; [|done]. apply peer_request. by apply (handle_write_ok (mk_ms mem)).
Qed.

#[export] Instance stick_peer_stick : Stick stick_peer := {|
  stick_holds := stick_idle;
  stick_read := stick_peer_read;
  stick_write := stick_peer_write;
|}.

(** ** Properties *)

Lemma handle_read_reads ms w : reads 0 w (handle_read ms (Some w)).
Proof.
  unfold handle_read. apply reads_bind_0; [apply receive_packet_reads|].
  intros packet w'. destruct packet as [|e0 [|e1 [|]]]; try apply reads_ret.
  apply reads_pure; [apply read_int_not_fuel|]. intros st _.
  apply reads_pure; [apply read_int_not_fuel|]. intros n _.
  unfold read_memory, ms_read. case_decide; [|done]. cbn [mbind res_bind].
  unfold send_buffer.
  destruct (socket_send_reads (serialize_packet
    (mk_packet (op_value OP_MEMORY_STICK_READ_DONE)
       (take (Z.to_nat n) (drop (Z.to_nat st) (memory ms))))) w')
    as (ok & w2 & -> & E).
  exists w2. rewrite E. split; [done|lia].
Qed.

Lemma handle_write_reads ms w : reads 0 w (handle_write ms (Some w)).
Proof.
  unfold handle_write. apply reads_bind_0; [apply receive_packet_reads|].
  intros packet w'. destruct packet as [|e0 [|e1 [|e2 [|]]]]; try apply reads_ret.
  apply reads_pure; [apply read_int_not_fuel|]. intros st _.
  apply reads_pure; [apply read_int_not_fuel|]. intros n _.
  unfold write_memory, ms_write. case_decide; [|done].
  destruct (defined _) eqn:E; [|by eapply defined_not_fuel]. cbn [mbind res_bind].
  apply reads_bind_0; [apply send_string_reads|]. intros b w2. apply reads_ret.
Qed.

Lemma main_step_progress ms w :
  progress w (main_step ms (Some w)).
Proof.
  unfold main_step. apply op_loop_progress; [|by eexists].
  intros z w'. destruct (op_of_value z) as [[]|]; try apply reads_ret.
  - apply reads_bind_0; [apply receive_string_reads|]. intros; apply reads_ret.
  - apply reads_bind_0; [apply handle_read_reads|]. intros; apply reads_ret.
  - apply reads_bind_0; [apply handle_write_reads|]. intros; apply reads_ret.
Qed.

Lemma handle_cpu_client_step_progress ms w :
  progress w (handle_cpu_client_step ms (Some w)).
Proof.
  unfold handle_cpu_client_step. apply op_loop_progress; [|by eexists].
  intros z w'. destruct (op_of_value z) as [[]|]; try apply reads_ret.
  - apply reads_bind_0; [apply handle_read_reads|]. intros; apply reads_ret.
  - apply reads_bind_0; [apply handle_write_reads|]. intros; apply reads_ret.
Qed.

(** the stick's service loops end once the peer hangs up: whatever bytes
    were sent, they are served in at most as many rounds as there are bytes. *)
Theorem memory_stick_loops_terminate (ms : t_ms) (w : wire) :
  main (S (length (rx w))) ms (Some w) ≠ Undef OutOfFuel /\
  handle_cpu_client (S (length (rx w))) ms (Some w) ≠ Undef OutOfFuel.
Proof.
  split; apply run_fuel; try lia.
  - apply main_step_progress.
  - apply handle_cpu_client_step_progress.
Qed.

(** C31: a WRITE request followed by a READ request of the same range, as Kernel
    Memory sends them, stores the bytes and returns them, and no byte outside
    the range changes. *)
Theorem memory_stick_write_read (ms : t_ms) (off : Z) (bs : list byte) :
  0 <= off -> bs ≠ [] -> off + l_size bs <= l_size (memory ms) ->
  l_size (memory ms) <= INT_MAX - 100 ->
  exists ms', main 3 ms (Some (mk_wire
      (write_request off bs ++ read_request off (l_size bs)) [] true))
    = Ok (ms', Some (mk_wire []
        (frame OP_MEMORY_STICK_WRITE_DONE (lit "Write successful")
         ++ frame OP_MEMORY_STICK_READ_DONE bs) true)) /\
    length (memory ms') = length (memory ms) /\
    forall i, (i < Z.to_nat off \/ Z.to_nat off + length bs <= i)%nat ->
      memory ms' !! i = memory ms !! i.
Proof.
  intros Ho Hne Hb Hm. unfold main. cbn [run].
  rewrite handle_write_ok by done. cbn [mbind res_bind app].
  set (ms' := mk_ms _).
  assert (Z.to_nat off + length bs <= length (memory ms))%nat as Hn
    by (unfold l_size in *; lia).
  assert (length (memory ms') = length (memory ms)) as Hl
    by (by apply overwrite_length).
  rewrite <- (app_nil_r (read_request off (l_size bs))).
  rewrite handle_read_ok by (unfold l_size in *; rewrite ?Hl; ints; lia).
  cbn [mbind res_bind]. exists ms'. split_and!; [|done|].
  - unfold l_size. rewrite Nat2Z.id. unfold ms'. cbn [memory].
    by rewrite overwrite_read.
  - intros i Hi. unfold ms', overwrite. cbn [memory].
    destruct Hi as [Hi|Hi].
    + rewrite lookup_app_l by (rewrite length_take; lia).
      by rewrite lookup_take_lt.
    + rewrite lookup_app_r by (rewrite length_take; lia).
      rewrite length_take, lookup_app_r by lia. rewrite lookup_drop.
      f_equal. lia.
Qed.

Lemma memory_stick_write_read_witness :
  exists ms', main 3 (mk_ms (replicate 16 x00)) (Some (mk_wire
      (write_request 4 (txt "abc") ++ read_request 4 (l_size (txt "abc"))) [] true))
    = Ok (ms', Some (mk_wire []
        (frame OP_MEMORY_STICK_WRITE_DONE (lit "Write successful")
         ++ frame OP_MEMORY_STICK_READ_DONE (txt "abc")) true)) /\
    length (memory ms') = length (memory (mk_ms (replicate 16 x00))) /\
    forall i, (i < Z.to_nat 4 \/ Z.to_nat 4 + length (txt "abc") <= i)%nat ->
      memory ms' !! i = memory (mk_ms (replicate 16 x00)) !! i.
Proof.
  apply (memory_stick_write_read (mk_ms (replicate 16 x00)) 4 (txt "abc"));
    vm_compute; congruence.
Defined.

(** neither loop checks the range of a request: one that leaves the memory
    is undefined behaviour in the stick. *)
Theorem memory_stick_unchecked (ms : t_ms) (off n : Z) (rest t : list byte) :
  in_int off -> in_int n -> 0 <= n -> l_size (memory ms) < off + n ->
  main_step ms (Some (mk_wire (read_request off n ++ rest) t true))
  = Undef OutOfBounds /\
  handle_cpu_client_step ms (Some (mk_wire (read_request off n ++ rest) t true))
  = Undef OutOfBounds.
Proof.
  intros Ho Hn Hp Hb. unfold main_step, handle_cpu_client_step, read_request.
  rewrite receive_op_code_frame. cbn [mbind res_bind].
  rewrite op_of_value_op_value. unfold handle_read.
  rewrite receive_request; cycle 1.
  - repeat constructor; apply int_bytes_element.
  - unfold sendable. rewrite elements_length. cbn [sum_with].
    rewrite !l_size_int_bytes. ints. lia.
  - cbn [mbind res_bind fmap list_fmap]. rewrite !read_int_int_bytes.
    cbn [mbind res_bind]. ints. cint. unfold read_memory, ms_read.
    by rewrite decide_False by lia.
Qed.

Lemma memory_stick_unchecked_witness :
  let w := mk_wire (read_request 10 10 ++ []) [] true in
  main_step (mk_ms (replicate 16 x00)) (Some w) = Undef OutOfBounds /\
  handle_cpu_client_step (mk_ms (replicate 16 x00)) (Some w) = Undef OutOfBounds.
Proof.
  apply memory_stick_unchecked; vm_compute; intuition congruence.
Defined.
