(* ===== verification/Sticks.v ===== *)
(** * Sticks: kernel_memory/src/kernel_memory/address_translation.c

    From a process's logical address to the memory sticks: translation, finding
    the stick of a physical address, and transfers that span several sticks.
    The theorems are proved against the interface [Stick]. *)

From Stdlib Require Import Strings.Byte Strings.String.
From S2P Require Import Prelude Bytes Msg Text Structs MainMemory Compaction Holes.
From S2P Require Import Segments Peer MemoryStick.

Record t_stick_data (T : Type) := mk_stick_data {
  stick_size : Z;
  socket_stick : t_socket T;
  ip_memory_stick : option text;  (** [None]: never written *)
  stick_port : Z }.
Arguments mk_stick_data {T} _ _ _ _.
Arguments stick_size {T} _.
Arguments socket_stick {T} _.
Arguments ip_memory_stick {T} _.
Arguments stick_port {T} _.

(** [translate_logical_address].  [seg_max] is an [int] converted to
    [uint32_t] for the division; [size] is not used. *)
Definition translate_logical_address (pid logical_address size : Z)
    (m : t_main_memory) : res Z :=
  let seg_max := u32 (max_segment_size m) in
  if decide (seg_max = 0) then Undef DivByZero else
  let segment_number := logical_address / seg_max in
  let offset_in_segment := logical_address mod seg_max in
  match find_segment m pid segment_number with
  | None => Ok (-1)
  | Some found_seg => Ok (s32 (seg_base found_seg + offset_in_segment))
  end.

Section sticks.
Context {T U : Type} `{!Transport T, !Transport U}.
Implicit Types (sticks : list (t_stick_data T)) (sched : t_socket U).

(** The loop of [find_stick]: the index, and the offset stored through
    [stick_offset] when a stick is found. *)
Fixpoint find_stick_from (accumulated_base current_index : Z) sticks
    (physical_address : Z) : Z * option Z :=
  match sticks with
  | [] => (-1, None)
  | s :: r =>
      if decide (accumulated_base <= physical_address /\
                 physical_address < s32 (accumulated_base + stick_size s))
      then (current_index, Some (s32 (physical_address - accumulated_base)))
      else find_stick_from (s32 (accumulated_base + stick_size s))
             (s32 (current_index + 1)) r physical_address
  end.

(** Both callers pass the address of a variable that holds 0. *)
Definition find_stick (physical_address : Z) sticks : Z * Z :=
  let (index, offset) := find_stick_from 0 0 sticks physical_address in
  (index, default 0 offset).

Definition notify_stick_corrupted sched : res (t_socket U) :=
  '(_, sched) ← send_string OP_MEMORY_CORRUPTED (lit "Stick not available") sched;
  Ok sched.

Definition stick_chunk_size (stick : t_stick_data T) (offset remaining : Z) : Z :=
  let space_left_in_stick := s32 (stick_size stick - offset) in
  if decide (remaining < space_left_in_stick) then remaining
  else space_left_in_stick.

(** The socket of the stick at [i] after it was used. *)
Definition set_socket (i : Z) (sk : t_socket T) sticks : list (t_stick_data T) :=
  alter (fun s => mk_stick_data (stick_size s) sk (ip_memory_stick s) (stick_port s))
    (Z.to_nat i) sticks.

Fixpoint read_loop (fuel : nat) (bytes_read current_address size : Z)
    (result : buf) sticks sched
    : res (option buf * list (t_stick_data T) * t_socket U) :=
  if decide (size <= bytes_read) then Ok (Some result, sticks, sched) else
  match fuel with
  | O => Undef OutOfFuel
  | S fuel =>
      let (index, stick_offset) := find_stick current_address sticks in
      if decide (index = -1) then Ok (None, sticks, sched) else
      stick ← deref (l_get sticks index);
      let n := stick_chunk_size stick stick_offset (s32 (size - bytes_read)) in
      let packet := packet_append (packet_append (create_packet OP_MEMORY_STICK_READ)
                      (int_bytes stick_offset)) (int_bytes n) in
      let (sent, sk) := send_packet packet (socket_stick stick) in
      if negb sent then
        sched ← notify_stick_corrupted sched;
        Ok (None, set_socket index sk sticks, sched)
      else
      '(op, sk) ← receive_op_code sk;
      sched ← (if decide (op = 0) then notify_stick_corrupted sched else Ok sched);
      if decide (op ≠ op_value OP_MEMORY_STICK_READ_DONE)
      then Ok (None, set_socket index sk sticks, sched) else
      '(fragment, _, sk) ← receive_buffer sk;
      fragment ← deref fragment;
      if decide (n < 0 \/ l_size fragment < n) then Undef OutOfBounds else
      read_loop fuel (s32 (bytes_read + n)) (s32 (current_address + n)) size
        (result ++ take (Z.to_nat n) fragment) (set_socket index sk sticks) sched
  end.

(** [None] is NULL.  Every round reads at least one byte. *)
Definition read_from_sticks (physical_address size : Z) sticks sched
    : res (option buf * list (t_stick_data T) * t_socket U) :=
  read_loop (Z.to_nat size) 0 physical_address size [] sticks sched.

(** [rest] is the part of the buffer [buffer_pointer] points to. *)
Fixpoint write_loop (fuel : nat) (i remaining current_offset : Z) (rest : buf)
    sticks sched : res (bool * list (t_stick_data T) * t_socket U) :=
  if decide (remaining <= 0) then Ok (true, sticks, sched) else
  match fuel with
  | O => Undef OutOfFuel
  | S fuel =>
      match l_get sticks i with
      | None => sched ← notify_stick_corrupted sched; Ok (false, sticks, sched)
      | Some current_stick =>
          let to_write := stick_chunk_size current_stick current_offset remaining in
          if decide (to_write < 0 \/ l_size rest < to_write)
          then Undef OutOfBounds else
          bytes ← defined (take (Z.to_nat to_write) rest);
          let packet := packet_append (packet_append (packet_append
            (create_packet OP_MEMORY_STICK_WRITE) (int_bytes current_offset)) bytes)
            (int_bytes to_write) in
          let (sent, sk) := send_packet packet (socket_stick current_stick) in
          if negb sent then
            sched ← notify_stick_corrupted sched;
            Ok (false, set_socket i sk sticks, sched)
          else
          '(op, sk) ← receive_op_code sk;
          '(sk, sched) ←
            (if decide (op = op_value OP_MEMORY_STICK_WRITE_DONE)
             then '(_, sk) ← receive_string sk; Ok (sk, sched)
             else sched ← notify_stick_corrupted sched; Ok (sk, sched));
          write_loop fuel (s32 (i + 1)) (s32 (remaining - to_write)) 0
            (drop (Z.to_nat to_write) rest) (set_socket i sk sticks) sched
      end
  end.

(** The index grows every round, and past the last stick the loop ends. *)
Definition write_to_sticks (physical_address bytes_to_read : Z)
    (write_buffer : buf) sticks sched
    : res (bool * list (t_stick_data T) * t_socket U) :=
  let (index, stick_offset) := find_stick physical_address sticks in
  write_loop (S (length sticks)) index bytes_to_read stick_offset write_buffer
    sticks sched.
End sticks.

(** ** The connected sticks as one memory *)

Section one_memory.
Context {T U : Type} `{!Transport T, !Transport U, !Stick T}.
Implicit Types (st : t_stick_data T) (sticks : list (t_stick_data T)).
Implicit Types (mem : list byte) (mems : list (list byte)) (sched : t_socket U).

(** A stick that is idle and holds [mem], registered with its size. *)
Definition stick_ok st mem : Prop :=
  stick_size st = l_size mem /\ 0 < l_size mem <= INT_MAX - 100 /\
  exists h, socket_stick st = Some h /\ stick_holds h mem.

Definition sticks_ok sticks mems : Prop :=
  Forall2 stick_ok sticks mems /\ l_size (concat mems) <= INT_MAX.

(** [split_sticks sticks mems pa]: the stick that holds byte [pa]. *)
Record located sticks mems (pa : Z) (i off : Z) : Prop := {
  lc_split : exists s1 st s2 m1 mem m2,
    sticks = s1 ++ st :: s2 /\ mems = m1 ++ mem :: m2 /\
    length s1 = length m1 /\ i = Z.of_nat (length s1) /\
    stick_ok st mem /\ 0 <= off < l_size mem /\
    pa = l_size (concat m1) + off }.

Lemma find_stick_from_ok base idx sticks mems pa :
  Forall2 stick_ok sticks mems -> 0 <= base -> 0 <= idx ->
  base + l_size (concat mems) <= INT_MAX -> idx + l_size sticks <= INT_MAX ->
  base <= pa < base + l_size (concat mems) ->
  exists i off, find_stick_from base idx sticks pa = (idx + i, Some off) /\
    located sticks mems (pa - base) i off.
Proof.
  intros H. revert base idx.
  induction H as [|st mem sticks mems Hst H IH]; intros base idx Hb Hi Hs Hl Hpa;
    cbn [concat find_stick_from] in *.
  { unfold l_size in Hpa. cbn in Hpa. lia. }
  rewrite l_size_app in *. pose proof (l_size_nonneg (concat mems)).
  pose proof Hst as (-> & Hm & h & Hh).
  unfold l_size in Hl. cbn [length] in Hl. cint. case_decide as Hd.
  - exists 0, (pa - base). rewrite Z.add_0_r. cint. split; [done|]. constructor.
    exists [], st, sticks, [], mem, mems.
    change (l_size (concat [])) with 0. split_and!; done || lia.
  - destruct (IH (base + l_size mem) (idx + 1)) as (i & off & -> & [L]);
      [lia..|unfold l_size; lia|lia|].
    exists (1 + i), off. split; [f_equal; lia|]. constructor.
    destruct L as (s1 & st' & s2 & m1 & mem' & m2 & -> & -> & Hlen & -> & Hok & Ho & E).
    exists (st :: s1), st', s2, (mem :: m1), mem', m2.
    cbn [concat length]. rewrite l_size_app.
    split_and!; (done || lia || (f_equal; done)).
Qed.

Lemma find_stick_ok sticks mems pa :
  sticks_ok sticks mems -> l_size sticks <= INT_MAX ->
  0 <= pa < l_size (concat mems) ->
  exists i off, find_stick pa sticks = (i, off) /\ located sticks mems pa i off.
Proof.
  intros [H Hs] Hl Hpa. unfold find_stick.
  destruct (find_stick_from_ok 0 0 sticks mems pa H) as (i & off & -> & L);
    [lia..|]. rewrite Z.sub_0_r in L. by exists i, off.
Qed.

(** There are fewer sticks than bytes. *)
Lemma sticks_fewer sticks mems :
  Forall2 stick_ok sticks mems -> l_size sticks <= l_size (concat mems).
Proof.
  induction 1 as [|st mem sticks mems (_ & Hm & _) H IH]; [done|].
  cbn [concat]. rewrite l_size_app. unfold l_size in *. cbn [length]. lia.
Qed.

Lemma chunk_ok st mem off remaining :
  stick_ok st mem -> 0 <= off < l_size mem -> 0 < remaining ->
  stick_chunk_size st off remaining = Z.min remaining (l_size mem - off).
Proof.
  intros (E & Hm & _) Ho Hr. unfold stick_chunk_size. rewrite E.
  rewrite s32_id by (ints; lia). case_decide; lia.
Qed.

(** ** List algebra of slices *)

Lemma set_socket_middle s1 st s2 sk :
  set_socket (Z.of_nat (length s1)) sk (s1 ++ st :: s2)
  = s1 ++ mk_stick_data (stick_size st) sk (ip_memory_stick st) (stick_port st) :: s2.
Proof. unfold set_socket. rewrite Nat2Z.id. by rewrite alter_app_r_alt, Nat.sub_diag. Qed.

Lemma sticks_ok_replace s1 st s2 m1 mem m2 st' :
  length s1 = length m1 ->
  sticks_ok (s1 ++ st :: s2) (m1 ++ mem :: m2) -> stick_ok st' mem ->
  sticks_ok (s1 ++ st' :: s2) (m1 ++ mem :: m2).
Proof.
  intros Hl [H Hs] Hst. split; [|done].
  apply Forall2_app_inv in H as [H1 H2]; [|done].
  apply Forall2_app; [done|]. inversion H2; subst. by constructor.
Qed.

Lemma send_packet_elements {X} `{!Transport X} op els (s : t_socket X) :
  send_packet (packet_of op els) s = socket_send s (frame op (elements els)).
Proof. unfold send_packet. by rewrite packet_of_stream. Qed.

(** ** Reading *)

(** One round: the bytes of the stick that holds [addr], up to its end. *)
Lemma read_loop_step fuel br addr size result s1 st s2 m1 mem m2 off sched :
  sticks_ok (s1 ++ st :: s2) (m1 ++ mem :: m2) -> length s1 = length m1 ->
  addr = l_size (concat m1) + off -> 0 <= off < l_size mem ->
  0 <= br < size -> size <= INT_MAX ->
  let n := Z.min (size - br) (l_size mem - off) in
  find_stick addr (s1 ++ st :: s2) = (Z.of_nat (length s1), off) ->
  exists st', stick_ok st' mem /\
    read_loop (S fuel) br addr size result (s1 ++ st :: s2) sched
    = read_loop fuel (br + n) (addr + n) size (result ++ written (slice off n mem))
        (s1 ++ st' :: s2) sched.
Proof.
  intros Hok Hl Ha Ho Hbr Hsz n E. pose proof Hok as [Hall Htot].
  apply Forall2_app_inv in Hall as [_ [Hst _]%Forall2_cons]; [|done].
  rewrite concat_app in Htot. cbn [concat] in Htot. rewrite !l_size_app in Htot.
  pose proof (l_size_nonneg (concat m1)). pose proof (l_size_nonneg (concat m2)).
  cbn [read_loop]. rewrite decide_False by lia. rewrite E.
  rewrite decide_False by lia. rewrite l_get_middle. cbn [deref mbind res_bind].
  assert (s32 (size - br) = size - br) as -> by (apply s32_id; ints; lia).
  rewrite (chunk_ok st mem) by (done || lia). fold n.
  assert (0 < n <= size - br /\ n <= l_size mem - off) as Hn by lia.
  change (packet_append (packet_append (create_packet OP_MEMORY_STICK_READ)
    (int_bytes off)) (int_bytes n))
    with (packet_of OP_MEMORY_STICK_READ [int_bytes off; int_bytes n]).
  rewrite send_packet_elements. pose proof Hst as (Hss & Hm & h & -> & Hh).
  destruct (stick_read h mem off n Hh) as (h1 & h2 & h3 & E1 & E2 & E3 & Hh3); [lia..|].
  unfold read_request in E1. rewrite E1. cbn [negb]. rewrite E2.
  cbn [mbind res_bind]. rewrite decide_False by done. cbn [mbind res_bind].
  rewrite decide_False by (intros Hx; by apply Hx).
  rewrite E3. cbn [mbind res_bind deref]. fold (slice off n mem).
  assert (l_size (written (slice off n mem)) = n) as Hch.
  { unfold l_size, written. rewrite length_fmap. apply (slice_length off n mem); lia. }
  rewrite decide_False by lia.
  assert (take (Z.to_nat n) (written (slice off n mem)) = written (slice off n mem))
    as -> by (apply take_ge; unfold l_size in Hch; lia).
  rewrite set_socket_middle. cint. eexists. split; [|done].
  split; [done|]. split; [done|]. eauto.
Qed.

Lemma read_loop_ok fuel br addr size result sticks mems sched :
  sticks_ok sticks mems -> 0 <= br <= size -> 0 <= addr -> size <= INT_MAX ->
  addr + (size - br) <= l_size (concat mems) ->
  (Z.to_nat (size - br) <= fuel)%nat ->
  exists sticks',
    read_loop fuel br addr size result sticks sched
    = Ok (Some (result ++ written (slice addr (size - br) (concat mems))),
          sticks', sched) /\
    sticks_ok sticks' mems.
Proof.
  revert br addr result sticks. induction fuel as [|fuel IH];
    intros br addr result sticks Hok Hbr Ha Hsz Hb Hf;
    (destruct (decide (size <= br)) as [Hd|Hd];
      [exists sticks; replace (size - br) with 0 by lia;
       unfold slice, written; rewrite take_0, app_nil_r; cbn [read_loop];
       by rewrite decide_True by lia|]); [lia|].
  pose proof Hok as [Hall Htot]. pose proof (sticks_fewer _ _ Hall).
  destruct (find_stick_ok sticks mems addr) as (i & off & E & [L]); [done|lia..|].
  destruct L as (s1 & st & s2 & m1 & mem & m2 & -> & -> & Hl & -> & Hst & Ho & Ea).
  destruct (read_loop_step fuel br addr size result s1 st s2 m1 mem m2 off sched)
    as (st' & Hst' & ->); [done|done|done|lia|lia|lia|done|].
  set (n := Z.min _ _).
  pose proof (sticks_ok_replace s1 st s2 m1 mem m2 st' Hl Hok Hst') as Hok'.
  destruct (IH (br + n) (addr + n) (result ++ written (slice off n mem)) _ Hok')
    as (sticks' & -> & H'); [lia..|].
  exists sticks'. split; [|done]. do 2 f_equal. f_equal.
  rewrite <- app_assoc. f_equal. unfold written. rewrite <- fmap_app. f_equal.
  rewrite concat_app. cbn [concat].
  replace (size - (br + n)) with (size - br - n) by lia.
  f_equal. apply slice_chunk; lia.
Qed.

Lemma read_from_sticks_ok addr size sticks mems sched :
  sticks_ok sticks mems -> 0 <= addr -> 0 <= size ->
  addr + size <= l_size (concat mems) ->
  exists sticks',
    read_from_sticks addr size sticks sched
    = Ok (Some (written (slice addr size (concat mems))), sticks', sched) /\
    sticks_ok sticks' mems.
Proof.
  intros H Ha Hs Hb. unfold read_from_sticks. pose proof H as [_ Ht].
  destruct (read_loop_ok (Z.to_nat size) 0 addr size [] sticks mems sched H)
    as (sticks' & E & H'); [lia..|].
  rewrite Z.sub_0_r in E. eauto.
Qed.

(** ** Writing *)

(** One round: the bytes up to the end of the stick at index [length s1]. *)
Lemma write_loop_step fuel s1 st s2 m1 mem m2 off bs sched :
  sticks_ok (s1 ++ st :: s2) (m1 ++ mem :: m2) -> length s1 = length m1 ->
  0 <= off < l_size mem -> bs ≠ [] -> l_size bs <= INT_MAX ->
  let c := Z.min (l_size bs) (l_size mem - off) in
  let b1 := take (Z.to_nat c) bs in let b2 := drop (Z.to_nat c) bs in
  exists st', stick_ok st' (overwrite (Z.to_nat off) b1 mem) /\
    write_loop (S fuel) (Z.of_nat (length s1)) (l_size bs) off (written bs)
      (s1 ++ st :: s2) sched
    = write_loop fuel (Z.of_nat (length (s1 ++ [st']))) (l_size b2) 0 (written b2)
        ((s1 ++ [st']) ++ s2) sched.
Proof.
  intros Hok Hl Ho Hne Hbs c b1 b2. pose proof Hok as [Hall Htot].
  pose proof (sticks_fewer _ _ Hall) as Hfew.
  apply Forall2_app_inv in Hall as [_ [Hst _]%Forall2_cons]; [|done].
  pose proof (l_size_pos bs Hne). cbn [write_loop]. rewrite decide_False by lia.
  rewrite l_get_middle, (chunk_ok st mem) by (done || lia). fold c.
  assert (0 < c <= l_size bs /\ c <= l_size mem - off) as Hc by lia.
  assert (l_size (written bs) = l_size bs) as Hw
    by (unfold l_size, written; by rewrite length_fmap).
  rewrite decide_False by lia.
  assert (defined (take (Z.to_nat c) (written bs)) = Ok b1) as ->
    by (unfold written; by rewrite <- fmap_take, defined_Some).
  cbn [mbind res_bind].
  assert (l_size b1 = c) as Hb1
    by (unfold b1, l_size in *; rewrite length_take; lia).
  change (packet_append (packet_append (packet_append _ (int_bytes off)) b1)
    (int_bytes c)) with (packet_of OP_MEMORY_STICK_WRITE [int_bytes off; b1; int_bytes c]).
  rewrite send_packet_elements. pose proof Hst as (Hss & Hm & h & -> & Hh).
  destruct (stick_write h mem off b1 Hh)
    as (h1 & h2 & h3 & b & E1 & E2 & E3 & Hh3); [lia| |lia..|].
  { intros Hn. rewrite Hn in Hb1. unfold l_size in Hb1. cbn in Hb1. lia. }
  unfold write_request in E1. rewrite Hb1 in E1. rewrite E1. cbn [negb].
  rewrite E2. cbn [mbind res_bind]. rewrite decide_True by done. rewrite E3.
  cbn [mbind res_bind]. rewrite set_socket_middle.
  eexists. split; [|rewrite <- app_assoc; f_equal].
  - unfold stick_ok, l_size in *. cbn [stick_size socket_stick].
    rewrite overwrite_length by lia. split; [done|]. split; [done|]. eauto.
  - unfold l_size in Hfew. rewrite !length_app in *. cbn [length] in *.
    rewrite s32_id by (unfold l_size in *; ints; lia). lia.
  - rewrite s32_id by (ints; lia). unfold b2, l_size in *. rewrite length_drop. lia.
  - unfold written, b2. by rewrite fmap_drop.
Qed.

(** The loop in front of the sticks [s2], the first of them at [off]. *)
Lemma write_loop_ok fuel s1 s2 m1 m2 off bs sched :
  sticks_ok (s1 ++ s2) (m1 ++ m2) -> length s1 = length m1 -> 0 <= off ->
  (bs ≠ [] -> exists mem r, m2 = mem :: r /\ off < l_size mem) ->
  off + l_size bs <= l_size (concat m2) -> (length s2 < fuel)%nat ->
  exists s2' m2',
    write_loop fuel (Z.of_nat (length s1)) (l_size bs) off (written bs)
      (s1 ++ s2) sched = Ok (true, s1 ++ s2', sched) /\
    sticks_ok (s1 ++ s2') (m1 ++ m2') /\
    concat m2' = overwrite (Z.to_nat off) bs (concat m2).
Proof.
  revert s1 s2 m1 m2 off bs. induction fuel as [|fuel IH];
    intros s1 s2 m1 m2 off bs Hok Hl Ho Hhd Hb Hf; [lia|].
  destruct (decide (bs = [])) as [->|Hne].
  { exists s2, m2. by rewrite overwrite_nil. }
  destruct (Hhd Hne) as (mem & r & -> & Hoff). pose proof Hok as [Hall Htot].
  pose proof Hall as [Hall1 Hall2]%Forall2_app_inv; [|done].
  destruct s2 as [|st s2]; [by inversion Hall2|].
  apply Forall2_cons in Hall2 as [Hst Hall2].
  rewrite concat_app in Htot. cbn [concat] in *. rewrite !l_size_app in *.
  pose proof (l_size_nonneg (concat m1)). pose proof (l_size_nonneg (concat r)).
  destruct (write_loop_step fuel s1 st s2 m1 mem r off bs sched)
    as (st' & Hst' & ->); [done|done|lia|done|lia|].
  set (c := Z.min _ _) in *. set (b1 := take _ bs) in *. set (b2 := drop _ bs) in *.
  assert (bs = b1 ++ b2) as Ebs by (symmetry; apply take_drop).
  assert (l_size b1 = c) as Hb1
    by (unfold b1, l_size in *; rewrite length_take; lia).
  assert (b2 = [] \/ off + c = l_size mem) as Hb2.
  { destruct (decide (c = l_size bs)); [left|right; lia].
    apply nil_length_inv. unfold b2. rewrite length_drop. unfold l_size in *. lia. }
  set (mem' := overwrite _ _ mem) in *.
  assert (l_size mem' = l_size mem) as Hmem
    by (unfold l_size in *; f_equal; apply overwrite_length; lia).
  rewrite Ebs, l_size_app in Hb.
  destruct (IH (s1 ++ [st']) s2 (m1 ++ [mem']) r 0 b2) as (s2' & r' & E & H1 & H2).
  - rewrite <- !app_assoc. split; [apply Forall2_app; [done|by constructor]|].
    rewrite concat_app. cbn [app concat]. rewrite !l_size_app. lia.
  - rewrite !length_app. cbn. lia.
  - lia.
  - intros Hne2. destruct Hb2 as [?|Hb2]; [done|]. pose proof (l_size_pos b2 Hne2).
    destruct Hall2 as [|st2 mem2 ? r2 (_ & Hm2 & _) Hall2].
    { change (l_size (concat [])) with 0 in Hb. lia. }
    exists mem2, r2. split; [done|lia].
  - destruct Hb2 as [->|]; [unfold l_size at 1; cbn; lia|lia].
  - cbn [length] in Hf. lia.
  - exists (st' :: s2'), (mem' :: r'). rewrite E. rewrite <- !app_assoc in *.
    split_and!; [done|done|]. cbn [concat]. rewrite H2, Ebs. symmetry.
    apply overwrite_span; [unfold l_size in *; lia|].
    destruct Hb2 as [?|Hb2]; [by left|right]. unfold l_size in *. lia.
Qed.

Lemma write_to_sticks_ok pa bs sticks mems sched :
  sticks_ok sticks mems -> 0 <= pa -> pa + l_size bs <= l_size (concat mems) ->
  exists sticks' mems',
    write_to_sticks pa (l_size bs) (written bs) sticks sched
    = Ok (true, sticks', sched) /\ sticks_ok sticks' mems' /\
    concat mems' = overwrite (Z.to_nat pa) bs (concat mems).
Proof.
  intros Hok Hpa Hb. unfold write_to_sticks. pose proof Hok as [Hall Htot].
  pose proof (sticks_fewer _ _ Hall).
  destruct (decide (bs = [])) as [->|Hne].
  { destruct (find_stick pa sticks). exists sticks, mems.
    by rewrite overwrite_nil. }
  pose proof (l_size_pos bs Hne).
  destruct (find_stick_ok sticks mems pa) as (i & off & -> & [L]); [done|lia..|].
  destruct L as (s1 & st & s2 & m1 & mem & m2 & -> & -> & Hl & -> & Hst & Ho & Ea).
  rewrite concat_app in *. cbn [concat] in *. rewrite !l_size_app in *.
  destruct (write_loop_ok (S (length (s1 ++ st :: s2))) s1 (st :: s2) m1 (mem :: m2)
    off bs sched) as (s2' & m2' & -> & H1 & H2); try done; try lia.
  - intros _. exists mem, m2. split; [done|lia].
  - cbn [concat]. rewrite l_size_app. lia.
  - rewrite length_app. cbn. lia.
  - do 2 eexists. split_and!; [done|done|]. rewrite concat_app, H2. cbn [concat].
    rewrite overwrite_shift. f_equal. unfold l_size in *. lia.
Qed.

(** C28: the connected sticks behave as one byte array of their total size:
    [write_to_sticks] overwrites exactly the given range of it and
    [read_from_sticks] returns exactly the requested range, however the ranges
    spread over the sticks. *)
Theorem sticks_are_one_memory pa bs sticks mems sched :
  sticks_ok sticks mems -> 0 <= pa -> pa + l_size bs <= l_size (concat mems) ->
  exists sticks1 mems1,
    write_to_sticks pa (l_size bs) (written bs) sticks sched
    = Ok (true, sticks1, sched) /\ sticks_ok sticks1 mems1 /\
    concat mems1 = overwrite (Z.to_nat pa) bs (concat mems) /\
    forall a n, 0 <= a -> 0 <= n -> a + n <= l_size (concat mems) ->
      exists sticks2,
        read_from_sticks a n sticks1 sched
        = Ok (Some (written (slice a n (overwrite (Z.to_nat pa) bs (concat mems)))),
              sticks2, sched) /\
        sticks_ok sticks2 mems1.
Proof.
  intros Hok Hpa Hb.
  destruct (write_to_sticks_ok pa bs sticks mems sched Hok Hpa Hb)
    as (sticks1 & mems1 & E & Hok1 & Hc).
  exists sticks1, mems1. split_and!; [done..|]. intros a n Ha Hn Hr.
  assert (l_size (concat mems1) = l_size (concat mems)) as Hl.
  { rewrite Hc. unfold l_size in *. f_equal. apply overwrite_length. lia. }
  rewrite <- Hc. apply read_from_sticks_ok; done || lia.
Qed.
End one_memory.

(** Two sticks of 8 bytes. *)
Definition two_sticks : list (t_stick_data stick_peer) :=
  let st := mk_stick_data 8
    (Some (mk_peer (mk_ms (replicate 8 x00)) [] true)) (Some (txt "127.0.0.1")) 9000 in
  [st; st].

Lemma two_sticks_ok : sticks_ok two_sticks [replicate 8 x00; replicate 8 x00].
Proof.
  split; [|vm_compute; congruence].
  repeat constructor; try done; eexists; split; done.
Qed.

Lemma sticks_are_one_memory_witness :
  let mems := [replicate 8 x00; replicate 8 x00] in
  exists sticks1 mems1,
    write_to_sticks 6 (l_size (txt "abcd")) (written (txt "abcd")) two_sticks (@None wire)
    = Ok (true, sticks1, None) /\ sticks_ok sticks1 mems1 /\
    concat mems1 = overwrite (Z.to_nat 6) (txt "abcd") (concat mems) /\
    forall a n, 0 <= a -> 0 <= n -> a + n <= l_size (concat mems) ->
      exists sticks2,
        read_from_sticks a n sticks1 (@None wire)
        = Ok (Some (written (slice a n (overwrite (Z.to_nat 6) (txt "abcd")
                                          (concat mems)))), sticks2, None) /\
        sticks_ok sticks2 mems1.
Proof.
  apply (sticks_are_one_memory 6 (txt "abcd") two_sticks
    [replicate 8 x00; replicate 8 x00] None);
    [apply two_sticks_ok|lia|vm_compute; congruence].
Defined.

(** The four bytes land on both sides of the boundary. *)
Example write_spans_sticks :
  (let r := write_to_sticks 6 4 (written (txt "abcd")) two_sticks (@None wire) in
   match r with
   | Ok (true, [s1; s2], _) =>
       Some (memory <$> (pr_state <$> socket_stick s1),
             memory <$> (pr_state <$> socket_stick s2))
   | _ => None
   end)
  = Some (Some (replicate 6 x00 ++ txt "ab"), Some (txt "cd" ++ replicate 6 x00)).
Proof. vm_compute. reflexivity. Qed.

(** ** Compaction and the sticks

    [compact_memory] rewrites the bases in the tables; it has no access to the
    sticks. *)

(** The ordinal of a segment is kept, its base moves. *)
Lemma find_segment_packed lo k l pid n :
  (fun s => (seg_id s, seg_pid s, seg_size s)) <$> find_segment_from k (packed lo l) pid n
  = (fun s => (seg_id s, seg_pid s, seg_size s)) <$> find_segment_from k l pid n.
Proof.
  revert lo k. induction l as [|s l IH]; intros lo k; cbn; [done|].
  repeat case_decide; done.
Qed.

(** The byte process 2 reads at its logical address 0. *)
Definition byte_of_process_2 (m : t_main_memory) (mems : list byte) : option byte :=
  match translate_logical_address 2 0 1 m with
  | Ok a => l_get mems a
  | Undef _ => None
  end.

(** compaction does not move the contents of memory: in a well-formed
    memory whose sticks hold a mark at the start of process 2's segment, the
    process reads another byte at the same logical address afterwards, since
    the base it is translated with moved and the bytes did not. *)
Theorem compaction_leaves_bytes_behind :
  let mems := replicate 50 x00 ++ [x2a] ++ replicate 49 x00 in
  memory_wf fragmented /\ memory_wf (compacted fragmented) /\
  compact_memory (@None wire) fragmented = Ok (compacted fragmented, None) /\
  byte_of_process_2 fragmented mems = Some x2a /\
  byte_of_process_2 (compacted fragmented) mems = Some x00.
Proof.
  split_and!; [apply fragmented_wf| |reflexivity..].
  apply compacted_wf; [apply fragmented_wf|reflexivity].
Qed.
