(* ===== verification/SwapModule.v ===== *)
(** * SwapModule: swap/src (swap/swap.c, main.c)

    The swap module: a file of fixed-size blocks and the loop that serves
    Kernel Memory's block writes and reads.  [Disk] is what it promises to who
    holds a socket to it. *)

From Stdlib Require Import Strings.Byte Strings.String.
From S2P Require Import Prelude Bytes Msg Text Structs Peer.

(** A [FILE*] opened with "wb+": its bytes and its position. *)
Record t_file := mk_file { f_bytes : list byte; f_pos : Z }.

(** [fseek] from the start; a negative offset fails and changes nothing. *)
Definition fseek (f : t_file) (off : Z) : t_file :=
  if decide (0 <= off) then mk_file (f_bytes f) off else f.

(** [fwrite] of a whole buffer; past the end the file grows, with zeros in the
    gap. *)
Definition fwrite (f : t_file) (content : list byte) : t_file :=
  let pos := Z.to_nat (f_pos f) in
  let padded := f_bytes f ++ replicate (pos - length (f_bytes f)) x00 in
  mk_file (take pos padded ++ content ++ drop (pos + length content) (f_bytes f))
    (f_pos f + l_size content).

(** [fread] of [n] bytes: what was there, and the new position. *)
Definition fread (f : t_file) (n : Z) : list byte * t_file :=
  let bs := take (Z.to_nat n) (drop (Z.to_nat (f_pos f)) (f_bytes f)) in
  (bs, mk_file (f_bytes f) (f_pos f + l_size bs)).

Record t_swap := mk_swap {
  swap_size : Z;
  block_size : Z;
  swap_file : t_file }.

(** [init_swap_file]: the file is created and filled with zeros. *)
Definition init_swap_file (swap_size block_size : Z) : t_swap :=
  mk_swap swap_size block_size
    (mk_file (replicate (Z.to_nat swap_size) x00) 0).

(** [init_config] of the numeric fields. *)
Definition init_config (config : t_properties) : res t_swap :=
  size ← config_get_int_value config (txt "SWAP_FILE_SIZE");
  block ← config_get_int_value config (txt "BLOCK_SIZE");
  Ok (init_swap_file size block).

Definition seek_block (f : t_file) (block_number block_size : Z) : t_file :=
  fseek f (s32 (block_number * block_size)).

(** [content] is the received element; [fwrite] reads [block_size] bytes of
    it. *)
Definition write_block (f : t_file) (block_number block_size : Z) (content : buf)
    : res t_file :=
  let f := seek_block f block_number block_size in
  if decide (block_size < 0 \/ l_size content < block_size)
  then Undef OutOfBounds
  else bs ← defined (take (Z.to_nat block_size) content); Ok (fwrite f bs).

(** The buffer holds what [fread] delivered; the rest stays uninitialised. *)
Definition read_block (f : t_file) (block_number block_size : Z)
    : buf * t_file :=
  let f := seek_block f block_number block_size in
  let (bs, f) := fread f block_size in
  (written bs ++ replicate (Z.to_nat block_size - length bs) None, f).

Definition set_file (f : t_file) (s : t_swap) : t_swap :=
  mk_swap (swap_size s) (block_size s) f.

Section swap.
Context {T : Type} `{!Transport T}.
Implicit Types (s : t_socket T) (swap : t_swap).

(** [connect_to_kernel_memory], once the socket is open. *)
Definition connect_to_kernel_memory swap s : res (bool * t_socket T) :=
  '(sent_ok, s) ← send_handshake MID_SWAP s;
  if negb sent_ok then Ok (false, s) else
  '(received_id, s) ← receive_handshake s;
  if decide (received_id ≠ MID_KERNEL_MEMORY) then Ok (false, s) else
  Ok (send_buffer OP_INFO_SWAP
        (swap_config_bytes (mk_swap_config (swap_size swap) (block_size swap))) s).

Definition disk_write swap s : res (t_swap * t_socket T) :=
  '(packet, s) ← receive_packet s;
  match packet with
  | [e0; content] =>
      block_number ← read_int e0 0;
      f ← write_block (swap_file swap) block_number (block_size swap) content;
      '(_, s) ← send_string OP_DISK_WRITE_DONE (lit "") s;
      Ok (set_file f swap, s)
  | _ => Ok (swap, s)
  end.

Definition disk_read swap s : res (t_swap * t_socket T) :=
  '(b, _, s) ← receive_buffer s;
  match (b : option buf) with
  | None => Ok (swap, s)
  | Some b =>
      if decide (block_size swap < 0) then Undef OutOfBounds else
      block_number ← read_int b 0;
      let (content_read, f) :=
        read_block (swap_file swap) block_number (block_size swap) in
      content ← defined content_read;
      let (_, s) := send_buffer OP_DISK_READ_DONE content s in
      Ok (set_file f swap, s)
  end.

(** One round of the loop of [main]. *)
Definition swap_step swap s : res (bool * t_swap * t_socket T) :=
  '(op_code, s) ← receive_op_code s;
  match op_of_value op_code with
  | Some OP_DISK_WRITE => '(swap, s) ← disk_write swap s; Ok (true, swap, s)
  | Some OP_DISK_READ => '(swap, s) ← disk_read swap s; Ok (true, swap, s)
  | _ => Ok (false, swap, s)
  end.

Definition swap_main := run swap_step.
End swap.

#[export] Instance swap_server : Server t_swap := swap_step.

(** ** What the swap promises *)

(** The requests of Kernel Memory. *)
Definition disk_write_request (n : Z) (content : list byte) : list byte :=
  frame OP_DISK_WRITE (elements [int_bytes n; content]).
Definition disk_read_request (n : Z) : list byte :=
  frame OP_DISK_READ (int_bytes n).

(** Blocks of [bs] bytes, numbered from 0. *)
Definition block (bs n : Z) (bytes : list byte) : list byte :=
  slice (n * bs) bs bytes.

Class Disk (T : Type) `{!Transport T} := {
  (** idle, with blocks of this size in this file *)
  disk_holds : T -> Z -> list byte -> Prop;
  disk_writes h bs bytes n content :
    disk_holds h bs bytes -> 0 < bs -> l_size content = bs -> 0 <= n ->
    (n + 1) * bs <= l_size bytes -> l_size bytes <= INT_MAX - 100 ->
    exists h1 h2 h3 b,
      socket_send (Some h) (disk_write_request n content) = (true, Some h1) /\
      receive_op_code (Some h1) = Ok (op_value OP_DISK_WRITE_DONE, Some h2) /\
      receive_string (Some h2) = Ok (b, Some h3) /\
      disk_holds h3 bs (overwrite (Z.to_nat (n * bs)) content bytes);
  disk_reads h bs bytes n :
    disk_holds h bs bytes -> 0 < bs -> 0 <= n ->
    (n + 1) * bs <= l_size bytes -> l_size bytes <= INT_MAX - 100 ->
    exists h1 h2 h3,
      socket_send (Some h) (disk_read_request n) = (true, Some h1) /\
      receive_op_code (Some h1) = Ok (op_value OP_DISK_READ_DONE, Some h2) /\
      receive_buffer (Some h2) = Ok (Some (written (block bs n bytes)), bs, Some h3) /\
      disk_holds h3 bs bytes;
}.

Definition swap_holds (k : peer t_swap) (bs : Z) (bytes : list byte) : Prop :=
  exists size pos, 0 <= pos /\ idle k (mk_swap size bs (mk_file bytes pos)).

Lemma write_block_ok bytes pos bs n content :
  0 < bs -> l_size content = bs -> 0 <= n -> (n + 1) * bs <= l_size bytes ->
  l_size bytes <= INT_MAX - 100 ->
  exists pos', 0 <= pos' /\
    write_block (mk_file bytes pos) n bs (written content)
    = Ok (mk_file (overwrite (Z.to_nat (n * bs)) content bytes) pos').
Proof.
  intros Hbs Hc Hn Hb Hm. unfold write_block, seek_block, fseek.
  assert (0 <= n * bs) by nia. cint.
  rewrite decide_False by (unfold l_size, written in *; rewrite length_fmap; lia).
  rewrite take_ge by (unfold l_size, written in *; rewrite length_fmap; lia).
  unfold written. rewrite defined_Some. cbn [mbind res_bind].
  rewrite decide_True by done. unfold fwrite. cbn [f_bytes f_pos].
  exists (n * bs + l_size content). split; [lia|]. do 2 f_equal.
  unfold overwrite. f_equal. unfold l_size in *.
  rewrite (take_app_le bytes) by nia. done.
Qed.

Lemma read_block_ok bytes pos bs n :
  0 < bs -> 0 <= n -> (n + 1) * bs <= l_size bytes -> l_size bytes <= INT_MAX - 100 ->
  exists pos', 0 <= pos' /\
    read_block (mk_file bytes pos) n bs
    = (written (block bs n bytes), mk_file bytes pos').
Proof.
  intros Hbs Hn Hb Hm. unfold read_block, seek_block, fseek.
  assert (0 <= n * bs) by nia. cint. rewrite decide_True by done.
  unfold fread. cbn [f_bytes f_pos]. fold (slice (n * bs) bs bytes). fold (block bs n bytes).
  assert (l_size (block bs n bytes) = bs) as Hl by (apply slice_length; lia).
  exists (n * bs + l_size (block bs n bytes)). split; [lia|].
  unfold l_size in Hl. replace (Z.to_nat bs - length (block bs n bytes))%nat with 0%nat
    by lia. by rewrite app_nil_r.
Qed.

(** The swap, waiting for a request. *)
Definition swap_idle size bs bytes pos : peer t_swap :=
  mk_peer (mk_swap size bs (mk_file bytes pos)) [] true.

Lemma swap_peer_writes size bs pos bytes n content :
  0 < bs -> l_size content = bs -> 0 <= n ->
  (n + 1) * bs <= l_size bytes -> l_size bytes <= INT_MAX - 100 ->
  exists h1 h2 b pos', 0 <= pos' /\
    socket_send (Some (swap_idle size bs bytes pos)) (disk_write_request n content)
    = (true, Some h1) /\
    receive_op_code (Some h1) = Ok (op_value OP_DISK_WRITE_DONE, Some h2) /\
    receive_string (Some h2)
    = Ok (b, Some (swap_idle size bs (overwrite (Z.to_nat (n * bs)) content bytes) pos')).
Proof.
  intros Hbs Hc Hn Hb Hm.
  destruct (write_block_ok bytes pos bs n content) as (pos' & Hpos' & Hw); [done..|].
  destruct (receive_reply (mk_peer (mk_swap size bs
      (mk_file (overwrite (Z.to_nat (n * bs)) content bytes) pos'))
    (frame OP_DISK_WRITE_DONE (lit "")) true) OP_DISK_WRITE_DONE (lit ""))
    as (k2 & H2 & H3); [done|done|done|].
  eexists _, k2, _, pos'. unfold receive_string. rewrite H3.
  split; [done|split; [|split_and!; [done|done]]].
  apply peer_request. unfold serve, swap_server, swap_step.
  rewrite receive_op_code_frame. cbn [mbind res_bind]. rewrite op_of_value_op_value.
  unfold disk_write. assert (n < INT_MAX) by nia. rewrite receive_packet_wire.
  - cbn [mbind res_bind fmap list_fmap]. rewrite read_int_int_bytes.
    cbn [mbind res_bind]. cint. cbn [swap_file block_size].
    rewrite Hw. cbn [mbind res_bind]. sends. by rewrite wire_send.
  - repeat constructor; try apply int_bytes_element; [|unfold sendable; lia].
    intros ->. unfold l_size in Hc. cbn in Hc. lia.
  - unfold sendable. rewrite elements_length. cbn [sum_with].
    rewrite l_size_int_bytes. ints. nia.
Qed.

Lemma swap_peer_reads size bs pos bytes n :
  0 < bs -> 0 <= n ->
  (n + 1) * bs <= l_size bytes -> l_size bytes <= INT_MAX - 100 ->
  exists h1 h2 pos', 0 <= pos' /\
    socket_send (Some (swap_idle size bs bytes pos)) (disk_read_request n) = (true, Some h1) /\
    receive_op_code (Some h1) = Ok (op_value OP_DISK_READ_DONE, Some h2) /\
    receive_buffer (Some h2)
    = Ok (Some (written (block bs n bytes)), bs, Some (swap_idle size bs bytes pos')).
Proof.
  intros Hbs Hn Hb Hm.
  destruct (read_block_ok bytes pos bs n) as (pos' & Hpos' & Hr); [done..|].
  assert (l_size (block bs n bytes) = bs) as Hl by (apply slice_length; nia).
  destruct (receive_reply (mk_peer (mk_swap size bs (mk_file bytes pos'))
    (frame OP_DISK_READ_DONE (block bs n bytes)) true) OP_DISK_READ_DONE
    (block bs n bytes)) as (k2 & H2 & H3); [done| |unfold sendable; nia|].
  { intros E. rewrite E in Hl. unfold l_size in Hl. cbn in Hl. lia. }
  eexists _, k2, pos'. rewrite Hl in H3.
  split; [done|split; [|split_and!; [done|done]]].
  apply peer_request. unfold serve, swap_server, swap_step.
  rewrite receive_op_code_frame. cbn [mbind res_bind]. rewrite op_of_value_op_value.
  unfold disk_read. rewrite receive_buffer_wire by apply int_bytes_element.
  cbn [mbind res_bind block_size swap_file]. rewrite decide_False by lia.
  change (Some <$> int_bytes n) with (written (int_bytes n)).
  rewrite read_int_int_bytes. cbn [mbind res_bind]. assert (n < INT_MAX) by nia.
  cint. rewrite Hr. unfold written. rewrite defined_Some. cbn [mbind res_bind].
  unfold send_buffer. by rewrite wire_send by apply serialize_packet_ne.
Qed.

#[export] Instance swap_disk : Disk (peer t_swap).
Proof.
  refine {| disk_holds := swap_holds |}.
  - intros k bs bytes n content (size & pos & Hpos & ->) Hbs Hc Hn Hb Hm.
    destruct (swap_peer_writes size bs pos bytes n content)
      as (h1 & h2 & b & pos' & Hp & E1 & E2 & E3); [done..|].
    eexists h1, h2, _, b. split_and!; [done..|]. by exists size, pos'.
  - intros k bs bytes n (size & pos & Hpos & ->) Hbs Hn Hb Hm.
    destruct (swap_peer_reads size bs pos bytes n) as (h1 & h2 & pos' & Hp & E1 & E2 & E3);
      [done..|].
    eexists h1, h2, _. split_and!; [done..|]. by exists size, pos'.
Defined.

(** ** Properties *)

Lemma slice_overwrite_out {A} off (c mem : list A) pa n :
  0 <= pa -> 0 <= n ->
  pa + n <= Z.of_nat off \/ Z.of_nat off + l_size c <= pa ->
  (off + length c <= length mem)%nat ->
  slice pa n (overwrite off c mem) = slice pa n mem.
Proof.
  intros Hpa Hn Hd Hm. unfold slice, l_size in *. apply list_eq. intros i.
  destruct (decide (i < Z.to_nat n)%nat).
  - rewrite !lookup_take_lt, !lookup_drop by done.
    apply overwrite_lookup_out; [lia|done].
  - by rewrite !lookup_take_ge by lia.
Qed.

Lemma block_overwrite bs n m content bytes :
  0 < bs -> l_size content = bs -> 0 <= n -> 0 <= m ->
  (n + 1) * bs <= l_size bytes ->
  block bs m (overwrite (Z.to_nat (n * bs)) content bytes)
  = if decide (m = n) then content else block bs m bytes.
Proof.
  intros Hbs Hc Hn Hm Hb. unfold block. case_decide as Hd.
  - subst m. unfold slice. unfold l_size in *.
    replace (Z.to_nat bs) with (length content) by lia.
    apply overwrite_read. nia.
  - apply slice_overwrite_out; unfold l_size in *; nia.
Qed.

(** C32: the swap process serves a file of blocks: a client on the other end of
    the socket of a swap whose [swap_step] waits for a request, writing block
    [n] and then reading block [m], gets the acknowledgement and then what it
    wrote if [m = n] and else what block [m] held; the swap waits again and its
    file is the old one with block [n] replaced.  The blocks lie within the
    file, which is smaller than 2^31 - 100 bytes. *)
Theorem disk_blocks (size bs pos : Z) (bytes content : list byte) (n m : Z) :
  0 <= pos -> 0 < bs -> l_size content = bs -> 0 <= n -> 0 <= m ->
  (n + 1) * bs <= l_size bytes -> (m + 1) * bs <= l_size bytes ->
  l_size bytes <= INT_MAX - 100 ->
  exists h1 h2 h3 h4 h5 b pos',
    socket_send (Some (mk_peer (mk_swap size bs (mk_file bytes pos)) [] true))
      (disk_write_request n content) = (true, Some h1) /\
    receive_op_code (Some h1) = Ok (op_value OP_DISK_WRITE_DONE, Some h2) /\
    receive_string (Some h2) = Ok (b, Some h3) /\
    socket_send (Some h3) (disk_read_request m) = (true, Some h4) /\
    receive_op_code (Some h4) = Ok (op_value OP_DISK_READ_DONE, Some h5) /\
    receive_buffer (Some h5)
    = Ok (Some (written (if decide (m = n) then content else block bs m bytes)), bs,
          Some (mk_peer (mk_swap size bs
            (mk_file (overwrite (Z.to_nat (n * bs)) content bytes) pos')) [] true)).
Proof.
  intros Hpos Hbs Hc Hn Hm Hbn Hbm Hmax.
  destruct (swap_peer_writes size bs pos bytes n content)
    as (h1 & h2 & b & pos1 & Hp1 & E1 & E2 & E3); [done..|].
  assert (l_size (overwrite (Z.to_nat (n * bs)) content bytes) = l_size bytes) as Hl.
  { unfold l_size in *. f_equal. apply overwrite_length. nia. }
  destruct (swap_peer_reads size bs pos1 (overwrite (Z.to_nat (n * bs)) content bytes) m)
    as (h4 & h5 & pos2 & Hp2 & E4 & E5 & E6); [done|done|by rewrite Hl..|].
  rewrite block_overwrite in E6 by done. by eexists h1, h2, _, h4, h5, b, pos2.
Qed.

(** A swap of four 4-byte blocks, as [init_swap_file] leaves it. *)
Definition small_swap : peer t_swap := mk_peer (init_swap_file 16 4) [] true.

Lemma disk_blocks_witness :
  exists h1 h2 h3 h4 h5 b pos',
    socket_send (Some small_swap)
      (disk_write_request 2 (txt "data")) = (true, Some h1) /\
    receive_op_code (Some h1) = Ok (op_value OP_DISK_WRITE_DONE, Some h2) /\
    receive_string (Some h2) = Ok (b, Some h3) /\
    socket_send (Some h3) (disk_read_request 2) = (true, Some h4) /\
    receive_op_code (Some h4) = Ok (op_value OP_DISK_READ_DONE, Some h5) /\
    receive_buffer (Some h5)
    = Ok (Some (written (if decide (2 = 2) then txt "data"
                         else block 4 2 (replicate 16 x00))), 4,
          Some (mk_peer (mk_swap 16 4
            (mk_file (overwrite 8 (txt "data") (replicate 16 x00)) pos')) [] true)).
Proof. apply (disk_blocks 16 4 0 (replicate 16 x00) (txt "data") 2 2); done. Defined.

(** the swap's service loop ends once Kernel Memory hangs up, whatever it
    sent. *)
Theorem swap_main_terminates (sw : t_swap) (w : wire) :
  swap_main (S (length (rx w))) sw (Some w) ≠ Undef OutOfFuel.
Proof.
  apply run_fuel; [|lia]. clear. intros sw w. unfold swap_step.
  apply op_loop_progress; [|by eexists].
  intros z w'. destruct (op_of_value z) as [[]|]; try apply reads_ret;
    (apply reads_bind_0; [|intros; apply reads_ret]).
  - unfold disk_write. apply reads_bind_0; [apply receive_packet_reads|].
    intros p w2. destruct p as [|e0 [|c [|]]]; try apply reads_ret.
    apply reads_pure; [apply read_int_not_fuel|]. intros n _.
    unfold write_block. case_decide; [done|].
    destruct (defined _) eqn:E; [|by eapply defined_not_fuel].
    cbn [mbind res_bind]. apply reads_bind_0; [apply send_string_reads|].
    intros b w3. apply reads_ret.
  - unfold disk_read. apply reads_bind_0; [apply receive_buffer_reads|].
    intros [[b|] n] w2; [|apply reads_ret]. case_decide; [done|].
    apply reads_pure; [apply read_int_not_fuel|]. intros k _.
    destruct (read_block _ _ _) as [c f].
    apply reads_pure; [apply defined_not_fuel|]. intros bs _. unfold send_buffer.
    destruct (socket_send_reads (serialize_packet
      (mk_packet (op_value OP_DISK_READ_DONE) bs)) w2) as (ok & w3 & -> & E).
    exists w3. rewrite E. split; [done|lia].
Qed.
