(* ===== verification/KmSwap.v ===== *)
(** * KmSwap: kernel_memory/src/kernel_memory/swap.c

    Suspending a process moves its segments, block by block, from the sticks to
    the swap module; resuming allocates them again and moves them back. *)

From Stdlib Require Import Strings.Byte Strings.String.
From S2P Require Import Prelude Bytes Msg Text Structs MainMemory Compaction Holes.
From S2P Require Import Segments Peer MemoryStick Sticks SwapModule.

(** A swap block; [b_pid] is a [uint32_t], so -1 is stored as [NO_PID]. *)
Record t_block_data := mk_block_data {
  block_number : Z;
  b_pid : Z;
  segment_number : Z;
  segment_block_number : Z;
  segment_size : Z }.

Definition NO_PID : Z := u32 (-1).

Record t_swap_data (V : Type) := mk_swap_data {
  socket_swap : t_socket V;
  block_list : list t_block_data;
  sd_swap_size : Z;
  sd_block_size : Z }.
Arguments mk_swap_data {V} _ _ _ _.
Arguments socket_swap {V} _.
Arguments block_list {V} _.
Arguments sd_swap_size {V} _.
Arguments sd_block_size {V} _.

Definition free_block_data (i : Z) : t_block_data := mk_block_data i NO_PID (-1) (-1) (-1).

(** [init_block_list]. *)
Definition init_block_list (swap_size block_size : Z) : list t_block_data :=
  free_block_data <$> (Z.of_nat <$> seq 0 (Z.to_nat (Z.quot swap_size block_size))).

Section init.
Context {V : Type} `{!Transport V}.

(** [init_swap_data]: the geometry the swap module reports. *)
Definition init_swap_data (s : t_socket V) : res (option (t_swap_data V)) :=
  '(op, s) ← receive_op_code s;
  if decide (op ≠ op_value OP_INFO_SWAP) then Ok None else
  '(b, _, s) ← receive_buffer s;
  b ← deref b; c ← swap_config_of b;
  if decide (cfg_block_size c = 0) then Undef DivByZero else
  Ok (Some (mk_swap_data s (init_block_list (cfg_swap_size c) (cfg_block_size c))
              (cfg_swap_size c) (cfg_block_size c))).
End init.

(** What suspension and resumption work on: the sticks, the tables, the swap
    connection and the scheduler's socket. *)
Record km_env (T V U : Type) := mk_env {
  e_sticks : list (t_stick_data T);
  e_mem : t_main_memory;
  e_swap : t_swap_data V;
  e_sched : t_socket U }.
Arguments mk_env {T V U} _ _ _ _.
Arguments e_sticks {T V U} _.
Arguments e_mem {T V U} _.
Arguments e_swap {T V U} _.
Arguments e_sched {T V U} _.

Section swap.
Context {T V U : Type} `{!Transport T, !Transport V, !Transport U}.
Implicit Types (sw : t_swap_data V) (e : km_env T V U).

Definition set_block (f : t_block_data -> t_block_data) (i : Z) sw : t_swap_data V :=
  mk_swap_data (socket_swap sw) (alter f (Z.to_nat i) (block_list sw))
    (sd_swap_size sw) (sd_block_size sw).

Definition set_swap_socket (s : t_socket V) sw : t_swap_data V :=
  mk_swap_data s (block_list sw) (sd_swap_size sw) (sd_block_size sw).

Definition set_swap sw e : km_env T V U :=
  mk_env (e_sticks e) (e_mem e) sw (e_sched e).
Definition set_mem m e : km_env T V U :=
  mk_env (e_sticks e) m (e_swap e) (e_sched e).

Definition reply (op : t_op_code) (message : list byte) e : res (km_env T V U) :=
  '(_, s) ← send_string op message (e_sched e);
  Ok (mk_env (e_sticks e) (e_mem e) (e_swap e) s).

(** ** Suspension *)

(** The loop of [find_free_block] from [i], [n] blocks to go. *)
Fixpoint free_block_from (i : Z) (n : nat) (blocks : list t_block_data) : res Z :=
  match n with
  | O => Ok (-1)
  | S n =>
      block ← deref (l_get blocks i);
      if decide (b_pid block = NO_PID) then Ok i
      else free_block_from (i + 1) n blocks
  end.

Definition find_free_block sw : res Z :=
  if decide (sd_block_size sw = 0) then Undef DivByZero else
  free_block_from 0 (Z.to_nat (Z.quot (sd_swap_size sw) (sd_block_size sw)))
    (block_list sw).

Definition add_block_to_swap (segment : t_segment) (counter : Z) sw
    : res (Z * t_swap_data V) :=
  free_block_number ← find_free_block sw;
  if decide (free_block_number ≠ -1) then
    Ok (free_block_number,
        set_block (fun b => mk_block_data (block_number b) (seg_pid segment)
                     (s32 (seg_id segment)) counter (seg_size segment))
          free_block_number sw)
  else Ok (free_block_number, sw).

(** [memcpy] of [byte_count] bytes into a zeroed block. *)
Definition fill_block (content : option buf) (byte_count block_size : Z)
    : res (list byte) :=
  if decide (byte_count < 0 \/ block_size < byte_count) then Undef OutOfBounds else
  bytes ← (if decide (byte_count = 0) then Ok [] else
           c ← deref content;
           if decide (l_size c < byte_count) then Undef OutOfBounds
           else defined (take (Z.to_nat byte_count) c));
  Ok (bytes ++ replicate (Z.to_nat (block_size - byte_count)) x00).

Definition write_block_to_swap (block_number : Z) (content : option buf)
    (byte_count : Z) sw : res (t_swap_data V) :=
  aux_buffer ← fill_block content byte_count (sd_block_size sw);
  let packet := packet_append (packet_append (create_packet OP_DISK_WRITE)
                  (int_bytes block_number)) aux_buffer in
  let (_, s) := send_packet packet (socket_swap sw) in
  '(op_code, s) ← receive_op_code s;
  if decide (op_code = op_value OP_DISK_WRITE_DONE)
  then '(_, s) ← receive_string s; Ok (set_swap_socket s sw)
  else Ok (set_swap_socket s sw).

(** The loop of [suspend_segment] from block [i], [n] blocks to go. *)
Fixpoint suspend_blocks (segment : t_segment) (i : Z) (n : nat) e
    : res (bool * km_env T V U) :=
  match n with
  | O => Ok (true, e)
  | S n =>
      let block_size := sd_block_size (e_swap e) in
      let offset := s32 (i * block_size) in
      let left := s32 (seg_size segment - offset) in
      let bytes_to_read := if decide (left < block_size) then left else block_size in
      '(content, sticks, sched) ←
        read_from_sticks (s32 (seg_base segment + offset)) bytes_to_read
          (e_sticks e) (e_sched e);
      '(block_number, sw) ← add_block_to_swap segment i (e_swap e);
      let e := mk_env sticks (e_mem e) sw sched in
      if decide (block_number = -1) then
        e ← reply OP_SUSPENSION_FAILED
              (lit "Could not suspend the process because swap is full.") e;
        Ok (false, e)
      else
        sw ← write_block_to_swap block_number content bytes_to_read sw;
        suspend_blocks segment (i + 1) n (set_swap sw e)
  end.

Definition suspend_segment (segment : t_segment) e : res (bool * km_env T V U) :=
  let block_size := sd_block_size (e_swap e) in
  if decide (block_size = 0) then Undef DivByZero else
  let segment_block_count :=
    Z.quot (s32 (s32 (seg_size segment + block_size) - 1)) block_size in
  suspend_blocks segment 0 (Z.to_nat segment_block_count) e.

(** The loop over the segment table: the segments to remove, or [None] after a
    failure. *)
Fixpoint suspend_segments (pid : Z) (l : list t_segment) e
    : res (option (list t_segment) * km_env T V U) :=
  match l with
  | [] => Ok (Some [], e)
  | current_segment :: r =>
      if decide (seg_pid current_segment = pid) then
        '(ok, e) ← suspend_segment current_segment e;
        if (ok : bool) then
          '(segs, e) ← suspend_segments pid r e;
          Ok (option_map (cons current_segment) segs, e)
        else Ok (None, e)
      else suspend_segments pid r e
  end.

Fixpoint remove_process_segments (segments_to_remove : list t_segment) (pid : Z)
    (m : t_main_memory) : res t_main_memory :=
  match segments_to_remove with
  | [] => Ok m
  | s :: r => m ← remove_segment (seg_id s) pid m; remove_process_segments r pid m
  end.

(** [suspend_process] of a process found and with the swap connected. *)
Definition suspend_process (pid : Z) e : res (km_env T V U) :=
  '(segs, e) ← suspend_segments pid (segments (e_mem e)) e;
  match (segs : option (list t_segment)) with
  | None => Ok e
  | Some segments_to_remove =>
      m ← remove_process_segments segments_to_remove pid (e_mem e);
      let e := set_mem m e in
      match segments_to_remove with
      | _ :: _ => reply OP_SUSPENSION_OK (lit "") e
      | [] => reply OP_SUSPENSION_FAILED
                (lit "Could not suspend the process because its pid was not found.") e
      end
  end.

(** ** Resumption *)

(** [process_size] of [can_resume]. *)
Definition suspended_size (pid : Z) (blocks : list t_block_data) : Z :=
  foldl (fun size b =>
           if decide (b_pid b = pid /\ segment_block_number b = 0)
           then s32 (size + segment_size b) else size) 0 blocks.

Definition can_resume (pid : Z) e : bool :=
  bool_decide (suspended_size pid (block_list (e_swap e))
               <= compute_free_space (holes (e_mem e))).

Definition regenerate_segment (id pid size : Z) e : res (bool * km_env T V U) :=
  if decide (compute_free_space (holes (e_mem e)) < size) then
    e ← reply OP_RESUME_SUSPENSION_FAILED (lit "There are not memory enough") e;
    Ok (false, e)
  else
    let (chosen_hole, m) := select_hole (u32 size) (e_mem e) in
    let e := set_mem m e in
    if decide (hole_size chosen_hole = -1) then
      e ← reply OP_RESUME_SUSPENSION_FAILED (lit "Could not allocate holes.") e;
      Ok (false, e)
    else Ok (true, set_mem (update_segment_list chosen_hole size pid id m) e).

Definition read_block_from_swap (block_number : Z) sw
    : res (option buf * t_swap_data V) :=
  let (_, s) := send_buffer OP_DISK_READ (int_bytes block_number) (socket_swap sw) in
  '(op_code, s) ← receive_op_code s;
  if decide (op_code ≠ op_value OP_DISK_READ_DONE)
  then Ok (None, set_swap_socket s sw)
  else '(b, _, s) ← receive_buffer s; Ok (b, set_swap_socket s sw).

Definition remove_block_from_swap (block_number' : Z) sw : Z * t_swap_data V :=
  match l_get (block_list sw) block_number' with
  | None => (-1, sw)
  | Some _ =>
      (block_number',
       set_block (fun b => mk_block_data (block_number b) NO_PID (-1) (-1) (-1))
         block_number' sw)
  end.

(** [find_segment] takes the segment's ordinal; it is given its id. *)
Definition compute_address_with_offset (block_size : Z) (m : t_main_memory)
    (pid : Z) (block : t_block_data) : res Z :=
  segment ← deref (find_segment m pid (u32 (segment_number block)));
  Ok (s32 (seg_base segment + s32 (block_size * segment_block_number block))).

Definition resume_block (block : t_block_data) (pid block_size : Z) e
    : res (bool * km_env T V U) :=
  '(regen_ok, e) ←
    (if decide (segment_block_number block = 0)
     then regenerate_segment (u32 (segment_number block)) pid (segment_size block) e
     else Ok (true, e));
  if negb regen_ok then Ok (false, e) else
  '(content, sw) ← read_block_from_swap (block_number block) (e_swap e);
  let e := set_swap sw e in
  match (content : option buf) with
  | None =>
      e ← reply OP_RESUME_SUSPENSION_FAILED (lit "Error reading swap block") e;
      Ok (false, e)
  | Some content =>
      let block_offset := s32 (segment_block_number block * block_size) in
      let left := s32 (segment_size block - block_offset) in
      let real_bytes := if decide (left < block_size) then left else block_size in
      write_address ← compute_address_with_offset block_size (e_mem e) pid block;
      '(_, sticks, sched) ←
        write_to_sticks write_address real_bytes content (e_sticks e) (e_sched e);
      let (removed, sw) := remove_block_from_swap (block_number block) (e_swap e) in
      let e := mk_env sticks (e_mem e) sw sched in
      if decide (block_number block ≠ removed) then
        e ← reply OP_RESUME_SUSPENSION_FAILED
              (lit "Could not remove the swap block.") e;
        Ok (false, e)
      else Ok (true, e)
  end.

(** The loop over the block list from [i], [n] blocks to go: whether a block of
    the process was found, and whether the loop went to the end. *)
Fixpoint resume_blocks (pid block_size i : Z) (n : nat) (process_found : bool) e
    : res (bool * bool * km_env T V U) :=
  match n with
  | O => Ok (process_found, true, e)
  | S n =>
      block ← deref (l_get (block_list (e_swap e)) i);
      if decide (b_pid block = pid) then
        '(ok, e) ← resume_block block pid block_size e;
        if (ok : bool) then resume_blocks pid block_size (i + 1) n true e
        else Ok (true, false, e)
      else resume_blocks pid block_size (i + 1) n process_found e
  end.

(** [resume_process] with the swap connected. *)
Definition resume_process (pid : Z) e : res (km_env T V U) :=
  let block_size := sd_block_size (e_swap e) in
  if negb (can_resume pid e) then
    reply OP_RESUME_SUSPENSION_FAILED (lit "The process does not fit in memory") e
  else
    '(process_found, finished, e) ←
      resume_blocks pid block_size 0 (length (block_list (e_swap e))) false e;
    if negb finished then Ok e else
    if (process_found : bool) then reply OP_RESUME_SUSPENSION_OK (lit "") e
    else reply OP_RESUME_SUSPENSION_FAILED
           (lit "The process was not resumed because its blocks found on disk.") e.
End swap.

(** ** Suspension saves every byte *)

Section suspension.
Context {T V U : Type} `{!Transport T, !Transport V, !Transport U, !Stick T, !Disk V}.
Implicit Types (sw : t_swap_data V) (e : km_env T V U).
Implicit Types (mems : list (list byte)) (bytes : list byte) (s : t_segment).

(** The swap connection is idle with [bytes] in its file, and the block list
    covers it. *)
Record swap_ok sw bytes : Prop := {
  so_socket : exists h, socket_swap sw = Some h /\ disk_holds h (sd_block_size sw) bytes;
  so_block : 0 < sd_block_size sw <= INT_MAX;
  so_size : sd_swap_size sw = l_size bytes /\ l_size bytes <= INT_MAX - 100;
  so_list : l_size (block_list sw) = Z.quot (sd_swap_size sw) (sd_block_size sw) }.

Definition env_ok e mems bytes : Prop :=
  sticks_ok (e_sticks e) mems /\ swap_ok (e_swap e) bytes.

(** Block [k] is chunk [j] of the segment: its entry says so, and its bytes
    begin with the chunk's. *)
Definition chunk_len s (bs j : Z) : Z := Z.min (seg_size s - j * bs) bs.

Definition chunk_entry s (j : Z) (b : t_block_data) : Prop :=
  b_pid b = seg_pid s /\ segment_number b = s32 (seg_id s) /\
  segment_block_number b = j /\ segment_size b = seg_size s.

Definition chunk_saved sw bytes mems s (j k : Z) : Prop :=
  (exists b, l_get (block_list sw) k = Some b /\ chunk_entry s j b) /\
  take (Z.to_nat (chunk_len s (sd_block_size sw) j)) (block (sd_block_size sw) k bytes)
  = slice (seg_base s + j * sd_block_size sw) (chunk_len s (sd_block_size sw) j)
      (concat mems).

(** The blocks in use are kept, entries and contents. *)
Definition keeps sw bytes sw' bytes' : Prop :=
  sd_block_size sw' = sd_block_size sw /\
  forall k b, l_get (block_list sw) k = Some b -> b_pid b ≠ NO_PID ->
    l_get (block_list sw') k = Some b /\
    block (sd_block_size sw) k bytes' = block (sd_block_size sw) k bytes.

Lemma keeps_refl sw bytes : keeps sw bytes sw bytes.
Proof. split; [done|]. auto. Qed.

Lemma keeps_trans sw1 b1 sw2 b2 sw3 b3 :
  keeps sw1 b1 sw2 b2 -> keeps sw2 b2 sw3 b3 -> keeps sw1 b1 sw3 b3.
Proof.
  intros [E1 H1] [E2 H2]. split; [congruence|]. intros k b Hk Hb.
  destruct (H1 k b Hk Hb) as [Hk' <-]. rewrite <- E1. by apply H2.
Qed.

Lemma keeps_saved sw bytes sw' bytes' mems s j k :
  keeps sw bytes sw' bytes' -> seg_pid s ≠ NO_PID ->
  chunk_saved sw bytes mems s j k -> chunk_saved sw' bytes' mems s j k.
Proof.
  intros [E H] Hp [(b & Hb & He) Hs].
  destruct (H k b Hb) as [Hb' Hk]; [by destruct He as (-> & _)|].
  split; [by exists b|]. by rewrite E, Hk.
Qed.

(** The blocks that are free, and the chunks of a segment. *)
Definition free_blocks sw : nat :=
  length (base.filter (fun b => b_pid b = NO_PID) (block_list sw)).
Definition chunk_count s (bs : Z) : nat := Z.to_nat ((seg_size s + bs - 1) / bs).

Lemma no_free_block (blocks : list t_block_data) :
  (forall k b, l_get blocks k = Some b -> b_pid b ≠ NO_PID) ->
  length (base.filter (fun b => b_pid b = NO_PID) blocks) = 0%nat.
Proof.
  intros H. destruct (base.filter _ blocks) as [|b l] eqn:E; [done|].
  assert (b ∈ base.filter (fun b => b_pid b = NO_PID) blocks) as Hb by (rewrite E; by left).
  apply list_elem_of_filter in Hb as [Hp Hb]. apply list_elem_of_lookup in Hb as [i Hi].
  destruct (H (Z.of_nat i) b); [|done]. apply l_get_Some. split; [lia|by rewrite Nat2Z.id].
Qed.

Lemma used_block (f : t_block_data -> t_block_data) (blocks : list t_block_data) i b :
  blocks !! i = Some b -> b_pid b = NO_PID -> b_pid (f b) ≠ NO_PID ->
  S (length (base.filter (fun b => b_pid b = NO_PID) (alter f i blocks)))
  = length (base.filter (fun b => b_pid b = NO_PID) blocks).
Proof.
  revert i. induction blocks as [|x blocks IH]; intros [|i] Hi Hb Hf; [done..| |].
  - injection Hi as ->. change (alter f 0%nat (b :: blocks)) with (f b :: blocks).
    rewrite !filter_cons. by rewrite decide_False, decide_True.
  - change (alter f (S i) (x :: blocks)) with (x :: alter f i blocks).
    rewrite !filter_cons. specialize (IH i Hi Hb Hf). case_decide; cbn; by rewrite IH.
Qed.

Lemma free_block_from_ok i n (blocks : list t_block_data) :
  0 <= i -> i + Z.of_nat n = l_size blocks ->
  exists k, free_block_from i n blocks = Ok k /\
    (k = -1 /\ (forall m b, i <= m -> l_get blocks m = Some b -> b_pid b ≠ NO_PID) \/
     exists b, i <= k /\ l_get blocks k = Some b /\ b_pid b = NO_PID).
Proof.
  revert i. induction n as [|n IH]; intros i Hi Hn; cbn [free_block_from].
  - exists (-1). split; [done|]. left. split; [done|]. intros m b Hm Hb.
    assert (0 <= m < l_size blocks) by (apply l_get_range; eauto). lia.
  - destruct (l_get_range blocks i) as [_ [b Hb]]; [lia|]. rewrite Hb.
    cbn [deref mbind res_bind]. case_decide.
    + exists i. split; [done|]. right. exists b. split_and!; done || lia.
    + destruct (IH (i + 1)) as (k & -> & Hk); [lia..|].
      exists k. split; [done|]. destruct Hk as [[-> Hk]|(b' & ? & ?)]; [left|right].
      * split; [done|]. intros m b' Hm Hb'. destruct (decide (m = i)) as [->|]; [congruence|].
        apply (Hk m); [lia|done].
      * exists b'. split; [lia|done].
Qed.

Lemma find_free_block_ok sw bytes :
  swap_ok sw bytes ->
  exists k, find_free_block sw = Ok k /\
    (k = -1 /\ free_blocks sw = 0%nat \/
     exists b, 0 <= k /\ l_get (block_list sw) k = Some b /\ b_pid b = NO_PID).
Proof.
  intros [_ Hb [Hs _] Hl]. unfold find_free_block. rewrite decide_False by lia.
  destruct (free_block_from_ok 0 (Z.to_nat (Z.quot (sd_swap_size sw) (sd_block_size sw)))
    (block_list sw)) as (k & E & Hk); [lia| |].
  { rewrite Hl, Z2Nat.id; [lia|].
    rewrite Hs. apply Z.quot_pos; [apply l_size_nonneg|lia]. }
  exists k. split; [done|]. destruct Hk as [[-> Hk]|Hk]; [left|by right].
  split; [done|]. apply no_free_block. intros m b Hm. apply (Hk m); [|done].
  assert (0 <= m < l_size (block_list sw)) by (apply l_get_range; eauto). lia.
Qed.

(** A block of the list is inside the file. *)
Lemma block_inside sw bytes k b :
  swap_ok sw bytes -> l_get (block_list sw) k = Some b ->
  0 <= k /\ (k + 1) * sd_block_size sw <= l_size bytes.
Proof.
  intros [_ Hb [Hs _] Hl] Hk.
  assert (0 <= k < l_size (block_list sw)) as Hr by (apply l_get_range; eauto).
  rewrite Hl, Hs, Z.quot_div_nonneg in Hr by (apply l_size_nonneg || lia).
  split; [lia|].
  pose proof (Z.mul_div_le (l_size bytes) (sd_block_size sw)). nia.
Qed.

Lemma write_block_to_swap_ok sw bytes k b c :
  swap_ok sw bytes -> l_get (block_list sw) k = Some b ->
  0 < l_size c <= sd_block_size sw ->
  exists sw', write_block_to_swap k (Some (written c)) (l_size c) sw = Ok sw' /\
    block_list sw' = block_list sw /\ sd_block_size sw' = sd_block_size sw /\
    exists bytes', swap_ok sw' bytes' /\
      forall m, 0 <= m -> (m + 1) * sd_block_size sw <= l_size bytes ->
        block (sd_block_size sw) m bytes'
        = if decide (m = k)
          then c ++ replicate (Z.to_nat (sd_block_size sw - l_size c)) x00
          else block (sd_block_size sw) m bytes.
Proof.
  intros Hok Hk Hc. destruct (block_inside _ _ _ _ Hok Hk) as [Hk0 Hk1].
  pose proof Hok as [(h & Es & Hh) Hb [Hsz Hmax] Hl].
  unfold write_block_to_swap, fill_block.
  rewrite decide_False by lia. rewrite decide_False by lia.
  cbn [deref mbind res_bind].
  assert (l_size (written c) = l_size c) as Hw
    by (unfold l_size, written; by rewrite length_fmap).
  rewrite decide_False by lia.
  rewrite take_ge by (unfold l_size, written in *; lia).
  unfold written. rewrite defined_Some. cbn [mbind res_bind].
  set (content := c ++ _). set (bs := sd_block_size sw) in *.
  assert (l_size content = bs) as Hcl
    by (unfold content, l_size in *; rewrite length_app, length_replicate; lia).
  change (packet_append (packet_append (create_packet OP_DISK_WRITE) (int_bytes k))
    content) with (packet_of OP_DISK_WRITE [int_bytes k; content]).
  rewrite send_packet_elements, Es.
  destruct (disk_writes h bs bytes k content Hh)
    as (h1 & h2 & h3 & b' & E1 & E2 & E3 & Hh3); [lia..|].
  unfold disk_write_request in E1. rewrite E1, E2. cbn [mbind res_bind].
  rewrite decide_True by done. rewrite E3. cbn [mbind res_bind].
  eexists. split_and!; [done..|]. eexists (overwrite _ content bytes). split.
  - assert (l_size (overwrite (Z.to_nat (k * bs)) content bytes) = l_size bytes) as Ho.
    { unfold l_size in *. f_equal. apply overwrite_length. nia. }
    constructor; cbn [set_swap_socket socket_swap sd_block_size sd_swap_size block_list].
    + by exists h3.
    + done.
    + rewrite Ho. done.
    + done.
  - intros m Hm Hm1. apply block_overwrite; lia.
Qed.

Lemma l_get_alter_eq {A} (f : A -> A) (l : list A) k x :
  l_get l k = Some x -> l_get (alter f (Z.to_nat k) l) k = Some (f x).
Proof.
  rewrite !l_get_Some. intros [? H]. split; [done|].
  by rewrite list_lookup_alter_eq, H.
Qed.

Lemma l_get_alter_ne {A} (f : A -> A) (l : list A) k m :
  0 <= k -> m ≠ k -> l_get (alter f (Z.to_nat k) l) m = l_get l m.
Proof.
  intros Hk Hm. unfold l_get. case_decide; [|done].
  apply list_lookup_alter_ne. lia.
Qed.

Lemma set_block_ok f k sw bytes : swap_ok sw bytes -> swap_ok (set_block f k sw) bytes.
Proof.
  intros [H1 H2 H3 H4]. constructor; cbn; try done.
  unfold l_size in *. by rewrite length_alter.
Qed.

(** Taking a free block for chunk [j] and writing the chunk there. *)
Lemma save_chunk sw bytes mems s j k b c :
  swap_ok sw bytes -> l_get (block_list sw) k = Some b -> b_pid b = NO_PID ->
  c = slice (seg_base s + j * sd_block_size sw) (chunk_len s (sd_block_size sw) j)
        (concat mems) ->
  0 < l_size c -> l_size c = chunk_len s (sd_block_size sw) j -> seg_pid s ≠ NO_PID ->
  exists sw' bytes',
    write_block_to_swap k (Some (written c)) (l_size c)
      (set_block (fun b => mk_block_data (block_number b) (seg_pid s)
                   (s32 (seg_id s)) j (seg_size s)) k sw) = Ok sw' /\
    swap_ok sw' bytes' /\ keeps sw bytes sw' bytes' /\
    chunk_saved sw' bytes' mems s j k /\ free_blocks sw = S (free_blocks sw').
Proof.
  intros Hok Hk Hfree Hc Hpos Hlen Hpid. set (f := fun _ => mk_block_data _ _ _ _ _).
  destruct (block_inside _ _ _ _ Hok Hk) as [Hk0 Hk1].
  assert (l_size c <= sd_block_size sw) as Hcb by (unfold chunk_len in Hlen; lia).
  destruct (write_block_to_swap_ok (set_block f k sw) bytes k (f b) c)
    as (sw' & -> & El & Eb & bytes' & Hok' & Hblk);
    [by apply set_block_ok|by apply l_get_alter_eq|done|].
  cbn [set_block sd_block_size block_list] in *.
  exists sw', bytes'. split_and!; [done|done| | |].
  - split; [done|]. intros m bm Hm Hmb.
    destruct (block_inside _ _ _ _ Hok Hm) as [Hm0 Hm1].
    assert (m ≠ k) by (intros ->; congruence). split.
    + by rewrite El, l_get_alter_ne.
    + rewrite Hblk by done. by rewrite decide_False.
  - unfold chunk_saved. rewrite El, Eb. split.
    + exists (f b). split; [by apply l_get_alter_eq|]. by repeat split.
    + rewrite Hblk by done. rewrite decide_True by done.
      rewrite <- Hc, <- Hlen. unfold l_size. by rewrite Nat2Z.id, take_app_length.
  - unfold free_blocks. rewrite El. symmetry. apply used_block with b; [|done|done].
    by apply l_get_Some in Hk as [_ Hk].
Qed.

Lemma suspend_blocks_ok n s i e mems bytes :
  env_ok e mems bytes -> 0 <= i ->
  (n = 0%nat \/ (i + Z.of_nat n - 1) * sd_block_size (e_swap e) < seg_size s) ->
  0 <= seg_base s -> seg_base s + seg_size s <= l_size (concat mems) ->
  seg_pid s ≠ NO_PID ->
  exists ok e' bytes', suspend_blocks s i n e = Ok (ok, e') /\
    env_ok e' mems bytes' /\ e_mem e' = e_mem e /\
    keeps (e_swap e) bytes (e_swap e') bytes' /\
    ok = bool_decide (n <= free_blocks (e_swap e))%nat /\
    free_blocks (e_swap e') = (free_blocks (e_swap e) - n)%nat /\
    (ok = true -> forall j, i <= j < i + Z.of_nat n ->
       exists k, chunk_saved (e_swap e') bytes' mems s j k).
Proof.
  revert i e bytes. induction n as [|n IH]; intros i e bytes [Hst Hsw] Hi Hn Hb Hend Hp.
  { exists true, e, bytes. split_and!; [done|done|done|apply keeps_refl|done|lia|].
    intros _ j Hj. lia. }
  destruct Hn as [?|Hn]; [done|]. pose proof Hst as [_ Htot].
  pose proof (so_block _ _ Hsw) as Hbs.
  set (bs := sd_block_size (e_swap e)) in *.
  assert (0 <= i * bs < seg_size s) as Hoff by nia.
  cbn [suspend_blocks]. fold bs. cint.
  assert (forall x y, (if decide (x < y) then x else y) = Z.min x y) as ->
    by (intros; case_decide; lia).
  fold (chunk_len s bs i). set (c := chunk_len s bs i).
  assert (0 < c <= seg_size s - i * bs) as Hc by (unfold c, chunk_len; lia).
  destruct (read_from_sticks_ok (seg_base s + i * bs) c (e_sticks e) mems (e_sched e))
    as (sticks' & -> & Hst'); [done|lia..|].
  cbn [mbind res_bind]. unfold add_block_to_swap.
  destruct (find_free_block_ok _ _ Hsw) as (k & -> & Hk). cbn [mbind res_bind].
  destruct (decide (k = -1)) as [->|Hk1].
  { rewrite decide_False by (intros Hx; by apply Hx). cbn [mbind res_bind].
    rewrite decide_True by done. unfold reply. sends.
    destruct (socket_send _ _) as [b so]. cbn [mbind res_bind].
    destruct Hk as [[_ Hk]|(b0 & Hk & _)]; [|lia].
    eexists false, _, bytes. split_and!; [done|by split|done|apply keeps_refl| | |done];
      cbn [e_swap]; rewrite Hk; [done|lia]. }
  destruct Hk as [[? _]|(b & Hk0 & Hkb & Hfree)]; [done|].
  rewrite decide_True by done. cbn [mbind res_bind]. rewrite decide_False by done.
  set (ch := slice _ c _). assert (l_size ch = c) as Hch by (apply slice_length; lia).
  destruct (save_chunk (e_swap e) bytes mems s i k b ch Hsw Hkb Hfree eq_refl)
    as (sw' & bytes1 & E & Hsw' & Hkeep & Hsaved & Hused); [lia|done|done|].
  rewrite Hch in E. rewrite E. cbn [mbind res_bind].
  destruct Hkeep as [Ebs Hkeep'] eqn:Ek. clear Ek.
  destruct (IH (i + 1) (set_swap sw' (mk_env sticks' (e_mem e) (e_swap e) (e_sched e)))
    bytes1) as (ok & e' & bytes' & E' & Henv & Hm & Hkeep2 & Hok & Hfr & Hsv);
    [by split|lia| |done|done|done|].
  { destruct n; [by left|right]. cbn [set_swap e_swap]. rewrite Ebs. fold bs. nia. }
  cbn [set_swap e_swap] in Hok, Hfr.
  exists ok, e', bytes'. split_and!; [exact E'|done|done| | | |].
  - eapply keeps_trans; [split; [exact Ebs|exact Hkeep']|exact Hkeep2].
  - rewrite Hok, Hused. apply bool_decide_ext. lia.
  - rewrite Hfr, Hused. lia.
  - intros Ht j Hj. destruct (decide (j = i)) as [->|].
    + exists k. by eapply keeps_saved.
    + apply Hsv; [done|lia].
Qed.

(** C30: suspending a segment that is not empty, lies within the sticks and belongs to
    a process moves all of it to the swap if there are as many free
    blocks as it has chunks, and says so exactly then: every chunk is in a block
    of its own, registered under the process, the segment and the chunk's
    position.  If there are fewer, it fails with the swap full.  In both cases
    the blocks that were in use, the sticks and the tables are untouched, and no
    memory is accessed out of bounds. *)
Theorem suspend_segment_saves s e mems bytes :
  env_ok e mems bytes -> 0 <= seg_base s -> 0 < seg_size s ->
  seg_size s + sd_block_size (e_swap e) <= INT_MAX ->
  seg_base s + seg_size s <= l_size (concat mems) -> seg_pid s ≠ NO_PID ->
  exists ok e' bytes', suspend_segment s e = Ok (ok, e') /\
    env_ok e' mems bytes' /\ e_mem e' = e_mem e /\
    keeps (e_swap e) bytes (e_swap e') bytes' /\
    ok = bool_decide (chunk_count s (sd_block_size (e_swap e)) <= free_blocks (e_swap e))%nat /\
    free_blocks (e_swap e')
    = (free_blocks (e_swap e) - chunk_count s (sd_block_size (e_swap e)))%nat /\
    (ok = true -> forall j, 0 <= j -> j * sd_block_size (e_swap e) < seg_size s ->
       exists k, chunk_saved (e_swap e') bytes' mems s j k).
Proof.
  intros Henv Hb Hs Hmax Hend Hp. pose proof Henv as [_ Hsw].
  pose proof (so_block _ _ Hsw) as Hbs. set (bs := sd_block_size (e_swap e)) in *.
  unfold suspend_segment. fold bs. rewrite decide_False by lia. cint.
  rewrite Z.quot_div_nonneg by lia. set (n := (seg_size s + bs - 1) / bs).
  pose proof (Z.div_mod (seg_size s + bs - 1) bs ltac:(lia)) as Hdm.
  pose proof (Z.mod_pos_bound (seg_size s + bs - 1) bs ltac:(lia)) as Hmb.
  fold n in Hdm. assert (0 < n) by nia.
  destruct (suspend_blocks_ok (Z.to_nat n) s 0 e mems bytes Henv)
    as (ok & e' & bytes' & E & H1 & H2 & H3 & Hf & Hg & H4); [lia|right; fold bs; nia|done..|].
  exists ok, e', bytes'. unfold chunk_count. fold n. split_and!; [done..|].
  intros Hok j Hj0 Hj. apply H4; [done|]. rewrite Z2Nat.id by lia. nia.
Qed.

(** ** Resuming after MEM_FREE *)

Lemma read_block_from_swap_ok sw bytes k b :
  swap_ok sw bytes -> l_get (block_list sw) k = Some b ->
  exists c sw', read_block_from_swap k sw = Ok (Some c, sw').
Proof.
  intros Hok Hk. destruct (block_inside _ _ _ _ Hok Hk) as [Hk0 Hk1].
  destruct Hok as [(h & Es & Hh) Hb [Hsz Hmax] Hl].
  destruct (disk_reads h _ bytes k Hh) as (h1 & h2 & h3 & E1 & E2 & E3 & Hh3); [lia..|].
  unfold read_block_from_swap. rewrite Es.
  change (send_buffer OP_DISK_READ (int_bytes k) (Some h))
    with (socket_send (Some h) (disk_read_request k)).
  rewrite E1, E2. cbn [mbind res_bind].
  rewrite decide_False by (intros Hx; by apply Hx). rewrite E3.
  cbn [mbind res_bind]. eauto.
Qed.

(** The only segment of a process has ordinal 0. *)
Lemma find_segment_only m h pid id size :
  Forall (fun s => seg_pid s ≠ pid) (segments m) ->
  l_size (segments m) < UINT32_MAX -> 0 < id ->
  find_segment (update_segment_list h size pid id (update_hole_table h size m)) pid id
  = None.
Proof.
  intros Hnone Hlen Hid. unfold find_segment.
  cbn [update_segment_list update_hole_table set_holes set_segments segments].
  rewrite find_segment_from_nth;
    [|unfold l_size in *; rewrite ?length_app; cbn [length]; lia..].
  rewrite filter_app, filter_cons, filter_nil. cbn [seg_pid].
  rewrite decide_True by done.
  assert (base.filter (fun s => seg_pid s = pid) (segments m) = []) as ->.
  { clear - Hnone. induction Hnone as [|s l Hs Hl IH]; [done|].
    rewrite filter_cons. by rewrite decide_False. }
  rewrite l_get_out; [done|]. unfold l_size. cbn. lia.
Qed.

(** [compute_address_with_offset] passes the segment's id where
    [find_segment] expects its ordinal: resuming a process whose first suspended
    segment has an id other than 0, as after MEM_FREE of its segment 0,
    dereferences NULL. *)
Theorem resume_after_free_null_deref e mems bytes b pid :
  env_ok e mems bytes -> memory_wf (e_mem e) -> valid_strategy (e_mem e) ->
  l_size (segments (e_mem e)) < UINT32_MAX ->
  Forall (fun s => seg_pid s ≠ pid) (segments (e_mem e)) ->
  0 < segment_size b -> fits (e_mem e) (segment_size b) ->
  0 < segment_number b <= UINT32_MAX -> segment_block_number b = 0 ->
  l_get (block_list (e_swap e)) (block_number b) = Some b ->
  resume_block b pid (sd_block_size (e_swap e)) e = Undef NullDeref.
Proof.
  intros [_ Hsw] Hwf Hst Hlen Hnone Hs Hf Hid Hj Hb. unfold resume_block.
  rewrite Hj, (decide_True (P := 0 = 0)) by done. unfold regenerate_segment.
  pose proof (fits_le_free _ _ Hwf Hf). pose proof (free_bytes_bounds _ Hwf).
  rewrite compute_free_space_spec by done.
  rewrite (decide_False (P := free_bytes (e_mem e) < segment_size b)) by lia. cint.
  destruct (select_hole_fits (e_mem e) (segment_size b))
    as (st & h & _ & Hh & Hle & _ & E); [done..|]. rewrite E.
  rewrite (decide_False (P := hole_size h = -1)) by lia. cbn [mbind res_bind negb set_mem e_swap e_mem].
  destruct (read_block_from_swap_ok _ _ _ _ Hsw Hb) as (c & sw' & ->).
  cbn [mbind res_bind set_swap e_mem]. unfold compute_address_with_offset. cint.
  pose proof (find_segment_only (e_mem e) h pid (segment_number b) (segment_size b)
    Hnone Hlen ltac:(lia)) as Hf0.
  cbn [set_mem e_mem] in *. by rewrite Hf0.
Qed.
End suspension.

(** ** Concrete instances *)

(** Two 8-byte sticks, and a swap of four 4-byte blocks listed as [blocks]. *)
Definition small_env (m : t_main_memory) (blocks : list t_block_data)
    : km_env stick_peer (peer t_swap) wire :=
  mk_env two_sticks m (mk_swap_data (Some small_swap) blocks 16 4) None.

Lemma small_env_ok m blocks :
  l_size blocks = 4 ->
  env_ok (small_env m blocks) [replicate 8 x00; replicate 8 x00] (replicate 16 x00).
Proof.
  intros Hl. split; [apply two_sticks_ok|].
  constructor; cbn [small_env e_swap sd_block_size sd_swap_size block_list socket_swap].
  - exists small_swap. split; [done|]. by exists 16, 0.
  - ints. lia.
  - split; [done|]. vm_compute. congruence.
  - done.
Qed.

(** Four blocks are free; the segment needs three, and then there is one left. *)
Lemma suspend_segment_saves_witness :
  let s := mk_segment 0 3 2 10 in
  let e := small_env (mk_main_memory 0 16 16 [s] [mk_hole 0 2; mk_hole 12 4] 0)
             (init_block_list 16 4) in
  let mems := [replicate 8 x00; replicate 8 x00] in
  exists ok e' bytes', suspend_segment s e = Ok (ok, e') /\ ok = true /\
    free_blocks (e_swap e') = 1%nat /\ env_ok e' mems bytes' /\
    (forall j, 0 <= j -> j * sd_block_size (e_swap e) < seg_size s ->
       exists k, chunk_saved (e_swap e') bytes' mems s j k).
Proof.
  cbv zeta. destruct (suspend_segment_saves (mk_segment 0 3 2 10)
    (small_env (mk_main_memory 0 16 16 [mk_segment 0 3 2 10]
      [mk_hole 0 2; mk_hole 12 4] 0) (init_block_list 16 4))
    [replicate 8 x00; replicate 8 x00] (replicate 16 x00))
    as (ok & e' & bytes' & E & H1 & _ & _ & Hok & Hf & Hs);
    [by apply small_env_ok|vm_compute; congruence..|].
  exists ok, e', bytes'. assert (ok = true) as Ht by (rewrite Hok; reflexivity).
  split_and!; [exact E|exact Ht|rewrite Hf; reflexivity|exact H1|exact (Hs Ht)].
Defined.

(** Process 3 freed its segment 0 before it was suspended: block 0 holds its
    segment 1. *)
Definition freed_env : km_env stick_peer (peer t_swap) wire :=
  small_env (mk_main_memory 0 16 16 [] [mk_hole 0 16] 0)
    (mk_block_data 0 3 1 0 4 :: drop 1 (init_block_list 16 4)).

Lemma resume_after_free_null_deref_witness :
  resume_block (mk_block_data 0 3 1 0 4) 3 (sd_block_size (e_swap freed_env)) freed_env
  = Undef NullDeref.
Proof.
  apply (resume_after_free_null_deref freed_env
    [replicate 8 x00; replicate 8 x00] (replicate 16 x00)).
  - by apply small_env_ok.
  - constructor; cbn; [ints; lia| |].
    + exists [(0, 16)]. split; [done|]. cbn. lia.
    + intros h1 h2 ->%list_elem_of_singleton ->%list_elem_of_singleton. done.
  - by eexists.
  - done.
  - constructor.
  - done.
  - exists (mk_hole 0 16). split; [by left|done].
  - done.
  - done.
  - done.
Defined.

(** ** Taking back everything a process has *)

(** The first segment of a process is found by its id. *)
Lemma find_first_segment pid s r (l : list t_segment) :
  base.filter (fun s => seg_pid s = pid) l = s :: r ->
  l_find (is_segment (seg_id s) pid) l = Some s /\
  base.filter (fun s => seg_pid s = pid) (l_remove_first (is_segment (seg_id s) pid) l) = r /\
  base.filter (fun s => seg_pid s ≠ pid) (l_remove_first (is_segment (seg_id s) pid) l)
  = base.filter (fun s => seg_pid s ≠ pid) l.
Proof.
  induction l as [|y l IH]; [done|]. destruct (decide (seg_pid y = pid)) as [Hy|Hy].
  - rewrite filter_cons_True by done. intros [= -> <-].
    rewrite (filter_cons_False _ _ l) by tauto. cbn [l_find l_remove_first].
    unfold is_segment. by rewrite !bool_decide_true by done.
  - rewrite filter_cons_False by done. intros (H1 & H2 & H3)%IH.
    cbn [l_find l_remove_first].
    assert (is_segment (seg_id s) pid y = false) as -> by (apply bool_decide_false; tauto).
    rewrite filter_cons_False by tauto. rewrite !filter_cons_True by done. by rewrite H3.
Qed.

Lemma filter_complement_nil pid (l : list t_segment) :
  base.filter (fun s => seg_pid s = pid) l = [] ->
  base.filter (fun s => seg_pid s ≠ pid) l = l.
Proof.
  induction l as [|y l IH]; [done|]. destruct (decide (seg_pid y = pid)) as [Hy|Hy].
  - by rewrite filter_cons_True by done.
  - rewrite filter_cons_False, filter_cons_True by done. intros H. by rewrite IH.
Qed.

(** All the segments of a process are removed, and nothing else; their bytes
    are free. *)
Lemma remove_all_segments pid m :
  memory_wf m ->
  let its := base.filter (fun s => seg_pid s = pid) (segments m) in
  exists m', remove_process_segments its pid m = Ok m' /\ memory_wf m' /\
    segments m' = base.filter (fun s => seg_pid s ≠ pid) (segments m) /\
    free_bytes m' = free_bytes m + sum_with seg_size its.
Proof.
  intros Hwf its. remember its as l eqn:El. subst its. symmetry in El.
  revert m Hwf El. induction l as [|s l IH]; intros m Hwf El; cbn [remove_process_segments sum_with].
  - exists m. split_and!; [done..| |lia].
    symmetry. by apply filter_complement_nil.
  - destruct (find_first_segment pid s l (segments m) El) as (Hf & Hr & Hk).
    destruct (remove_segment_found (seg_id s) pid m s Hwf Hf) as (m1 & E & Hwf1 & _ & Hfree & Hs).
    rewrite E. cbn [mbind res_bind].
    destruct (IH m1 Hwf1) as (m' & E' & Hwf' & Hs' & Hfree'); [by rewrite Hs|].
    exists m'. split_and!; [done..| |lia]. by rewrite Hs', Hs.
Qed.
