(* ===== verification/KmProcess.v ===== *)
(** * KmProcess: kernel_memory/src/kernel_memory/registry.c, initializer.c

    The processes Kernel Memory knows: loading a script, finding a process, and
    the registers it keeps for each. *)

From Stdlib Require Import Strings.Byte Strings.String.
From S2P Require Import Prelude Bytes Msg Text Structs.
From S2P Require Import File.

Record t_process := mk_process {
  p_pid : Z;
  instructions_path : text;
  instructions : list text;
  registers : t_registers }.

Definition set_registers (r : t_registers) (p : t_process) : t_process :=
  mk_process (p_pid p) (instructions_path p) (instructions p) r.

(** The process list; an entry may be NULL. *)
Abbreviation t_processes := (list (option t_process)).

(** ** Reading the script *)

(** [line[strcspn(line, "\n")] = '\0']. *)
Definition chomp (line : text) : text :=
  take_while (fun c => negb (bool_decide (c = x0a))) line.

(** The loop over the lines; every round consumes a byte. *)
Fixpoint read_lines (fuel : nat) (content : text) : list text :=
  match fuel, content with
  | S fuel, _ :: _ =>
      let (line, rest) := fgets 255 content in chomp line :: read_lines fuel rest
  | _, _ => []
  end.

Definition file_lines (content : text) : list text :=
  read_lines (length content) content.

(** [None]: the file could not be opened, and NULL is returned. *)
Definition init_process (fs : file_system) (pid : Z) (relative_path basepath : text)
    : option t_process :=
  match fs (basepath ++ txt "/" ++ relative_path) with
  | None => None
  | Some content =>
      Some (mk_process pid relative_path (file_lines content) zero_registers)
  end.

(** [registry.c]: the first process with this pid.  A NULL entry on the way is
    dereferenced. *)
Fixpoint find_process (l : t_processes) (pid : Z) : res (option t_process) :=
  match l with
  | [] => Ok None
  | p :: r =>
      p ← deref p;
      if decide (p_pid p = pid) then Ok (Some p) else find_process r pid
  end.

Definition is_process (pid : Z) (p : option t_process) : bool :=
  match p with Some p => bool_decide (p_pid p = pid) | None => false end.

(** The pointer [find_process] returned, unlinked or written through. *)
Definition remove_process (pid : Z) (l : t_processes) : t_processes :=
  l_remove_first (is_process pid) l.
Definition update_registers (pid : Z) (r : t_registers) (l : t_processes)
    : t_processes :=
  l_update_first (is_process pid) (option_map (set_registers r)) l.

(** ** Lemmas *)

(** The list as it should be: no NULL entry. *)
Definition processes_ok (l : t_processes) : Prop := Forall is_Some l.

Lemma find_process_ok l pid :
  processes_ok l ->
  exists o, find_process l pid = Ok o /\ l_find (is_process pid) l = option_map Some o.
Proof.
  induction 1 as [|p l [q ->] H (o & IH1 & IH2)]; cbn; [by exists None|].
  case_bool_decide as E.
  - rewrite decide_True by done. by exists (Some q).
  - rewrite decide_False by done. by exists o.
Qed.

Lemma find_process_null l pid :
  Forall (fun p => is_process pid p = false) l -> Forall is_Some l ->
  find_process (l ++ [None]) pid = Undef NullDeref.
Proof.
  intros H Hs. induction Hs as [|p l [q ->] Hs IH]; [done|].
  apply Forall_cons in H as [Hp H]. cbn in *.
  apply bool_decide_eq_false in Hp. rewrite decide_False by done. auto.
Qed.

Lemma processes_ok_update pid r l :
  processes_ok l -> processes_ok (update_registers pid r l).
Proof.
  unfold processes_ok, update_registers.
  induction 1 as [|p l [q ->] H IH]; cbn; [done|].
  case_bool_decide; constructor; cbn; eauto.
Qed.

Lemma processes_ok_remove pid l :
  processes_ok l -> processes_ok (remove_process pid l).
Proof.
  intros H. apply Forall_forall. intros p Hp%elem_of_l_remove_first.
  unfold processes_ok in H. rewrite Forall_forall in H. auto.
Qed.

(** Reading back the registers just stored. *)
Lemma find_update_registers pid r l p :
  processes_ok l -> find_process l pid = Ok (Some p) ->
  find_process (update_registers pid r l) pid = Ok (Some (set_registers r p)).
Proof.
  induction 1 as [|q l [q' ->] H IH]; cbn; [done|].
  case_bool_decide as E; cbn.
  - rewrite !decide_True by done. by intros [= <-].
  - rewrite !decide_False by done. apply IH.
Qed.

Lemma find_update_registers_ne pid pid' r l :
  processes_ok l -> pid' ≠ pid ->
  find_process (update_registers pid r l) pid' = find_process l pid'.
Proof.
  intros H Hne. induction H as [|q l [q' ->] H IH]; cbn; [done|].
  case_bool_decide as E; cbn.
  - by rewrite !decide_False by congruence.
  - case_decide; (done || apply IH).
Qed.

Lemma chomp_line line : x0a ∉ line -> chomp (line ++ [x0a]) = line.
Proof.
  unfold chomp. induction line as [|c line IH]; cbn.
  - intros _. by rewrite bool_decide_true.
  - intros [Hc Hl]%not_elem_of_cons. rewrite bool_decide_false by congruence.
    cbn. by rewrite IH.
Qed.

(** a script whose lines fit in the 256-byte buffer is loaded as exactly its
    lines, in order, and its process starts with zeroed registers. *)
Theorem init_process_loads_lines (fs : file_system) (pid : Z) (path base : text)
    (lines : list text) :
  fs (base ++ txt "/" ++ path) = Some (concat ((fun l : text => l ++ [x0a]) <$> lines)) ->
  Forall (fun l => (x0a ∉ l) /\ (length l < 255)%nat) lines ->
  init_process fs pid path base = Some (mk_process pid path lines zero_registers).
Proof.
  intros Hf H. unfold init_process. rewrite Hf. do 2 f_equal. unfold file_lines.
  clear Hf. set (content := concat _).
  assert (forall fuel, (length content <= fuel)%nat ->
    read_lines fuel content = lines) as Hr; [|by apply Hr].
  subst content. induction H as [|l lines [Hn Hl] H IH]; intros fuel Hfuel.
  - by destruct fuel.
  - cbn [fmap list_fmap concat] in *. rewrite <- app_assoc in *. cbn [app] in *.
    rewrite !length_app in Hfuel. cbn in Hfuel.
    destruct fuel as [|fuel]; [lia|].
    assert (read_lines (S fuel) (l ++ x0a :: concat ((fun l => l ++ [x0a]) <$> lines))
      = (let (line, rest) :=
           fgets 255 (l ++ x0a :: concat ((fun l => l ++ [x0a]) <$> lines)) in
         chomp line :: read_lines fuel rest)) as -> by (by destruct l).
    rewrite fgets_line by done. rewrite chomp_line by done.
    f_equal. apply IH. lia.
Qed.

Lemma init_process_loads_lines_witness :
  let fs : file_system := fun p =>
    if decide (p = txt "/scripts/a") then Some (txt "SET AX 1" ++ [x0a] ++ txt "EXIT" ++ [x0a])
    else None in
  init_process fs 4 (txt "a") (txt "/scripts")
  = Some (mk_process 4 (txt "a") [txt "SET AX 1"; txt "EXIT"] zero_registers).
Proof.
  apply init_process_loads_lines; [reflexivity|].
  repeat constructor; try (cbn; lia);
    match goal with |- ?P => apply (bool_decide_unpack P); vm_compute; done end.
Defined.
