(* ===== verification/SchedulerListener.v ===== *)
(** * SchedulerListener: kernel_memory/src/kernel_memory/scheduler_listener.c

    The loop that serves the Kernel Scheduler: one handler per operation code,
    each on the whole state of Kernel Memory. *)

From Stdlib Require Import Strings.Byte Strings.String.
From S2P Require Import Prelude Bytes Msg Text File Structs MainMemory Compaction Holes.
From S2P Require Import Segments Peer MemoryStick Sticks SwapModule KmSwap KmProcess.

(** [t_scheduler_data]: sticks behind [T], swap behind [V], the scheduler
    behind [U]. *)
Record t_scheduler_data (T V U : Type) := mk_scheduler_data {
  socket_scheduler : t_socket U;
  processes : t_processes;
  scripts_basepath : text;
  connected_sticks : list (t_stick_data T);
  main_memory : t_main_memory;
  swap_data : option (t_swap_data V) }.
Arguments mk_scheduler_data {T V U} _ _ _ _ _ _.
Arguments socket_scheduler {T V U} _.
Arguments processes {T V U} _.
Arguments scripts_basepath {T V U} _.
Arguments connected_sticks {T V U} _.
Arguments main_memory {T V U} _.
Arguments swap_data {T V U} _.

Section listener.
Context {T V U : Type} `{!Transport T, !Transport V, !Transport U}.
Context (fs : file_system).
Implicit Types (d : t_scheduler_data T V U).

Definition set_sched s d : t_scheduler_data T V U :=
  mk_scheduler_data s (processes d) (scripts_basepath d) (connected_sticks d)
    (main_memory d) (swap_data d).
Definition set_processes l d : t_scheduler_data T V U :=
  mk_scheduler_data (socket_scheduler d) l (scripts_basepath d) (connected_sticks d)
    (main_memory d) (swap_data d).
Definition set_sticks l d : t_scheduler_data T V U :=
  mk_scheduler_data (socket_scheduler d) (processes d) (scripts_basepath d) l
    (main_memory d) (swap_data d).
Definition set_memory m d : t_scheduler_data T V U :=
  mk_scheduler_data (socket_scheduler d) (processes d) (scripts_basepath d)
    (connected_sticks d) m (swap_data d).

(** [send_string] to the scheduler; its result is not looked at. *)
Definition answer (op : t_op_code) (message : list byte) d
    : res (t_scheduler_data T V U) :=
  '(_, s) ← send_string op message (socket_scheduler d); Ok (set_sched s d).

(** Suspension and resumption run on the part of the state they use. *)
Definition env_of d (sw : t_swap_data V) : km_env T V U :=
  mk_env (connected_sticks d) (main_memory d) sw (socket_scheduler d).
Definition with_env d (e : km_env T V U) : t_scheduler_data T V U :=
  mk_scheduler_data (e_sched e) (processes d) (scripts_basepath d) (e_sticks e)
    (e_mem e) (Some (e_swap e)).

Definition receive_pid d : res (Z * t_scheduler_data T V U) :=
  '(b, _, s) ← receive_buffer (socket_scheduler d);
  b ← deref b; pid ← read_u32 b 0; Ok (pid, set_sched s d).

Definition handle_new_process d : res (bool * t_scheduler_data T V U) :=
  '(packet, s) ← receive_packet (socket_scheduler d);
  relative_path ← deref (l_get packet 0);
  pid ← deref (l_get packet 1);
  pid ← read_u32 pid 0;
  path ← defined relative_path; path ← str_read path;
  let process := init_process fs pid path (scripts_basepath d) in
  d ← answer OP_PROCESS_STARTED (lit "Process created")
        (set_processes (processes d ++ [process]) (set_sched s d));
  Ok (true, d).

Definition handle_create_segment d : res (bool * t_scheduler_data T V U) :=
  '(b, _, s) ← receive_buffer (socket_scheduler d);
  b ← deref b; syscall ← syscall_memory_of b;
  let d := set_sched s d in
  if decide (u32 (max_segment_size (main_memory d)) < sm_size syscall) then
    d ← answer OP_SEGMENT_SIZE_EXCEEDED
          (lit "Requested size is larger than the max segment size") d;
    Ok (true, d)
  else
    '(m, s) ← create_segment (sm_segment_id syscall) (sm_pid syscall)
                (s32 (sm_size syscall)) (main_memory d) (socket_scheduler d);
    Ok (true, set_memory m (set_sched s d)).

Definition handle_delete_segment d : res (bool * t_scheduler_data T V U) :=
  '(b, _, s) ← receive_buffer (socket_scheduler d);
  b ← deref b; syscall ← syscall_memory_of b;
  m ← remove_segment (sm_segment_id syscall) (sm_pid syscall) (main_memory d);
  d ← answer OP_MEMORY_FREED (lit "Memory freed") (set_memory m (set_sched s d));
  Ok (true, d).

(** [strnlen] and [memcpy] into a zeroed buffer of [n] bytes. *)
Definition safe_copy (write_buffer : buf) (n : Z) : res (list byte) :=
  if decide (n < 0) then Undef OutOfBounds else
  bytes ← defined (take (Z.to_nat n) write_buffer);
  match c_str bytes with
  | Some valid => Ok (valid ++ replicate (Z.to_nat n - length valid) x00)
  | None => if decide (l_size write_buffer < n) then Undef OutOfBounds else Ok bytes
  end.

Definition handle_stdin_request d : res (bool * t_scheduler_data T V U) :=
  '(packet, s) ← receive_packet (socket_scheduler d);
  request ← deref (l_get packet 0);
  request ← stdin_request_of request;
  let d := set_sched s d in
  physical_address ← translate_logical_address (in_pid request)
    (in_logical_address request) (bytes_to_read request) (main_memory d);
  if decide (physical_address = -1) then
    d ← answer OP_STDIN_RESPONSE (lit "Segmentation Fault") d; Ok (true, d)
  else
    let requested_size := s32 (bytes_to_read request) in
    write_buffer ← deref (l_get packet 1);
    safe_buffer ← safe_copy write_buffer requested_size;
    '(ok, sticks, s) ← write_to_sticks physical_address requested_size
      (written safe_buffer) (connected_sticks d) (socket_scheduler d);
    let d := set_sticks sticks (set_sched s d) in
    if negb ok then Ok (false, d) else
    d ← answer OP_STDIN_RESPONSE (lit "Memory written") d; Ok (true, d).

Definition handle_stdout_request d : res (bool * t_scheduler_data T V U) :=
  '(b, _, s) ← receive_buffer (socket_scheduler d);
  b ← deref b; request ← stdout_request_of b;
  let d := set_sched s d in
  physical_address ← translate_logical_address (out_pid request)
    (out_logical_address request) (bytes_to_write request) (main_memory d);
  if decide (physical_address = -1) then
    d ← answer OP_STDOUT_RESPONSE (lit "Segmentation Fault") d; Ok (true, d)
  else
    '(buffer, sticks, s) ← read_from_sticks physical_address
      (s32 (bytes_to_write request)) (connected_sticks d) (socket_scheduler d);
    let d := set_sticks sticks (set_sched s d) in
    match (buffer : option buf) with
    | None => d ← answer OP_STDOUT_RESPONSE (lit "Stick read error") d; Ok (false, d)
    | Some buffer =>
        bytes ← defined buffer;
        d ← answer OP_STDOUT_RESPONSE bytes d; Ok (true, d)
    end.

Definition handle_end_process d : res (bool * t_scheduler_data T V U) :=
  '(pid, d) ← receive_pid d;
  process_to_end ← find_process (processes d) pid;
  match (process_to_end : option t_process) with
  | None => Ok (true, d)
  | Some p =>
      m ← remove_process_segments (filter_process_segments pid (main_memory d))
            (p_pid p) (main_memory d);
      Ok (true, set_memory m (set_processes (remove_process pid (processes d)) d))
  end.

Definition handle_request_free_memory d : res (bool * t_scheduler_data T V U) :=
  '(_, s) ← receive_string (socket_scheduler d);
  let size := compute_free_space (holes (main_memory d)) in
  Ok (true, set_sched (send_buffer OP_FREE_MEMORY (int_bytes size) s).2 d).

Definition handle_request_process_size d : res (bool * t_scheduler_data T V U) :=
  '(pid, d) ← receive_pid d;
  process ← find_process (processes d) pid;
  let size := match (process : option t_process) with
              | None => 0
              | Some p => compute_process_size (p_pid p) (main_memory d)
              end in
  Ok (true, set_sched (send_buffer OP_PROCESS_SIZE (int_bytes size)
                         (socket_scheduler d)).2 d).

(** [suspend_process] refuses when the swap is not connected. *)
Definition handle_suspend_process d : res (bool * t_scheduler_data T V U) :=
  '(pid, d) ← receive_pid d;
  process ← find_process (processes d) pid;
  match (process : option t_process), swap_data d with
  | None, _ => Ok (true, d)
  | Some _, None =>
      d ← answer OP_SUSPENSION_FAILED (lit "Swap module is not connected yet.") d;
      Ok (true, d)
  | Some p, Some sw =>
      e ← suspend_process (p_pid p) (env_of d sw); Ok (true, with_env d e)
  end.

Definition handle_resume_suspended_process d : res (bool * t_scheduler_data T V U) :=
  '(pid, d) ← receive_pid d;
  match swap_data d with
  | None =>
      d ← answer OP_RESUME_SUSPENSION_FAILED (lit "Swap module is not connected yet.") d;
      Ok (true, d)
  | Some sw => e ← resume_process pid (env_of d sw); Ok (true, with_env d e)
  end.

Definition handle_kernel_memory_running d : res (bool * t_scheduler_data T V U) :=
  '(_, s) ← receive_string (socket_scheduler d); Ok (true, set_sched s d).

(** One round of [listen_scheduler]: whether the connection is alive. *)
Definition listen_scheduler_step d : res (bool * t_scheduler_data T V U) :=
  '(op_code, s) ← receive_op_code (socket_scheduler d);
  let d := set_sched s d in
  match op_of_value op_code with
  | Some OP_NEW_PROCESS => handle_new_process d
  | Some OP_CREATE_SEGMENT => handle_create_segment d
  | Some OP_DELETE_SEGMENT => handle_delete_segment d
  | Some OP_IO_STDIN_REQUEST => handle_stdin_request d
  | Some OP_IO_STDOUT_REQUEST => handle_stdout_request d
  | Some OP_END_PROCESS => handle_end_process d
  | Some OP_REQUEST_FREE_MEMORY => handle_request_free_memory d
  | Some OP_REQUEST_PROCESS_SIZE => handle_request_process_size d
  | Some OP_SUSPEND_PROCESS => handle_suspend_process d
  | Some OP_RESUME_SUSPENDED_PROCESS => handle_resume_suspended_process d
  | Some OP_KERNEL_SCHEDULER_SHUTDOWN => Ok (false, d)
  | Some OP_KERNEL_MEMORY_RUNNING => handle_kernel_memory_running d
  | _ => Ok (false, d)
  end.

Fixpoint listen_scheduler (fuel : nat) d : res (t_scheduler_data T V U) :=
  match fuel with
  | O => Undef OutOfFuel
  | S fuel =>
      '(connection_alive, d) ← listen_scheduler_step d;
      if (connection_alive : bool) then listen_scheduler fuel d
      else
        d ← answer OP_MEMORY_CORRUPTED (lit "Kernel shutdown") d;
        Ok (set_sched (socket_close (socket_scheduler d)) d)
  end.
End listener.

(** ** The invariant of Kernel Memory *)

(** ** STDIN writes where the address says *)

Section stdin.
Context {T V : Type} `{!Transport T, !Transport V, !Stick T}.
Context (fs : file_system).
Implicit Types (d : t_scheduler_data T V wire).

Lemma safe_copy_pads typed n :
  x00 ∉ typed -> l_size typed < n ->
  safe_copy (written (typed ++ [x00])) n
  = Ok (typed ++ replicate (Z.to_nat n - length typed) x00).
Proof.
  intros Hz Hn. unfold safe_copy, l_size in *. rewrite decide_False by lia.
  unfold written. rewrite <- fmap_take, defined_Some. cbn [mbind res_bind].
  rewrite take_ge by (rewrite length_app; cbn; lia). by rewrite c_str_app.
Qed.

Lemma find_segment_elem m pid n s : find_segment m pid n = Some s -> s ∈ segments m.
Proof.
  unfold find_segment. generalize 0. induction (segments m) as [|x l IH]; intros k; cbn; [done|].
  case_decide; [case_decide|]; intros; simplify_eq; set_solver.
Qed.

(** What Kernel Memory does with a STDIN: the text, padded with zeros to the size
    that was asked for, is written where the address translates to. *)
Lemma stdin_written d mems r typed s rest out :
  sticks_ok (connected_sticks d) mems -> memory_wf (main_memory d) ->
  0 < max_segment_size (main_memory d) <= INT_MAX ->
  in_u32 (in_pid r) -> in_u32 (in_logical_address r) ->
  x00 ∉ typed -> l_size typed < bytes_to_read r <= INT_MAX ->
  let request := elements [stdin_request_bytes r; typed ++ [x00]] in
  sendable request ->
  socket_scheduler d = Some (mk_wire (frame OP_IO_STDIN_REQUEST request ++ rest) out true) ->
  let off := in_logical_address r mod max_segment_size (main_memory d) in
  find_segment (main_memory d) (in_pid r)
    (in_logical_address r / max_segment_size (main_memory d)) = Some s ->
  let pa := seg_base s + off in
  pa + bytes_to_read r <= l_size (concat mems) ->
  let padded := typed ++ replicate (Z.to_nat (bytes_to_read r) - length typed) x00 in
  l_size padded = bytes_to_read r /\ 0 <= pa /\
  exists d' mems', listen_scheduler_step fs d = Ok (true, d') /\
    sticks_ok (connected_sticks d') mems' /\ main_memory d' = main_memory d /\
    socket_scheduler d'
    = Some (mk_wire rest (out ++ frame OP_STDIN_RESPONSE (lit "Memory written")) true) /\
    concat mems' = overwrite (Z.to_nat pa) padded (concat mems).
Proof.
  intros Hst Hwf Hm Hp Ha Hz Hn request Hs Hk off Hf pa Hb padded.
  pose proof (wf_segment _ _ Hwf (find_segment_elem _ _ _ _ Hf)) as Hseg.
  pose proof (Z.mod_pos_bound (in_logical_address r) (max_segment_size (main_memory d))
    ltac:(lia)) as Ho.
  fold off in Ho. destruct Hst as [Hst1 Hst2]. pose proof (l_size_nonneg typed).
  assert (l_size padded = bytes_to_read r) as Hl.
  { unfold padded, l_size in *. rewrite length_app, length_replicate. lia. }
  destruct (write_to_sticks_ok pa padded (connected_sticks d) mems
    (Some (mk_wire rest out true))) as (sticks' & mems' & E & Hst' & Ec); [done|lia|lia|].
  rewrite Hl in E.
  assert (translate_logical_address (in_pid r) (in_logical_address r) (bytes_to_read r)
    (main_memory d) = Ok pa) as Et.
  { unfold translate_logical_address. cint. rewrite decide_False by lia. fold off. rewrite Hf.
    fold pa. assert (0 <= pa <= INT_MAX) by lia. cint. done. }
  split; [done|]. split; [lia|].
  exists (set_sched (Some (mk_wire rest (out ++ frame OP_STDIN_RESPONSE
    (lit "Memory written")) true)) (set_sticks sticks' d)), mems'.
  split_and!; [|exact Hst'|done|done|done].
  unfold listen_scheduler_step. rewrite Hk, receive_op_code_frame. cbn [mbind res_bind].
  rewrite op_of_value_op_value. unfold handle_stdin_request. cbn [socket_scheduler set_sched].
  unfold request. rewrite receive_packet_wire by (done || (apply elements_sendable; [|done];
    repeat constructor; [done|by destruct typed])).
  cbn [mbind res_bind fmap list_fmap l_get deref].
  change (l_get _ 0) with (Some (written (stdin_request_bytes r))).
  change (l_get _ 1) with (Some (written (typed ++ [x00]))). cbn [deref mbind res_bind].
  unfold written at 1. rewrite stdin_request_roundtrip by (done || (ints; lia)).
  cbn [mbind res_bind main_memory set_sched]. rewrite Et. cbn [mbind res_bind].
  rewrite decide_False by lia. cint. rewrite safe_copy_pads by (done || lia).
  cbn [mbind res_bind connected_sticks set_sched socket_scheduler]. fold padded.
  unfold written in E. rewrite E.
  cbn [mbind res_bind negb]. unfold answer. sends. reflexivity.
Qed.

(** C39: The size of a segment bounds nothing in Kernel Memory: a STDIN whose address
    names a segment of the process, with a text shorter than the size that was
    asked for, is written at the base of the segment plus the offset, padded with
    zeros to that size, and answered with success, as long as these bytes lie
    within the sticks and even when the offset lies past the segment's end; if
    another segment holds them then, of this process or of any other, it is that
    one whose bytes are replaced. *)
Theorem stdin_overwrites_past_the_end d mems r typed s rest out :
  sticks_ok (connected_sticks d) mems -> memory_wf (main_memory d) ->
  0 < max_segment_size (main_memory d) <= INT_MAX ->
  in_u32 (in_pid r) -> in_u32 (in_logical_address r) ->
  x00 ∉ typed -> l_size typed < bytes_to_read r <= INT_MAX ->
  let request := elements [stdin_request_bytes r; typed ++ [x00]] in
  sendable request ->
  socket_scheduler d = Some (mk_wire (frame OP_IO_STDIN_REQUEST request ++ rest) out true) ->
  let off := in_logical_address r mod max_segment_size (main_memory d) in
  find_segment (main_memory d) (in_pid r)
    (in_logical_address r / max_segment_size (main_memory d)) = Some s ->
  let pa := seg_base s + off in
  pa + bytes_to_read r <= l_size (concat mems) ->
  let padded := typed ++ replicate (Z.to_nat (bytes_to_read r) - length typed) x00 in
  exists d' mems', listen_scheduler_step fs d = Ok (true, d') /\
    sticks_ok (connected_sticks d') mems' /\ main_memory d' = main_memory d /\
    socket_scheduler d'
    = Some (mk_wire rest (out ++ frame OP_STDIN_RESPONSE (lit "Memory written")) true) /\
    concat mems' = overwrite (Z.to_nat pa) padded (concat mems) /\
    (seg_size s <= off -> forall s', s' ∈ segments (main_memory d) -> seg_base s' <= pa ->
       pa + bytes_to_read r <= seg_base s' + seg_size s' ->
       s' ≠ s /\ slice pa (bytes_to_read r) (concat mems') = padded).
Proof.
  intros Hst Hwf Hm Hp Ha Hz Hn request Hs Hk off Hf pa Hb padded.
  destruct (stdin_written d mems r typed s rest out)
    as (Hl & Hpa & d' & mems' & E & Hst' & Em & Ek & Ec); [done..|].
  fold off in Hpa, Ec. fold pa padded in Hpa, Ec, Hl. pose proof (l_size_nonneg typed).
  exists d', mems'. split_and!; [done..|]. intros Hoff s' Hs' Hb1 Hb2.
  split; [intros ->; unfold pa in *; lia|].
  rewrite Ec, <- Hl. unfold slice. unfold l_size. rewrite Nat2Z.id.
  apply overwrite_read. unfold l_size in *. lia.
Qed.
End stdin.

(** Process 1 has the first four bytes, process 2 the next four: what process 1 types
    for its logical address 4 lands in the memory of process 2. *)
Definition neighbours : t_scheduler_data stick_peer (peer t_swap) wire :=
  mk_scheduler_data
    (Some (mk_wire (frame OP_IO_STDIN_REQUEST (elements
       [stdin_request_bytes (mk_stdin_request 1 3 4); txt "ab" ++ [x00]])) [] true))
    [] [] two_sticks
    (mk_main_memory 0 16 8 [mk_segment 0 1 0 4; mk_segment 0 2 4 4] [mk_hole 8 8] 0) None.

Lemma neighbours_wf : memory_wf (main_memory neighbours).
Proof.
  constructor; cbn; [ints; lia| |].
  - exists [(0, 4); (4, 4); (8, 8)]. split; [by vm_compute|]. cbn. lia.
  - intros h1 h2 ->%list_elem_of_singleton ->%list_elem_of_singleton. done.
Qed.

Lemma stdin_overwrites_past_the_end_witness :
  exists d' mems', listen_scheduler_step (fun _ => None) neighbours = Ok (true, d') /\
    sticks_ok (connected_sticks d') mems' /\
    slice 4 3 (concat mems') = txt "ab" ++ [x00].
Proof.
  destruct (stdin_overwrites_past_the_end (fun _ => None) neighbours
    [replicate 8 x00; replicate 8 x00] (mk_stdin_request 1 3 4) (txt "ab")
    (mk_segment 0 1 0 4) [] [])
    as (d' & mems' & E & Hst & _ & _ & _ & H);
    [apply two_sticks_ok|apply neighbours_wf|cbn; ints; lia|cbn; ints; lia|cbn; ints; lia
    |apply (bool_decide_eq_false_1 _); reflexivity
    |vm_compute; intuition congruence|vm_compute; congruence|reflexivity|reflexivity
    |vm_compute; congruence|].
  exists d', mems'. split_and!; [exact E|exact Hst|].
  apply (H ltac:(vm_compute; congruence) (mk_segment 0 2 4 4));
    [right; left|vm_compute; congruence|vm_compute; congruence].
Defined.

Section invariant.
Context {T V U : Type} `{!Transport T, !Transport V, !Transport U}.
Context (fs : file_system).
Implicit Types (d : t_scheduler_data T V U) (e : km_env T V U) (m : t_main_memory).

Definition mem_inv m : Prop :=
  memory_wf m /\ valid_strategy m /\ 0 <= max_segment_size m <= INT_MAX.

(** A block that starts a segment knows the segment's size. *)
Definition block_sized (b : t_block_data) : Prop :=
  segment_block_number b = 0 -> 0 < segment_size b <= INT_MAX.

Definition env_inv e : Prop :=
  mem_inv (e_mem e) /\ Forall block_sized (block_list (e_swap e)).

Record km_inv d : Prop := {
  inv_memory : mem_inv (main_memory d);
  inv_processes : processes_ok (processes d);
  inv_blocks : forall sw, swap_data d = Some sw -> Forall block_sized (block_list sw) }.

Lemma mem_inv_config m m' : mem_inv m -> wf_config m m' -> mem_inv m'.
Proof.
  intros (_ & Hs & Hm) (Hwf & Es & Em). unfold mem_inv, valid_strategy in *.
  by rewrite Es, Em.
Qed.

Lemma remove_segment_config id pid m m' :
  memory_wf m -> remove_segment id pid m = Ok m' -> wf_config m m'.
Proof.
  intros Hwf H. destruct (l_find (is_segment id pid) (segments m)) as [s|] eqn:E.
  - destruct (remove_segment_found id pid m s Hwf E) as (m2 & E2 & Hwf2 & _).
    rewrite H in E2. simplify_eq. split; [done|].
    unfold remove_segment, find_and_remove_segment in H. rewrite E in H.
    inv_bind H as hs Eh. by simplify_eq.
  - rewrite remove_segment_absent in H by done. by simplify_eq.
Qed.

Lemma remove_process_segments_inv l pid m m' :
  mem_inv m -> remove_process_segments l pid m = Ok m' -> mem_inv m'.
Proof.
  revert m. induction l as [|s l IH]; intros m Hm H;
    cbn [remove_process_segments] in H; [by simplify_eq|].
  inv_bind H as m1 E. apply (IH m1); [|done]. apply (mem_inv_config m); [done|].
  eapply remove_segment_config; [apply Hm|exact E].
Qed.

Lemma wf_segment_sized m s :
  memory_wf m -> s ∈ segments m -> 0 < seg_size s <= INT_MAX.
Proof. intros H Hs. pose proof (wf_segment _ _ H Hs). pose proof (wf_total _ H). lia. Qed.

Lemma reply_inv op message e e' :
  env_inv e -> reply op message e = Ok e' -> env_inv e'.
Proof. intros He H. unfold reply in H. inv_bind H as [b s] E. by simplify_eq. Qed.

Lemma set_block_sized f i (sw : t_swap_data V) :
  Forall block_sized (block_list sw) -> (forall b, block_sized (f b)) ->
  Forall block_sized (block_list (set_block f i sw)).
Proof. intros H Hf. cbn. apply Forall_alter; [done|]. auto. Qed.

Lemma write_block_to_swap_list k c n (sw sw' : t_swap_data V) :
  write_block_to_swap k c n sw = Ok sw' -> block_list sw' = block_list sw.
Proof.
  intros H. unfold write_block_to_swap in H. inv_bind H as b E.
  destruct (send_packet _ _) as [ok s]. inv_bind H as [op s1] E1.
  case_decide; [inv_bind H as [b2 s2] E2|]; by simplify_eq.
Qed.

Lemma suspend_blocks_inv n s i e ok e' :
  0 < seg_size s <= INT_MAX -> env_inv e ->
  suspend_blocks s i n e = Ok (ok, e') -> env_inv e' /\ e_mem e' = e_mem e.
Proof.
  intros Hs. revert i e. induction n as [|n IH]; intros i e He H;
    cbn [suspend_blocks] in H; [by simplify_eq|].
  inv_bind H as [[content sticks] sched] E1. inv_bind H as [k sw] E2.
  assert (Forall block_sized (block_list sw)) as Hsw.
  { unfold add_block_to_swap in E2. inv_bind E2 as k' E3.
    destruct (decide (k' ≠ -1)); simplify_eq;
      [apply set_block_sized; [apply He|by intros b _]|apply He]. }
  destruct (decide (k = -1)).
  - inv_bind H as e1 E3. simplify_eq. split.
    + eapply reply_inv; [|done]. split; [apply He|done].
    + unfold reply in E3. inv_bind E3 as [b s1] E4. by simplify_eq.
  - inv_bind H as sw1 E3. apply write_block_to_swap_list in E3.
    apply IH in H as [? Hm]; [by split|]. split; [apply He|]. cbn. by rewrite E3.
Qed.

Lemma suspend_segments_inv pid l e segs e' :
  env_inv e -> (forall s, s ∈ l -> 0 < seg_size s <= INT_MAX) ->
  suspend_segments pid l e = Ok (segs, e') -> env_inv e' /\ e_mem e' = e_mem e.
Proof.
  revert e segs. induction l as [|s l IH]; intros e segs He Hl H;
    cbn [suspend_segments] in H; [by simplify_eq|].
  case_decide; [|by apply (IH e segs); [|set_solver|]].
  inv_bind H as [ok e1] E1. unfold suspend_segment in E1. case_decide; [done|].
  apply suspend_blocks_inv in E1 as [He1 Hm1]; [|apply Hl; set_solver|done].
  destruct ok; [|by simplify_eq]. inv_bind H as [segs' e2] E2. simplify_eq.
  apply IH in E2 as [? Hm]; [split; congruence|done|set_solver].
Qed.

Lemma suspend_process_inv pid e e' :
  env_inv e -> suspend_process pid e = Ok e' -> env_inv e'.
Proof.
  intros He H. unfold suspend_process in H. inv_bind H as [segs e1] E1.
  apply suspend_segments_inv in E1 as [He1 _]; [|done|].
  2: { intros s. apply wf_segment_sized, He. }
  destruct segs as [segs|]; [|by simplify_eq]. inv_bind H as m E2.
  apply remove_process_segments_inv in E2; [|apply He1].
  destruct segs; (eapply reply_inv; [|exact H]); split; (done || apply He1).
Qed.

Lemma regenerate_segment_inv id pid size e ok e' :
  env_inv e -> 0 < size <= INT_MAX ->
  regenerate_segment id pid size e = Ok (ok, e') -> env_inv e'.
Proof.
  intros [Hm Hb] Hs H. pose proof Hm as (Hwf & Hst & _).
  unfold regenerate_segment in H. rewrite u32_id in H by (ints; lia).
  case_decide; [inv_bind H as e1 E; simplify_eq; by eapply reply_inv|].
  destruct (decide (fits (e_mem e) size)) as [Hf|Hf].
  - destruct (select_hole_fits (e_mem e) size) as (st & h & _ & Hh & Hle & _ & E);
      [done..|lia|done|].
    rewrite E, decide_False in H by lia. simplify_eq. split; [|done].
    apply (mem_inv_config (e_mem e)); [done|]. apply placed_config; done || lia.
  - rewrite (select_hole_none (e_mem e) size), decide_True in H by done.
    inv_bind H as e1 E. simplify_eq. by eapply reply_inv.
Qed.

Lemma read_block_list k (sw sw' : t_swap_data V) b :
  read_block_from_swap k sw = Ok (b, sw') -> block_list sw' = block_list sw.
Proof.
  intros H. unfold read_block_from_swap in H. destruct (send_buffer _ _ _) as [ok s].
  inv_bind H as [op s1] E1.
  case_decide; [|inv_bind H as [[b2 n] s2] E2]; by simplify_eq.
Qed.

Lemma remove_block_sized k (sw : t_swap_data V) :
  Forall block_sized (block_list sw) ->
  Forall block_sized (block_list (remove_block_from_swap k sw).2).
Proof.
  intros H. unfold remove_block_from_swap. destruct (l_get _ _); [|done].
  by apply set_block_sized.
Qed.

Lemma resume_block_inv b pid bs e ok e' :
  env_inv e -> block_sized b -> resume_block b pid bs e = Ok (ok, e') -> env_inv e'.
Proof.
  intros He Hb H. unfold resume_block in H. inv_bind H as [ok1 e1] E1.
  assert (env_inv e1) as He1.
  { destruct (decide _) as [E|_] in E1; [|by simplify_eq].
    eapply regenerate_segment_inv; [exact He| |exact E1]. auto. }
  destruct ok1; cbn [negb] in H; [|by simplify_eq].
  inv_bind H as [content sw] E2. apply read_block_list in E2.
  assert (env_inv (set_swap sw e1)) as He2.
  { split; [apply He1|]. cbn. rewrite E2. apply He1. }
  destruct content as [c|].
  2: { inv_bind H as e2 E3. simplify_eq. by eapply reply_inv. }
  inv_bind H as a E3. inv_bind H as [[r sticks] sched] E4.
  pose proof (remove_block_sized (block_number b) _ (proj2 He2)) as Hr.
  destruct (remove_block_from_swap _ _) as [k sw2]. cbn [snd] in Hr.
  destruct (decide _) in H; [inv_bind H as e2 E5|]; simplify_eq;
    [eapply reply_inv; [|exact E5]|]; (split; [apply He1|done]).
Qed.

Lemma resume_blocks_inv pid bs n : forall i found e r e',
  env_inv e -> resume_blocks pid bs i n found e = Ok (r, e') -> env_inv e'.
Proof.
  induction n as [|n IH]; intros i found e r e' He H; cbn [resume_blocks] in H;
    [by simplify_eq|].
  inv_bind H as b E1. destruct (decide _) in H; [|by eapply IH].
  inv_bind H as [ok e1] E2. apply resume_block_inv in E2; [|done|].
  2: { destruct (l_get _ _) as [b'|] eqn:E; simplify_eq/=.
       apply l_get_elem in E. pose proof (proj2 He) as Hb.
       rewrite Forall_forall in Hb. by apply Hb. }
  destruct ok; [by eapply IH|by simplify_eq].
Qed.

Lemma resume_process_inv pid e e' :
  env_inv e -> resume_process pid e = Ok e' -> env_inv e'.
Proof.
  intros He H. unfold resume_process in H.
  destruct (can_resume pid e); cbn [negb] in H; [|by eapply reply_inv].
  inv_bind H as [[found finished] e1] E1. apply resume_blocks_inv in E1; [|done].
  destruct finished; cbn [negb] in H; [|by simplify_eq].
  destruct found; by eapply reply_inv.
Qed.

(** ** The handlers *)

(** The requests the handlers do not survive: a segment of no bytes, which
    breaks the tables, and a script that cannot be opened. *)
Definition asks_empty_segment d : Prop :=
  exists b n s request,
    receive_buffer (socket_scheduler d) = Ok (Some b, n, s) /\
    syscall_memory_of b = Ok request /\ sm_size request = 0.

Definition asks_missing_script d : Prop :=
  exists packet s b bs path,
    receive_packet (socket_scheduler d) = Ok (packet, s) /\
    l_get packet 0 = Some b /\ defined b = Ok bs /\ str_read bs = Ok path /\
    fs (scripts_basepath d ++ txt "/" ++ path) = None.

(** The next request is neither. *)
Definition benign d : Prop :=
  forall op s, receive_op_code (socket_scheduler d) = Ok (op, s) ->
    match op_of_value op with
    | Some OP_CREATE_SEGMENT => ~ asks_empty_segment (set_sched s d)
    | Some OP_NEW_PROCESS => ~ asks_missing_script (set_sched s d)
    | _ => True
    end.

Lemma answer_inv op message d d' :
  km_inv d -> answer op message d = Ok d' -> km_inv d'.
Proof.
  intros [H1 H2 H3] H. unfold answer in H. inv_bind H as [b s] E. by simplify_eq.
Qed.

Lemma set_sched_inv s d : km_inv d -> km_inv (set_sched s d).
Proof. by intros []. Qed.

Lemma set_memory_inv m d : mem_inv m -> km_inv d -> km_inv (set_memory m d).
Proof. by intros ? []. Qed.

Lemma receive_pid_inv d pid d' :
  km_inv d -> receive_pid d = Ok (pid, d') -> km_inv d'.
Proof.
  intros Hd H. unfold receive_pid in H. inv_bind H as [[b n] s] E1.
  inv_bind H as b' E2. inv_bind H as p E3. simplify_eq. by apply set_sched_inv.
Qed.

Lemma env_of_inv d sw e' :
  km_inv d -> swap_data d = Some sw ->
  (env_inv (env_of d sw) -> env_inv e') -> km_inv (with_env d e').
Proof.
  intros [H1 H2 H3] Hsw He. destruct He as [Hm Hb]; [by split; [|apply H3]|].
  constructor; [done|done|]. by intros sw' [= <-].
Qed.

Lemma handle_new_process_inv d b d' :
  km_inv d -> ~ asks_missing_script d ->
  handle_new_process fs d = Ok (b, d') -> km_inv d'.
Proof.
  intros Hd Hno H. unfold handle_new_process in H.
  inv_bind H as [packet s] E1. inv_bind H as p E2. inv_bind H as p1 E3.
  inv_bind H as pid E4. inv_bind H as bs E5. inv_bind H as path E6.
  inv_bind H as d1 E7. simplify_eq. eapply answer_inv; [|exact E7].
  destruct Hd as [H1 H2 H3]. constructor; cbn; [done| |done].
  apply Forall_app. split; [done|]. constructor; [|done].
  unfold init_process. destruct (fs _) eqn:E; [by eexists|]. destruct Hno.
  exists packet, s, p, bs, path. split_and!; try done.
  by destruct (l_get packet 0); simplify_eq/=.
Qed.

Lemma handle_create_segment_inv d b d' :
  km_inv d -> ~ asks_empty_segment d ->
  handle_create_segment d = Ok (b, d') -> km_inv d'.
Proof.
  intros Hd Hno H. unfold handle_create_segment in H.
  inv_bind H as [[ob n] s] E1. inv_bind H as p E2. inv_bind H as request E3.
  pose proof (inv_memory _ Hd) as Hm. pose proof Hm as (Hwf & Hst & Hmax).
  cbn [set_sched main_memory] in H. rewrite u32_id in H by (ints; lia).
  assert (0 < sm_size request) as Hpos.
  { assert (sm_size request ≠ 0) as Hne.
    { intros E. destruct Hno. exists p, n, s, request.
      destruct ob; by simplify_eq/=. }
    unfold syscall_memory_of in E3. inv_bind E3 as pid Ep. inv_bind E3 as id Ei.
    inv_bind E3 as size Es. simplify_eq/=. apply read_u32_range in Es. lia. }
  case_decide.
  - inv_bind H as d1 E4. simplify_eq. eapply answer_inv; [|exact E4].
    by apply set_sched_inv.
  - inv_bind H as [m s1] E4. simplify_eq.
    rewrite s32_id in E4 by (ints; lia).
    apply set_memory_inv; [|by do 2 apply set_sched_inv].
    apply (mem_inv_config (main_memory d)); [done|].
    eapply create_segment_wf; [..|exact E4]; done || (ints; lia).
Qed.

Lemma handle_delete_segment_inv d b d' :
  km_inv d -> handle_delete_segment d = Ok (b, d') -> km_inv d'.
Proof.
  intros Hd H. unfold handle_delete_segment in H.
  inv_bind H as [[ob n] s] E1. inv_bind H as p E2. inv_bind H as request E3.
  inv_bind H as m E4. inv_bind H as d1 E5. simplify_eq.
  eapply answer_inv; [|exact E5]. apply set_memory_inv; [|by apply set_sched_inv].
  apply (mem_inv_config (main_memory d)); [apply Hd|].
  eapply remove_segment_config; [apply Hd|exact E4].
Qed.

Lemma set_sticks_inv l d : km_inv d -> km_inv (set_sticks l d).
Proof. by intros []. Qed.

Lemma handle_stdin_request_inv d b d' :
  km_inv d -> handle_stdin_request d = Ok (b, d') -> km_inv d'.
Proof.
  intros Hd H. unfold handle_stdin_request in H.
  inv_bind H as [packet s] E1. inv_bind H as p E2. inv_bind H as request E3.
  inv_bind H as pa E4. pose proof (set_sched_inv s d Hd) as Hd1.
  case_decide; [inv_bind H as d1 E5; simplify_eq; by eapply answer_inv|].
  inv_bind H as wb E5. inv_bind H as sb E6. inv_bind H as [[ok sticks] s1] E7.
  assert (km_inv (set_sticks sticks (set_sched s1 (set_sched s d)))) as Hd2
    by (by apply set_sticks_inv, set_sched_inv).
  destruct ok; cbn [negb] in H; [|by simplify_eq].
  inv_bind H as d1 E8. simplify_eq. by eapply answer_inv.
Qed.

Lemma handle_stdout_request_inv d b d' :
  km_inv d -> handle_stdout_request d = Ok (b, d') -> km_inv d'.
Proof.
  intros Hd H. unfold handle_stdout_request in H.
  inv_bind H as [[ob n] s] E1. inv_bind H as p E2. inv_bind H as request E3.
  inv_bind H as pa E4. pose proof (set_sched_inv s d Hd) as Hd1.
  case_decide; [inv_bind H as d1 E5; simplify_eq; by eapply answer_inv|].
  inv_bind H as [[buffer sticks] s1] E5.
  assert (km_inv (set_sticks sticks (set_sched s1 (set_sched s d)))) as Hd2
    by (by apply set_sticks_inv, set_sched_inv).
  destruct buffer; [inv_bind H as bytes E6|];
    inv_bind H as d1 E7; simplify_eq; by eapply answer_inv.
Qed.

Lemma handle_end_process_inv d b d' :
  km_inv d -> handle_end_process d = Ok (b, d') -> km_inv d'.
Proof.
  intros Hd H. unfold handle_end_process in H. inv_bind H as [pid d1] E1.
  apply receive_pid_inv in E1; [|done]. inv_bind H as op E2.
  destruct op as [p|]; [|by simplify_eq]. inv_bind H as m E3. simplify_eq.
  destruct E1 as [H1 H2 H3]. constructor; cbn.
  - by eapply remove_process_segments_inv.
  - by apply processes_ok_remove.
  - done.
Qed.

Lemma handle_swap_inv d b d' :
  km_inv d ->
  handle_suspend_process d = Ok (b, d') \/
  handle_resume_suspended_process d = Ok (b, d') -> km_inv d'.
Proof.
  intros Hd [H|H]; unfold handle_suspend_process, handle_resume_suspended_process in H;
    inv_bind H as [pid d1] E1; apply receive_pid_inv in E1; try done.
  - inv_bind H as op E2. destruct op as [p|]; [|by simplify_eq].
    destruct (swap_data d1) as [sw|] eqn:Esw; inv_bind H as e E3; simplify_eq.
    + apply (env_of_inv d1 sw); [done..|]. intros. by eapply suspend_process_inv.
    + by eapply answer_inv.
  - destruct (swap_data d1) as [sw|] eqn:Esw; inv_bind H as e E3; simplify_eq.
    + apply (env_of_inv d1 sw); [done..|]. intros. by eapply resume_process_inv.
    + by eapply answer_inv.
Qed.

(** One round of the loop keeps the invariant. *)
Lemma listen_scheduler_step_inv d b d' :
  km_inv d -> benign d -> listen_scheduler_step fs d = Ok (b, d') -> km_inv d'.
Proof.
  intros Hd Hb H. unfold listen_scheduler_step in H. inv_bind H as [op s] E.
  specialize (Hb op s E). apply (set_sched_inv s) in Hd.
  destruct (op_of_value op) as [o|]; [|by simplify_eq].
  destruct o; try (by simplify_eq);
    first [ by eapply handle_new_process_inv | by eapply handle_create_segment_inv
          | by eapply handle_delete_segment_inv | by eapply handle_stdin_request_inv
          | by eapply handle_stdout_request_inv | by eapply handle_end_process_inv
          | by eapply handle_swap_inv; eauto | idtac ].
  all: unfold handle_kernel_memory_running, handle_request_free_memory,
    handle_request_process_size in H.
  3: { inv_bind H as [pid d1] E1. apply receive_pid_inv in E1; [|done].
       inv_bind H as p E2. simplify_eq. by apply set_sched_inv. }
  all: inv_bind H as [p s1] E1; simplify_eq; by apply set_sched_inv.
Qed.
End invariant.

(** ** A script that does not exist *)

(** a request to create a process from a script that cannot be opened is
    acknowledged, and leaves a NULL entry in the process list: from then on
    looking up any pid that is not before that entry dereferences NULL. *)
Theorem missing_script_poisons_registry {T V U} `{!Transport T, !Transport V, !Transport U}
    (fs : file_system) (d d' : t_scheduler_data T V U) b pid :
  processes_ok (processes d) -> asks_missing_script fs d ->
  handle_new_process fs d = Ok (b, d') ->
  Forall (fun p => is_process pid p = false) (processes d) ->
  b = true /\ find_process (processes d') pid = Undef NullDeref.
Proof.
  intros Hok (packet & s & p & bs & path & Ep & Ei & Eb & Epath & Hfs) H Hpid.
  unfold handle_new_process in H. rewrite Ep in H. cbn [mbind res_bind] in H.
  rewrite Ei in H. cbn [deref mbind res_bind] in H.
  inv_bind H as p1 E1. inv_bind H as pid1 E2. rewrite Eb in H.
  cbn [mbind res_bind] in H. rewrite Epath in H. cbn [mbind res_bind] in H.
  inv_bind H as d1 E3. unfold answer in E3. inv_bind E3 as [ok s1] E4. simplify_eq.
  split; [done|]. cbn [set_sched set_processes processes].
  unfold init_process. rewrite Hfs. by apply find_process_null.
Qed.

Definition waiting_for_process (pid : Z) (path : string) : t_scheduler_data wire wire wire :=
  mk_scheduler_data
    (Some (mk_wire (int_bytes (l_size (elements [lit path; int_bytes pid]))
                    ++ elements [lit path; int_bytes pid]) [] true))
    [] (txt "/scripts") [] (init_main_memory 64 0 0) None.

Lemma missing_script_poisons_registry_witness :
  exists d', handle_new_process (fun _ => None) (waiting_for_process 1 "a.prc")
             = Ok (true, d') /\ true = true /\
    find_process (processes d') 1 = Undef NullDeref.
Proof.
  eexists. split; [vm_compute; reflexivity|].
  apply (missing_script_poisons_registry (fun _ => None) (waiting_for_process 1 "a.prc")
           _ true 1).
  - constructor.
  - do 5 eexists. split_and!; vm_compute; reflexivity.
  - vm_compute. reflexivity.
  - constructor.
Defined.
