(* ===== verification/CpuListener.v ===== *)
(** * CpuListener: kernel_memory/src/kernel_memory/cpu_listener.c

    The loop that serves one CPU: instructions, contexts and segment tables. *)

From Stdlib Require Import Strings.Byte Strings.String.
From S2P Require Import Prelude Bytes Msg Text Structs MainMemory Compaction Holes.
From S2P Require Import Segments KmProcess.

(** [t_cpu_data], with what it shares with the rest of Kernel Memory: the
    process list, the tables and the scheduler's socket. *)
Record t_cpu_data (C U : Type) := mk_cpu_data {
  cpu_id : Z;
  socket_cpu : t_socket C;
  cpu_scheduler : t_socket U;
  cpu_processes : t_processes;
  cpu_memory : t_main_memory }.
Arguments mk_cpu_data {C U} _ _ _ _ _.
Arguments cpu_id {C U} _.
Arguments socket_cpu {C U} _.
Arguments cpu_scheduler {C U} _.
Arguments cpu_processes {C U} _.
Arguments cpu_memory {C U} _.

Section listener.
Context {C U : Type} `{!Transport C, !Transport U}.
Implicit Types (d : t_cpu_data C U).

Definition set_cpu_socket s d : t_cpu_data C U :=
  mk_cpu_data (cpu_id d) s (cpu_scheduler d) (cpu_processes d) (cpu_memory d).
Definition set_cpu_processes l d : t_cpu_data C U :=
  mk_cpu_data (cpu_id d) (socket_cpu d) (cpu_scheduler d) l (cpu_memory d).
Definition set_cpu_scheduler s d : t_cpu_data C U :=
  mk_cpu_data (cpu_id d) (socket_cpu d) s (cpu_processes d) (cpu_memory d).

Definition segment_table_packet (pid : Z) (m : t_main_memory) : t_packet :=
  add_segments_to_packet (filter_process_segments (s32 pid) m)
    (create_packet OP_SEGMENT_TABLE).

Definition send_segment_table (pid : Z) d : t_cpu_data C U :=
  set_cpu_socket
    (send_packet (segment_table_packet pid (cpu_memory d)) (socket_cpu d)).2 d.

(** Fields 0 and 1 of a packet, the first a [uint32_t]. *)
Definition packet_pid_and (packet : list buf) : res (Z * buf) :=
  pid ← deref (l_get packet 0); pid ← read_u32 pid 0;
  other ← deref (l_get packet 1); Ok (pid, other).

Definition handle_next_instruction d : res (bool * t_cpu_data C U) :=
  '(packet, s) ← receive_packet (socket_cpu d);
  '(pid, pc) ← packet_pid_and packet; pc ← read_u32 pc 0;
  process ← find_process (cpu_processes d) pid;
  p ← deref process;
  instruction ← at_index (l_get (instructions p) pc);
  '(_, s) ← send_string OP_SEND_INSTRUCTION (instruction ++ [x00]) s;
  Ok (true, set_cpu_socket s d).

(** The pid of the single-field requests. *)
Definition request_pid d : res (Z * t_cpu_data C U) :=
  '(b, _, s) ← receive_buffer (socket_cpu d);
  b ← deref b; pid ← read_u32 b 0; Ok (pid, set_cpu_socket s d).

Definition handle_request_context d : res (bool * t_cpu_data C U) :=
  '(pid, d) ← request_pid d;
  process ← find_process (cpu_processes d) pid;
  match (process : option t_process) with
  | None => Ok (true, d)
  | Some p =>
      let (_, s) := send_buffer OP_SEND_CONTEXT (registers_bytes (registers p))
                      (socket_cpu d) in
      Ok (true, send_segment_table pid (set_cpu_socket s d))
  end.

Definition handle_updated_context d : res (bool * t_cpu_data C U) :=
  '(packet, s) ← receive_packet (socket_cpu d);
  '(pid, regs) ← packet_pid_and packet; regs ← registers_of regs;
  process ← find_process (cpu_processes d) pid;
  let d := set_cpu_socket s d in
  match (process : option t_process) with
  | None => Ok (true, d)
  | Some _ =>
      Ok (true, set_cpu_processes (update_registers pid regs (cpu_processes d)) d)
  end.

Definition handle_updated_segment_table d : res (bool * t_cpu_data C U) :=
  '(pid, d) ← request_pid d;
  process ← find_process (cpu_processes d) pid;
  match (process : option t_process) with
  | None => Ok (true, d)
  | Some _ => Ok (true, send_segment_table pid d)
  end.

Definition handle_stick_disconnected d : res (bool * t_cpu_data C U) :=
  '(_, s) ← send_string OP_MEMORY_CORRUPTED (lit "Corrupted memory") (cpu_scheduler d);
  Ok (false, set_cpu_scheduler (socket_shutdown s) d).

(** One round of [listen_cpu]: whether the connection is alive. *)
Definition listen_cpu_step d : res (bool * t_cpu_data C U) :=
  '(op_code, s) ← receive_op_code (socket_cpu d);
  let d := set_cpu_socket s d in
  match op_of_value op_code with
  | Some OP_NEXT_INSTRUCTION => handle_next_instruction d
  | Some OP_REQUEST_CONTEXT => handle_request_context d
  | Some OP_UPDATED_CONTEXT => handle_updated_context d
  | Some OP_UPDATED_SEGMENT_TABLE => handle_updated_segment_table d
  | Some OP_STICK_DISCONNECTED => handle_stick_disconnected d
  | _ => Ok (false, d)
  end.

(** [listen_cpu]; [close_cpu] closes the socket at the end. *)
Fixpoint listen_cpu (fuel : nat) d : res (t_cpu_data C U) :=
  match fuel with
  | O => Undef OutOfFuel
  | S fuel =>
      '(connection_alive, d) ← listen_cpu_step d;
      if (connection_alive : bool) then listen_cpu fuel d
      else Ok (set_cpu_socket (socket_close (socket_cpu d)) d)
  end.

(** ** What a CPU can do to Kernel Memory *)

Lemma request_pid_keeps d pid d' :
  request_pid d = Ok (pid, d') ->
  cpu_processes d' = cpu_processes d /\ cpu_memory d' = cpu_memory d.
Proof.
  intros H. unfold request_pid in H. inv_bind H as [[b n] s] E1.
  inv_bind H as b' E2. inv_bind H as p E3. by simplify_eq.
Qed.

(** A CPU changes registers of known processes and nothing else. *)
Lemma listen_cpu_step_keeps d b d' :
  listen_cpu_step d = Ok (b, d') ->
  cpu_memory d' = cpu_memory d /\
  (cpu_processes d' = cpu_processes d \/
   exists pid r, cpu_processes d' = update_registers pid r (cpu_processes d)).
Proof.
  intros H. unfold listen_cpu_step in H. inv_bind H as [op s] E.
  destruct (op_of_value op) as [o|]; [|by simplify_eq; auto].
  destruct o; try (by simplify_eq; auto); unfold handle_request_context,
    handle_updated_context, handle_next_instruction, handle_updated_segment_table,
    handle_stick_disconnected in H.
  - inv_bind H as [pid d1] E1. apply request_pid_keeps in E1 as [E1 E2].
    inv_bind H as p E3. destruct p; [destruct (send_buffer _ _ _)|];
      simplify_eq; cbn; rewrite ?E1, ?E2; auto.
  - inv_bind H as [packet s1] E1. inv_bind H as [pid regs] E2.
    inv_bind H as r E3. inv_bind H as p E4. destruct p; simplify_eq; cbn; eauto.
  - inv_bind H as [packet s1] E1. inv_bind H as [pid pc] E2. inv_bind H as pc' E3.
    inv_bind H as p E4. inv_bind H as p' E5. inv_bind H as i E6.
    inv_bind H as [ok s2] E7. simplify_eq; auto.
  - inv_bind H as [pid d1] E1. apply request_pid_keeps in E1 as [E1 E2].
    inv_bind H as p E3. destruct p; simplify_eq; cbn; rewrite ?E1, ?E2; auto.
  - inv_bind H as [ok s1] E1. simplify_eq; auto.
Qed.
End listener.

(** ** Saving and restoring a context *)

Section context.
Context {U : Type} `{!Transport U}.
Implicit Types (d : t_cpu_data wire U).

Definition save_context_request (pid : Z) (r : t_registers) : list byte :=
  frame OP_UPDATED_CONTEXT (elements [int_bytes pid; registers_bytes r]).
Definition context_request (pid : Z) : list byte :=
  frame OP_REQUEST_CONTEXT (int_bytes pid).

Lemma read_pid pid : in_u32 pid -> read_u32 (written (int_bytes pid)) 0 = Ok pid.
Proof. intros H. by apply read_u32_at. Qed.

Lemma packet_pid_and_ok pid v :
  in_u32 pid -> packet_pid_and (written <$> [int_bytes pid; v]) = Ok (pid, written v).
Proof.
  intros H. unfold packet_pid_and.
  change (l_get _ 0) with (Some (written (int_bytes pid))).
  change (l_get _ 1) with (Some (written v)).
  cbn [deref mbind res_bind]. by rewrite read_pid.
Qed.

Lemma save_context_ok d pid r p t rest :
  processes_ok (cpu_processes d) -> in_u32 pid -> registers_wf r ->
  find_process (cpu_processes d) pid = Ok (Some p) ->
  socket_cpu d = Some (mk_wire (save_context_request pid r ++ rest) t true) ->
  listen_cpu_step d
  = Ok (true, set_cpu_processes (update_registers pid r (cpu_processes d))
                (set_cpu_socket (Some (mk_wire rest t true)) d)).
Proof.
  intros Hok Hpid Hr Hp Hs. unfold listen_cpu_step. rewrite Hs.
  unfold save_context_request. rewrite receive_op_code_frame. cbn [mbind res_bind].
  rewrite op_of_value_op_value. unfold handle_updated_context.
  cbn [set_cpu_socket socket_cpu].
  rewrite receive_packet_wire by
    (repeat constructor; (done || (unfold sendable, l_size; cbn; ints; lia))).
  cbn [mbind res_bind]. rewrite packet_pid_and_ok by done. cbn [mbind res_bind].
  rewrite registers_roundtrip by done. cbn [mbind res_bind set_cpu_socket cpu_processes].
  by rewrite Hp.
Qed.

Lemma send_context_ok d pid p t rest :
  in_u32 pid -> find_process (cpu_processes d) pid = Ok (Some p) ->
  socket_cpu d = Some (mk_wire (context_request pid ++ rest) t true) ->
  listen_cpu_step d
  = Ok (true, set_cpu_socket (Some (mk_wire rest
      (t ++ frame OP_SEND_CONTEXT (registers_bytes (registers p))
         ++ serialize_packet (segment_table_packet pid (cpu_memory d))) true)) d).
Proof.
  intros Hpid Hp Hs. unfold listen_cpu_step. rewrite Hs.
  unfold context_request. rewrite receive_op_code_frame. cbn [mbind res_bind].
  rewrite op_of_value_op_value. unfold handle_request_context, request_pid.
  cbn [set_cpu_socket socket_cpu].
  rewrite receive_buffer_wire by apply int_bytes_element.
  cbn [mbind res_bind deref]. rewrite read_pid by done.
  cbn [mbind res_bind set_cpu_socket socket_cpu cpu_processes]. rewrite Hp.
  cbn [mbind res_bind].
  unfold send_buffer. rewrite wire_send by apply serialize_packet_ne.
  unfold send_segment_table, send_packet. cbn [set_cpu_socket socket_cpu cpu_memory].
  rewrite wire_send by apply serialize_packet_ne. cbn [snd].
  by rewrite <- app_assoc.
Qed.

(** a context survives being taken off a CPU: once a CPU has stored the
    registers of a known process, the next request for its context is answered
    with exactly those registers and the process's segments, the contexts of
    the other processes are as before, and both requests keep the loop
    running. *)
Theorem context_survives d pid r p t rest :
  processes_ok (cpu_processes d) -> in_u32 pid -> registers_wf r ->
  find_process (cpu_processes d) pid = Ok (Some p) ->
  socket_cpu d = Some (mk_wire (save_context_request pid r
                                ++ context_request pid ++ rest) t true) ->
  exists d1 d2,
    listen_cpu_step d = Ok (true, d1) /\ listen_cpu_step d1 = Ok (true, d2) /\
    socket_cpu d2 = Some (mk_wire rest
      (t ++ frame OP_SEND_CONTEXT (registers_bytes r)
         ++ serialize_packet (segment_table_packet pid (cpu_memory d))) true) /\
    cpu_memory d2 = cpu_memory d /\ processes_ok (cpu_processes d2) /\
    forall pid', pid' ≠ pid ->
      find_process (cpu_processes d2) pid' = find_process (cpu_processes d) pid'.
Proof.
  intros Hok Hpid Hr Hp Hs.
  do 2 eexists. split; [by apply (save_context_ok d pid r p t (context_request pid ++ rest))|].
  split.
  { eapply send_context_ok; [done| |done].
    cbn [set_cpu_processes cpu_processes]. by apply find_update_registers. }
  split_and!; [done|done| |].
  - by apply processes_ok_update.
  - intros pid' Hne. by apply find_update_registers_ne.
Qed.
End context.

Definition one_process : t_cpu_data wire wire :=
  mk_cpu_data 1
    (Some (mk_wire (save_context_request 7 (mk_registers 1 2 3 4 5 6 7 8 9 10 11)
                    ++ context_request 7 ++ []) [] true))
    None [Some (mk_process 7 [] [] zero_registers)] (init_main_memory 64 0 0).

Lemma context_survives_witness :
  exists d1 d2,
    listen_cpu_step one_process = Ok (true, d1) /\
    listen_cpu_step d1 = Ok (true, d2) /\
    socket_cpu d2 = Some (mk_wire []
      ([] ++ frame OP_SEND_CONTEXT
              (registers_bytes (mk_registers 1 2 3 4 5 6 7 8 9 10 11))
          ++ serialize_packet (segment_table_packet 7 (init_main_memory 64 0 0))) true) /\
    cpu_memory d2 = init_main_memory 64 0 0 /\ processes_ok (cpu_processes d2) /\
    forall pid', pid' ≠ 7 ->
      find_process (cpu_processes d2) pid' = find_process (cpu_processes one_process) pid'.
Proof.
  apply (context_survives one_process 7 (mk_registers 1 2 3 4 5 6 7 8 9 10 11)
    (mk_process 7 [] [] zero_registers) [] []); try done.
  - repeat constructor; by eexists.
  - repeat constructor; cbn; ints; lia.
Defined.
