(* ===== verification/KmServer.v ===== *)
(** * KmServer: kernel_memory/src/kernel_memory/server.c, connections.c,
      stick_watchdog.c

    How modules join Kernel Memory, the watchdog over the sticks, and the whole
    module as a transition system whose threads interleave handler by handler. *)

From Stdlib Require Import Strings.Byte Strings.String.
From S2P Require Import Prelude Bytes Msg Text File Structs MainMemory Compaction Holes.
From S2P Require Import Segments Peer MemoryStick Sticks SwapModule KmSwap KmProcess.
From S2P Require Import SchedulerListener CpuListener.

(** [allocation_from_string] of configurator.c. *)
Definition allocation_from_string (strategy : text) : Z :=
  if decide (strategy = txt "BEST") then 0
  else if decide (strategy = txt "WORST") then 1
  else -1.

(** The listener threads: [active_threads], whether the scheduler's and each
    CPU's are in the count, whether the scheduler's has left it and still has to
    run [free_scheduler_data], and whether the server socket still accepts. *)
Record t_listeners := mk_listeners {
  active_threads : Z;
  scheduler_runs : bool;
  scheduler_cleans : bool;
  cpus_run : list bool;
  server_up : bool }.

Definition start_scheduler_listener (l : t_listeners) : t_listeners :=
  mk_listeners (active_threads l + 1) true (scheduler_cleans l) (cpus_run l) (server_up l).
(** [init_ok] or not, the CPU is in the list; its thread only starts if so. *)
Definition start_cpu_listener (init_ok : bool) (l : t_listeners) : t_listeners :=
  mk_listeners (if init_ok then active_threads l + 1 else active_threads l)
    (scheduler_runs l) (scheduler_cleans l) (cpus_run l ++ [init_ok]) (server_up l).
(** The listener leaves the count; its cleanup comes later. *)
Definition end_scheduler_listener (l : t_listeners) : t_listeners :=
  mk_listeners (active_threads l - 1) false true (cpus_run l) (server_up l).
Definition end_scheduler_cleanup (l : t_listeners) : t_listeners :=
  mk_listeners (active_threads l) (scheduler_runs l) false (cpus_run l) false.
Definition end_cpu_listener (i : nat) (l : t_listeners) : t_listeners :=
  mk_listeners (active_threads l - 1) (scheduler_runs l) (scheduler_cleans l)
    (<[i := false]> (cpus_run l)) (server_up l).

(** [t_kernel_memory_data].  [k_scheduler] is [None] until the scheduler
    connects; it is the static of [handshake] too.  A CPU is its id and its
    socket. *)
Record t_kernel_memory_data (T : Type) := mk_km {
  k_scheduler : option (t_socket T);
  k_processes : t_processes;
  k_scripts_basepath : text;
  k_sticks : list (t_stick_data T);
  k_cpus : list (Z * t_socket T);
  k_memory : t_main_memory;
  k_swap : option (t_swap_data T);
  k_segment_max_size : Z;
  k_already_notified : bool;
  k_listeners : t_listeners }.
Arguments mk_km {T} _ _ _ _ _ _ _ _ _ _.
Arguments k_scheduler {T} _.
Arguments k_processes {T} _.
Arguments k_scripts_basepath {T} _.
Arguments k_sticks {T} _.
Arguments k_cpus {T} _.
Arguments k_memory {T} _.
Arguments k_swap {T} _.
Arguments k_segment_max_size {T} _.
Arguments k_already_notified {T} _.
Arguments k_listeners {T} _.

Section server.
Context {T : Type} `{!Transport T}.
(** [getpeername]: the address of the peer, or failure. *)
Context (peer_ip : t_socket T -> option text).
Implicit Types (d : t_kernel_memory_data T).

(** [init_kernel_memory_data] *)
Definition init_kernel_memory_data (scripts_basepath : text)
    (compaction_delay segment_max_size allocation_strategy : Z)
    : t_kernel_memory_data T :=
  mk_km None [] scripts_basepath [] []
    (init_main_memory segment_max_size allocation_strategy compaction_delay)
    None segment_max_size false (mk_listeners 0 false false [] true).

(** ** connections.c *)

(** The value received, or [None] after an unexpected operation, which closes
    the socket. *)
Definition receive_int_field (expected_op : t_op_code) (s : t_socket T)
    : res (option Z * t_socket T) :=
  '(op, s) ← receive_op_code s;
  if decide (op ≠ op_value expected_op) then Ok (None, socket_close s) else
  '(value, s) ← receive_string s;
  value ← deref value; bytes ← defined value; str ← str_read bytes;
  n ← atoi str; Ok (Some n, s).

Definition stick_packet (stick : t_stick_data T) : res t_packet :=
  ip ← (match ip_memory_stick stick with
        | Some ip => Ok ip | None => Undef Indeterminate end);
  let port := take 5 (print_u32 (stick_port stick)) in
  packet ← packet_append_string (create_packet OP_PACKET) (ip ++ [x00]);
  packet ← packet_append_string packet (port ++ [x00]);
  Ok (packet_append packet (int_bytes (stick_size stick))).

Fixpoint send_connected_sticks (sticks : list (t_stick_data T)) (s : t_socket T)
    : res (t_socket T) :=
  match sticks with
  | [] => Ok s
  | current_stick :: r =>
      packet ← stick_packet current_stick;
      send_connected_sticks r (send_packet packet s).2
  end.

Definition send_cpu_connection (stick : t_stick_data T) (cpus : list (Z * t_socket T))
    : res (list (Z * t_socket T)) :=
  match cpus with
  | [] => Ok []
  | _ =>
      packet ← stick_packet stick;
      Ok ((fun '(id, s) => (id, (send_packet packet s).2)) <$> cpus)
  end.

(** [compute_total_memory] *)
Definition compute_total_memory (sticks : list (t_stick_data T)) : Z :=
  foldl (fun total stick => s32 (total + stick_size stick)) 0 sticks.

(** ** server.c *)

Definition set_k_scheduler s d : t_kernel_memory_data T :=
  mk_km s (k_processes d) (k_scripts_basepath d) (k_sticks d) (k_cpus d) (k_memory d)
    (k_swap d) (k_segment_max_size d) (k_already_notified d) (k_listeners d).
Definition set_k_sticks l d : t_kernel_memory_data T :=
  mk_km (k_scheduler d) (k_processes d) (k_scripts_basepath d) l (k_cpus d) (k_memory d)
    (k_swap d) (k_segment_max_size d) (k_already_notified d) (k_listeners d).
Definition set_k_cpus l d : t_kernel_memory_data T :=
  mk_km (k_scheduler d) (k_processes d) (k_scripts_basepath d) (k_sticks d) l (k_memory d)
    (k_swap d) (k_segment_max_size d) (k_already_notified d) (k_listeners d).
Definition set_k_memory m d : t_kernel_memory_data T :=
  mk_km (k_scheduler d) (k_processes d) (k_scripts_basepath d) (k_sticks d) (k_cpus d) m
    (k_swap d) (k_segment_max_size d) (k_already_notified d) (k_listeners d).
Definition set_k_swap sw d : t_kernel_memory_data T :=
  mk_km (k_scheduler d) (k_processes d) (k_scripts_basepath d) (k_sticks d) (k_cpus d)
    (k_memory d) sw (k_segment_max_size d) (k_already_notified d) (k_listeners d).
Definition set_k_processes l d : t_kernel_memory_data T :=
  mk_km (k_scheduler d) l (k_scripts_basepath d) (k_sticks d) (k_cpus d) (k_memory d)
    (k_swap d) (k_segment_max_size d) (k_already_notified d) (k_listeners d).
Definition set_k_notified d : t_kernel_memory_data T :=
  mk_km (k_scheduler d) (k_processes d) (k_scripts_basepath d) (k_sticks d) (k_cpus d)
    (k_memory d) (k_swap d) (k_segment_max_size d) true (k_listeners d).
Definition set_k_listeners f d : t_kernel_memory_data T :=
  mk_km (k_scheduler d) (k_processes d) (k_scripts_basepath d) (k_sticks d) (k_cpus d)
    (k_memory d) (k_swap d) (k_segment_max_size d) (k_already_notified d)
    (f (k_listeners d)).

(** The socket behind the scheduler's pointer. *)
Definition scheduler_socket d : t_socket T := default None (k_scheduler d).

(** A new stick's data, and whether the last of its three initialisations
    succeeded: [init_ok] is overwritten by each. *)
Definition receive_stick (s : t_socket T) : res (bool * t_stick_data T) :=
  let ip := peer_ip s in
  '(size, s) ← receive_int_field OP_MEMORY_SIZE s;
  '(port, s) ← receive_int_field OP_PORT s;
  Ok (bool_decide (is_Some port),
      mk_stick_data (default (-1) size) s ip (default (-1) port)).

Definition accept_cpu (client_socket : t_socket T) d
    : res (bool * t_kernel_memory_data T) :=
  '(id, s) ← receive_int_field OP_ID_CPU client_socket;
  let (_, s) := send_buffer OP_MAX_SEGMENT_SIZE (int_bytes (k_segment_max_size d)) s in
  match (id : option Z) with
  | Some id =>
      s ← send_connected_sticks (k_sticks d) s;
      Ok (true, set_k_listeners (start_cpu_listener true) (set_k_cpus (k_cpus d ++ [(id, s)]) d))
  | None =>
      Ok (true, set_k_listeners (start_cpu_listener false)
                  (set_k_cpus (k_cpus d ++ [(-1, socket_close s)]) d))
  end.

Definition close_stick (stick : t_stick_data T) : t_stick_data T :=
  mk_stick_data (stick_size stick) (socket_close (socket_stick stick))
    (ip_memory_stick stick) (stick_port stick).

Definition accept_stick (client_socket : t_socket T) d
    : res (bool * t_kernel_memory_data T) :=
  '(init_ok, stick) ← receive_stick client_socket;
  if (init_ok : bool) then
    let d := set_k_sticks (k_sticks d ++ [stick]) d in
    cpus ← send_cpu_connection stick (k_cpus d);
    '(_, s) ← send_string OP_NEW_MEMORY_STICK (lit "A new memory stick connected")
                (scheduler_socket d);
    let d := set_k_scheduler (option_map (fun _ => s) (k_scheduler d))
               (set_k_cpus cpus d) in
    Ok (true, set_k_memory (add_total_memory (stick_size stick) (k_memory d)) d)
  else Ok (true, set_k_sticks (k_sticks d ++ [close_stick stick]) d).

Definition handshake (client_socket : t_socket T) d
    : res (bool * t_kernel_memory_data T) :=
  '(identifier, s) ← receive_handshake client_socket;
  match identifier with
  | MID_KERNEL_SCHEDULER =>
      '(ok, s) ← send_handshake MID_KERNEL_MEMORY s;
      if negb ok then Ok (false, d) else
      Ok (true, set_k_scheduler (Some s) (set_k_listeners start_scheduler_listener d))
  | MID_CPU =>
      match k_scheduler d with
      | None => Ok (true, d)
      | Some _ =>
          '(ok, s) ← send_handshake MID_KERNEL_MEMORY s;
          if negb ok then Ok (false, d) else accept_cpu s d
      end
  | MID_MEMORY_STICK =>
      '(ok, s) ← send_handshake MID_KERNEL_MEMORY s;
      if negb ok then Ok (false, d) else accept_stick s d
  | MID_SWAP =>
      '(ok, s) ← send_handshake MID_KERNEL_MEMORY s;
      if negb ok then Ok (false, d) else
      swap_data ← init_swap_data s; Ok (true, set_k_swap swap_data d)
  | _ => Ok (false, d)
  end.

(** ** stick_watchdog.c *)

(** The loop stops at the first stick that cannot be written to. *)
Fixpoint any_stick_unreachable (sticks : list (t_stick_data T))
    : res (bool * list (t_stick_data T)) :=
  match sticks with
  | [] => Ok (false, [])
  | stick :: r =>
      '(ok, s) ← send_string OP_KERNEL_MEMORY_RUNNING
                   (lit "Is the stick still connected?") (socket_stick stick);
      let stick := mk_stick_data (stick_size stick) s (ip_memory_stick stick)
                     (stick_port stick) in
      if (ok : bool) then
        '(unreachable, r) ← any_stick_unreachable r; Ok (unreachable, stick :: r)
      else Ok (true, stick :: r)
  end.

Definition notify_scheduler_memory_corrupted d : res (t_kernel_memory_data T) :=
  match k_already_notified d, k_scheduler d with
  | false, Some s =>
      '(_, s) ← send_string OP_MEMORY_CORRUPTED (lit "Stick not available") s;
      Ok (set_k_notified (set_k_scheduler (Some s) d))
  | _, _ => Ok d
  end.

(** One round of [watch_sticks]. *)
Definition watch_sticks_step d : res (t_kernel_memory_data T) :=
  '(unreachable, sticks) ← any_stick_unreachable (k_sticks d);
  let d := set_k_sticks sticks d in
  if (unreachable : bool) then notify_scheduler_memory_corrupted d else Ok d.
End server.

(** ** Kernel Memory as a whole *)

Section system.
Context {T : Type} `{!Transport T}.
Context (fs : file_system) (peer_ip : t_socket T -> option text).
Implicit Types (d : t_kernel_memory_data T).

(** What the scheduler's listener and a CPU's listener see, and their effect on
    the shared state. *)
Definition scheduler_view d (s : t_socket T) : t_scheduler_data T T T :=
  mk_scheduler_data s (k_processes d) (k_scripts_basepath d) (k_sticks d)
    (k_memory d) (k_swap d).

Definition put_scheduler (sd : t_scheduler_data T T T) d : t_kernel_memory_data T :=
  mk_km (Some (socket_scheduler sd)) (processes sd) (k_scripts_basepath d)
    (connected_sticks sd) (k_cpus d) (main_memory sd) (swap_data sd)
    (k_segment_max_size d) (k_already_notified d) (k_listeners d).

Definition cpu_view d (c : Z * t_socket T) : t_cpu_data T T :=
  mk_cpu_data c.1 c.2 (scheduler_socket d) (k_processes d) (k_memory d).

Definition put_cpu (i : nat) (c : t_cpu_data T T) d : t_kernel_memory_data T :=
  mk_km (option_map (fun _ => cpu_scheduler c) (k_scheduler d)) (cpu_processes c)
    (k_scripts_basepath d) (k_sticks d)
    (<[i := (cpu_id c, socket_cpu c)]> (k_cpus d)) (cpu_memory c) (k_swap d)
    (k_segment_max_size d) (k_already_notified d) (k_listeners d).

(** One round of [listen_scheduler]; at its end the peer is told and the
    listener leaves the count. *)
Definition scheduler_round d (s : t_socket T) : res (t_kernel_memory_data T) :=
  '(connection_alive, sd) ← listen_scheduler_step fs (scheduler_view d s);
  if (connection_alive : bool) then Ok (put_scheduler sd d) else
  sd ← answer OP_MEMORY_CORRUPTED (lit "Kernel shutdown") sd;
  Ok (set_k_listeners end_scheduler_listener (put_scheduler sd d)).

(** [free_scheduler_data], the last thing the listener's thread does: the
    scheduler's socket is closed and the server's is shut down. *)
Definition free_scheduler_data d : t_kernel_memory_data T :=
  set_k_listeners end_scheduler_cleanup
    (set_k_scheduler (option_map (fun s => socket_close s) (k_scheduler d)) d).

(** One round of [listen_cpu]; at its end [close_cpu] closes the socket. *)
Definition cpu_round (i : nat) d (c : Z * t_socket T) : res (t_kernel_memory_data T) :=
  '(connection_alive, c) ← listen_cpu_step (cpu_view d c);
  if (connection_alive : bool) then Ok (put_cpu i c d) else
  Ok (set_k_listeners (end_cpu_listener i)
        (put_cpu i (set_cpu_socket (socket_close (socket_cpu c)) c) d)).

(** What can happen next: a client connects, the scheduler's listener handles a
    request from [s], or runs its cleanup, the listener of a CPU handles a
    request, or the watchdog passes.  One handler runs at a time. *)
Inductive t_event :=
  | EV_client (client : t_socket T)
  | EV_scheduler (s : t_socket T)
  | EV_cleanup
  | EV_cpu (i : nat)
  | EV_watchdog.

Inductive km_step : t_event -> t_kernel_memory_data T -> t_kernel_memory_data T -> Prop :=
  | km_accept d client b d' :
      handshake peer_ip client d = Ok (b, d') -> km_step (EV_client client) d d'
  | km_scheduler d s d' :
      scheduler_runs (k_listeners d) = true -> k_scheduler d = Some s ->
      scheduler_round d s = Ok d' -> km_step (EV_scheduler s) d d'
  | km_cleanup d :
      scheduler_cleans (k_listeners d) = true -> km_step EV_cleanup d (free_scheduler_data d)
  | km_cpu d i c d' :
      cpus_run (k_listeners d) !! i = Some true -> k_cpus d !! i = Some c ->
      cpu_round i d c = Ok d' -> km_step (EV_cpu i) d d'
  | km_watchdog d d' : watch_sticks_step d = Ok d' -> km_step EV_watchdog d d'.

(** What the peers have to keep to.  Only one scheduler connects. *)
Definition one_scheduler (e : t_event) d : Prop :=
  match e with
  | EV_client client =>
      forall s1, receive_handshake client = Ok (MID_KERNEL_SCHEDULER, s1) -> k_scheduler d = None
  | _ => True
  end.

(** A stick announces a size that is positive and keeps the total an [int]. *)
Definition sized_stick (client : t_socket T) d : Prop :=
  forall s1 ok s2 stick,
    receive_handshake client = Ok (MID_MEMORY_STICK, s1) ->
    send_handshake MID_KERNEL_MEMORY s1 = Ok (ok, s2) ->
    receive_stick peer_ip s2 = Ok (true, stick) ->
    0 < stick_size stick /\ total_size (k_memory d) + stick_size stick <= INT_MAX.

(** The scheduler asks for no segment of zero bytes and for no script that does
    not exist. *)
Definition within_contract (e : t_event) d : Prop :=
  one_scheduler e d /\
  match e with
  | EV_client client => sized_stick client d
  | EV_scheduler s => benign fs (scheduler_view d s)
  | _ => True
  end.

(** The listeners that run. *)
Definition running (l : t_listeners) : Z :=
  (if scheduler_runs l then 1 else 0) + sum_with (fun b : bool => if b then 1 else 0) (cpus_run l).

Record listeners_ok d : Prop := {
  lo_active : active_threads (k_listeners d) = running (k_listeners d);
  lo_scheduler : scheduler_runs (k_listeners d) = true ->
    is_Some (k_scheduler d) /\ scheduler_cleans (k_listeners d) = false;
  lo_cleans : scheduler_cleans (k_listeners d) = true -> is_Some (k_scheduler d);
  lo_cpus : length (cpus_run (k_listeners d)) = length (k_cpus d) }.

Record tables_ok d : Prop := {
  to_memory : mem_inv (k_memory d);
  to_processes : processes_ok (k_processes d);
  to_blocks : forall sw, k_swap d = Some sw -> Forall block_sized (block_list sw) }.

Lemma init_tables_ok base delay max st :
  0 <= max <= INT_MAX -> st = 0 \/ st = 1 ->
  tables_ok (init_kernel_memory_data base delay max st).
Proof.
  intros Hmax Hst. constructor; cbn; [|by constructor|done].
  split; [apply init_main_memory_wf|split; [|done]].
  destruct Hst as [->| ->]; by eexists.
Qed.

Lemma init_listeners_ok base delay max st :
  listeners_ok (init_kernel_memory_data base delay max st).
Proof. by constructor. Qed.

Lemma init_swap_data_sized (s : t_socket T) sw :
  init_swap_data s = Ok (Some sw) -> Forall block_sized (block_list sw).
Proof.
  intros H. unfold init_swap_data in H. inv_bind H as [op s1] E1.
  case_decide; [done|]. inv_bind H as [[b n] s2] E2. inv_bind H as b' E3.
  inv_bind H as c E4. case_decide; [done|]. simplify_eq. cbn.
  unfold init_block_list. apply Forall_forall. by intros x (i & -> & _)%list_elem_of_fmap.
Qed.

Lemma add_total_memory_inv n m :
  mem_inv m -> 0 < n -> total_size m + n <= INT_MAX -> mem_inv (add_total_memory n m).
Proof.
  intros Hm Hn Ht. apply (mem_inv_config m); [done|].
  split; [by apply add_total_memory_wf, Ht; try apply Hm|].
  unfold add_total_memory. by destruct (grow_hole_at _ _ _).
Qed.

(** *** The listeners *)

Lemma sum_running_end i (l : list bool) :
  l !! i = Some true ->
  sum_with (fun b : bool => if b then 1 else 0) (<[i := false]> l)
  = sum_with (fun b : bool => if b then 1 else 0) l - 1.
Proof.
  revert i. induction l as [|b l IH]; intros [|i] E; try done; cbn in *; [simplify_eq; lia|].
  rewrite IH by done. lia.
Qed.

(** Sending to every CPU keeps their number. *)
Lemma send_cpu_connection_length stick (cpus cpus' : list (Z * t_socket T)) :
  send_cpu_connection stick cpus = Ok cpus' -> length cpus' = length cpus.
Proof.
  unfold send_cpu_connection. destruct cpus as [|c cpus]; [by intros [= <-]|].
  intros H. inv_bind H as packet E. injection H as <-. cbn. by rewrite length_fmap.
Qed.

(** What matters to the listeners. *)
Lemma listeners_ok_same d d' :
  listeners_ok d -> k_listeners d' = k_listeners d ->
  (is_Some (k_scheduler d) -> is_Some (k_scheduler d')) ->
  length (k_cpus d') = length (k_cpus d) -> listeners_ok d'.
Proof.
  intros [H1 H2 H3 H4] El Es Ec. constructor; rewrite ?El, ?Ec; auto.
  intros Hr. split; [by apply Es, H2|by apply H2].
Qed.

Lemma option_map_is_Some {A B} (f : A -> B) o : is_Some o -> is_Some (option_map f o).
Proof. intros [x ->]. by eexists. Qed.

Lemma accept_cpu_listeners s d b d' :
  listeners_ok d -> accept_cpu s d = Ok (b, d') -> listeners_ok d'.
Proof.
  intros [H1 H2 H3 H4] H. unfold accept_cpu in H. inv_bind H as [id s1] E1.
  destruct (send_buffer _ _ _) as [ok s2].
  destruct id; [inv_bind H as s3 E2|]; injection H as <- <-; constructor; cbn; try done;
    try (rewrite !length_app; cbn; lia);
    unfold running in *; cbn; rewrite sum_with_app; cbn; lia.
Qed.

Lemma accept_stick_listeners s d b d' :
  listeners_ok d -> accept_stick peer_ip s d = Ok (b, d') -> listeners_ok d'.
Proof.
  intros Hd H. unfold accept_stick in H. inv_bind H as [ok stick] E1.
  destruct ok; [|simplify_eq; by eapply listeners_ok_same].
  inv_bind H as cpus E2. apply send_cpu_connection_length in E2.
  inv_bind H as [ok s1] E3. injection H as <- <-.
  eapply listeners_ok_same; try done. cbn. apply option_map_is_Some.
Qed.

Lemma handshake_listeners client d b d' :
  listeners_ok d -> one_scheduler (EV_client client) d ->
  handshake peer_ip client d = Ok (b, d') -> listeners_ok d'.
Proof.
  intros Hd Hone H. unfold handshake in H. inv_bind H as [id s] E1.
  destruct id; try by simplify_eq.
  - inv_bind H as [ok s1] E2. destruct ok; cbn [negb] in H; simplify_eq; [|done].
    specialize (Hone _ E1). destruct Hd as [H1 H2 H3 H4]. rewrite Hone in H2, H3.
    destruct (scheduler_runs _) eqn:Er; [by destruct H2 as [[? [=]] _]|].
    destruct (scheduler_cleans (k_listeners d)) eqn:Ec; [by destruct H3 as [? [=]]|].
    constructor; cbn; try done. unfold running in *. cbn. rewrite Er in H1. lia.
  - destruct (k_scheduler d); [|by simplify_eq]. inv_bind H as [ok s1] E2.
    destruct ok; cbn [negb] in H; [by eapply accept_cpu_listeners|by simplify_eq].
  - inv_bind H as [ok s1] E2. destruct ok; cbn [negb] in H; [|by simplify_eq].
    by eapply accept_stick_listeners.
  - inv_bind H as [ok s1] E2. destruct ok; cbn [negb] in H; [|by simplify_eq].
    inv_bind H as sw E3. simplify_eq. by eapply listeners_ok_same.
Qed.

Lemma put_scheduler_listeners sd d : listeners_ok d -> listeners_ok (put_scheduler sd d).
Proof. intros Hd. by eapply listeners_ok_same. Qed.

Lemma scheduler_round_listeners d s d' :
  listeners_ok d -> scheduler_runs (k_listeners d) = true ->
  scheduler_round d s = Ok d' -> listeners_ok d'.
Proof.
  intros Hd Hr H. unfold scheduler_round in H. inv_bind H as [alive sd] E.
  destruct alive; [injection H as <-; by apply put_scheduler_listeners|].
  inv_bind H as sd' E'. injection H as <-. destruct Hd as [H1 H2 H3 H4].
  constructor; cbn; try done. unfold running in *. cbn in *. rewrite Hr in H1. lia.
Qed.

Lemma cleanup_listeners d : listeners_ok d -> listeners_ok (free_scheduler_data d).
Proof.
  intros [H1 H2 H3 H4]. constructor; cbn; try done.
  intros Hr. split; [by apply option_map_is_Some, H2|done].
Qed.

Lemma cpu_round_listeners i d c d' :
  listeners_ok d -> cpus_run (k_listeners d) !! i = Some true ->
  cpu_round i d c = Ok d' -> listeners_ok d'.
Proof.
  intros Hd Hr H. unfold cpu_round in H. inv_bind H as [alive c'] E.
  destruct alive; injection H as <-.
  - eapply listeners_ok_same; try done; cbn; [apply option_map_is_Some|apply length_insert].
  - destruct Hd as [H1 H2 H3 H4]. constructor; cbn; rewrite ?length_insert; try done.
    + unfold running in *. cbn. rewrite sum_running_end by done. lia.
    + intros Hs. split; [by apply option_map_is_Some, H2|by apply H2].
    + intros Hs. by apply option_map_is_Some, H3.
Qed.

Lemma watch_sticks_parts d d' :
  watch_sticks_step d = Ok d' ->
  k_memory d' = k_memory d /\ k_processes d' = k_processes d /\ k_swap d' = k_swap d /\
  k_listeners d' = k_listeners d /\ k_cpus d' = k_cpus d /\
  (is_Some (k_scheduler d) -> is_Some (k_scheduler d')).
Proof.
  intros H. unfold watch_sticks_step in H. inv_bind H as [u sticks] E1.
  destruct u; [|by simplify_eq]. unfold notify_scheduler_memory_corrupted in H. cbn in H.
  destruct (k_already_notified d); [by simplify_eq|].
  destruct (k_scheduler d) eqn:Es; [inv_bind H as [ok s] E2|]; injection H as <-;
    cbn; rewrite ?Es; repeat split; try done.
Qed.

Lemma km_step_listeners e d d' :
  listeners_ok d -> one_scheduler e d -> km_step e d d' -> listeners_ok d'.
Proof.
  intros Hd He H. destruct H as [d client b d' H|d s d' Hr Hs H|d|d i c d' Hr Hc H|d d' H].
  - by eapply handshake_listeners.
  - by eapply scheduler_round_listeners.
  - by apply cleanup_listeners.
  - by eapply cpu_round_listeners.
  - apply watch_sticks_parts in H as (_ & _ & _ & El & Ec & Es).
    eapply listeners_ok_same; try done. by f_equal.
Qed.

(** *** The tables *)

(** What matters to the tables. *)
Lemma tables_ok_same d d' :
  tables_ok d -> k_memory d' = k_memory d -> k_processes d' = k_processes d ->
  k_swap d' = k_swap d -> tables_ok d'.
Proof. intros [H1 H2 H3] E1 E2 E3. constructor; rewrite ?E1, ?E2, ?E3; auto. Qed.

Lemma handshake_tables client d b d' :
  tables_ok d -> sized_stick client d ->
  handshake peer_ip client d = Ok (b, d') -> tables_ok d'.
Proof.
  intros Hd Hh H. unfold handshake in H. inv_bind H as [id s] E1.
  destruct id; try by simplify_eq.
  - inv_bind H as [ok s1] E2. destruct ok; cbn [negb] in H; simplify_eq; [|done].
    by eapply tables_ok_same.
  - destruct (k_scheduler d); [|by simplify_eq]. inv_bind H as [ok s1] E2.
    destruct ok; cbn [negb] in H; [|by simplify_eq].
    unfold accept_cpu in H. inv_bind H as [id s2] E3. destruct (send_buffer _ _ _) as [? s3].
    destruct id; [inv_bind H as s4 E4|]; injection H as <- <-; by eapply tables_ok_same.
  - inv_bind H as [ok s1] E2. destruct ok; cbn [negb] in H; [|by simplify_eq].
    unfold accept_stick in H. inv_bind H as [ok2 stick] E3.
    destruct ok2; [|simplify_eq; by eapply tables_ok_same].
    destruct (Hh s true s1 stick E1 E2 E3) as [Hp Ht].
    inv_bind H as cpus E4. inv_bind H as [ok3 s3] E5. injection H as <- <-.
    destruct Hd as [H1 H2 H3]. constructor; cbn; try done. by apply add_total_memory_inv.
  - inv_bind H as [ok s1] E2. destruct ok; cbn [negb] in H; [|by simplify_eq].
    inv_bind H as sw E3. simplify_eq. destruct Hd as [H1 H2 H3].
    constructor; cbn; [done..|]. intros sw' ->. by eapply init_swap_data_sized.
Qed.

Lemma put_scheduler_tables sd d : km_inv sd -> tables_ok (put_scheduler sd d).
Proof. intros [K1 K2 K3]. by constructor. Qed.

Lemma scheduler_round_tables d s d' :
  tables_ok d -> benign fs (scheduler_view d s) -> scheduler_round d s = Ok d' -> tables_ok d'.
Proof.
  intros Hd Hb H. unfold scheduler_round in H. inv_bind H as [alive sd] E.
  assert (km_inv sd) as Hsd.
  { eapply listen_scheduler_step_inv; [|done|done]. destruct Hd. by constructor. }
  destruct alive; [injection H as <-; by apply put_scheduler_tables|].
  inv_bind H as sd' E'. injection H as <-.
  apply (tables_ok_same (put_scheduler sd' d)); [|done..].
  apply put_scheduler_tables. by eapply answer_inv.
Qed.

Lemma cpu_round_tables i d c d' :
  tables_ok d -> cpu_round i d c = Ok d' -> tables_ok d'.
Proof.
  intros [H1 H2 H3] H. unfold cpu_round in H. inv_bind H as [alive c'] E.
  apply listen_cpu_step_keeps in E as [Em Ep]. cbn in Em, Ep.
  assert (processes_ok (cpu_processes c')) as Hp.
  { destruct Ep as [->|(pid & r & ->)]; [done|by apply processes_ok_update]. }
  destruct alive; injection H as <-; constructor; cbn; rewrite ?Em; done.
Qed.

Lemma km_step_tables e d d' :
  tables_ok d -> within_contract e d -> km_step e d d' -> tables_ok d'.
Proof.
  intros Hd [_ He] H. destruct H as [d client b d' H|d s d' Hr Hs H|d|d i c d' Hr Hc H|d d' H].
  - by eapply handshake_tables.
  - by eapply scheduler_round_tables.
  - by eapply tables_ok_same.
  - by eapply cpu_round_tables.
  - apply watch_sticks_parts in H as (Em & Ep & Esw & _). by eapply tables_ok_same.
Qed.

(** C9: Take any run of Kernel Memory's threads, handler by handler and in any
    order, from a configuration with a SEGMENT_MAX_SIZE that is not negative and a
    known strategy, in which the peers keep to three conditions: one scheduler connects
    ([one_scheduler]), each stick announces a positive size that keeps the total
    an [int] ([sized_stick]), and the scheduler asks for no segment of zero bytes
    and for no script that does not exist ([benign]; both do happen, and the code
    does not survive them).  Then in every state reached the segment and hole
    tables are well formed, no entry of the process list is NULL, every swap
    block that starts a segment knows its size, and [active_threads] is the
    number of listeners that run. *)
Theorem kernel_memory_invariant base delay max st d :
  0 <= max <= INT_MAX -> st = 0 \/ st = 1 ->
  rtc (fun d1 d2 => exists e, within_contract e d1 /\ km_step e d1 d2)
    (init_kernel_memory_data base delay max st) d ->
  tables_ok d /\ active_threads (k_listeners d) = running (k_listeners d).
Proof.
  intros Hmax Hst H.
  cut (tables_ok d /\ listeners_ok d); [intros [Ht Hl]; split; [done|apply Hl]|].
  pose proof (init_tables_ok base delay max st Hmax Hst) as Ht.
  pose proof (init_listeners_ok base delay max st) as Hl.
  induction H as [|d1 d2 d3 (e & He & H12) H23 IH]; [done|].
  apply IH; [by eapply km_step_tables|eapply km_step_listeners; [done|apply He|done]].
Qed.
End system.

(** A 128-byte stick joins. *)
Definition joining_stick : t_socket wire :=
  Some (mk_wire (frame OP_HANDSHAKE (lit "memory_stick")
                 ++ frame OP_MEMORY_SIZE (lit "128") ++ frame OP_PORT (lit "9000"))
          [] true).

Definition no_scripts : file_system := fun _ => None.
Definition some_ip : t_socket wire -> option text := fun _ => Some (txt "10.0.0.1").

Lemma kernel_memory_invariant_witness :
  exists d, handshake some_ip joining_stick (init_kernel_memory_data [] 0 64 1)
            = Ok (true, d) /\
    total_size (k_memory d) = 128 /\
    (tables_ok d /\ active_threads (k_listeners d) = running (k_listeners d)).
Proof.
  eexists. split; [vm_compute; reflexivity|]. split; [vm_compute; reflexivity|].
  apply (kernel_memory_invariant no_scripts some_ip [] 0 64 1).
  - ints; lia.
  - by right.
  - apply rtc_once. exists (EV_client joining_stick). split.
    + split; [by intros s1|]. intros s1 ok s2 stick E1 E2 E3.
      vm_compute in E1. injection E1 as <-.
      vm_compute in E2. injection E2 as <- <-. vm_compute in E3.
      injection E3 as <-. vm_compute. split; [reflexivity|discriminate].
    + apply (km_accept _ _ _ _ true). vm_compute. reflexivity.
Defined.
