(* ===== verification/KmMain.v ===== *)
(** * KmMain: kernel_memory/src (main.c, kernel_memory/configurator.c, server.c,
      cleanup.c)

    Kernel Memory from its start to its end: the configuration, the loop that
    accepts clients, and the release, which waits until no listener is in the
    count; the cleanup of the scheduler's may still be to come. *)

From Stdlib Require Import Strings.Byte Strings.String.
From S2P Require Import Prelude Bytes Msg Text File Structs MainMemory Compaction Holes.
From S2P Require Import Segments Peer MemoryStick Sticks SwapModule KmSwap KmProcess.
From S2P Require Import SchedulerListener CpuListener KmServer.

(** ** configurator.c *)

Definition get_scripts_basepath (config : t_properties) : option text :=
  config_get_string_value config (txt "SCRIPTS_BASEPATH").
Definition get_compaction_delay (config : t_properties) : res Z :=
  config_get_int_value config (txt "COMPACTION_DELAY").
Definition get_segment_max_size (config : t_properties) : res Z :=
  config_get_int_value config (txt "SEGMENT_MAX_SIZE").
(** [strcmp] of a missing key's NULL is undefined. *)
Definition get_allocation_strategy (config : t_properties) : res Z :=
  strategy ← deref (config_get_string_value config (txt "ALLOCATION_STRATEGY"));
  Ok (allocation_from_string strategy).

Section main.
Context {T : Type} `{!Transport T}.
Context (fs : file_system) (peer_ip : t_socket T -> option text).
Implicit Types (d : t_kernel_memory_data T).

(** [main] up to its loop; [None] is [EXIT_FAILURE].  The configuration is used
    without looking whether the file was there.  A missing SCRIPTS_BASEPATH is
    only followed when the first process is created; here it is at once. *)
Definition start_kernel_memory (argv : list text) : res (option (t_kernel_memory_data T)) :=
  match argv with
  | [_; config_path] =>
      config ← config_create fs config_path;
      config ← deref config;
      scripts_basepath ← deref (get_scripts_basepath config);
      compaction_delay ← get_compaction_delay config;
      segment_max_size ← get_segment_max_size config;
      allocation_strategy ← get_allocation_strategy config;
      Ok (Some (init_kernel_memory_data scripts_basepath compaction_delay segment_max_size
                  allocation_strategy))
  | _ => Ok None
  end.

(** ** cleanup.c *)

Definition disconnect_all_peers d : t_kernel_memory_data T :=
  set_k_scheduler (option_map socket_shutdown (k_scheduler d))
    (set_k_cpus ((fun '(id, s) => (id, socket_shutdown s)) <$> k_cpus d) d).

(** The condition of [wait_for_listener_threads]. *)
Definition listeners_done d : bool := bool_decide (active_threads (k_listeners d) <= 0).

(** ** The whole run

    [main] accepts clients until [accept_client] says otherwise, waits for the
    listeners, and frees everything.  A scheduler's listener that left the count
    before the release may still run its cleanup after it, on freed data: what
    the program does then is undefined. *)
Inductive t_phase := PH_ACCEPTING | PH_WAITING | PH_FREED | PH_USES_FREED.

#[export] Instance t_phase_eq_dec : EqDecision t_phase.
Proof. solve_decision. Defined.

(** [socket_accept]: NULL once the server socket was shut down. *)
Definition accepted d (client : t_socket T) : Prop :=
  server_up (k_listeners d) = false -> client = None.

Definition is_listener (e : t_event (T:=T)) : bool :=
  match e with EV_scheduler _ | EV_cleanup | EV_cpu _ => true | _ => false end.

Inductive main_step : option (t_event (T:=T)) ->
    t_phase * t_kernel_memory_data T -> t_phase * t_kernel_memory_data T -> Prop :=
  | ms_accept d client d' :
      accepted d client -> handshake peer_ip client d = Ok (true, d') ->
      main_step (Some (EV_client client)) (PH_ACCEPTING, d) (PH_ACCEPTING, d')
  | ms_accept_end d client d' :
      accepted d client -> handshake peer_ip client d = Ok (false, d') ->
      main_step (Some (EV_client client)) (PH_ACCEPTING, d) (PH_WAITING, disconnect_all_peers d')
  | ms_watchdog d d' :
      km_step fs peer_ip EV_watchdog d d' ->
      main_step (Some EV_watchdog) (PH_ACCEPTING, d) (PH_ACCEPTING, d')
  | ms_listener ph e d d' :
      ph = PH_ACCEPTING \/ ph = PH_WAITING -> is_listener e = true ->
      km_step fs peer_ip e d d' -> main_step (Some e) (ph, d) (ph, d')
  | ms_free d :
      listeners_done d = true -> main_step None (PH_WAITING, d) (PH_FREED, d)
  | ms_late_cleanup d :
      scheduler_cleans (k_listeners d) = true ->
      main_step (Some EV_cleanup) (PH_FREED, d) (PH_USES_FREED, free_scheduler_data d).

Definition any_step y y' : Prop := exists e, main_step e y y'.

(** A step in which no second scheduler connects. *)
Definition sole_step y y' : Prop :=
  exists e, match e with Some e => one_scheduler e y.2 | None => True end /\ main_step e y y'.

Lemma disconnect_listeners d : listeners_ok d -> listeners_ok (disconnect_all_peers d).
Proof.
  intros Hd. eapply listeners_ok_same; try done; cbn;
    [apply option_map_is_Some|by rewrite length_fmap].
Qed.

Lemma main_step_listeners e y y' :
  match e with Some e => one_scheduler e y.2 | None => True end ->
  listeners_ok y.2 -> main_step e y y' -> listeners_ok y'.2.
Proof.
  intros He Hd H. destruct H as [d c d' ? H|d c d' ? H|d d' H|ph e d d' ? ? H|d ?|d ?];
    cbn [snd] in *.
  - by eapply handshake_listeners.
  - apply disconnect_listeners. by eapply handshake_listeners.
  - by eapply km_step_listeners.
  - by eapply km_step_listeners.
  - done.
  - by apply cleanup_listeners.
Qed.
End main.

(** ** The end *)

Section shutdown.
Context (fs : file_system) (peer_ip : t_socket wire -> option text).
Implicit Types (d : t_kernel_memory_data wire) (y : t_phase * t_kernel_memory_data wire).

(** The sockets of the listeners that run are down. *)
Record disconnected d : Prop := {
  di_scheduler : scheduler_runs (k_listeners d) = true ->
    exists s, k_scheduler d = Some s /\ down s;
  di_cpus i c : cpus_run (k_listeners d) !! i = Some true -> k_cpus d !! i = Some c ->
    down c.2 }.

Definition freed (ph : t_phase) : Prop := ph = PH_FREED \/ ph = PH_USES_FREED.

(** Where a run is: after the accept loop the peers are disconnected, and once
    the data is freed no listener is in the count. *)
Definition stage y : Prop :=
  listeners_ok y.2 /\ (y.1 ≠ PH_ACCEPTING -> disconnected y.2) /\
  (freed y.1 -> active_threads (k_listeners y.2) = 0) /\
  (y.1 = PH_USES_FREED -> scheduler_cleans (k_listeners y.2) = false).

Lemma disconnect_all_peers_down d : listeners_ok d -> disconnected (disconnect_all_peers d).
Proof.
  intros [_ H2 _ _]. constructor; cbn.
  - intros Hr. destruct (H2 Hr) as [[s ->] _]. eexists. split; [done|]. apply down_shutdown.
  - intros i c _. rewrite list_lookup_fmap. intros ([id s] & _ & ->)%fmap_Some.
    apply down_shutdown.
Qed.

Lemma running_nonneg l : 0 <= running l.
Proof.
  unfold running. assert (0 <= sum_with (fun b : bool => if b then 1 else 0) (cpus_run l)).
  { apply sum_with_nonneg. apply Forall_forall. by intros []. }
  destruct (scheduler_runs l); lia.
Qed.

(** A round of a listener whose socket is down is its last one. *)
Lemma scheduler_round_down d s :
  down s -> exists sd, scheduler_round fs d s
    = Ok (set_k_listeners end_scheduler_listener (put_scheduler sd d)) /\
  processes sd = k_processes d /\ main_memory sd = k_memory d /\ swap_data sd = k_swap d.
Proof.
  intros Hs. unfold scheduler_round, listen_scheduler_step. cbn [socket_scheduler scheduler_view].
  rewrite receive_op_code_down by done. cbn [mbind res_bind].
  rewrite op_of_value_op_value. cbn [mbind res_bind]. unfold answer. sends.
  cbn [socket_scheduler set_sched]. rewrite (surjective_pairing (socket_send _ _)).
  cbn [mbind res_bind]. by eexists.
Qed.

Lemma cpu_round_down i d c :
  down c.2 -> cpu_round i d c
  = Ok (set_k_listeners (end_cpu_listener i)
          (put_cpu i (mk_cpu_data c.1 None (scheduler_socket d) (k_processes d) (k_memory d)) d)).
Proof.
  intros Hs. unfold cpu_round, listen_cpu_step. cbn [socket_cpu cpu_view].
  rewrite receive_op_code_down by done. cbn [mbind res_bind].
  by rewrite op_of_value_op_value.
Qed.

Lemma disconnected_scheduler_end sd d :
  disconnected d ->
  disconnected (set_k_listeners end_scheduler_listener (put_scheduler sd d)).
Proof. intros [H1 H2]. constructor; cbn; [done|]. exact H2. Qed.

Lemma disconnected_cpu_end i c d :
  disconnected d -> cpu_scheduler c = scheduler_socket d ->
  disconnected (set_k_listeners (end_cpu_listener i) (put_cpu i c d)).
Proof.
  intros [H1 H2] Ec. constructor; cbn.
  - intros Hr. rewrite Ec. unfold scheduler_socket.
    destruct (H1 Hr) as (s & -> & Hs). by exists s.
  - intros j c' Hj Hc. destruct (decide (i = j)) as [->|Hij].
    + by apply list_lookup_insert_Some in Hj as [(_ & [=] & _)|(? & _)].
    + rewrite list_lookup_insert_ne in Hj by done. rewrite list_lookup_insert_ne in Hc by done.
      by eapply H2.
Qed.

Lemma disconnected_cleanup d :
  listeners_ok d -> scheduler_cleans (k_listeners d) = true -> disconnected d ->
  disconnected (free_scheduler_data d).
Proof.
  intros [_ Hl _ _] Hc [H1 H2]. constructor; cbn; [|exact H2].
  intros Hr. destruct (Hl Hr) as [_ E]. congruence.
Qed.

Definition one_if (b : bool) : Z := if b then 1 else 0.

(** The steps that are left once [main] waits: each listener in the count ends,
    the scheduler's then cleans up, and the data is freed. *)
Definition steps_left y : Z :=
  let l := k_listeners y.2 in
  active_threads l + one_if (scheduler_runs l) + one_if (scheduler_cleans l)
  + match y.1 with PH_WAITING => 1 | _ => 0 end.

Lemma waiting_listener e d d' :
  stage (PH_WAITING, d) -> is_listener e = true -> km_step fs peer_ip e d d' ->
  disconnected d' /\ steps_left (PH_WAITING, d') = steps_left (PH_WAITING, d) - 1.
Proof.
  intros (Hl & Hd & _ & _) He H. specialize (Hd ltac:(done)). cbn [fst snd] in *.
  destruct H as [|d s d' Hr Hs H|d Hc|d i c d' Hr Hc H|]; try done.
  - destruct (di_scheduler _ Hd Hr) as (s' & Es & Hdn). rewrite Hs in Es. injection Es as <-.
    destruct (scheduler_round_down d s Hdn) as (sd & E & _). rewrite E in H. injection H as <-.
    split; [by apply disconnected_scheduler_end|]. unfold steps_left. cbn.
    destruct (lo_scheduler _ Hl Hr) as [_ ->]. rewrite Hr. cbn. lia.
  - split; [by apply disconnected_cleanup|]. unfold steps_left. cbn. rewrite Hc. cbn. lia.
  - pose proof (di_cpus _ Hd i c Hr Hc) as Hdn. rewrite (cpu_round_down i d c Hdn) in H.
    injection H as <-. split; [by apply disconnected_cpu_end|]. unfold steps_left. cbn. lia.
Qed.

Lemma waiting_step y y' :
  stage y -> y.1 ≠ PH_ACCEPTING -> any_step fs peer_ip y y' ->
  stage y' /\ y'.1 ≠ PH_ACCEPTING /\ steps_left y' = steps_left y - 1.
Proof.
  intros Hy Ha [e H]. destruct Hy as (Hl & Hd & Hf & _).
  assert (listeners_ok y'.2) as Hl'.
  { eapply main_step_listeners; [|done|done]. destruct H as [| | |? e| |]; try done.
    by destruct e. }
  destruct H as [| | |ph e d d' [->| ->] He H|d Hz|d Hc]; try done.
  - destruct (waiting_listener e d d') as [Hd' El]; [done..|].
    by split; [split; [done|split; [done|split; [by intros [[=]|[=]]|done]]]|].
  - unfold listeners_done in Hz. apply bool_decide_eq_true in Hz. cbn in *.
    assert (active_threads (k_listeners d) = 0).
    { pose proof (lo_active _ Hl). pose proof (running_nonneg (k_listeners d)). lia. }
    split; [split; [done|split; [by intros; apply Hd|done]]|split; [done|]].
    unfold steps_left. cbn. lia.
  - cbn in *. split; [split; [done|split]|split; [done|]].
    + intros _. apply disconnected_cleanup; auto.
    + split; [|done]. intros _. apply Hf. by left.
    + unfold steps_left. cbn. rewrite Hc. cbn. lia.
Qed.

Lemma stage_step y y' : stage y -> sole_step fs peer_ip y y' -> stage y'.
Proof.
  intros Hy (e & He & H). destruct (decide (y.1 = PH_ACCEPTING)) as [Ea|Ea];
    [|apply (waiting_step y y' Hy Ea); by exists e].
  destruct Hy as (Hl & _). pose proof (main_step_listeners _ _ _ _ _ He Hl H) as Hl'.
  destruct H as [d c d' ? H|d c d' ? H|d d' H|ph e d d' ? ? H|d ?|d ?]; cbn [fst snd] in *;
    subst; try done; (split; [done|]); cbn [fst snd]; (split; [|split; [by intros [[=]|[=]]|done]]); try done.
  intros _. apply disconnect_all_peers_down. by apply (handshake_listeners peer_ip c d false d').
Qed.

Lemma stage_reached base delay max st y :
  rtc (sole_step fs peer_ip) (PH_ACCEPTING, init_kernel_memory_data base delay max st) y ->
  stage y.
Proof.
  apply rtc_ind_r; [|intros ? ? _ ? ?; by eapply stage_step].
  split; [by apply init_listeners_ok|]. split; [done|split; [by intros [[=]|[=]]|done]].
Qed.

Lemma running_cpu (l : list bool) :
  0 < sum_with (fun b : bool => if b then 1 else 0) l -> exists i, l !! i = Some true.
Proof.
  induction l as [|[] l IH]; cbn; [done|by exists 0%nat|].
  intros H. destruct IH as [i Hi]; [lia|]. by exists (S i).
Qed.

(** While [main] waits it can go on, or a listener can. *)
Lemma waiting_progress d :
  stage (PH_WAITING, d) -> exists y', any_step fs peer_ip (PH_WAITING, d) y'.
Proof.
  intros (Hi & Hd & _). specialize (Hd ltac:(done)). cbn in Hi, Hd.
  destruct (listeners_done d) eqn:Hl; [eexists; exists None; by apply ms_free|].
  unfold listeners_done in Hl. apply bool_decide_eq_false in Hl.
  rewrite (lo_active _ Hi) in Hl. unfold running in Hl.
  destruct (scheduler_runs (k_listeners d)) eqn:Hr.
  - destruct (di_scheduler _ Hd Hr) as (s & Hs & Hdn).
    destruct (scheduler_round_down d s Hdn) as (sd & E & _).
    eexists. exists (Some (EV_scheduler s)). apply ms_listener; [by right|done|].
    by eapply km_scheduler.
  - destruct (running_cpu (cpus_run (k_listeners d))) as [i Hc]; [lia|].
    assert (is_Some (k_cpus d !! i)) as [c Ec].
    { apply lookup_lt_is_Some. rewrite <- (lo_cpus _ Hi). by eapply lookup_lt_Some. }
    eexists. exists (Some (EV_cpu i)). apply ms_listener; [by right|done|].
    eapply km_cpu; try done. apply cpu_round_down. by eapply (di_cpus _ Hd).
Qed.

Lemma waiting_steps n y y' :
  stage y -> y.1 ≠ PH_ACCEPTING -> nsteps (any_step fs peer_ip) n y y' ->
  Z.of_nat n + steps_left y' = steps_left y /\ stage y' /\ y'.1 ≠ PH_ACCEPTING.
Proof.
  intros Hy Ha H. induction H as [y|n y z y' Hyz _ IH]; [split; [lia|done]|].
  destruct (waiting_step _ _ Hy Ha Hyz) as (Hz & Haz & El).
  destruct (IH Hz Haz) as [E IH']. split; [lia|done].
Qed.

(** C22: Provided that only one scheduler connects, once [accept_client] has
    ended the loop of [main] Kernel Memory ends, however many CPUs are connected
    and whatever they were sending: every run from there is finite, each of its
    steps ends a listener, cleans up after the scheduler's or frees the data, and
    it does not stop before the data is freed, when no listener is in the count.
    The scheduler's listener leaves the count before its cleanup, so the run ends
    in one of two ways: the cleanup came before the release, or it came after it
    and used freed data.  A socket that was shut down delivers nothing more, as
    [wire] has it. *)
Theorem kernel_memory_shutdown base delay max st d :
  rtc (sole_step fs peer_ip) (PH_ACCEPTING, init_kernel_memory_data base delay max st)
    (PH_WAITING, d) ->
  (forall n y', nsteps (any_step fs peer_ip) n (PH_WAITING, d) y' ->
     Z.of_nat n + steps_left y' = steps_left (PH_WAITING, d)) /\
  (forall y', rtc (any_step fs peer_ip) (PH_WAITING, d) y' ->
     (exists y'', any_step fs peer_ip y' y'') \/
     (running (k_listeners y'.2) = 0 /\ scheduler_cleans (k_listeners y'.2) = false /\
      freed y'.1)).
Proof.
  intros Hr. pose proof (stage_reached _ _ _ _ _ Hr) as Hst.
  split; [intros n y' H; by apply (waiting_steps n (PH_WAITING, d))|].
  intros [ph d'] [n H]%rtc_nsteps.
  destruct (waiting_steps n _ _ Hst ltac:(done) H) as (_ & Hy & Ha). cbn [fst snd] in *.
  destruct ph; [done|left; by apply waiting_progress| |].
  - destruct (scheduler_cleans (k_listeners d')) eqn:Ec.
    + left. eexists. exists (Some EV_cleanup). by apply ms_late_cleanup.
    + right. destruct Hy as (Hi & _ & Hf & _). cbn in *. rewrite <- (lo_active _ Hi).
      split; [by apply Hf; left|]. split; [done|by left].
  - right. destruct Hy as (Hi & _ & Hf & Hc). cbn in *. rewrite <- (lo_active _ Hi).
    split; [by apply Hf; right|]. split; [by apply Hc|by right].
Qed.
End shutdown.

(** ** A stick that fails to join *)

Section broken_stick.
Context (peer_ip : t_socket wire -> option text).
Implicit Types (d : t_kernel_memory_data wire).

Definition reachable_stick (stick : t_stick_data wire) : Prop :=
  exists r t, socket_stick stick = Some (mk_wire r t true).

Lemma closed_stick_unreachable l stick :
  Forall reachable_stick l ->
  exists l', any_stick_unreachable (l ++ [close_stick stick]) = Ok (true, l').
Proof.
  induction 1 as [|x l (r & t & E) _ [l' IH]]; cbn [app any_stick_unreachable].
  - sends. by eexists.
  - rewrite E. sends. rewrite wire_send by apply serialize_packet_ne.
    cbn [app] in IH. rewrite IH. by eexists.
Qed.

(** A stick whose last message is not its port stays in the list with its socket
    closed, and the next pass of the watchdog tells the scheduler that memory is
    corrupted, although every stick that joined is reachable. *)
Theorem failed_stick_reports_corruption s stick d r t :
  receive_stick peer_ip s = Ok (false, stick) ->
  Forall reachable_stick (k_sticks d) -> k_already_notified d = false ->
  k_scheduler d = Some (Some (mk_wire r t true)) ->
  exists d1 d2, accept_stick peer_ip s d = Ok (true, d1) /\ k_memory d1 = k_memory d /\
    watch_sticks_step d1 = Ok d2 /\
    k_scheduler d2 = Some (Some (mk_wire r
      (t ++ frame OP_MEMORY_CORRUPTED (lit "Stick not available")) true)).
Proof.
  intros Hs Hl Hn Hk. destruct (closed_stick_unreachable _ stick Hl) as [l' E].
  unfold accept_stick. rewrite Hs. cbn [mbind res_bind].
  eexists _, _. split; [done|]. split; [done|]. unfold watch_sticks_step.
  cbn [k_sticks set_k_sticks]. rewrite E. cbn [mbind res_bind].
  unfold notify_scheduler_memory_corrupted.
  cbn [k_already_notified k_scheduler set_k_sticks]. rewrite Hn, Hk. sends.
  rewrite wire_send by apply serialize_packet_ne. done.
Qed.
End broken_stick.

(** ** Concrete runs *)

(** The scheduler joins, then an unknown client ends the loop of [main]. *)
Definition joining_scheduler : t_socket wire :=
  Some (mk_wire (frame OP_HANDSHAKE (lit "kernel_scheduler")) [] true).
Definition unknown_client : t_socket wire := Some (mk_wire [] [] true).

Definition waiting_km : t_kernel_memory_data wire :=
  disconnect_all_peers
    (set_k_scheduler (Some (Some (mk_wire [] (frame OP_HANDSHAKE (lit "kernel_memory")) true)))
       (set_k_listeners start_scheduler_listener (init_kernel_memory_data [] 0 64 1))).

Lemma kernel_memory_shutdown_witness :
  steps_left (PH_WAITING, waiting_km) = 3 /\
  (forall n y', nsteps (any_step no_scripts some_ip) n (PH_WAITING, waiting_km) y' ->
     Z.of_nat n + steps_left y' = steps_left (PH_WAITING, waiting_km)) /\
  (forall y', rtc (any_step no_scripts some_ip) (PH_WAITING, waiting_km) y' ->
     (exists y'', any_step no_scripts some_ip y' y'') \/
     (running (k_listeners y'.2) = 0 /\ scheduler_cleans (k_listeners y'.2) = false /\
      freed y'.1)).
Proof.
  split; [reflexivity|].
  apply (kernel_memory_shutdown no_scripts some_ip [] 0 64 1 waiting_km).
  eapply rtc_l; [exists (Some (EV_client joining_scheduler)); split; [done|]|].
  { apply ms_accept; [done|vm_compute; reflexivity]. }
  eapply rtc_l; [|apply rtc_refl].
  exists (Some (EV_client unknown_client)). split.
  - intros s1 E1. vm_compute in E1. discriminate.
  - apply ms_accept_end; [done|vm_compute; reflexivity].
Defined.

(** A stick that sends its size and hangs up. *)
Definition half_stick : t_socket wire :=
  Some (mk_wire (frame OP_MEMORY_SIZE (lit "128")) [] true).
Definition watched_km : t_kernel_memory_data wire :=
  set_k_scheduler (Some (Some (mk_wire [] [] true))) (init_kernel_memory_data [] 0 64 1).

Lemma failed_stick_reports_corruption_witness :
  exists d1 d2, accept_stick some_ip half_stick watched_km = Ok (true, d1) /\
    k_memory d1 = k_memory watched_km /\ watch_sticks_step d1 = Ok d2 /\
    k_scheduler d2 = Some (Some (mk_wire []
      ([] ++ frame OP_MEMORY_CORRUPTED (lit "Stick not available")) true)).
Proof.
  eapply (failed_stick_reports_corruption some_ip half_stick _ watched_km [] []).
  - vm_compute. reflexivity.
  - constructor.
  - reflexivity.
  - reflexivity.
Defined.
