(* ===== verification/Heap.v ===== *)
(** * Heap: what is allocated, and who owns it

    The other files hold the program's data by value.  Here an object is the
    addresses it was allocated at, and [malloc] and [free] change the set of the
    addresses that are allocated, so that leaks and double frees show.  A list
    is its header and, for each element, a link.  StringHeap.v,
    KmHeap.v, SchedHeap.v, CpuHeap.v and StickHeap.v do this for strings and for
    the data of the modules. *)

From S2P Require Import Prelude.

Abbreviation loc := positive (only parsing).
Abbreviation t_heap := (gset loc).

Definition malloc (h : t_heap) : loc * t_heap := let l := fresh h in (l, {[l]} ∪ h).
#[global] Arguments malloc : simpl never.

(** [free] of what is not allocated is undefined. *)
Definition free (l : loc) (h : t_heap) : res t_heap :=
  if decide (l ∈ h) then Ok (h ∖ {[l]}) else Undef Dangling.

(** ** Lists: the header, and each link with its element *)

Record t_hlist (A : Type) := mk_hlist { hl_self : loc; hl_links : list (loc * A) }.
Arguments mk_hlist {A} _ _.
Arguments hl_self {A} _.
Arguments hl_links {A} _.

Section lists.
Context {A : Type}.
Implicit Types (l : t_hlist A) (h : t_heap).

Definition list_create h : t_hlist A * t_heap :=
  let (self, h) := malloc h in (mk_hlist self [], h).

Definition list_add l (x : A) h : t_hlist A * t_heap :=
  let (link, h) := malloc h in (mk_hlist (hl_self l) (hl_links l ++ [(link, x)]), h).

(** The link at a position goes; its element is the caller's. *)
Definition list_remove l (i : nat) h : res (option A * t_hlist A * t_heap) :=
  match hl_links l !! i with
  | None => Ok (None, l, h)
  | Some (link, x) =>
      h ← free link h; Ok (Some x, mk_hlist (hl_self l) (delete i (hl_links l)), h)
  end.

Definition list_clean (element_destroyer : A -> t_heap -> res t_heap) l h : res t_heap :=
  each (fun '(link, x) h => h ← element_destroyer x h; free link h) (hl_links l) h.

Definition list_destroy l h : res t_heap :=
  h ← list_clean (fun _ h => Ok h) l h; free (hl_self l) h.
Definition list_destroy_and_destroy_elements (element_destroyer : A -> t_heap -> res t_heap) l h
    : res t_heap :=
  h ← list_clean element_destroyer l h; free (hl_self l) h.
End lists.

(** [n] allocations: the lines of a script, the blocks of a swap. *)
Fixpoint mallocs (n : nat) h : list loc * t_heap :=
  match n with
  | O => ([], h)
  | S n => let (l, h) := malloc h in let (ls, h) := mallocs n h in (l :: ls, h)
  end.

(** An allocation that may fail; a release of what may be NULL. *)
Definition malloc_if (b : bool) h : option loc * t_heap :=
  if b then let (l, h) := malloc h in (Some l, h) else (None, h).
Definition if_not_null {A} (f : A -> t_heap -> res t_heap) (p : option A) h : res t_heap :=
  match p with Some a => f a h | None => Ok h end.

(** [update_segment_list], [add_total_memory]; an element taken out and freed. *)
Definition new_element (l : t_hlist loc) h : t_hlist loc * t_heap :=
  let (x, h) := malloc h in list_add l x h.
Definition list_remove_and_destroy_element (l : t_hlist loc) (i : nat) h : res (t_hlist loc * t_heap) :=
  '(x, l, h) ← list_remove l i h;
  match x with Some x => h ← free x h; Ok (l, h) | None => Ok (l, h) end.

(** ** Ownership

    [own h0 O h]: besides [h0] exactly the addresses [O] are allocated, each
    once. *)

Definition own (h0 : t_heap) (O : list loc) (h : t_heap) : Prop :=
  NoDup O /\ (forall l, l ∈ O -> l ∉ h0) /\ h = h0 ∪ list_to_set O.

#[export] Instance own_perm h0 : Proper ((≡ₚ) ==> eq ==> iff) (own h0).
Proof.
  intros O O' HO h ? <-. unfold own.
  rewrite HO. split; intros (H1 & H2 & H3); (split_and!; [done| |done]); intros l Hl; apply H2;
    [by rewrite HO|by rewrite <- HO].
Qed.

Lemma own_reorder O' h0 O h : O ≡ₚ O' -> own h0 O h -> own h0 O' h.
Proof. intros E H. by rewrite <- E. Qed.

(** Freeing exactly these. *)
Definition releases (op : t_heap -> res t_heap) (fp : list loc) : Prop :=
  forall h0 O h, own h0 (fp ++ O) h -> exists h', op h = Ok h' /\ own h0 O h'.

(** Allocating exactly these. *)
Definition allocates {X} (op : t_heap -> X * t_heap) (fp : X -> list loc) : Prop :=
  forall h0 O h, own h0 O h -> own h0 (fp (op h).1 ++ O) (op h).2.

Lemma free_releases l : releases (free l) [l].
Proof.
  intros h0 O h (H1 & H2 & ->). apply NoDup_cons in H1 as [Hl HO].
  exists (h0 ∪ list_to_set O). unfold free. rewrite decide_True by set_solver.
  split; [|split_and!; [done|intros x Hx; apply H2; by right|done]].
  f_equal. specialize (H2 l ltac:(by left)). set_solver.
Qed.

Lemma malloc_allocates : allocates malloc (fun l => [l]).
Proof.
  intros h0 O h (H1 & H2 & ->). unfold malloc. cbn.
  pose proof (is_fresh (h0 ∪ list_to_set O)) as Hf. set (l := fresh _) in *. clearbody l.
  rewrite not_elem_of_union, elem_of_list_to_set in Hf. destruct Hf as [Hf1 Hf2].
  split_and!; [by constructor| |set_solver].
  intros x [->|Hx]%elem_of_cons; [done|by apply H2].
Qed.

Lemma releases_nothing : releases (fun h => Ok h) [].
Proof. intros h0 O h H. by exists h. Qed.

Lemma releases_bind op1 op2 fp1 fp2 :
  releases op1 fp1 -> releases op2 fp2 ->
  releases (fun h => h ← op1 h; op2 h) (fp1 ++ fp2).
Proof.
  intros H1 H2 h0 O h Hh. rewrite <- app_assoc in Hh.
  destruct (H1 _ _ _ Hh) as (h1 & -> & Hh1). destruct (H2 _ _ _ Hh1) as (h2 & E & Hh2).
  exists h2. by cbn.
Qed.

Lemma releases_perm op fp fp' : releases op fp -> fp ≡ₚ fp' -> releases op fp'.
Proof. intros H E h0 O h Hh. apply H. by rewrite E. Qed.

Lemma releases_each {A} (f : A -> t_heap -> res t_heap) (fp : A -> list loc) l :
  (forall x, x ∈ l -> releases (f x) (fp x)) -> releases (each f l) (concat (fp <$> l)).
Proof.
  induction l as [|x l IH]; intros H; [apply releases_nothing|].
  apply (releases_bind (f x) (each f l)); [by apply H; left|].
  apply IH. intros y Hy. apply H. by right.
Qed.

(** The addresses of a list whose elements are at [fp], and of what may be NULL. *)
Definition fp_hlist {A} (fp : A -> list loc) (l : t_hlist A) : list loc :=
  hl_self l :: concat ((fun '(link, x) => link :: fp x) <$> hl_links l).

Definition fp_option {A} (fp : A -> list loc) (o : option A) : list loc :=
  match o with Some x => fp x | None => [] end.

(** ** What is freed *)

Lemma free_then_releases l (op : t_heap -> res t_heap) fp :
  releases op fp -> releases (fun h => h ← free l h; op h) (l :: fp).
Proof. apply (releases_bind (free l) op [l] fp), free_releases. Qed.

Lemma concat_perm {A} (f g : A -> list loc) l :
  (forall x, f x ≡ₚ g x) -> concat (f <$> l) ≡ₚ concat (g <$> l).
Proof. intros H. induction l as [|x l IH]; [done|]. cbn. by rewrite H, IH. Qed.

Lemma list_destroy_elements_releases {A} (f : A -> t_heap -> res t_heap) fp (l : t_hlist A) :
  (forall x, x ∈ (hl_links l).*2 -> releases (f x) (fp x)) ->
  releases (list_destroy_and_destroy_elements f l) (fp_hlist fp l).
Proof.
  intros H. unfold fp_hlist. eapply releases_perm.
  - apply releases_bind; [|apply free_releases].
    apply (releases_each _ (fun '(link, x) => fp x ++ [link])). intros [link x] Hx.
    apply (releases_bind (f x) (free link)); [|apply free_releases].
    apply H. apply list_elem_of_fmap. by exists (link, x).
  - rewrite <- Permutation_cons_append. f_equiv. apply concat_perm. intros [link x].
    by rewrite <- Permutation_cons_append.
Qed.

Lemma list_destroy_releases {A} (l : t_hlist A) :
  releases (list_destroy l) (hl_self l :: (hl_links l).*1).
Proof.
  eapply releases_perm; [apply (list_destroy_elements_releases _ (fun _ => []));
    intros; apply releases_nothing|].
  unfold fp_hlist. f_equiv. induction (hl_links l) as [|[link x] L IH]; [done|]. cbn.
  by rewrite IH.
Qed.

Lemma frees_releases ls : releases (each free ls) ls.
Proof.
  eapply releases_perm; [apply (releases_each free (fun l => [l])); intros; apply free_releases|].
  induction ls; [done|]. cbn. by f_equiv.
Qed.

Lemma list_of_frees_releases (l : t_hlist loc) :
  releases (list_destroy_and_destroy_elements free l) (fp_hlist (fun x => [x]) l).
Proof. apply list_destroy_elements_releases. intros. apply free_releases. Qed.

(** The elements first, then the list. *)
Lemma elements_then_list {A} (f : A -> t_heap -> res t_heap) fp (l : t_hlist A) :
  (forall x, x ∈ (hl_links l).*2 -> releases (f x) (fp x)) ->
  releases (fun h => h ← each (fun '(_, x) => f x) (hl_links l) h; list_destroy l h)
    (fp_hlist fp l).
Proof.
  intros H. eapply releases_perm.
  - apply releases_bind; [|apply list_destroy_releases].
    apply (releases_each _ (fun '(_, x) => fp x)). intros [link x] Hx. apply H.
    apply list_elem_of_fmap. by exists (link, x).
  - unfold fp_hlist. rewrite <- Permutation_middle. f_equiv. clear.
    induction (hl_links l) as [|[link x] L IH]; [done|]. cbn. rewrite <- IH. solve_Permutation.
Qed.

(** ** What is allocated *)

Lemma list_create_allocates {A} (fp : A -> list loc) :
  allocates list_create (fp_hlist fp).
Proof.
  intros h0 O h Hh. unfold list_create. pose proof (malloc_allocates _ _ _ Hh) as H.
  destruct (malloc h) as [l h1]. exact H.
Qed.

Lemma list_add_owns {A} (fp : A -> list loc) l x h0 O h :
  own h0 (fp x ++ fp_hlist fp l ++ O) h ->
  own h0 (fp_hlist fp (list_add l x h).1 ++ O) (list_add l x h).2.
Proof.
  intros Hh. unfold list_add. pose proof (malloc_allocates _ _ _ Hh) as H.
  destruct (malloc h) as [link h1]. cbn in *. eapply own_perm; [|done|exact H].
  unfold fp_hlist. cbn. rewrite fmap_app, concat_app. cbn. rewrite app_nil_r. solve_Permutation.
Qed.

Lemma list_remove_owns {A} (fp : A -> list loc) l i link x h0 O h :
  hl_links l !! i = Some (link, x) -> own h0 (fp_hlist fp l ++ O) h ->
  exists l' h', list_remove l i h = Ok (Some x, l', h') /\
    hl_links l' = delete i (hl_links l) /\ own h0 (fp x ++ fp_hlist fp l' ++ O) h'.
Proof.
  intros Hi Hh. unfold list_remove. rewrite Hi.
  assert (own h0 (link :: fp x ++ fp_hlist fp (mk_hlist (hl_self l) (delete i (hl_links l))) ++ O) h)
    as Hh'.
  { eapply own_perm; [|done|exact Hh]. unfold fp_hlist. cbn.
    rewrite (delete_Permutation (hl_links l) i _ Hi) at 2. cbn. solve_Permutation. }
  destruct (free_releases link _ _ _ Hh') as (h' & -> & Hown). cbn. eauto 6.
Qed.

Lemma mallocs_allocates n : allocates (mallocs n) id.
Proof.
  induction n as [|n IH]; intros h0 O h Hh; [done|]. cbn.
  pose proof (malloc_allocates _ _ _ Hh) as H. destruct (malloc h) as [l h1]. cbn in H.
  pose proof (IH _ _ _ H) as H'. destruct (mallocs n h1) as [ls h2]. cbn in *.
  eapply own_perm; [|done|exact H']. solve_Permutation.
Qed.

Lemma length_mallocs n h : length (mallocs n h).1 = n.
Proof.
  revert h. induction n as [|n IH]; intros h; [done|]. cbn. destruct (malloc h) as [l h1].
  specialize (IH h1). destruct (mallocs n h1). cbn in *. by f_equal.
Qed.

(** [H] owns what an allocation in the goal starts from: do it. *)
Tactic Notation "allocate" hyp(H) :=
  match type of H with own _ _ ?h => apply malloc_allocates in H; destruct (malloc h) as [? ?] end;
  cbn [fst snd] in H.
Tactic Notation "allocate" hyp(H) "as" ident(l) :=
  match type of H with own _ _ ?h => apply malloc_allocates in H; destruct (malloc h) as [l ?] end;
  cbn [fst snd] in H.
Ltac allocate_list fp H :=
  match type of H with
  | own _ _ ?h =>
      match goal with |- context [list_create (A := ?A) h] =>
        apply (list_create_allocates (A := A) fp) in H; destruct (list_create (A := A) h) as [? ?]
      end
  end; cbn [fst snd] in H.

(** A connection that is turned away. *)
Lemma turned_away h0 O h :
  own h0 O h -> exists h', free (malloc h).1 (malloc h).2 = Ok h' /\ own h0 O h'.
Proof. intros H. apply malloc_allocates in H. exact (free_releases _ _ _ _ H). Qed.

Lemma malloc_eq h : malloc h = ((malloc h).1, (malloc h).2).
Proof. by destruct (malloc h). Qed.

Lemma new_element_owns l h0 O h :
  own h0 (fp_hlist (fun x => [x]) l ++ O) h ->
  own h0 (fp_hlist (fun x => [x]) (new_element l h).1 ++ O) (new_element l h).2.
Proof.
  intros H. unfold new_element. allocate H. by apply (list_add_owns (fun x => [x])) in H.
Qed.

Lemma removed_element_owns l i h0 O h :
  own h0 (fp_hlist (fun x => [x]) l ++ O) h ->
  exists l' h', list_remove_and_destroy_element l i h = Ok (l', h') /\
    own h0 (fp_hlist (fun x => [x]) l' ++ O) h'.
Proof.
  intros H. unfold list_remove_and_destroy_element.
  destruct (hl_links l !! i) as [[link x]|] eqn:E.
  - destruct (list_remove_owns _ _ _ _ _ _ _ _ E H) as (l' & h' & -> & _ & H').
    destruct (free_releases _ _ _ _ H') as (h2 & E2 & H2). cbn. rewrite E2. by do 2 eexists.
  - unfold list_remove. rewrite E. by do 2 eexists.
Qed.

Lemma list_add_then_remove {A} (fp : A -> list loc) l x h0 O h :
  own h0 (fp x ++ fp_hlist fp l ++ O) h ->
  exists l' h', list_remove (list_add l x h).1 (length (hl_links l)) (list_add l x h).2
      = Ok (Some x, l', h') /\ own h0 (fp x ++ fp_hlist fp l' ++ O) h'.
Proof.
  intros Hh. assert (hl_links (list_add l x h).1 !! length (hl_links l) = Some ((malloc h).1, x)) as E.
  { unfold list_add. destruct (malloc h). cbn. by apply list_lookup_middle. }
  apply (list_add_owns fp) in Hh.
  destruct (list_remove_owns _ _ _ _ _ _ _ _ E Hh) as (l' & h' & E' & _ & H'). by exists l', h'.
Qed.

Definition fp_address (l : loc) : list loc := [l].

Lemma malloc_if_owns b h0 O h :
  own h0 O h -> own h0 (fp_option fp_address (malloc_if b h).1 ++ O) (malloc_if b h).2.
Proof. intros H. destruct b; cbn [malloc_if]; [|done]. by allocate H as l. Qed.

Lemma if_not_null_releases {A} (f : A -> t_heap -> res t_heap) fp o :
  (forall x, releases (f x) (fp x)) -> releases (if_not_null f o) (fp_option fp o).
Proof. intros H. destruct o; [apply H|apply releases_nothing]. Qed.

Lemma free_if_releases o : releases (if_not_null free o) (fp_option fp_address o).
Proof. apply if_not_null_releases, free_releases. Qed.
