(* ===== verification/StringHeap.v ===== *)
(** * StringHeap: utils/src/utils/string.c and config.c with their memory

    Text.v has these functions on values: a text is its bytes, an array of
    strings the list of them.  Here a string is allocated, an array is cells that
    end with NULL and grow by [realloc], and trimming replaces a string.  The
    contents are those of Text.v.  An array is freed whole; a configuration too,
    but for the values that a repeated key replaced. *)

From Stdlib Require Import Strings.Byte Strings.String.
From S2P Require Import Prelude Bytes Text Heap.

(** An allocated string: where it is and what it holds. *)
Record o_string := mk_o_string { str_self : loc; str_text : text }.

(** A cell of an array: [None] if it was never written, [Some None] for NULL. *)
Record o_array := mk_o_array { ar_self : loc; ar_cells : list (option (option o_string)) }.

(** [strdup] and the like. *)
Definition new_string (t : text) h : o_string * t_heap :=
  let (self, h) := malloc h in (mk_o_string self t, h).
Definition free_string (s : o_string) h : res t_heap := free (str_self s) h.

(** ** string.c *)

Definition string_duplicate (original : option text) h : option o_string * t_heap :=
  match original with
  | None => (None, h)
  | Some t => let (s, h) := new_string t h in (Some s, h)
  end.

Definition string_trim (s : o_string) h : res (o_string * t_heap) :=
  let (trimmed, h) := new_string (Text.string_trim (str_text s)) h in
  h ← free_string s h; Ok (trimmed, h).

Definition string_array_new h : o_array * t_heap :=
  let (self, h) := malloc h in (mk_o_array self [Some None], h).

Fixpoint size_loop (cells : list (option (option o_string))) : res nat :=
  match cells with
  | [] => Undef OutOfBounds
  | None :: _ => Undef Indeterminate
  | Some None :: _ => Ok 0%nat
  | Some (Some _) :: rest => n ← size_loop rest; Ok (S n)
  end.
Definition string_array_size (array : o_array) : res nat := size_loop (ar_cells array).

Fixpoint destroy_loop (cells : list (option (option o_string))) h : res t_heap :=
  match cells with
  | [] => Undef OutOfBounds
  | None :: _ => Undef Indeterminate
  | Some None :: _ => Ok h
  | Some (Some s) :: rest => h ← free_string s h; destroy_loop rest h
  end.
Definition string_array_destroy (array : o_array) h : res t_heap :=
  h ← destroy_loop (ar_cells array) h; free (ar_self array) h.

(** Writing a cell. *)
Definition set_cell (i : nat) (s : option o_string) (cells : list (option (option o_string)))
    : res (list (option (option o_string))) :=
  if decide (i < length cells)%nat then Ok (<[i := Some s]> cells) else Undef OutOfBounds.

(** [realloc] keeps the cells that fit; the new ones are not written. *)
Definition string_array_push (array : o_array) (value : o_string) (size : nat) h
    : res (o_array * t_heap) :=
  h ← free (ar_self array) h;
  let (self, h) := malloc h in
  cells ← set_cell size (Some value) (resize (size + 2) None (ar_cells array));
  cells ← set_cell (size + 1) None cells;
  Ok (mk_o_array self cells, h).

Fixpoint split_loop (fuel : nat) (start separator : text) (substrings : o_array) (size : nat) h
    : res (o_array * t_heap) :=
  match fuel with
  | O => Undef OutOfFuel
  | S fuel =>
      match strstr start separator with
      | None =>
          let (last, h) := new_string start h in string_array_push substrings last size h
      | Some (token, match_) =>
          let (token, h) := new_string token h in
          '(substrings, h) ← string_array_push substrings token size h;
          split_loop fuel (drop (length separator) match_) separator substrings (S size) h
      end
  end.
Definition string_split (t separator : text) h : res (o_array * t_heap) :=
  let (substrings, h) := string_array_new h in
  split_loop (S (length t)) t separator substrings 0 h.

(** Each string until NULL is trimmed. *)
Fixpoint trim_loop (cells : list (option (option o_string))) h
    : res (list (option (option o_string)) * t_heap) :=
  match cells with
  | [] => Undef OutOfBounds
  | None :: _ => Undef Indeterminate
  | Some None :: rest => Ok (cells, h)
  | Some (Some s) :: rest =>
      '(s, h) ← string_trim s h;
      '(rest, h) ← trim_loop rest h; Ok (Some (Some s) :: rest, h)
  end.

Definition string_get_string_as_array (t : option text) h : res (o_array * t_heap) :=
  match t with
  | None => Ok (string_array_new h)
  | Some t =>
      let len := l_size t in
      let inner_length := if decide (2 <= len) then len - 2 else 0 in
      if decide (inner_length = 0) then Ok (string_array_new h) else
      let (inner, h) := new_string (take (Z.to_nat inner_length) (drop 1 t)) h in
      '(values, h) ← string_split (str_text inner) [x2c] h;
      '(cells, h) ← trim_loop (ar_cells values) h;
      h ← free_string inner h; Ok (mk_o_array (ar_self values) cells, h)
  end.

(** ** config.c *)

(** An element of the dictionary: its address, its key and its value. *)
Record o_entry := mk_o_entry { en_self : loc; en_key : o_string; en_value : o_string }.
Record o_config := mk_o_config {
  cf_self : loc; cf_path : o_string; cf_dictionary : loc; cf_elements : loc;
  cf_entries : list o_entry }.

(** [dictionary_put]: a key that is there gets the new value; the old one is not
    freed.  The elements are those of all the chains (Dictionary.v has the
    chains). *)
Fixpoint replace_value (key : text) (value : o_string) (entries : list o_entry)
    : option (list o_entry) :=
  match entries with
  | [] => None
  | e :: rest =>
      if decide (str_text (en_key e) = key) then Some (mk_o_entry (en_self e) (en_key e) value :: rest)
      else l ← replace_value key value rest; Some (e :: l)
  end.
Definition dictionary_put (key : text) (value : o_string) (entries : list o_entry) h
    : list o_entry * t_heap :=
  match replace_value key value entries with
  | Some l => (l, h)
  | None =>
      let (element, h) := malloc h in
      let (key, h) := new_string key h in (mk_o_entry element key value :: entries, h)
  end.

Definition config_load_line (line : text) (y : list o_entry * t_heap)
    : res (list o_entry * t_heap) :=
  let '(entries, h) := y in
  let (trimmed, h) := new_string line h in
  '(trimmed, h) ← string_trim trimmed h;
  if string_is_empty (Some (str_text trimmed)) || string_starts_with (str_text trimmed) (txt "#")
  then h ← free_string trimmed h; Ok (entries, h) else
  match strchr (str_text trimmed) x3d with
  | None => h ← free_string trimmed h; Ok (entries, h)
  | Some (before, after) =>
      let (key, h) := new_string before h in
      let (value, h) := new_string after h in
      '(key, h) ← string_trim key h;
      '(value, h) ← string_trim value h;
      let (entries, h) := dictionary_put (str_text key) value entries h in
      h ← free_string key h; h ← free_string trimmed h; Ok (entries, h)
  end.

(** One round of [config_create]: the line is [file_read_line]'s and is freed. *)
Definition config_round (line : text) (y : list o_entry * t_heap) : res (list o_entry * t_heap) :=
  let '(entries, h) := y in
  let (line, h) := new_string line h in
  '(entries, h) ← config_load_line (str_text line) (entries, h);
  h ← free_string line h; Ok (entries, h).

(** [lines] are the file's, if it can be opened; at its end [file_read_line]
    frees the buffer it had allocated. *)
Definition config_create (path : text) (lines : option (list text)) h
    : res (option o_config * t_heap) :=
  match lines with
  | None => Ok (None, h)
  | Some lines =>
      let (self, h) := malloc h in
      let (path, h) := new_string path h in
      let (dictionary, h) := malloc h in
      let (elements, h) := malloc h in
      '(entries, h) ← each config_round lines ([], h);
      let (line, h) := malloc h in
      h ← free line h;
      Ok (Some (mk_o_config self path dictionary elements entries), h)
  end.

Fixpoint dictionary_get (key : text) (entries : list o_entry) : option text :=
  match entries with
  | [] => None
  | e :: rest =>
      if decide (str_text (en_key e) = key) then Some (str_text (en_value e))
      else dictionary_get key rest
  end.
Definition config_get_string_value (c : o_config) (key : text) : option text :=
  dictionary_get key (cf_entries c).
Definition config_get_int_value (c : o_config) (key : text) : res Z :=
  value ← deref (config_get_string_value c key); atoi value.

Definition destroy_entry (e : o_entry) h : res t_heap :=
  h ← free_string (en_value e) h; h ← free_string (en_key e) h; free (en_self e) h.
Definition config_destroy (config : o_config) h : res t_heap :=
  h ← each destroy_entry (cf_entries config) h;
  h ← free (cf_elements config) h; h ← free (cf_dictionary config) h;
  h ← free_string (cf_path config) h; free (cf_self config) h.

(** ** What is owned *)

Definition fp_string (s : o_string) : list loc := [str_self s].
Definition fp_cell (c : option (option o_string)) : list loc :=
  match c with Some (Some s) => fp_string s | _ => [] end.
Definition fp_array (a : o_array) : list loc := ar_self a :: concat (fp_cell <$> ar_cells a).

(** An array of these strings: a cell for each, then NULL. *)
Definition cells_of (ss : list o_string) : list (option (option o_string)) :=
  ((fun s => Some (Some s)) <$> ss) ++ [Some None].

Lemma cells_of_cons s ss : cells_of (s :: ss) = Some (Some s) :: cells_of ss.
Proof. done. Qed.

Lemma fp_cells_of ss : concat (fp_cell <$> cells_of ss) = str_self <$> ss.
Proof. unfold cells_of. induction ss as [|s ss IH]; [done|]. cbn in *. by rewrite IH. Qed.

Lemma new_string_owns t h0 O h :
  own h0 O h ->
  str_text (new_string t h).1 = t /\
  own h0 (fp_string (new_string t h).1 ++ O) (new_string t h).2.
Proof. intros H. unfold new_string. by allocate H. Qed.

Lemma string_trim_owns s h0 O h :
  own h0 (fp_string s ++ O) h ->
  exists s' h', string_trim s h = Ok (s', h') /\ str_text s' = Text.string_trim (str_text s) /\
    own h0 (fp_string s' ++ O) h'.
Proof.
  intros H. unfold string_trim.
  destruct (new_string_owns (Text.string_trim (str_text s)) _ _ _ H) as [Et H'].
  destruct (new_string _ h) as [s' h1]. cbn in *.
  assert (own h0 (str_self s :: str_self s' :: O) h1) as H2
    by (eapply own_perm; [|done|exact H']; solve_Permutation).
  destruct (free_releases _ _ _ _ H2) as (h' & E & H3).
  unfold free_string. rewrite E. by exists s', h'.
Qed.

(** ** Arrays of strings *)

Lemma string_array_push_owns a ss v h0 O h :
  ar_cells a = cells_of ss -> own h0 (fp_string v ++ fp_array a ++ O) h ->
  exists a' h', string_array_push a v (length ss) h = Ok (a', h') /\
    ar_cells a' = cells_of (ss ++ [v]) /\ own h0 (fp_array a' ++ O) h'.
Proof.
  intros Ea H. unfold fp_array in H. rewrite Ea, fp_cells_of in H.
  assert (own h0 (ar_self a :: str_self v :: (str_self <$> ss) ++ O) h) as H1
    by (eapply own_perm; [|done|exact H]; cbn; solve_Permutation).
  destruct (free_releases _ _ _ _ H1) as (h1 & E & H2).
  unfold string_array_push. rewrite E. cbn [mbind res_bind]. allocate H2 as self.
  assert (resize (length ss + 2) None (ar_cells a) = cells_of ss ++ [None]) as ->.
  { rewrite Ea, resize_ge; unfold cells_of; rewrite length_app, length_fmap; cbn; [|lia].
    by replace (length ss + 2 - (length ss + 1))%nat with 1%nat by lia. }
  unfold cells_of, set_cell. rewrite <- app_assoc. cbn [app].
  rewrite decide_True by (rewrite length_app, length_fmap; cbn; lia). cbn [mbind res_bind].
  rewrite decide_True by (rewrite length_insert, length_app, length_fmap; cbn; lia).
  cbn [mbind res_bind].
  rewrite <- (length_fmap (fun s => Some (Some s)) ss), insert_app_r_alt, insert_app_r_alt by lia.
  rewrite Nat.sub_diag, Nat.add_comm, Nat.add_sub. cbn.
  do 2 eexists. split_and!; [done|cbn; by rewrite fmap_app, <- app_assoc|].
  eapply own_perm; [|done|exact H2]. unfold fp_array. cbn.
  rewrite fmap_app, concat_app. cbn.
  pose proof (fp_cells_of ss) as Ec. unfold cells_of in Ec.
  rewrite fmap_app, concat_app in Ec. cbn in Ec. rewrite app_nil_r in Ec. rewrite Ec.
  solve_Permutation.
Qed.

Lemma string_array_new_owns h0 O h :
  own h0 O h -> own h0 (fp_array (string_array_new h).1 ++ O) (string_array_new h).2.
Proof. intros H. unfold string_array_new. by allocate H. Qed.

Lemma split_loop_owns fuel t sep a ss h0 O h pieces :
  ar_cells a = cells_of ss -> own h0 (fp_array a ++ O) h ->
  Text.split_loop fuel t sep = Ok pieces ->
  exists a' h' ss', split_loop fuel t sep a (length ss) h = Ok (a', h') /\
    ar_cells a' = cells_of (ss ++ ss') /\ str_text <$> ss' = pieces /\
    own h0 (fp_array a' ++ O) h'.
Proof.
  revert t a ss h pieces. induction fuel as [|fuel IH]; intros t a ss h pieces Ea H Et; [done|].
  cbn [Text.split_loop] in Et. cbn [split_loop].
  destruct (strstr t sep) as [[token m]|].
  - inv_bind Et as rest Er. injection Et as <-.
    destruct (new_string_owns token _ _ _ H) as [Es H1].
    destruct (new_string token h) as [s h1]. cbn in Es, H1.
    destruct (string_array_push_owns _ _ _ _ _ _ Ea H1) as (a1 & h2 & -> & Ea1 & H2).
    cbn [mbind res_bind].
    destruct (IH _ _ _ _ _ Ea1 H2 Er) as (a' & h' & ss' & E & Ea' & <- & H').
    rewrite length_app, Nat.add_1_r in E. rewrite E.
    exists a', h', (s :: ss'). rewrite <- app_assoc in Ea'. cbn. by rewrite Es.
  - injection Et as <-. destruct (new_string_owns t _ _ _ H) as [Es H1].
    destruct (new_string t h) as [s h1]. cbn in Es, H1.
    destruct (string_array_push_owns _ _ _ _ _ _ Ea H1) as (a1 & h2 & -> & Ea1 & H2).
    exists a1, h2, [s]. cbn. by rewrite Es.
Qed.

Lemma string_split_owns t sep h0 O h pieces :
  own h0 O h -> Text.string_split t sep = Ok pieces ->
  exists a h' ss, string_split t sep h = Ok (a, h') /\ ar_cells a = cells_of ss /\
    str_text <$> ss = pieces /\ own h0 (fp_array a ++ O) h'.
Proof.
  intros H Et. apply string_array_new_owns in H as H1. unfold string_split.
  destruct (string_array_new h) as [a h1] eqn:E. cbn in H1.
  destruct (split_loop_owns _ _ _ a [] _ _ _ _ ltac:(by injection E as <- _) H1 Et)
    as (a' & h' & ss & E' & H'). by exists a', h', ss.
Qed.

Lemma trim_loop_owns ss h0 O h :
  own h0 ((str_self <$> ss) ++ O) h ->
  exists ss' h', trim_loop (cells_of ss) h = Ok (cells_of ss', h') /\
    str_text <$> ss' = Text.string_trim ∘ str_text <$> ss /\
    own h0 ((str_self <$> ss') ++ O) h'.
Proof.
  revert O h. induction ss as [|s ss IH]; intros O h H; [by exists [], h|].
  rewrite cells_of_cons. cbn [trim_loop].
  destruct (string_trim_owns s _ _ _ H) as (s' & h1 & -> & Es & H1). cbn [mbind res_bind].
  destruct (IH (str_self s' :: O) h1) as (ss' & h' & -> & Ess & H').
  { eapply own_perm; [|done|exact H1]. solve_Permutation. }
  exists (s' :: ss'), h'. cbn. rewrite Es, Ess. split_and!; [done|done|].
  eapply own_perm; [|done|exact H']. solve_Permutation.
Qed.

Lemma string_array_destroy_releases a ss :
  ar_cells a = cells_of ss -> releases (string_array_destroy a) (fp_array a).
Proof.
  intros Ea. eapply releases_perm.
  - apply (releases_bind (destroy_loop (ar_cells a)) _ (str_self <$> ss)); [|apply free_releases].
    rewrite Ea. clear. induction ss as [|s ss IH]; [apply releases_nothing|].
    apply (free_then_releases (str_self s) (destroy_loop (cells_of ss))), IH.
  - unfold fp_array. rewrite Ea, fp_cells_of. solve_Permutation.
Qed.

Lemma string_array_size_of ss a :
  ar_cells a = cells_of ss -> string_array_size a = Ok (length ss).
Proof.
  unfold string_array_size. intros ->. induction ss as [|s ss IH]; [done|].
  rewrite cells_of_cons. cbn. by rewrite IH.
Qed.

(** [string_get_string_as_array] gives the strings of Text.v in an array that ends
    with NULL, has that many of them, and can be freed whole. *)
Theorem string_array_refines t h0 O h :
  own h0 O h ->
  exists a h' ss, string_get_string_as_array t h = Ok (a, h') /\
    Text.string_get_string_as_array t = Ok (str_text <$> ss) /\
    ar_cells a = cells_of ss /\ string_array_size a = Ok (length ss) /\
    own h0 (fp_array a ++ O) h' /\
    exists h'', string_array_destroy a h' = Ok h'' /\ own h0 O h''.
Proof.
  intros H. cut (exists a h' ss, string_get_string_as_array t h = Ok (a, h') /\
    Text.string_get_string_as_array t = Ok (str_text <$> ss) /\
    ar_cells a = cells_of ss /\ own h0 (fp_array a ++ O) h').
  { intros (a & h' & ss & E & Et & Ea & H'). exists a, h', ss.
    split_and!; [done|done|done|by apply string_array_size_of|done|].
    exact (string_array_destroy_releases _ _ Ea _ _ _ H'). }
  assert (forall u, Ok (string_array_new h) = u -> exists a h' ss, u = Ok (a, h') /\
    Ok [] = Ok (str_text <$> ss) /\ ar_cells a = cells_of ss /\
    own h0 (fp_array a ++ O) h') as Hnew.
  { intros u <-. exists (string_array_new h).1, (string_array_new h).2, [].
    split_and!; [by destruct (string_array_new h)|done|done|by apply string_array_new_owns]. }
  unfold string_get_string_as_array, Text.string_get_string_as_array.
  destruct t as [t|]; [|by apply Hnew]. cbv zeta.
  destruct (decide (_ = 0)) as [|_]; [by apply Hnew|]. clear Hnew. set (inner := take _ _).
  destruct (new_string_owns inner _ _ _ H) as [Ei H1].
  destruct (new_string inner h) as [si h1]. cbn in Ei, H1. rewrite Ei.
  destruct (split_loop_spec (S (length inner)) inner [x2c]) as (pieces & Ep & _ & _); [done|lia|].
  change (Text.split_loop _ inner [x2c]) with (Text.string_split inner [x2c]) in Ep. rewrite Ep.
  destruct (string_split_owns _ _ _ _ _ _ H1 Ep) as (a & h2 & ss & -> & Ea & <- & H2).
  cbn [mbind res_bind]. rewrite Ea. unfold fp_array in H2. rewrite Ea, fp_cells_of in H2.
  destruct (trim_loop_owns ss h0 (ar_self a :: str_self si :: O) h2) as (ss' & h3 & -> & Ess & H3).
  { eapply own_perm; [|done|exact H2]. cbn. solve_Permutation. }
  cbn [mbind res_bind]. destruct (free_releases (str_self si) h0 (fp_array
    (mk_o_array (ar_self a) (cells_of ss')) ++ O) h3) as (h4 & E4 & H4).
  { eapply own_perm; [|done|exact H3]. unfold fp_array. cbn [ar_self ar_cells].
    rewrite fp_cells_of. cbn. solve_Permutation. }
  unfold free_string. rewrite E4. cbn [mbind res_bind].
  do 2 eexists. exists ss'. split_and!; [done| |done|done].
  rewrite Ess. by rewrite list_fmap_compose.
Qed.

(** ** Configurations *)

Definition fp_entry (e : o_entry) : list loc :=
  [str_self (en_value e); str_self (en_key e); en_self e].
Definition fp_entries (entries : list o_entry) : list loc := concat (fp_entry <$> entries).

(** The properties the elements hold. *)
Definition entry_binding (e : o_entry) : text * text :=
  (str_text (en_key e), str_text (en_value e)).
Definition entries_hold (entries : list o_entry) (m : t_properties) : Prop :=
  NoDup (entry_binding <$> entries).*1 /\ list_to_map (entry_binding <$> entries) = m.

(** The line is an assignment: [config_load_line] puts a value. *)
Definition assigns (line : text) : bool :=
  let trimmed := Text.string_trim line in
  negb (string_is_empty (Some trimmed) || string_starts_with trimmed (txt "#")) &&
  bool_decide (is_Some (strchr trimmed x3d)).

Lemma replace_value_Some key v entries l :
  replace_value key v entries = Some l ->
  (entry_binding <$> l).*1 = (entry_binding <$> entries).*1 /\ length l = length entries /\
  (NoDup (entry_binding <$> entries).*1 -> list_to_map (M := t_properties) (entry_binding <$> l)
    = <[key := str_text v]> (list_to_map (entry_binding <$> entries))) /\
  exists old, fp_string v ++ fp_entries entries ≡ₚ old :: fp_entries l.
Proof.
  revert l. induction entries as [|e entries IH]; intros l; cbn [replace_value]; [done|].
  case_decide as Ek.
  - intros [= <-]. unfold fp_entries. cbn. rewrite Ek. split_and!; [done|done| |].
    + intros _. symmetry. apply insert_insert_eq.
    + exists (str_self (en_value e)). solve_Permutation.
  - destruct (replace_value key v entries) as [l'|]; [|done]. cbn. intros [= <-].
    destruct (IH l' eq_refl) as (Hk & Hl & Hm & old & Hp). unfold fp_entries in *. cbn. rewrite Hk, Hl.
    split_and!; [done|done| |].
    + intros [_ Hn]%NoDup_cons. rewrite (Hm Hn). by apply insert_insert_ne.
    + exists old. cbn in Hp. trans (fp_entry e ++ str_self v :: concat (fp_entry <$> entries));
        [cbn; solve_Permutation|]. rewrite Hp. cbn. solve_Permutation.
Qed.

Lemma replace_value_None key v entries :
  replace_value key v entries = None -> key ∉ (entry_binding <$> entries).*1.
Proof.
  induction entries as [|e entries IH]; cbn [replace_value]; [set_solver|].
  case_decide as Ek; [done|]. destruct (replace_value key v entries); [done|]. intros _. cbn.
  apply not_elem_of_cons. split; [by intros ->|by apply IH].
Qed.

(** A key that is there: the old value stays allocated, and nothing has it. *)
Lemma dictionary_put_owns key v entries m h0 O h :
  entries_hold entries m -> own h0 (fp_string v ++ fp_entries entries ++ O) h ->
  let (entries', h') := dictionary_put key v entries h in
  exists leaked, entries_hold entries' (<[key := str_text v]> m) /\
    (length leaked + length entries' = S (length entries))%nat /\
    own h0 (fp_entries entries' ++ leaked ++ O) h'.
Proof.
  intros [Hn <-] H. unfold dictionary_put.
  destruct (replace_value key v entries) as [l|] eqn:E.
  - apply replace_value_Some in E as (Hk & Hl & Hm & old & Hp). exists [old].
    split_and!; [split; [by rewrite Hk|by apply Hm]|by rewrite Hl|].
    eapply own_perm; [|done|exact H]. trans ((fp_string v ++ fp_entries entries) ++ O);
      [rewrite Hp|]; cbn; solve_Permutation.
  - apply replace_value_None in E. allocate H as element.
    match type of H with own _ _ ?g => destruct (new_string_owns key _ _ _ H) as [Et H1];
      destruct (new_string key g) as [k h1] end. cbn in Et, H1.
    exists []. split_and!; [|done|].
    + split; cbn; rewrite Et; [by constructor|done].
    + eapply own_perm; [|done|exact H1]. unfold fp_entries. cbn. solve_Permutation.
Qed.

Lemma config_load_line_owns line entries m h0 O h :
  entries_hold entries m -> own h0 (fp_entries entries ++ O) h ->
  exists entries' h' leaked, config_load_line line (entries, h) = Ok (entries', h') /\
    entries_hold entries' (Text.config_load_line m line) /\
    (length leaked + length entries' = length entries + Nat.b2n (assigns line))%nat /\
    own h0 (fp_entries entries' ++ leaked ++ O) h'.
Proof.
  intros Hm H. unfold config_load_line, Text.config_load_line, assigns. cbv zeta.
  destruct (new_string_owns line _ _ _ H) as [Et H1].
  destruct (new_string line h) as [t h1]. cbn [fst snd] in Et, H1.
  destruct (string_trim_owns t _ _ _ H1) as (tr & h2 & -> & Etr & H2). rewrite Et in Etr.
  cbn [mbind res_bind]. rewrite Etr. clear t h h1 H H1 Et.
  destruct (free_releases _ _ _ _ H2) as (h3 & E3 & H3). unfold free_string at 1 2.
  assert (exists entries' h' leaked, (h ← free (str_self tr) h2; Ok (entries, h)) = Ok (entries', h')
    /\ entries_hold entries' m /\ (length leaked + length entries' = length entries + 0)%nat /\
    own h0 (fp_entries entries' ++ leaked ++ O) h') as Hskip.
  { rewrite E3. exists entries, h3, []. split_and!; [done|done|cbn; lia|done]. }
  destruct (_ || _); [exact Hskip|].
  destruct (strchr _ _) as [[before after]|]; [|exact Hskip]. clear Hskip E3 H3 h3.
  destruct (new_string_owns before _ _ _ H2) as [Ek H3].
  destruct (new_string before h2) as [k h3]. cbn [fst snd] in Ek, H3.
  destruct (new_string_owns after _ _ _ H3) as [Ev H4].
  destruct (new_string after h3) as [v h4]. cbn [fst snd] in Ev, H4.
  apply (own_reorder (fp_string k ++ fp_string v ++ fp_string tr ++ fp_entries entries ++ O))
    in H4; [|solve_Permutation].
  destruct (string_trim_owns k _ _ _ H4) as (k' & h5 & -> & Ek' & H5). cbn [mbind res_bind].
  apply (own_reorder (fp_string v ++ fp_string k' ++ fp_string tr ++ fp_entries entries ++ O))
    in H5; [|cbn; solve_Permutation].
  destruct (string_trim_owns v _ _ _ H5) as (v' & h6 & -> & Ev' & H6). cbn [mbind res_bind].
  apply (own_reorder (fp_string v' ++ fp_entries entries ++ str_self k' :: str_self tr :: O))
    in H6; [|cbn; solve_Permutation].
  pose proof (dictionary_put_owns (str_text k') v' entries m _ _ _ Hm H6) as Hput.
  destruct (dictionary_put _ _ _ h6) as [entries' h7]. destruct Hput as (leaked & Hm' & Hl & H7).
  apply (own_reorder (str_self k' :: str_self tr :: fp_entries entries' ++ leaked ++ O))
    in H7; [|solve_Permutation].
  destruct (free_releases _ _ _ _ H7) as (h8 & E8 & H8).
  destruct (free_releases _ _ _ _ H8) as (h9 & E9 & H9).
  unfold free_string. rewrite E8. cbn [mbind res_bind]. rewrite E9. cbn [mbind res_bind].
  exists entries', h9, leaked. rewrite Ek', Ek, Ev', Ev in Hm'. split_and!; [done|done|cbn; lia|done].
Qed.

Lemma config_round_owns line entries m h0 O h :
  entries_hold entries m -> own h0 (fp_entries entries ++ O) h ->
  exists entries' h' leaked, config_round line (entries, h) = Ok (entries', h') /\
    entries_hold entries' (Text.config_load_line m line) /\
    (length leaked + length entries' = length entries + Nat.b2n (assigns line))%nat /\
    own h0 (fp_entries entries' ++ leaked ++ O) h'.
Proof.
  intros Hm H. unfold config_round. destruct (new_string_owns line _ _ _ H) as [Et H1].
  destruct (new_string line h) as [t h1]. cbn [fst snd] in Et, H1. rewrite Et.
  apply (own_reorder (fp_entries entries ++ fp_string t ++ O)) in H1; [|solve_Permutation].
  destruct (config_load_line_owns line _ _ _ _ _ Hm H1)
    as (entries' & h2 & leaked & -> & Hm' & Hl & H2). cbn [mbind res_bind].
  apply (own_reorder (str_self t :: fp_entries entries' ++ leaked ++ O)) in H2;
    [|cbn; solve_Permutation].
  destruct (free_releases _ _ _ _ H2) as (h3 & E3 & H3). unfold free_string. rewrite E3.
  by exists entries', h3, leaked.
Qed.

Lemma config_rounds_own lines entries m h0 O h :
  entries_hold entries m -> own h0 (fp_entries entries ++ O) h ->
  exists entries' h' leaked, each config_round lines (entries, h) = Ok (entries', h') /\
    entries_hold entries' (foldl Text.config_load_line m lines) /\
    (length leaked + length entries' =
     length entries + length (filter (fun line => assigns line = true) lines))%nat /\
    own h0 (fp_entries entries' ++ leaked ++ O) h'.
Proof.
  revert entries m O h. induction lines as [|line lines IH]; intros entries m O h Hm H.
  { exists entries, h, []. split_and!; [done|done| |done].
    by rewrite filter_nil, Nat.add_0_r. }
  cbn [each foldl]. destruct (config_round_owns line _ _ _ _ _ Hm H)
    as (entries1 & h1 & leaked1 & -> & Hm1 & Hl1 & H1). cbn [mbind res_bind].
  destruct (IH _ _ _ _ Hm1 H1) as (entries' & h' & leaked & -> & Hm' & Hl & H').
  exists entries', h', (leaked ++ leaked1). split_and!; [done|done| |].
  - rewrite length_app, filter_cons. case_decide as Ea;
      [rewrite Ea in Hl1|rewrite (not_true_is_false _ Ea) in Hl1]; cbn in *; lia.
  - by rewrite <- app_assoc.
Qed.

Lemma destroy_entry_releases e : releases (destroy_entry e) (fp_entry e).
Proof. apply free_then_releases, free_then_releases, free_releases. Qed.

Definition fp_config (c : o_config) : list loc :=
  fp_entries (cf_entries c) ++
  [cf_elements c; cf_dictionary c; str_self (cf_path c); cf_self c].

Lemma config_destroy_releases c : releases (config_destroy c) (fp_config c).
Proof.
  apply (releases_bind (each destroy_entry (cf_entries c))).
  - apply releases_each. intros e _. apply destroy_entry_releases.
  - apply free_then_releases, free_then_releases, free_then_releases, free_releases.
Qed.

Lemma config_create_owns path lines h0 O h :
  own h0 O h ->
  exists c h1 leaked, config_create path (Some lines) h = Ok (Some c, h1) /\
    entries_hold (cf_entries c) (Text.config_load lines) /\
    (length leaked + size (Text.config_load lines) =
     length (filter (fun line => assigns line = true) lines))%nat /\
    own h0 (fp_config c ++ leaked ++ O) h1.
Proof.
  intros H. unfold config_create. allocate H as self.
  match type of H with own _ _ ?g => destruct (new_string_owns path _ _ _ H) as [Ep H1];
    destruct (new_string path g) as [p ?] end. cbn [fst snd] in H1.
  allocate H1 as dictionary. allocate H1 as elements.
  destruct (config_rounds_own lines [] ∅ _ _ _ ltac:(split; [constructor|done]) H1)
    as (entries & h1 & leaked & -> & Hm & Hl & H2). cbn [mbind res_bind].
  destruct (turned_away _ _ _ H2) as (h2 & E2 & H3). rewrite (malloc_eq h1), E2. cbn [mbind res_bind].
  set (c := mk_o_config _ _ _ _ _).
  apply (own_reorder (fp_config c ++ leaked ++ O)) in H3;
    [|unfold fp_config; cbn; solve_Permutation].
  exists c, h2, leaked. split_and!; [done|done| |done]. destruct Hm as [Hn Hm].
  assert (size (Text.config_load lines) = length entries) as ->; [|exact Hl].
  unfold Text.config_load. rewrite <- Hm. etrans; [by apply map_size_list_to_map|].
  by rewrite length_fmap.
Qed.

Lemma config_get_string_value_eq c m key :
  entries_hold (cf_entries c) m ->
  config_get_string_value c key = Text.config_get_string_value m key.
Proof.
  intros [_ <-]. unfold config_get_string_value, Text.config_get_string_value.
  induction (cf_entries c) as [|e entries IH]; [done|]. cbn. case_decide as Ek.
  - rewrite <- Ek. symmetry. apply lookup_insert_eq.
  - rewrite IH. symmetry. by apply lookup_insert_ne.
Qed.

(** The configuration made from a file's lines holds the properties of Text.v, and
    [config_destroy] frees all of it: what stays allocated is one value for every
    assignment beyond the number of keys, so nothing if no key is repeated. *)
Theorem config_frees_all_but_replaced path lines h0 h :
  own h0 [] h ->
  exists c h1 h2 leaked, config_create path (Some lines) h = Ok (Some c, h1) /\
    entries_hold (cf_entries c) (Text.config_load lines) /\
    config_destroy c h1 = Ok h2 /\ own h0 leaked h2 /\
    (length leaked + size (Text.config_load lines) =
     length (filter (fun line => assigns line = true) lines))%nat.
Proof.
  intros H. destruct (config_create_owns path lines _ _ _ H) as (c & h1 & leaked & E & Hm & Hl & H1).
  destruct (config_destroy_releases c _ _ _ H1) as (h2 & E2 & H2). rewrite app_nil_r in H2.
  by exists c, h1, h2, leaked.
Qed.

(** A key that is given twice. *)
Example repeated_key_leaks :
  exists c h1 h2, config_create (txt "c") (Some [txt "a=1"; txt " # "; txt "a = 2"]) ∅ = Ok (Some c, h1) /\
    config_destroy c h1 = Ok h2 /\ size h2 = 1%nat.
Proof. vm_compute. eauto 10. Qed.

Lemma string_array_refines_witness :
  own ∅ [] ∅ /\
  exists a h' ss, string_get_string_as_array (Some (txt "[a, b]")) ∅ = Ok (a, h') /\
    Text.string_get_string_as_array (Some (txt "[a, b]")) = Ok (str_text <$> ss) /\
    ar_cells a = cells_of ss /\ string_array_size a = Ok (length ss) /\
    own ∅ (fp_array a ++ []) h' /\
    exists h'', string_array_destroy a h' = Ok h'' /\ own ∅ [] h''.
Proof.
  assert (own ∅ [] ∅) as H by (split_and!; [constructor|set_solver|done]).
  split; [exact H|]. exact (string_array_refines _ _ _ _ H).
Defined.

Lemma config_frees_all_but_replaced_witness :
  own ∅ [] ∅ /\
  exists c h1 h2 leaked, config_create (txt "c") (Some [txt "a=1"; txt "b=2"]) ∅ = Ok (Some c, h1) /\
    entries_hold (cf_entries c) (Text.config_load [txt "a=1"; txt "b=2"]) /\
    config_destroy c h1 = Ok h2 /\ own ∅ leaked h2 /\
    (length leaked + size (Text.config_load [txt "a=1"; txt "b=2"]) =
     length (filter (fun line => assigns line = true) [txt "a=1"; txt "b=2"]))%nat.
Proof.
  assert (own ∅ [] ∅) as H by (split_and!; [constructor|set_solver|done]).
  split; [exact H|]. exact (config_frees_all_but_replaced _ _ _ _ H).
Defined.
