(* ===== verification/MsgHeap.v ===== *)
(** * MsgHeap: utils/src/utils/msg.c and log.c with their memory

    What sending and receiving a message allocates and frees, over the heap of
    Heap.v: a packet is its struct, its buffer and the stream, which [realloc]
    moves.  Sending leaves the heap as it was; a packet that is received is the
    caller's.  A logger is its struct, its program's name and its file. *)

From S2P Require Import Prelude Text Heap StringHeap.

(** ** msg.c *)

(** [t_packet] and its [t_buffer]. *)
Record o_packet := mk_o_packet { pk_self : loc; pk_buffer : loc; pk_stream : option loc }.

Definition create_buffer h : (loc * option loc) * t_heap :=
  let (buffer, h) := malloc h in ((buffer, None), h).

Definition create_packet h : o_packet * t_heap :=
  let (packet, h) := malloc h in
  let (b, h) := create_buffer h in (mk_o_packet packet b.1 b.2, h).

Definition destroy_packet (packet : o_packet) h : res t_heap :=
  h ← if_not_null free (pk_stream packet) h;
  h ← free (pk_buffer packet) h; free (pk_self packet) h.

(** [realloc] of NULL is [malloc]. *)
Definition packet_append (packet : o_packet) h : res (o_packet * t_heap) :=
  h ← if_not_null free (pk_stream packet) h;
  let (stream, h) := malloc h in
  Ok (mk_o_packet (pk_self packet) (pk_buffer packet) (Some stream), h).

Definition serialize_packet h : loc * t_heap := malloc h.

Definition send_packet (packet : o_packet) h : res t_heap :=
  let (to_send, h) := serialize_packet h in free to_send h.

Definition send_buffer h : res t_heap :=
  let (packet, h) := malloc h in
  let (buffer, h) := malloc h in
  let (stream, h) := malloc h in
  let (to_send, h) := serialize_packet h in
  h ← free to_send h;
  destroy_packet (mk_o_packet packet buffer (Some stream)) h.

Definition send_string := send_buffer.
Definition send_handshake := send_string.

(** [received]: a size that is not zero arrived. *)
Definition receive_buffer (received : bool) h : option loc * t_heap := malloc_if received h.
Definition receive_string := receive_buffer.

Definition receive_handshake (is_handshake received : bool) h : res t_heap :=
  if negb is_handshake then Ok h else
  let (msg, h) := receive_string received h in
  msg ← deref msg; free msg h.

(** The elements of a packet are copied out of its buffer, one after another;
    [None]: nothing arrived. *)
Fixpoint copy_elements (n : nat) (values : t_hlist loc) h : t_hlist loc * t_heap :=
  match n with
  | O => (values, h)
  | S n => let (values, h) := new_element values h in copy_elements n values h
  end.
Definition receive_packet (elements : option nat) h : res (t_hlist loc * t_heap) :=
  let (values, h) := list_create h in
  let (buffer, h) := receive_buffer (bool_decide (is_Some elements)) h in
  let (values, h) := copy_elements (default 0%nat elements) values h in
  h ← if_not_null free buffer h; Ok (values, h).

(** A packet of [n] elements, from its creation to its end. *)
Fixpoint append_all (n : nat) (packet : o_packet) h : res (o_packet * t_heap) :=
  match n with
  | O => Ok (packet, h)
  | S n => '(packet, h) ← packet_append packet h; append_all n packet h
  end.
Definition packet_life (n : nat) h : res t_heap :=
  let (packet, h) := create_packet h in
  '(packet, h) ← append_all n packet h;
  h ← send_packet packet h; destroy_packet packet h.

(** ** log.c *)

Record o_log := mk_o_log { lg_self : loc; lg_file : option loc; lg_name : o_string }.

(** [file]: [None] is NULL, else whether it can be opened. *)
Definition log_create (file : option bool) (program_name : text) h : option o_log * t_heap :=
  let (opened, h) := malloc_if (default false file) h in
  match file, opened with
  | Some _, None => (None, h)
  | _, _ =>
      let (logger, h) := malloc h in
      let (name, h) := new_string program_name h in (Some (mk_o_log logger opened name), h)
  end.

Definition log_destroy (logger : o_log) h : res t_heap :=
  h ← if_not_null free (lg_file logger) h;
  h ← free_string (lg_name logger) h; free (lg_self logger) h.

(** ** What is owned *)

(** The heap is what it was. *)
Definition neutral (op : t_heap -> res t_heap) : Prop := releases op [].

Definition fp_packet (p : o_packet) : list loc :=
  fp_option fp_address (pk_stream p) ++ [pk_buffer p; pk_self p].
Definition fp_values (l : t_hlist loc) : list loc := fp_hlist fp_address l.
#[local] Arguments fp_hlist : simpl never.
Definition fp_log (l : o_log) : list loc :=
  fp_option fp_address (lg_file l) ++ [str_self (lg_name l); lg_self l].

Lemma neutral_own op h0 O h :
  neutral op -> own h0 O h -> exists h', op h = Ok h' /\ own h0 O h'.
Proof. intros H. exact (H h0 O h). Qed.

Lemma destroy_packet_releases p : releases (destroy_packet p) (fp_packet p).
Proof.
  apply releases_bind; [apply free_if_releases|]. apply free_then_releases, free_releases.
Qed.

Lemma create_packet_allocates : allocates create_packet fp_packet.
Proof.
  intros h0 O h H. unfold create_packet, create_buffer. allocate H as p. allocate H as b.
  eapply own_reorder; [|exact H]. unfold fp_packet. cbn. solve_Permutation.
Qed.

Lemma packet_append_owns p h0 O h :
  own h0 (fp_packet p ++ O) h ->
  exists p' h', packet_append p h = Ok (p', h') /\ own h0 (fp_packet p' ++ O) h'.
Proof.
  unfold fp_packet. rewrite <- app_assoc. intros H. unfold packet_append.
  destruct (free_if_releases _ _ _ _ H) as (h1 & -> & H1). cbn [mbind res_bind].
  allocate H1 as stream. by do 2 eexists.
Qed.

Lemma append_all_owns n p h0 O h :
  own h0 (fp_packet p ++ O) h ->
  exists p' h', append_all n p h = Ok (p', h') /\ own h0 (fp_packet p' ++ O) h'.
Proof.
  revert p h. induction n as [|n IH]; intros p h H; [by do 2 eexists|]. cbn [append_all].
  destruct (packet_append_owns _ _ _ _ H) as (p1 & h1 & -> & H1). by apply IH.
Qed.

Lemma send_packet_neutral p : neutral (send_packet p).
Proof.
  intros h0 O h H. unfold send_packet, serialize_packet. allocate H as to_send.
  exact (free_releases _ _ _ _ H).
Qed.

Lemma send_buffer_neutral : neutral send_buffer.
Proof.
  intros h0 O h H. unfold send_buffer, serialize_packet.
  allocate H as p. allocate H as b. allocate H as s. allocate H as to_send.
  destruct (free_releases _ _ _ _ H) as (h1 & -> & H1). cbn [mbind res_bind].
  apply (destroy_packet_releases (mk_o_packet p b (Some s)) _ _ _ H1).
Qed.

Lemma receive_handshake_neutral is_handshake : neutral (receive_handshake is_handshake true).
Proof.
  intros h0 O h H. destruct is_handshake; [|by exists h].
  unfold receive_handshake, receive_string, receive_buffer, malloc_if. cbn [negb].
  allocate H as msg. exact (free_releases _ _ _ _ H).
Qed.

Lemma copy_elements_owns n l h0 O h :
  own h0 (fp_values l ++ O) h ->
  own h0 (fp_values (copy_elements n l h).1 ++ O) (copy_elements n l h).2.
Proof.
  revert l h. induction n as [|n IH]; intros l h H; [done|]. cbn [copy_elements].
  apply new_element_owns in H. destruct (new_element l h) as [l' h']. by apply IH.
Qed.

Lemma copy_elements_length n l h :
  length (hl_links (copy_elements n l h).1) = (length (hl_links l) + n)%nat.
Proof.
  revert l h. induction n as [|n IH]; intros l h; cbn [copy_elements]; [cbn; lia|].
  unfold new_element, list_add. destruct (malloc h) as [x h1]. destruct (malloc h1) as [k h2].
  rewrite IH. cbn. rewrite length_app. cbn. lia.
Qed.

Lemma packet_received_owns elements h0 O h :
  own h0 O h ->
  exists l h', receive_packet elements h = Ok (l, h') /\
    length (hl_links l) = default 0%nat elements /\ own h0 (fp_values l ++ O) h'.
Proof.
  intros H. unfold receive_packet, receive_buffer.
  assert (hl_links (list_create (A := loc) h).1 = []) as El
    by (unfold list_create; by destruct (malloc h)).
  allocate_list fp_address H. cbn [fst] in El.
  match type of H with own _ (fp_hlist _ ?l ++ _) ?g =>
    apply (malloc_if_owns (bool_decide (is_Some elements))) in H;
    destruct (malloc_if _ g) as [buffer h1]; cbn [fst snd] in H;
    apply (own_reorder (fp_values l ++ fp_option fp_address buffer ++ O)) in H;
      [|unfold fp_values; solve_Permutation];
    pose proof (copy_elements_length (default 0%nat elements) l h1) as Hl;
    apply (copy_elements_owns (default 0%nat elements)) in H;
    destruct (copy_elements _ l h1) as [l' h2]; cbn [fst snd] in H, Hl; rewrite El in Hl
  end.
  apply (own_reorder (fp_option fp_address buffer ++ fp_values l' ++ O)) in H;
    [|solve_Permutation].
  destruct (free_if_releases _ _ _ _ H) as (h3 & -> & H3). by exists l', h3.
Qed.

(** Nothing that is sent leaves anything allocated, and what is received is the
    caller's: a list of as many elements as the packet has, which can be freed. *)
Theorem messages_free_their_memory n elements h0 O h :
  own h0 O h ->
  (exists h', packet_life n h = Ok h' /\ own h0 O h') /\
  (exists h', send_buffer h = Ok h' /\ own h0 O h') /\
  exists l h', receive_packet elements h = Ok (l, h') /\
    length (hl_links l) = default 0%nat elements /\
    exists h'', list_destroy_and_destroy_elements free l h' = Ok h'' /\ own h0 O h''.
Proof.
  intros H. split_and!; [|by apply send_buffer_neutral|].
  - unfold packet_life. apply create_packet_allocates in H as H1.
    destruct (create_packet h) as [p h1]. cbn [fst snd] in H1.
    destruct (append_all_owns n p _ _ _ H1) as (p' & h2 & -> & H2). cbn [mbind res_bind].
    destruct (neutral_own _ _ _ _ (send_packet_neutral p') H2) as (h3 & -> & H3).
    exact (destroy_packet_releases p' _ _ _ H3).
  - destruct (packet_received_owns elements _ _ _ H) as (l & h1 & E & El & H1).
    exists l, h1. split_and!; [done|done|]. exact (list_of_frees_releases l _ _ _ H1).
Qed.

Lemma log_create_owns file name h0 O h :
  own h0 O h ->
  own h0 (fp_option fp_log (log_create file name h).1 ++ O) (log_create file name h).2.
Proof.
  intros H. unfold log_create. apply (malloc_if_owns (default false file)) in H.
  assert (forall opened h, own h0 (fp_option fp_address opened ++ O) h ->
    let '(l, h') := let (logger, h) := malloc h in
      let (name, h) := new_string name h in (Some (mk_o_log logger opened name), h) in
    own h0 (fp_option fp_log l ++ O) h') as Hnew.
  { intros opened h1 H1. allocate H1 as logger.
    match type of H1 with own _ _ ?g => destruct (new_string_owns name _ _ _ H1) as [_ H2];
      destruct (new_string name g) as [s h2] end. cbn [fst snd] in H2.
    eapply own_reorder; [|exact H2]. cbn. unfold fp_log. cbn. solve_Permutation. }
  destruct (malloc_if _ h) as [opened h1]. cbn [fst snd] in H.
  specialize (Hnew opened h1 H). cbv beta in Hnew.
  destruct file as [[]|], opened; try done; by destruct (let (logger, h) := malloc h1 in _).
Qed.

Lemma log_destroy_releases l : releases (log_destroy l) (fp_log l).
Proof.
  apply releases_bind; [apply free_if_releases|]. apply free_then_releases, free_releases.
Qed.

Lemma messages_free_their_memory_witness :
  own ∅ [] ∅ /\
  ((exists h', packet_life 2 ∅ = Ok h' /\ own ∅ [] h') /\
   (exists h', send_buffer ∅ = Ok h' /\ own ∅ [] h') /\
   exists l h', receive_packet (Some 3%nat) ∅ = Ok (l, h') /\ length (hl_links l) = 3%nat /\
     exists h'', list_destroy_and_destroy_elements free l h' = Ok h'' /\ own ∅ [] h'').
Proof.
  assert (own ∅ [] ∅) as H by (split_and!; [constructor|set_solver|done]).
  split; [exact H|]. exact (messages_free_their_memory 2 (Some 3%nat) _ _ _ H).
Defined.
