(* ===== verification/SwapHeap.v ===== *)
(** * SwapHeap: swap/src (main.c, swap/swap.c) with its memory

    What the swap allocates and frees, over the heap of Heap.v: its start, which
    may fail at any step, the requests it serves, and its end.  The
    configuration, the log and the messages are those of StringHeap.v and
    MsgHeap.v; an open file is an address too. *)

From Stdlib Require Import Strings.Byte Strings.String.
From S2P Require Import Prelude Text Heap StringHeap MsgHeap.

(** What succeeds at the start: the log and the swap file can be opened, the file
    resized, Kernel Memory connected to, the handshake sent and answered by it,
    the sizes sent. *)
Record t_start := mk_start {
  st_log : bool; st_file : bool; st_resize : bool; st_socket : bool; st_sent : bool;
  st_id : bool; st_info : bool }.

(** [t_swap], which starts as zeroes; what it borrows of the configuration is left
    out. *)
Record o_swap := mk_o_swap {
  sw_logger : option o_log; sw_socket : option loc; sw_file : option loc }.

(** ** swap.c *)

Definition close_swap (swap : o_swap) (config : o_config) h : res t_heap :=
  h ← if_not_null free (sw_socket swap) h;
  h ← if_not_null free (sw_file swap) h;
  h ← if_not_null log_destroy (sw_logger swap) h;
  config_destroy config h.

Definition init_swap_file (s : t_start) (path : text) h : res (option loc * t_heap) :=
  let (swap_file, h) := malloc_if (st_file s) h in
  match swap_file with
  | None => Ok (None, h)
  | Some f => if negb (st_resize s) then h ← free f h; Ok (None, h) else Ok (Some f, h)
  end.

(** [None]: it failed, and everything was released. *)
Definition init_config (s : t_start) (config : o_config) h : res (option o_swap * t_heap) :=
  let log_level_str := config_get_string_value config (txt "LOG_LEVEL") in
  _ ← config_get_int_value config (txt "SWAP_FILE_SIZE");
  _ ← config_get_int_value config (txt "BLOCK_SIZE");
  _ ← deref log_level_str;
  let (logger, h) := log_create (Some (st_log s)) (txt "SWAP") h in
  match logger with
  | None => h ← config_destroy config h; Ok (None, h)
  | Some _ =>
      path ← deref (config_get_string_value config (txt "SWAP_FILE_PATH"));
      '(swap_file, h) ← init_swap_file s path h;
      let swap := mk_o_swap logger None swap_file in
      match swap_file with
      | None => h ← close_swap swap config h; Ok (None, h)
      | Some _ => Ok (Some swap, h)
      end
  end.

(** When the sizes cannot be sent [km_config] is not freed. *)
Definition connect_to_kernel_memory (s : t_start) (swap : o_swap) (config : o_config) h
    : res (option o_swap * t_heap) :=
  let (socket, h) := malloc_if (st_socket s) h in
  let swap := mk_o_swap (sw_logger swap) socket (sw_file swap) in
  match socket with
  | None => h ← close_swap swap config h; Ok (None, h)
  | Some _ =>
      h ← send_handshake h;
      if negb (st_sent s) then h ← close_swap swap config h; Ok (None, h) else
      h ← receive_handshake true true h;
      if negb (st_id s) then h ← close_swap swap config h; Ok (None, h) else
      let (km_config, h) := malloc h in
      h ← send_buffer h;
      if negb (st_info s) then h ← close_swap swap config h; Ok (None, h) else
      h ← free km_config h; Ok (Some swap, h)
  end.

(** ** main.c *)

(** A request: a write, whose packet has this many elements, or a read, with its
    block number or without. *)
Inductive t_request := R_write (elements : nat) | R_read (received : bool).

(** A write that does not have two elements leaves its packet. *)
Definition serve (r : t_request) h : res t_heap :=
  match r with
  | R_write n =>
      '(packet, h) ← receive_packet (Some n) h;
      if decide (length (hl_links packet) ≠ 2%nat) then Ok h else
      h ← send_string h; list_destroy_and_destroy_elements free packet h
  | R_read received =>
      let (block_number_ptr, h) := receive_buffer received h in
      match block_number_ptr with
      | None => Ok h
      | Some p =>
          let (content_read, h) := malloc h in
          h ← send_buffer h; h ← free p h; free content_read h
      end
  end.

(** [arguments]: there is one; [lines]: the file's, if it can be opened.  Whether
    the swap ran. *)
Definition main (arguments : bool) (path : text) (lines : option (list text)) (s : t_start)
    (requests : list t_request) h : res (bool * t_heap) :=
  if negb arguments then Ok (false, h) else
  '(config, h) ← config_create path lines h;
  match config with
  | None => Ok (false, h)
  | Some config =>
      '(swap, h) ← init_config s config h;
      match swap with None => Ok (false, h) | Some swap =>
      '(swap, h) ← connect_to_kernel_memory s swap config h;
      match swap with None => Ok (false, h) | Some swap =>
      h ← each serve requests h;
      h ← close_swap swap config h; Ok (true, h)
      end end
  end.

(** ** What is owned *)

Definition fp_swap (swap : o_swap) : list loc :=
  fp_option fp_address (sw_socket swap) ++ fp_option fp_address (sw_file swap) ++
  fp_option fp_log (sw_logger swap).

Lemma close_swap_releases swap config :
  releases (close_swap swap config) (fp_swap swap ++ fp_config config).
Proof.
  unfold fp_swap. rewrite <- !app_assoc. apply releases_bind; [apply free_if_releases|].
  apply releases_bind; [apply free_if_releases|].
  apply releases_bind; [apply if_not_null_releases, log_destroy_releases|].
  apply config_destroy_releases.
Qed.

(** The settings that are read without looking whether they are there. *)
Definition complete (m : t_properties) : Prop :=
  (exists n, Text.config_get_int_value m (txt "SWAP_FILE_SIZE") = Ok n) /\
  (exists n, Text.config_get_int_value m (txt "BLOCK_SIZE") = Ok n) /\
  is_Some (m !! txt "LOG_LEVEL") /\ is_Some (m !! txt "SWAP_FILE_PATH").

(** What a step of the start leaves: the swap and its configuration, or nothing. *)
Definition fp_started (swap : option o_swap) (config : o_config) : list loc :=
  match swap with Some swap => fp_swap swap ++ fp_config config | None => [] end.

Lemma swap_closed swap config h0 O h :
  own h0 ((fp_swap swap ++ fp_config config) ++ O) h ->
  exists r h', (h ← close_swap swap config h; Ok (None, h)) = Ok (r, h') /\
    own h0 (fp_started r config ++ O) h'.
Proof.
  intros H. destruct (close_swap_releases swap config _ _ _ H) as (h' & -> & H').
  by exists None, h'.
Qed.

Lemma init_swap_file_owns s path h0 O h :
  own h0 O h ->
  exists f h', init_swap_file s path h = Ok (f, h') /\
    own h0 (fp_option fp_address f ++ O) h'.
Proof.
  intros H. unfold init_swap_file, malloc_if. destruct (st_file s); [|by exists None, h].
  allocate H as f. destruct (negb _); [|by exists (Some f); eexists].
  destruct (free_releases _ _ _ _ H) as (h' & -> & H'). by exists None, h'.
Qed.

Lemma init_config_owns s config m h0 O h :
  entries_hold (cf_entries config) m -> complete m -> own h0 (fp_config config ++ O) h ->
  exists r h', init_config s config h = Ok (r, h') /\ own h0 (fp_started r config ++ O) h' /\
    (forall swap, r = Some swap -> sw_socket swap = None).
Proof.
  intros Hm ((size & Es) & (block & Eb) & (level & El) & (path & Ep)) H.
  unfold init_config, config_get_int_value.
  rewrite !(config_get_string_value_eq config m) by done.
  unfold Text.config_get_int_value in Es, Eb. rewrite Es. cbn [mbind res_bind].
  rewrite Eb. unfold Text.config_get_string_value. rewrite El, Ep. cbn [deref mbind res_bind].
  apply (log_create_owns (Some (st_log s)) (txt "SWAP")) in H.
  destruct (log_create _ _ h) as [logger h1]. cbn [fst snd] in H. destruct logger as [logger|].
  - destruct (init_swap_file_owns s path _ _ _ H) as (f & h2 & -> & H2). cbn [mbind res_bind].
    set (swap := mk_o_swap _ _ _).
    apply (own_reorder ((fp_swap swap ++ fp_config config) ++ O)) in H2;
      [|unfold fp_swap; cbn; solve_Permutation].
    destruct f as [f|]; [exists (Some swap), h2; split_and!; [done|done|by intros ? [= <-]]|].
    destruct (close_swap_releases _ _ _ _ _ H2) as (h3 & -> & H3). by exists None, h3.
  - destruct (config_destroy_releases _ _ _ _ H) as (h2 & -> & H2). by exists None, h2.
Qed.

Lemma swap_connect_owns s swap config h0 O h :
  st_info s = true -> sw_socket swap = None -> own h0 ((fp_swap swap ++ fp_config config) ++ O) h ->
  exists r h', connect_to_kernel_memory s swap config h = Ok (r, h') /\
    own h0 (fp_started r config ++ O) h'.
Proof.
  intros Hi Hs H. unfold connect_to_kernel_memory.
  apply (malloc_if_owns (st_socket s)) in H.
  destruct (malloc_if _ h) as [socket h1]. cbn [fst snd] in H.
  set (swap' := mk_o_swap _ _ _).
  apply (own_reorder ((fp_swap swap' ++ fp_config config) ++ O)) in H;
    [|unfold fp_swap; rewrite Hs; cbn; solve_Permutation].
  destruct socket as [socket|]; [|exact (swap_closed _ _ _ _ _ H)].
  destruct (neutral_own _ _ _ _ send_buffer_neutral H) as (h2 & E2 & H2).
  unfold send_handshake, send_string. rewrite E2. cbn [mbind res_bind].
  destruct (negb (st_sent s)); [exact (swap_closed _ _ _ _ _ H2)|].
  destruct (neutral_own _ _ _ _ (receive_handshake_neutral true) H2) as (h3 & -> & H3).
  cbn [mbind res_bind]. destruct (negb (st_id s)); [exact (swap_closed _ _ _ _ _ H3)|].
  allocate H3 as km_config.
  destruct (neutral_own _ _ _ _ send_buffer_neutral H3) as (h4 & -> & H4). rewrite Hi. cbn [negb mbind res_bind].
  destruct (free_releases _ _ _ _ H4) as (h5 & -> & H5). by exists (Some swap'), h5.
Qed.

Definition well_formed (r : t_request) : bool :=
  match r with R_write n => bool_decide (n = 2)%nat | R_read _ => true end.

Lemma serve_neutral r : well_formed r = true -> neutral (serve r).
Proof.
  intros Hr h0 O h H. destruct r as [n|received]; cbn [serve well_formed] in *.
  - apply bool_decide_eq_true in Hr as ->.
    destruct (packet_received_owns (Some 2%nat) _ _ _ H) as (l & h1 & -> & El & H1).
    cbn [mbind res_bind]. rewrite El, decide_False by (cbn; lia).
    destruct (neutral_own _ _ _ _ send_buffer_neutral H1) as (h2 & E2 & H2).
    unfold send_string. rewrite E2. cbn [mbind res_bind].
    exact (list_of_frees_releases l _ _ _ H2).
  - unfold receive_buffer. destruct received; cbn [malloc_if]; [|by exists h].
    allocate H as p. allocate H as content.
    destruct (neutral_own _ _ _ _ send_buffer_neutral H) as (h1 & -> & H1). cbn [mbind res_bind].
    apply (own_reorder (p :: content :: O)) in H1; [|solve_Permutation].
    destruct (free_releases _ _ _ _ H1) as (h2 & -> & H2). exact (free_releases _ _ _ _ H2).
Qed.

Lemma requests_neutral requests :
  forallb well_formed requests = true -> neutral (each serve requests).
Proof.
  induction requests as [|r requests IH]; cbn [forallb]; [intros _; apply releases_nothing|].
  intros [Hr Hrs]%andb_true_iff. exact (releases_bind _ _ [] [] (serve_neutral r Hr) (IH Hrs)).
Qed.

(** ** What is claimed *)

(** Wherever its start fails and whatever it serves, the swap ends with nothing
    allocated but values that repeated keys of its configuration replaced, so
    with nothing if no key is repeated; this needs that the configuration has
    what is read of it, the sizes can be sent and every write has its two
    elements. *)
Theorem swap_frees_everything arguments path lines s requests h0 :
  complete (Text.config_load lines) -> st_info s = true -> forallb well_formed requests = true ->
  exists ok h leaked, main arguments path (Some lines) s requests h0 = Ok (ok, h) /\
    own h0 leaked h /\
    (length leaked + size (Text.config_load lines) <=
     length (filter (fun line => assigns line = true) lines))%nat.
Proof.
  intros Hm Hi Hr. assert (own h0 [] h0) as H by (split_and!; [constructor|set_solver|set_solver]).
  destruct (config_create_owns path lines _ _ _ H) as (c & h1 & leaked & E & He & Hl & H1).
  unfold main. destruct (negb arguments); [exists false, h0, []; split_and!; [done|done|cbn; lia]|].
  rewrite E. cbn [mbind res_bind]. rewrite app_nil_r in H1.
  destruct (init_config_owns s c _ _ _ _ He Hm H1) as (r & h2 & -> & H2 & Hs). cbn [mbind res_bind].
  destruct r as [swap|]; [|exists false, h2, leaked; split_and!; [done|done|lia]].
  destruct (swap_connect_owns s swap c _ _ _ Hi (Hs swap eq_refl) H2) as (r & h3 & -> & H3).
  cbn [mbind res_bind].
  destruct r as [swap'|]; [|exists false, h3, leaked; split_and!; [done|done|lia]].
  destruct (neutral_own _ _ _ _ (requests_neutral _ Hr) H3) as (h4 & -> & H4). cbn [mbind res_bind].
  destruct (close_swap_releases swap' c _ _ _ H4) as (h5 & -> & H5).
  exists true, h5, leaked. split_and!; [done|done|lia].
Qed.

Definition swap_lines : list text :=
  [txt "SWAP_FILE_SIZE = 64"; txt "BLOCK_SIZE=8"; txt "LOG_LEVEL=INFO"; txt "SWAP_FILE_PATH=s"].

Lemma swap_frees_everything_witness :
  complete (Text.config_load swap_lines) /\
  exists ok h leaked, main true (txt "c") (Some swap_lines) (mk_start true true true true true true true)
      [R_write 2; R_read true; R_read false] {[5%positive]} = Ok (ok, h) /\
    own {[5%positive]} leaked h /\
    (length leaked + size (Text.config_load swap_lines) <=
     length (filter (fun line => assigns line = true) swap_lines))%nat.
Proof.
  assert (complete (Text.config_load swap_lines)) as Hm
    by (split_and!; [exists 64|exists 8|eexists|eexists]; vm_compute; reflexivity).
  split; [exact Hm|]. apply swap_frees_everything; [exact Hm|reflexivity|reflexivity].
Defined.

(** The sizes that cannot be sent and the packet of a malformed write stay
    allocated. *)
Lemma info_failure_leaks :
  exists h, main true (txt "c") (Some swap_lines) (mk_start true true true true true true false) [] ∅
    = Ok (false, h) /\ h <> ∅.
Proof. eexists. split; [vm_compute; reflexivity|]. vm_compute. discriminate. Qed.

Lemma malformed_write_leaks :
  exists h, main true (txt "c") (Some swap_lines) (mk_start true true true true true true true)
    [R_write 1] ∅ = Ok (true, h) /\ h <> ∅.
Proof. eexists. split; [vm_compute; reflexivity|]. vm_compute. discriminate. Qed.
