(* ===== verification/IoHeap.v ===== *)
(** * IoHeap: io/src (main.c, io/utils.c, io/ioops.c) with its memory

    What an IO module allocates and frees, over the heap of Heap.v: its start,
    which may fail at any step, the requests it serves, and its end.  The
    configuration, the log and the messages are those of StringHeap.v and
    MsgHeap.v. *)

From Stdlib Require Import Strings.Byte Strings.String.
From S2P Require Import Prelude Text Heap StringHeap MsgHeap.

(** What succeeds at the start: the log can be opened, the scheduler connected to,
    the handshake sent and answered by it, the type sent. *)
Record t_start := mk_start {
  st_log : bool; st_socket : bool; st_sent : bool; st_id : bool; st_type : bool }.

(** [t_io] once its fields are set; before, they are not written. *)
Record o_io := mk_o_io { io_config : o_config; io_logger : o_log; io_socket : option loc }.

(** ** utils.c *)

Definition close_io (io : o_io) h : res t_heap :=
  h ← if_not_null free (io_socket io) h;
  h ← log_destroy (io_logger io) h;
  config_destroy (io_config io) h.

(** [io_type]: it is one of the three.  The configuration is made first and left
    if it is not.  [None]: not valid; the configuration may be NULL. *)
Definition parse_args (arguments : bool) (path : text) (lines : option (list text)) (io_type : bool) h
    : res (option (option o_config) * t_heap) :=
  if negb arguments then Ok (None, h) else
  '(config, h) ← config_create path lines h;
  Ok (if io_type then Some config else None, h).

Definition load_config (s : t_start) (config : option o_config) h
    : res (option (o_config * o_log) * t_heap) :=
  config ← deref config;
  _ ← deref (config_get_string_value config (txt "LOG_LEVEL"));
  let (logger, h) := log_create (Some (st_log s)) (txt "IO") h in
  match logger with
  | None => h ← config_destroy config h; Ok (None, h)
  | Some logger => Ok (Some (config, logger), h)
  end.

Definition connect_to_scheduler (s : t_start) (config : o_config) (logger : o_log) h
    : res (option o_io * t_heap) :=
  let (socket, h) := malloc_if (st_socket s) h in
  let io := mk_o_io config logger socket in
  match socket with
  | None => h ← close_io io h; Ok (None, h)
  | Some _ =>
      h ← send_handshake h;
      if negb (st_sent s) then h ← close_io io h; Ok (None, h) else
      h ← receive_handshake true true h;
      if negb (st_id s) then h ← close_io io h; Ok (None, h) else
      h ← send_string h;
      if negb (st_type s) then h ← close_io io h; Ok (None, h) else Ok (Some io, h)
  end.

(** ** ioops.c *)

(** A request, whose message has arrived or not: a line that is typed or not, a
    packet of some elements, a time to sleep.  [sent]: it can be answered. *)
Inductive t_request :=
  | R_stdin (received line sent : bool)
  | R_stdout (elements : nat) (sent : bool)
  | R_sleep (received sent : bool).

(** [request->pid] is read without looking whether there is a request. *)
Definition run_stdin (received line sent : bool) h : res (bool * t_heap) :=
  let (request, h) := receive_buffer received h in
  request ← deref request;
  let (buffer, h) := malloc h in
  if negb line then h ← free buffer h; h ← free request h; Ok (false, h) else
  h ← send_string h;
  if negb (sent : bool) then h ← free buffer h; h ← free request h; Ok (false, h) else
  h ← free request h; h ← free buffer h; Ok (true, h).

(** What is in the packet after the request and the text is left. *)
Definition run_stdout (elements : nat) (sent : bool) h : res (bool * t_heap) :=
  '(packet, h) ← receive_packet (Some elements) h;
  '(request, packet, h) ← list_remove packet 0 h;
  '(buffer, packet, h) ← list_remove packet 0 h;
  h ← list_destroy packet h;
  match buffer with
  | None => h ← if_not_null free request h; Ok (false, h)
  | Some buffer =>
      request ← deref request;
      h ← send_string h;
      h ← free request h; h ← free buffer h; Ok (sent, h)
  end.

Definition run_sleep (received sent : bool) h : res (bool * t_heap) :=
  let (request, h) := receive_buffer received h in
  request ← deref request;
  h ← send_string h;
  h ← free request h; Ok (sent, h).

(** ** main.c *)

Definition serve (r : t_request) h : res (bool * t_heap) :=
  match r with
  | R_stdin received line sent => run_stdin received line sent h
  | R_stdout n sent => run_stdout n sent h
  | R_sleep received sent => run_sleep received sent h
  end.

(** The loop ends when a request fails or another message arrives. *)
Fixpoint serve_all (requests : list t_request) h : res t_heap :=
  match requests with
  | [] => Ok h
  | r :: rest => '(keep_running, h) ← serve r h; if (keep_running : bool) then serve_all rest h else Ok h
  end.

(** Whether the module ran. *)
Definition main (arguments : bool) (path : text) (lines : option (list text)) (io_type : bool)
    (s : t_start) (requests : list t_request) h : res (bool * t_heap) :=
  '(config, h) ← parse_args arguments path lines io_type h;
  match config with None => Ok (false, h) | Some config =>
  '(loaded, h) ← load_config s config h;
  match loaded with None => Ok (false, h) | Some (config, logger) =>
  '(io, h) ← connect_to_scheduler s config logger h;
  match io with None => Ok (false, h) | Some io =>
  h ← serve_all requests h; h ← close_io io h; Ok (true, h)
  end end end.

(** ** What is owned *)

Definition fp_io (io : o_io) : list loc :=
  fp_option fp_address (io_socket io) ++ fp_log (io_logger io) ++ fp_config (io_config io).

Lemma close_io_releases io : releases (close_io io) (fp_io io).
Proof.
  apply releases_bind; [apply free_if_releases|].
  apply releases_bind; [apply log_destroy_releases|apply config_destroy_releases].
Qed.

Lemma io_closed io h0 O h :
  own h0 (fp_io io ++ O) h ->
  exists r h', (h ← close_io io h; Ok (None, h)) = Ok (r, h') /\ own h0 (fp_option fp_io r ++ O) h'.
Proof.
  intros H. destruct (close_io_releases io _ _ _ H) as (h' & -> & H'). by exists None, h'.
Qed.

Lemma io_connect_owns s config logger h0 O h :
  own h0 (fp_log logger ++ fp_config config ++ O) h ->
  exists r h', connect_to_scheduler s config logger h = Ok (r, h') /\
    own h0 (fp_option fp_io r ++ O) h'.
Proof.
  intros H. unfold connect_to_scheduler. apply (malloc_if_owns (st_socket s)) in H.
  destruct (malloc_if _ h) as [socket h1]. cbn [fst snd] in H.
  set (io := mk_o_io _ _ _).
  apply (own_reorder (fp_io io ++ O)) in H; [|unfold fp_io; cbn; solve_Permutation].
  destruct socket as [socket|]; [|exact (io_closed _ _ _ _ H)].
  destruct (neutral_own _ _ _ _ send_buffer_neutral H) as (h2 & E2 & H2).
  unfold send_handshake, send_string. rewrite E2. cbn [mbind res_bind].
  destruct (negb (st_sent s)); [exact (io_closed _ _ _ _ H2)|].
  destruct (neutral_own _ _ _ _ (receive_handshake_neutral true) H2) as (h3 & -> & H3).
  cbn [mbind res_bind]. destruct (negb (st_id s)); [exact (io_closed _ _ _ _ H3)|].
  destruct (neutral_own _ _ _ _ send_buffer_neutral H3) as (h4 & -> & H4). cbn [mbind res_bind].
  destruct (negb (st_type s)); [exact (io_closed _ _ _ _ H4)|by exists (Some io), h4].
Qed.

(** Freeing two objects, in whatever order they are owned. *)
Lemma free_two {X} (x : X) a b h0 O h :
  own h0 (b :: a :: O) h ->
  (exists h', (h ← free b h; h ← free a h; Ok (x, h)) = Ok (x, h') /\ own h0 O h') /\
  (exists h', (h ← free a h; h ← free b h; Ok (x, h)) = Ok (x, h') /\ own h0 O h').
Proof.
  intros H. split.
  - destruct (free_releases _ _ _ _ H) as (h1 & -> & H1). cbn [mbind res_bind].
    destruct (free_releases _ _ _ _ H1) as (h2 & -> & H2). by exists h2.
  - apply (own_reorder (a :: b :: O)) in H; [|solve_Permutation].
    destruct (free_releases _ _ _ _ H) as (h1 & -> & H1). cbn [mbind res_bind].
    destruct (free_releases _ _ _ _ H1) as (h2 & -> & H2). by exists h2.
Qed.

Definition well_formed (r : t_request) : bool :=
  match r with
  | R_stdin received _ _ => received
  | R_stdout n _ => bool_decide (n <= 2)%nat
  | R_sleep received _ => received
  end.

Lemma run_stdin_owns line sent h0 O h :
  own h0 O h -> exists k h', run_stdin true line sent h = Ok (k, h') /\ own h0 O h'.
Proof.
  intros H. unfold run_stdin, receive_buffer, malloc_if, send_string.
  allocate H as request. cbn [deref mbind res_bind]. allocate H as buffer.
  destruct line; cbn [negb]; [|destruct (free_two false _ _ _ _ _ H) as [Hf _]; by exists false].
  destruct (neutral_own _ _ _ _ send_buffer_neutral H) as (h1 & -> & H1). cbn [mbind res_bind].
  destruct sent; cbn [negb]; [destruct (free_two true _ _ _ _ _ H1) as [_ Hf]; by exists true|].
  destruct (free_two false _ _ _ _ _ H1) as [Hf _]. by exists false.
Qed.

Lemma run_sleep_owns sent h0 O h :
  own h0 O h -> exists k h', run_sleep true sent h = Ok (k, h') /\ own h0 O h'.
Proof.
  intros H. unfold run_sleep, receive_buffer, malloc_if, send_string.
  allocate H as request. cbn [deref mbind res_bind].
  destruct (neutral_own _ _ _ _ send_buffer_neutral H) as (h1 & -> & H1). cbn [mbind res_bind].
  destruct (free_releases _ _ _ _ H1) as (h2 & -> & H2). by exists sent, h2.
Qed.

(** The first element, if there is one, becomes the caller's. *)
Lemma remove_first_owns (l : t_hlist loc) h0 O h :
  own h0 (fp_values l ++ O) h ->
  exists l' h', list_remove l 0 h = Ok (snd <$> head (hl_links l), l', h') /\
    hl_links l' = tail (hl_links l) /\
    own h0 (fp_option fp_address (snd <$> head (hl_links l)) ++ fp_values l' ++ O) h'.
Proof.
  intros H. destruct (hl_links l) as [|[link x] L] eqn:El.
  - exists l, h. unfold list_remove. by rewrite El.
  - destruct (list_remove_owns fp_address l 0 link x _ _ _ ltac:(by rewrite El) H)
      as (l' & h' & E & El' & H'). exists l', h'. rewrite El in El'. by cbn.
Qed.

Lemma empty_list_destroyed (l : t_hlist loc) h0 O h :
  hl_links l = [] -> own h0 (fp_values l ++ O) h ->
  exists h', list_destroy l h = Ok h' /\ own h0 O h'.
Proof.
  intros El H. apply list_destroy_releases. eapply own_reorder; [|exact H].
  unfold fp_values, fp_hlist. by rewrite El.
Qed.

Lemma run_stdout_owns n sent h0 O h :
  (n <= 2)%nat -> own h0 O h ->
  exists k h', run_stdout n sent h = Ok (k, h') /\ own h0 O h'.
Proof.
  intros Hn H. unfold run_stdout, send_string.
  destruct (packet_received_owns (Some n) _ _ _ H) as (l & h1 & -> & El & H1). cbn [mbind res_bind].
  destruct (remove_first_owns l _ _ _ H1) as (l1 & h2 & -> & El1 & H2). cbn [mbind res_bind].
  apply (own_reorder (fp_values l1 ++ fp_option fp_address (snd <$> head (hl_links l)) ++ O)) in H2;
    [|solve_Permutation].
  destruct (remove_first_owns l1 _ _ _ H2) as (l2 & h3 & -> & El2 & H3). cbn [mbind res_bind].
  apply (own_reorder (fp_values l2 ++ fp_option fp_address (snd <$> head (hl_links l1)) ++
    fp_option fp_address (snd <$> head (hl_links l)) ++ O)) in H3; [|solve_Permutation].
  assert (hl_links l2 = []) as E2.
  { rewrite El2, El1. cbn in El. destruct (hl_links l) as [|? [|? []]]; cbn in *; [done..|lia]. }
  destruct (empty_list_destroyed l2 _ _ _ E2 H3) as (h4 & -> & H4). cbn [mbind res_bind].
  rewrite El1 in *. destruct (hl_links l) as [|[k1 request] [|[k2 buffer] L]]; cbn in *.
  - by exists false, h4.
  - destruct (free_releases _ _ _ _ H4) as (h5 & -> & H5). by exists false, h5.
  - destruct (neutral_own _ _ _ _ send_buffer_neutral H4) as (h5 & -> & H5). cbn [mbind res_bind].
    destruct (free_two sent _ _ _ _ _ H5) as [_ Hf]. by exists sent.
Qed.

Lemma serve_all_owns requests h0 O h :
  forallb well_formed requests = true -> own h0 O h ->
  exists h', serve_all requests h = Ok h' /\ own h0 O h'.
Proof.
  revert h. induction requests as [|r requests IH]; intros h Hw H; [by exists h|].
  apply andb_true_iff in Hw as [Hr Hrs].
  assert (exists k h', serve r h = Ok (k, h') /\ own h0 O h') as (k & h1 & E & H1).
  { destruct r as [received line sent|n sent|received sent]; cbn [serve well_formed] in *.
    - subst. by apply run_stdin_owns.
    - apply bool_decide_eq_true in Hr. by apply run_stdout_owns.
    - subst. by apply run_sleep_owns. }
  cbn [serve_all]. rewrite E. cbn [mbind res_bind]. destruct k; [by apply IH|by exists h1].
Qed.

(** ** What is claimed *)

(** Wherever its start fails and whatever it serves, an IO module ends with nothing
    allocated but values that repeated keys of its configuration replaced; this
    needs that its type is one of the three, the configuration can be opened
    and has a log level, every request arrives and no packet has elements after
    the text. *)
Theorem io_frees_everything arguments path lines s requests h0 :
  is_Some (Text.config_load lines !! txt "LOG_LEVEL") -> forallb well_formed requests = true ->
  exists ok h leaked, main arguments path (Some lines) true s requests h0 = Ok (ok, h) /\
    own h0 leaked h /\
    (length leaked + size (Text.config_load lines) <=
     length (filter (fun line => assigns line = true) lines))%nat.
Proof.
  intros [level Hv] Hw.
  assert (own h0 [] h0) as H by (split_and!; [constructor|set_solver|set_solver]).
  destruct (config_create_owns path lines _ _ _ H) as (c & h1 & leaked & E & He & Hl & H1).
  unfold main, parse_args.
  destruct (negb arguments); [exists false, h0, []; split_and!; [done|done|cbn; lia]|].
  rewrite E. cbn [mbind res_bind]. rewrite app_nil_r in H1. unfold load_config. cbn [deref mbind res_bind].
  rewrite (config_get_string_value_eq c _ _ He). unfold Text.config_get_string_value. rewrite Hv.
  cbn [deref mbind res_bind].
  apply (log_create_owns (Some (st_log s)) (txt "IO")) in H1.
  destruct (log_create _ _ h1) as [logger h2]. cbn [fst snd] in H1. destruct logger as [logger|].
  - cbn [mbind res_bind].
    destruct (io_connect_owns s c logger _ _ _ H1) as (r & h3 & -> & H3). cbn [mbind res_bind].
    destruct r as [io|]; [|exists false, h3, leaked; split_and!; [done|done|lia]].
    destruct (serve_all_owns requests _ _ _ Hw H3) as (h4 & -> & H4). cbn [mbind res_bind].
    destruct (close_io_releases io _ _ _ H4) as (h5 & -> & H5).
    exists true, h5, leaked. split_and!; [done|done|lia].
  - destruct (config_destroy_releases c _ _ _ H1) as (h3 & -> & H3).
    exists false, h3, leaked. split_and!; [done|done|lia].
Qed.

Lemma io_frees_everything_witness :
  is_Some (Text.config_load [txt "LOG_LEVEL=INFO"] !! txt "LOG_LEVEL") /\
  exists ok h leaked, main true (txt "c") (Some [txt "LOG_LEVEL=INFO"]) true
      (mk_start true true true true true)
      [R_stdin true true true; R_stdout 2 true; R_sleep true true; R_stdout 1 true] ∅ = Ok (ok, h) /\
    own ∅ leaked h /\
    (length leaked + size (Text.config_load [txt "LOG_LEVEL=INFO"]) <=
     length (filter (fun line => assigns line = true) [txt "LOG_LEVEL=INFO"]))%nat.
Proof.
  assert (is_Some (Text.config_load [txt "LOG_LEVEL=INFO"] !! txt "LOG_LEVEL")) as H
    by (eexists; vm_compute; reflexivity).
  split; [exact H|]. apply io_frees_everything; [exact H|reflexivity].
Defined.

(** A type that is none of the three leaves the configuration; a configuration
    that cannot be opened is used all the same. *)
Lemma unknown_type_leaks :
  exists h, main true (txt "c") (Some [txt "LOG_LEVEL=INFO"]) false (mk_start true true true true true)
    [] ∅ = Ok (false, h) /\ h <> ∅.
Proof. eexists. split; [vm_compute; reflexivity|]. vm_compute. discriminate. Qed.

Lemma missing_configuration_is_used s requests h :
  main true (txt "c") None true s requests h = Undef NullDeref.
Proof. reflexivity. Qed.

(** What follows the text in a STDOUT request is left. *)
Lemma long_stdout_leaks :
  exists h, main true (txt "c") (Some [txt "LOG_LEVEL=INFO"]) true (mk_start true true true true true)
    [R_stdout 3 true] ∅ = Ok (true, h) /\ h <> ∅.
Proof. eexists. split; [vm_compute; reflexivity|]. vm_compute. discriminate. Qed.
