(* ===== verification/KmHeap.v ===== *)
(** * KmHeap: kernel_memory/src/kernel_memory/initializer.c, cleanup.c, error.c

    What Kernel Memory allocates and frees.  The other files hold its data by
    value; here an object is the addresses it was allocated at, and [malloc] and
    [free] change the set of the addresses that are allocated.  Buffers that a
    function allocates and frees again are left out, and so is the structure that
    the listener of the scheduler allocates for itself and frees when it ends. *)

From S2P Require Import Prelude Heap.

(** ** structs.h: the objects *)

Record o_process := mk_o_process {
  op_self : loc;
  op_instructions : loc;      (** the array *)
  op_lines : list loc;        (** what it points to *)
  op_segments : t_hlist loc }.

Record o_main_memory := mk_o_main_memory {
  om_self : loc; om_mutex : loc;
  om_segments : t_hlist loc; om_holes : t_hlist loc }.

Record o_swap_data := mk_o_swap_data {
  os_self : loc; os_socket : loc; os_blocks : t_hlist loc }.

(** [t_stick_data] and [t_cpu_data]: the struct and its socket. *)
Record o_peer := mk_o_peer { op_struct : loc; op_socket : loc }.

Record o_kernel_memory_data := mk_o_kernel {
  o_self : loc;
  o_socket_kernel_memory : loc;
  o_socket_scheduler : option loc;
  o_sticks : t_hlist o_peer;
  o_cpus : t_hlist o_peer;
  o_processes : t_hlist (option o_process);   (** [None]: a NULL was added *)
  o_memory : o_main_memory;
  o_swap : option o_swap_data;
  o_processes_mutex : loc; o_socket_list_mutex : loc;
  o_active_threads_mutex : loc; o_active_threads_cond : loc }.

(** ** initializer.c *)

Definition init_main_memory h : o_main_memory * t_heap :=
  let (self, h) := malloc h in
  let (mutex, h) := malloc h in
  let (segments, h) := list_create h in
  let (holes, h) := list_create h in
  (mk_o_main_memory self mutex segments holes, h).

Definition init_kernel_memory_data (socket_kernel_memory : loc) h : o_kernel_memory_data * t_heap :=
  let (self, h) := malloc h in
  let (sticks, h) := list_create h in
  let (cpus, h) := list_create h in
  let (processes, h) := list_create h in
  let (memory, h) := init_main_memory h in
  let (processes_mutex, h) := malloc h in
  let (socket_list_mutex, h) := malloc h in
  let (active_threads_mutex, h) := malloc h in
  let (active_threads_cond, h) := malloc h in
  (mk_o_kernel self socket_kernel_memory None sticks cpus processes memory None
     processes_mutex socket_list_mutex active_threads_mutex active_threads_cond, h).

(** [init_stick_data] and [init_cpu_data]. *)
Definition init_peer_data (socket : loc) h : o_peer * t_heap :=
  let (self, h) := malloc h in (mk_o_peer self socket, h).

Fixpoint init_block_list (block_count : nat) (block_list : t_hlist loc) h : t_hlist loc * t_heap :=
  match block_count with
  | O => (block_list, h)
  | S n =>
      let (block, h) := malloc h in
      let (block_list, h) := list_add block_list block h in
      init_block_list n block_list h
  end.

(** [block_count]: [None] when the swap did not send its configuration. *)
Definition init_swap_data (socket_swap : loc) (block_count : option nat) h
    : res (option o_swap_data * t_heap) :=
  let (self, h) := malloc h in
  match block_count with
  | None => h ← free socket_swap h; h ← free self h; Ok (None, h)
  | Some n =>
      let (block_list, h) := list_create h in
      let (block_list, h) := init_block_list n block_list h in
      Ok (Some (mk_o_swap_data self socket_swap block_list), h)
  end.

(** [instruction_count]: [None] when the script cannot be opened.  The list of
    the segments is then not freed. *)
Definition init_process (instruction_count : option nat) h : res (option o_process * t_heap) :=
  let (self, h) := malloc h in
  let (segments, h) := list_create h in
  match instruction_count with
  | None => h ← free self h; Ok (None, h)
  | Some n =>
      let (instructions, h) := malloc h in
      let (lines, h) := mallocs n h in
      Ok (Some (mk_o_process self instructions lines segments), h)
  end.

(** ** cleanup.c *)

Definition free_process (process : option o_process) h : res t_heap :=
  p ← deref process;
  h ← each free (op_lines p) h;
  h ← free (op_instructions p) h;
  h ← list_destroy_and_destroy_elements free (op_segments p) h;
  free (op_self p) h.

Definition free_main_memory (memory : o_main_memory) h : res t_heap :=
  h ← free (om_mutex memory) h;
  h ← list_destroy_and_destroy_elements free (om_segments memory) h;
  h ← list_destroy_and_destroy_elements free (om_holes memory) h;
  free (om_self memory) h.

Definition free_swap_data (swap_data : option o_swap_data) h : res t_heap :=
  match swap_data with
  | None => Ok h
  | Some s =>
      h ← list_destroy_and_destroy_elements free (os_blocks s) h;
      h ← free (os_socket s) h;
      free (os_self s) h
  end.

(** [free_stick_data] and [free_cpu_data]; [socket_destroy] frees the socket. *)
Definition free_peer_data (p : o_peer) h : res t_heap :=
  h ← free (op_socket p) h; free (op_struct p) h.

Definition free_kernel_memory_mutexes (d : o_kernel_memory_data) h : res t_heap :=
  h ← free (o_socket_list_mutex d) h;
  h ← free (o_processes_mutex d) h;
  h ← free (o_active_threads_mutex d) h;
  free (o_active_threads_cond d) h.

Definition free_connected_sticks (d : o_kernel_memory_data) h : res t_heap :=
  h ← each (fun '(_, p) => free_peer_data p) (hl_links (o_sticks d)) h;
  list_destroy (o_sticks d) h.

(** Each is removed from the list, then freed. *)
Definition free_connected_cpus (d : o_kernel_memory_data) h : res t_heap :=
  h ← each (fun '(link, p) h => h ← free link h; free_peer_data p h) (hl_links (o_cpus d)) h;
  free (hl_self (o_cpus d)) h.

Definition free_all_processes (d : o_kernel_memory_data) h : res t_heap :=
  h ← each (fun '(_, p) => free_process p) (hl_links (o_processes d)) h;
  list_destroy (o_processes d) h.

Definition socket_destroy (socket : option loc) h : res t_heap :=
  match socket with None => Ok h | Some l => free l h end.

(** Once no listener is left. *)
Definition free_kernel_memory_data (d : o_kernel_memory_data) h : res t_heap :=
  h ← free_kernel_memory_mutexes d h;
  h ← free_connected_sticks d h;
  h ← free_connected_cpus d h;
  h ← free_swap_data (o_swap d) h;
  h ← free_main_memory (o_memory d) h;
  h ← free_all_processes d h;
  h ← socket_destroy (o_socket_scheduler d) h;
  h ← free (o_socket_kernel_memory d) h;
  free (o_self d) h.

(** ** server.c, connections.c, scheduler_listener.c, holes.c: what changes the data

    [O_unknown] is a client that is none of the modules: its socket is left.
    [sent] is whether the answer to the handshake could be sent; if not,
    [send_handshake_error] destroys the socket. *)

Definition set_o_scheduler (s : option loc) (d : o_kernel_memory_data) : o_kernel_memory_data :=
  mk_o_kernel (o_self d) (o_socket_kernel_memory d) s (o_sticks d) (o_cpus d) (o_processes d)
    (o_memory d) (o_swap d) (o_processes_mutex d) (o_socket_list_mutex d)
    (o_active_threads_mutex d) (o_active_threads_cond d).
Definition set_o_sticks l (d : o_kernel_memory_data) : o_kernel_memory_data :=
  mk_o_kernel (o_self d) (o_socket_kernel_memory d) (o_socket_scheduler d) l (o_cpus d)
    (o_processes d) (o_memory d) (o_swap d) (o_processes_mutex d) (o_socket_list_mutex d)
    (o_active_threads_mutex d) (o_active_threads_cond d).
Definition set_o_cpus l (d : o_kernel_memory_data) : o_kernel_memory_data :=
  mk_o_kernel (o_self d) (o_socket_kernel_memory d) (o_socket_scheduler d) (o_sticks d) l
    (o_processes d) (o_memory d) (o_swap d) (o_processes_mutex d) (o_socket_list_mutex d)
    (o_active_threads_mutex d) (o_active_threads_cond d).
Definition set_o_processes l (d : o_kernel_memory_data) : o_kernel_memory_data :=
  mk_o_kernel (o_self d) (o_socket_kernel_memory d) (o_socket_scheduler d) (o_sticks d)
    (o_cpus d) l (o_memory d) (o_swap d) (o_processes_mutex d) (o_socket_list_mutex d)
    (o_active_threads_mutex d) (o_active_threads_cond d).
Definition set_o_memory m (d : o_kernel_memory_data) : o_kernel_memory_data :=
  mk_o_kernel (o_self d) (o_socket_kernel_memory d) (o_socket_scheduler d) (o_sticks d)
    (o_cpus d) (o_processes d) m (o_swap d) (o_processes_mutex d) (o_socket_list_mutex d)
    (o_active_threads_mutex d) (o_active_threads_cond d).
Definition set_o_swap s (d : o_kernel_memory_data) : o_kernel_memory_data :=
  mk_o_kernel (o_self d) (o_socket_kernel_memory d) (o_socket_scheduler d) (o_sticks d)
    (o_cpus d) (o_processes d) (o_memory d) s (o_processes_mutex d) (o_socket_list_mutex d)
    (o_active_threads_mutex d) (o_active_threads_cond d).

Definition set_segments l (m : o_main_memory) : o_main_memory :=
  mk_o_main_memory (om_self m) (om_mutex m) l (om_holes m).
Definition set_holes l (m : o_main_memory) : o_main_memory :=
  mk_o_main_memory (om_self m) (om_mutex m) (om_segments m) l.

Inductive t_operation :=
  | O_unknown
  | O_scheduler (sent : bool) | O_cpu (sent : bool) | O_stick (sent : bool)
  | O_swap (sent : bool) (block_count : option nat)
  | O_new_process (instruction_count : option nat) | O_end_process (i : nat)
  | O_new_segment | O_remove_segment (i : nat) | O_new_hole | O_remove_hole (i : nat).

Definition send_handshake_error (client_socket : loc) h : res t_heap :=
  socket_destroy (Some client_socket) h.

Definition operate (o : t_operation) (y : o_kernel_memory_data * t_heap)
    : res (o_kernel_memory_data * t_heap) :=
  let '(d, h) := y in
  match o with
  | O_unknown => let (client, h) := malloc h in Ok (d, h)
  | O_scheduler sent =>
      let (client, h) := malloc h in
      if sent then Ok (set_o_scheduler (Some client) d, h)
      else h ← send_handshake_error client h; Ok (d, h)
  | O_cpu sent =>
      let (client, h) := malloc h in
      match o_socket_scheduler d with
      | None => h ← socket_destroy (Some client) h; Ok (d, h)
      | Some _ =>
          if negb sent then h ← send_handshake_error client h; Ok (d, h) else
          let (cpu, h) := init_peer_data client h in
          let (l, h) := list_add (o_cpus d) cpu h in Ok (set_o_cpus l d, h)
      end
  | O_stick sent =>
      let (client, h) := malloc h in
      if negb sent then h ← send_handshake_error client h; Ok (d, h) else
      let (stick, h) := init_peer_data client h in
      let (l, h) := list_add (o_sticks d) stick h in Ok (set_o_sticks l d, h)
  | O_swap sent block_count =>
      let (client, h) := malloc h in
      if negb sent then h ← send_handshake_error client h; Ok (d, h) else
      '(s, h) ← init_swap_data client block_count h; Ok (set_o_swap s d, h)
  | O_new_process n =>
      '(p, h) ← init_process n h;
      let (l, h) := list_add (o_processes d) p h in Ok (set_o_processes l d, h)
  | O_end_process i =>
      '(p, l, h) ← list_remove (o_processes d) i h;
      match p with
      | Some p => h ← free_process p h; Ok (set_o_processes l d, h)
      | None => Ok (d, h)
      end
  | O_new_segment =>
      let (l, h) := new_element (om_segments (o_memory d)) h in
      Ok (set_o_memory (set_segments l (o_memory d)) d, h)
  | O_remove_segment i =>
      '(l, h) ← list_remove_and_destroy_element (om_segments (o_memory d)) i h;
      Ok (set_o_memory (set_segments l (o_memory d)) d, h)
  | O_new_hole =>
      let (l, h) := new_element (om_holes (o_memory d)) h in
      Ok (set_o_memory (set_holes l (o_memory d)) d, h)
  | O_remove_hole i =>
      '(l, h) ← list_remove_and_destroy_element (om_holes (o_memory d)) i h;
      Ok (set_o_memory (set_holes l (o_memory d)) d, h)
  end.

(** From the server socket to the end. *)
Definition run (operations : list t_operation) h : res t_heap :=
  let (socket_kernel_memory, h) := malloc h in
  '(d, h) ← each operate operations (init_kernel_memory_data socket_kernel_memory h);
  free_kernel_memory_data d h.

(** *** Footprints *)

Definition fp_process (p : o_process) : list loc :=
  op_self p :: op_instructions p :: op_lines p ++ fp_hlist (fun x => [x]) (op_segments p).
Definition fp_main_memory (m : o_main_memory) : list loc :=
  om_self m :: om_mutex m
  :: fp_hlist (fun x => [x]) (om_segments m) ++ fp_hlist (fun x => [x]) (om_holes m).
Definition fp_swap (s : o_swap_data) : list loc :=
  os_self s :: os_socket s :: fp_hlist (fun x => [x]) (os_blocks s).
Definition fp_peer (p : o_peer) : list loc := [op_struct p; op_socket p].
(** Everything that belongs to Kernel Memory's data. *)
Definition owned (d : o_kernel_memory_data) : list loc :=
  [o_self d; o_socket_kernel_memory d; o_processes_mutex d; o_socket_list_mutex d;
   o_active_threads_mutex d; o_active_threads_cond d]
  ++ fp_option (fun s => [s]) (o_socket_scheduler d)
  ++ fp_hlist fp_peer (o_sticks d) ++ fp_hlist fp_peer (o_cpus d)
  ++ fp_hlist (fp_option fp_process) (o_processes d)
  ++ fp_main_memory (o_memory d) ++ fp_option fp_swap (o_swap d).

Lemma free_process_releases p : releases (free_process (Some p)) (fp_process p).
Proof.
  unfold free_process. cbn [deref mbind res_bind]. eapply releases_perm.
  - apply releases_bind; [apply frees_releases|]. apply free_then_releases.
    apply releases_bind; [apply list_of_frees_releases|]. apply free_releases.
  - unfold fp_process. solve_Permutation.
Qed.

Lemma free_main_memory_releases m : releases (free_main_memory m) (fp_main_memory m).
Proof.
  unfold free_main_memory. eapply releases_perm.
  - apply free_then_releases. apply releases_bind; [apply list_of_frees_releases|].
    apply releases_bind; [apply list_of_frees_releases|]. apply free_releases.
  - unfold fp_main_memory. solve_Permutation.
Qed.

Lemma free_swap_releases s : releases (free_swap_data s) (fp_option fp_swap s).
Proof.
  destruct s as [s|]; [|apply releases_nothing]. unfold free_swap_data. eapply releases_perm.
  - apply releases_bind; [apply list_of_frees_releases|]. apply free_then_releases, free_releases.
  - cbn. unfold fp_swap. solve_Permutation.
Qed.

Lemma free_peer_releases p : releases (free_peer_data p) (fp_peer p).
Proof.
  unfold free_peer_data. eapply releases_perm; [apply free_then_releases, free_releases|].
  unfold fp_peer. solve_Permutation.
Qed.

Lemma free_sticks_releases d :
  releases (free_connected_sticks d) (fp_hlist fp_peer (o_sticks d)).
Proof. apply elements_then_list. intros. apply free_peer_releases. Qed.

Lemma free_cpus_releases d : releases (free_connected_cpus d) (fp_hlist fp_peer (o_cpus d)).
Proof.
  eapply releases_perm.
  - apply releases_bind; [|apply free_releases].
    apply (releases_each _ (fun '(link, p) => link :: fp_peer p)). intros [link p] _.
    apply free_then_releases, free_peer_releases.
  - unfold fp_hlist. by rewrite <- Permutation_cons_append.
Qed.

(** No NULL was added to the processes. *)
Definition scripts_found (d : o_kernel_memory_data) : Prop :=
  Forall (fun p => is_Some p.2) (hl_links (o_processes d)).

Lemma free_processes_releases d :
  scripts_found d ->
  releases (free_all_processes d) (fp_hlist (fp_option fp_process) (o_processes d)).
Proof.
  intros Hd. apply elements_then_list.
  intros x ([link y] & -> & Hx)%list_elem_of_fmap. unfold scripts_found in Hd.
  rewrite Forall_forall in Hd. destruct (Hd _ Hx) as [p Hp]. cbn in *. subst.
  apply free_process_releases.
Qed.

Lemma free_data_releases d : scripts_found d -> releases (free_kernel_memory_data d) (owned d).
Proof.
  intros Hd. unfold free_kernel_memory_data, free_kernel_memory_mutexes.
  eapply releases_perm.
  - apply releases_bind.
    { apply free_then_releases, free_then_releases, free_then_releases, free_releases. }
    apply releases_bind; [apply free_sticks_releases|].
    apply releases_bind; [apply free_cpus_releases|].
    apply releases_bind; [apply free_swap_releases|].
    apply releases_bind; [apply free_main_memory_releases|].
    apply releases_bind; [by apply free_processes_releases|].
    apply (releases_bind _ _ (fp_option (fun s => [s]) (o_socket_scheduler d))).
    { destruct (o_socket_scheduler d); [apply free_releases|apply releases_nothing]. }
    apply free_then_releases, free_releases.
  - unfold owned. solve_Permutation.
Qed.

Ltac allocating H :=
  match type of H with
  | own _ _ ?h =>
      match goal with
      | |- context [malloc h] => allocate H
      | |- context [list_create h] =>
          first [ allocate_list fp_peer H | allocate_list (fp_option fp_process) H
                | allocate_list (fun x : loc => [x]) H ]
      end
  end.

Lemma init_main_memory_allocates : allocates init_main_memory fp_main_memory.
Proof.
  intros h0 O h Hh. unfold init_main_memory. do 4 allocating Hh. cbn.
  eapply own_perm; [|done|exact Hh]. unfold fp_main_memory. cbn. solve_Permutation.
Qed.

Lemma init_data_owns s h0 O h :
  own h0 (s :: O) h ->
  own h0 (owned (init_kernel_memory_data s h).1 ++ O) (init_kernel_memory_data s h).2 /\
  o_socket_scheduler (init_kernel_memory_data s h).1 = None /\
  o_swap (init_kernel_memory_data s h).1 = None /\
  hl_links (o_processes (init_kernel_memory_data s h).1) = [].
Proof.
  intros Hh. unfold init_kernel_memory_data. do 3 allocating Hh.
  assert (forall h, hl_links (list_create (A := option o_process) h).1 = []) as Hnil
    by (intros h'; unfold list_create; by destruct (malloc h')).
  match type of Hh with own _ _ ?h' => specialize (Hnil h') end.
  allocating Hh. cbn [fst] in Hnil.
  match type of Hh with own _ _ ?h' => apply init_main_memory_allocates in Hh;
    destruct (init_main_memory h') as [m h5] end. cbn [fst snd] in Hh.
  do 4 allocating Hh. split_and!; [|done..]. cbn. eapply own_perm; [|done|exact Hh].
  unfold owned. cbn. solve_Permutation.
Qed.

Lemma init_block_list_owns n l h0 O h :
  own h0 (fp_hlist (fun x => [x]) l ++ O) h ->
  own h0 (fp_hlist (fun x => [x]) (init_block_list n l h).1 ++ O) (init_block_list n l h).2.
Proof.
  revert l h. induction n as [|n IH]; intros l h Hh; [done|]. cbn [init_block_list].
  allocating Hh. apply (list_add_owns (fun x => [x])) in Hh.
  destruct (list_add l _ _) as [l' h']. cbn in Hh. by apply IH.
Qed.

Lemma init_block_list_length n l h :
  length (hl_links (init_block_list n l h).1) = (length (hl_links l) + n)%nat.
Proof.
  revert l h. induction n as [|n IH]; intros l h; cbn [init_block_list]; [cbn; lia|].
  destruct (malloc h) as [b h1]. unfold list_add. destruct (malloc h1) as [k h2].
  rewrite IH. cbn. rewrite length_app. cbn. lia.
Qed.

(** The number of blocks of a swap. *)
Definition blocks_of (s : option o_swap_data) : option nat :=
  (fun s => length (hl_links (os_blocks s))) <$> s.

Lemma init_swap_data_owns s n h0 O h :
  own h0 (s :: O) h ->
  exists x h', init_swap_data s n h = Ok (x, h') /\ own h0 (fp_option fp_swap x ++ O) h' /\
    blocks_of x = n.
Proof.
  intros Hh. unfold init_swap_data. allocating Hh. destruct n as [n|].
  - assert (forall h, hl_links (list_create (A := loc) h).1 = []) as Hnil
      by (intros h'; unfold list_create; by destruct (malloc h')).
    match type of Hh with own _ _ ?h' => specialize (Hnil h') end.
    allocating Hh. cbn [fst] in Hnil.
    match type of Hh with own _ (fp_hlist _ ?l ++ _) ?h' =>
      pose proof (init_block_list_length n l h') as Hn end.
    apply (init_block_list_owns n) in Hh.
    destruct (init_block_list n _ _) as [l h']. cbn in Hh, Hn. do 2 eexists. split; [done|].
    split; [|unfold blocks_of; cbn; by rewrite Hn, Hnil]. eapply own_perm; [|done|exact Hh]. cbn.
    unfold fp_swap. cbn. solve_Permutation.
  - apply (proj1 (own_perm h0 _ _ (perm_swap _ _ _) _ _ eq_refl)) in Hh.
    destruct (free_releases _ _ _ _ Hh) as (h1 & -> & Hh1). cbn [mbind res_bind].
    destruct (free_releases _ _ _ _ Hh1) as (h2 & -> & Hh2). cbn [mbind res_bind].
    do 2 eexists. split; [done|]. split; [done|]. done.
Qed.

Lemma init_process_owns n h0 O h :
  own h0 O h ->
  exists p h', init_process (Some n) h = Ok (Some p, h') /\ own h0 (fp_process p ++ O) h'.
Proof.
  intros Hh. unfold init_process. do 3 allocating Hh.
  match type of Hh with own _ _ ?h' => apply (mallocs_allocates n) in Hh;
    destruct (mallocs n h') as [ls h5] end. cbn in Hh.
  do 2 eexists. split; [done|]. eapply own_perm; [|done|exact Hh]. unfold fp_process. cbn.
  solve_Permutation.
Qed.

Lemma init_process_missing h0 O h :
  own h0 O h -> exists l h', init_process None h = Ok (None, h') /\ own h0 (l :: O) h'.
Proof.
  intros Hh. unfold init_process. allocating Hh.
  pose proof (list_create_allocates (A := loc) (fun x => [x]) _ _ _ Hh) as H.
  assert (forall h, hl_links (list_create (A := loc) h).1 = []) as Hnil
    by (intros h'; unfold list_create; by destruct (malloc h')).
  match type of Hh with own _ _ ?h' => specialize (Hnil h'); destruct (list_create h') as [s h1] end.
  cbn [fst snd] in H, Hnil. unfold fp_hlist in H. rewrite Hnil in H. cbn in H.
  apply (proj1 (own_perm h0 _ _ (perm_swap _ _ _) _ _ eq_refl)) in H.
  destruct (free_releases _ _ _ _ H) as (h2 & -> & H2). by do 2 eexists.
Qed.

(** ** What is lost *)

(** Whether a scheduler is connected, and the blocks of the swap, if there is one. *)
Definition connected (d : o_kernel_memory_data) : bool * option nat :=
  (bool_decide (is_Some (o_socket_scheduler d)), blocks_of (o_swap d)).

(** How many objects an operation loses, and what is connected after it: the
    socket of a client of no module, that of the scheduler when a second one
    connects, all of the swap's data when a second one does, and the list of a
    process whose script is not found. *)
Definition lost_by (c : bool * option nat) (o : t_operation) : nat * (bool * option nat) :=
  let '(scheduler, swap) := c in
  match o with
  | O_unknown => (1%nat, c)
  | O_scheduler true => (Nat.b2n scheduler, (true, swap))
  | O_swap true n => (match swap with Some k => 3 + 2 * k | None => 0 end, (scheduler, n))%nat
  | O_new_process None => (1%nat, c)
  | _ => (0%nat, c)
  end.

Fixpoint lost (c : bool * option nat) (operations : list t_operation) : nat :=
  match operations with
  | [] => 0
  | o :: os => (lost_by c o).1 + lost (lost_by c o).2 os
  end.

(** Its script is found. *)
Definition script_found (o : t_operation) : bool :=
  match o with O_new_process None => false | _ => true end.

(** Data at work: besides what it owns, the objects that were lost. *)
Definition at_work (h0 : t_heap) (c : bool * option nat) (L : list loc)
    (y : o_kernel_memory_data * t_heap) : Prop :=
  own h0 (owned y.1 ++ L) y.2 /\ connected y.1 = c.

(** An operation goes well and loses what [lost_by] says, or it frees a process
    that is NULL because its script was not found. *)
Definition works_on (o : t_operation) h0 c (L : list loc) y : Prop :=
  (exists y' L', operate o y = Ok y' /\ at_work h0 (lost_by c o).2 L' y' /\
     length L' = (length L + (lost_by c o).1)%nat /\
     (scripts_found y'.1 <-> scripts_found y.1 /\ script_found o = true)) \/
  operate o y = Undef NullDeref /\ ~ scripts_found y.1.

Definition works (o : t_operation) : Prop :=
  forall h0 c L y, at_work h0 c L y -> works_on o h0 c L y.

Lemma works_intro y' (L' : list loc) o h0 c L y :
  operate o y = Ok y' -> own h0 (owned y'.1 ++ L') y'.2 ->
  connected y'.1 = (lost_by c o).2 -> length L' = (length L + (lost_by c o).1)%nat ->
  (scripts_found y'.1 <-> scripts_found y.1 /\ script_found o = true) ->
  works_on o h0 c L y.
Proof. intros. left. exists y', L'. by split_and!. Qed.

Lemma works_same y' o h0 c L y :
  operate o y = Ok y' -> own h0 (owned y'.1 ++ L) y'.2 ->
  connected y'.1 = connected y.1 -> connected y.1 = c -> lost_by c o = (0%nat, c) ->
  o_processes y'.1 = o_processes y.1 -> script_found o = true -> works_on o h0 c L y.
Proof.
  intros Ho H Hc <- E Hp Hs. eapply works_intro; [exact Ho|exact H|by rewrite Hc, E|rewrite E; cbn; lia|].
  unfold scripts_found. rewrite Hp, Hs. tauto.
Qed.

(** The parts of the data: what an operation leaves alone is the other parts. *)
Definition parts (d : o_kernel_memory_data) : list (list loc) :=
  [[o_self d; o_socket_kernel_memory d; o_processes_mutex d; o_socket_list_mutex d;
    o_active_threads_mutex d; o_active_threads_cond d];
   fp_option (fun s => [s]) (o_socket_scheduler d);
   fp_hlist fp_peer (o_sticks d); fp_hlist fp_peer (o_cpus d);
   fp_hlist (fp_option fp_process) (o_processes d);
   fp_main_memory (o_memory d); fp_option fp_swap (o_swap d)].

Lemma owned_part d k x :
  parts d !! k = Some x -> owned d ≡ₚ x ++ concat (delete k (parts d)).
Proof.
  intros Hk. transitivity (concat (parts d)).
  - unfold owned, parts. cbn. by rewrite app_nil_r.
  - by rewrite (delete_Permutation _ _ _ Hk) at 1.
Qed.

Lemma own_part d k x L h0 h :
  parts d !! k = Some x -> own h0 (owned d ++ L) h ->
  own h0 (x ++ concat (delete k (parts d)) ++ L) h.
Proof.
  intros Hk. apply own_reorder. by rewrite (owned_part _ _ _ Hk), app_assoc.
Qed.

(** An operation that changes one part. *)
Lemma part_changes h0 d d' k x x' L h' :
  parts d !! k = Some x -> parts d' !! k = Some x' ->
  delete k (parts d') = delete k (parts d) ->
  own h0 (x' ++ concat (delete k (parts d)) ++ L) h' -> own h0 (owned d' ++ L) h'.
Proof.
  intros Hx Hx' E. apply own_reorder. by rewrite (owned_part _ _ _ Hx'), E, app_assoc.
Qed.

Ltac part k d H := apply (own_part d k _ _ _ _ eq_refl) in H.
Ltac part_changed k H := eapply (part_changes _ _ _ k); [reflexivity..|exact H].

(** A client that is turned away: its socket is destroyed. *)
Lemma turned_away_works o h0 c L d h :
  at_work h0 c L (d, h) -> lost_by c o = (0%nat, c) -> script_found o = true ->
  operate o (d, h) = (let (client, h) := malloc h in h ← free client h; Ok (d, h)) ->
  works_on o h0 c L (d, h).
Proof.
  intros [H Hc] Hl Hs Ho. destruct (turned_away _ _ _ H) as (h' & E & Hh).
  rewrite malloc_eq in Ho. cbn [fst snd] in *. rewrite E in Ho. by apply (works_same (d, h')).
Qed.

Lemma unknown_works : works O_unknown.
Proof.
  intros h0 c L [d h] [H Hd]. cbn [fst snd] in *. pose proof (malloc_allocates _ _ _ H) as H'.
  apply (works_intro (d, (malloc h).2) ((malloc h).1 :: L)).
  - cbn. by destruct (malloc h).
  - eapply own_reorder; [|exact H']. cbn [fst]. solve_Permutation.
  - by destruct c.
  - destruct c. cbn. lia.
  - unfold scripts_found. cbn. tauto.
Qed.

Lemma scheduler_works sent : works (O_scheduler sent).
Proof.
  intros h0 c L [d h] H. destruct sent.
  2: { apply turned_away_works; [exact H|by destruct c|done|]. cbn. by destruct (malloc h). }
  destruct H as [H <-]. cbn [fst snd] in *.
  part 1%nat d H. apply malloc_allocates in H.
  apply (works_intro (set_o_scheduler (Some (malloc h).1) d, (malloc h).2)
    (fp_option (fun s => [s]) (o_socket_scheduler d) ++ L)).
  - cbn. by destruct (malloc h).
  - apply (part_changes h0 d (set_o_scheduler (Some (malloc h).1) d) 1%nat _ [(malloc h).1]
      _ _ eq_refl eq_refl eq_refl).
    eapply own_reorder; [|exact H]. solve_Permutation.
  - done.
  - rewrite length_app. cbn. destruct (o_socket_scheduler d); cbn; lia.
  - unfold scripts_found. cbn. tauto.
Qed.

(** A connected peer is added to its list. *)
Lemma peer_added l h0 O h :
  own h0 (fp_hlist fp_peer l ++ O) h ->
  let '(socket, h) := malloc h in
  let '(p, h) := init_peer_data socket h in
  let '(l', h) := list_add l p h in own h0 (fp_hlist fp_peer l' ++ O) h.
Proof.
  intros H. allocating H. unfold init_peer_data. allocating H.
  apply (list_add_owns fp_peer l (mk_o_peer _ _)) in H. by destruct (list_add l _ _) as [l' h'].
Qed.

Lemma cpu_works sent : works (O_cpu sent).
Proof.
  intros h0 c L [d h] H.
  destruct (o_socket_scheduler d) eqn:E.
  2: { apply turned_away_works; [exact H|by destruct c|done|]. cbn. rewrite E. by destruct (malloc h). }
  destruct sent.
  2: { apply turned_away_works; [exact H|by destruct c|done|]. cbn. rewrite E. by destruct (malloc h). }
  destruct H as [H Hc]. cbn [fst snd] in *.
  part 3%nat d H. apply peer_added in H. destruct (malloc h) as [socket h1] eqn:E1.
  destruct (init_peer_data socket h1) as [peer h2] eqn:E2.
  destruct (list_add _ peer h2) as [l h3] eqn:E3.
  apply (works_same (set_o_cpus l d, h3)); [cbn; by rewrite E1, E, E2, E3| |done|done|by destruct c|done|done].
  part_changed 3%nat H.
Qed.

Lemma stick_works sent : works (O_stick sent).
Proof.
  intros h0 c L [d h] H. destruct sent.
  2: { apply turned_away_works; [exact H|by destruct c|done|]. cbn. by destruct (malloc h). }
  destruct H as [H Hc]. cbn [fst snd] in *.
  part 2%nat d H. apply peer_added in H. destruct (malloc h) as [socket h1] eqn:E1.
  destruct (init_peer_data socket h1) as [peer h2] eqn:E2.
  destruct (list_add _ peer h2) as [l h3] eqn:E3.
  apply (works_same (set_o_sticks l d, h3)); [cbn; by rewrite E1, E2, E3| |done|done|by destruct c|done|done].
  part_changed 2%nat H.
Qed.

(** All that belongs to a swap: its struct, its socket, the list of its blocks,
    and for each block its link and its struct. *)
Lemma fp_list_length (l : t_hlist loc) :
  length (fp_hlist (fun x => [x]) l) = (1 + 2 * length (hl_links l))%nat.
Proof.
  unfold fp_hlist. cbn [length]. induction (hl_links l) as [|[k x] ls IH]; [done|].
  cbn in *. lia.
Qed.

Lemma fp_swap_length s :
  length (fp_option fp_swap s) = match blocks_of s with Some k => 3 + 2 * k | None => 0 end%nat.
Proof. destruct s as [s|]; [|done]. cbn [fp_option]. unfold fp_swap, blocks_of. cbn [fmap option_fmap option_map].
  cbn [length]. rewrite fp_list_length. lia. Qed.

Lemma swap_works sent n : works (O_swap sent n).
Proof.
  intros h0 c L [d h] H. destruct sent.
  2: { apply turned_away_works; [exact H|by destruct c|done|]. cbn. by destruct (malloc h). }
  destruct H as [H <-]. cbn [fst snd] in *.
  part 6%nat d H. apply malloc_allocates in H.
  destruct (init_swap_data_owns _ n _ _ _ H) as (x & h' & E & H' & Hx).
  apply (works_intro (set_o_swap x d, h') (fp_option fp_swap (o_swap d) ++ L)).
  - cbn. rewrite malloc_eq. cbn [negb]. by rewrite E.
  - apply (part_changes h0 d (set_o_swap x d) 6%nat _ (fp_option fp_swap x)
      _ _ eq_refl eq_refl eq_refl).
    eapply own_reorder; [|exact H']. solve_Permutation.
  - unfold connected. cbn [fst set_o_swap o_swap o_socket_scheduler lost_by snd]. by rewrite Hx.
  - rewrite length_app, fp_swap_length. cbn. lia.
  - unfold scripts_found. cbn. tauto.
Qed.

(** One list of the main memory, and the rest. *)
Lemma main_memory_segments m l :
  fp_main_memory (set_segments l m)
  ≡ₚ fp_hlist (fun x => [x]) l ++ om_self m :: om_mutex m :: fp_hlist (fun x => [x]) (om_holes m).
Proof. apply (Permutation_app_swap_app [om_self m; om_mutex m]). Qed.

Lemma main_memory_holes m l :
  fp_main_memory (set_holes l m)
  ≡ₚ fp_hlist (fun x => [x]) l ++ om_self m :: om_mutex m :: fp_hlist (fun x => [x]) (om_segments m).
Proof.
  apply (Permutation_app_comm (om_self m :: om_mutex m :: fp_hlist _ (om_segments m))).
Qed.

Lemma owned_segments d : exists O, forall l,
  owned (set_o_memory (set_segments l (o_memory d)) d) ≡ₚ fp_hlist (fun x => [x]) l ++ O.
Proof.
  exists ((om_self (o_memory d) :: om_mutex (o_memory d)
           :: fp_hlist (fun x => [x]) (om_holes (o_memory d))) ++ concat (delete 5%nat (parts d))).
  intros l. rewrite (owned_part (set_o_memory (set_segments l (o_memory d)) d) 5%nat
             (fp_main_memory (set_segments l (o_memory d))) eq_refl).
  rewrite main_memory_segments, <- app_assoc.
  reflexivity.
Qed.

Lemma owned_holes d : exists O, forall l,
  owned (set_o_memory (set_holes l (o_memory d)) d) ≡ₚ fp_hlist (fun x => [x]) l ++ O.
Proof.
  exists ((om_self (o_memory d) :: om_mutex (o_memory d)
           :: fp_hlist (fun x => [x]) (om_segments (o_memory d))) ++ concat (delete 5%nat (parts d))).
  intros l. rewrite (owned_part (set_o_memory (set_holes l (o_memory d)) d) 5%nat
             (fp_main_memory (set_holes l (o_memory d))) eq_refl).
  rewrite main_memory_holes, <- app_assoc.
  reflexivity.
Qed.

(** An operation on one of these lists. *)
Definition element_op (f : t_hlist loc -> t_heap -> res (t_hlist loc * t_heap)) : Prop :=
  forall l h0 O h, own h0 (fp_hlist (fun x => [x]) l ++ O) h ->
  exists l' h', f l h = Ok (l', h') /\ own h0 (fp_hlist (fun x => [x]) l' ++ O) h'.

Lemma memory_works get set o f :
  (forall d, exists O, forall l, owned (set l d) ≡ₚ fp_hlist (fun x => [x]) l ++ O) ->
  (forall d, set (get d) d = d) ->
  (forall l d, connected (set l d) = connected d /\ o_processes (set l d) = o_processes d) ->
  (forall c, lost_by c o = (0%nat, c) /\ script_found o = true) ->
  (forall d h, operate o (d, h) = ('(l, h) ← f (get d) h; Ok (set l d, h))) ->
  element_op f -> works o.
Proof.
  intros HO Hget Hset Hp Ho Hf h0 c L [d h] [H Hd]. cbn [fst snd] in *.
  destruct (HO d) as [O HO']. rewrite <- (Hget d), HO', <- app_assoc in H at 1.
  destruct (Hf _ _ _ _ H) as (l' & h' & E & H'). destruct (Hset l' d) as [E1 E2].
  apply (works_same (set l' d, h')); [by rewrite Ho, E| |done|done|apply Hp|done|by apply (Hp c)].
  cbn [fst snd]. by rewrite HO', <- app_assoc.
Qed.

Ltac on_memory get set f H :=
  apply (memory_works (fun d => get (o_memory d)) (fun l d => set_o_memory (set l (o_memory d)) d) _ f);
  [exact H|by intros [? ? ? ? ? ? [] ? ? ? ? ?]|done|by intros []|idtac|].

Lemma new_element_op : element_op (fun l h => Ok (new_element l h)).
Proof.
  intros l h0 O h H. apply new_element_owns in H. destruct (new_element l h) as [l' h'].
  by exists l', h'.
Qed.

Lemma removed_element_op i : element_op (fun l h => list_remove_and_destroy_element l i h).
Proof. intros l h0 O h H. by apply removed_element_owns. Qed.

Lemma new_segment_works : works O_new_segment.
Proof.
  on_memory om_segments set_segments (fun l h => Ok (new_element l h)) owned_segments;
    [|apply new_element_op].
  intros d h. cbn. by destruct (new_element _ h).
Qed.

Lemma new_hole_works : works O_new_hole.
Proof.
  on_memory om_holes set_holes (fun l h => Ok (new_element l h)) owned_holes;
    [|apply new_element_op].
  intros d h. cbn. by destruct (new_element _ h).
Qed.

Lemma remove_segment_works i : works (O_remove_segment i).
Proof.
  by on_memory om_segments set_segments
    (fun (l : t_hlist loc) h => list_remove_and_destroy_element l i h) owned_segments;
    [|apply removed_element_op].
Qed.

Lemma remove_hole_works i : works (O_remove_hole i).
Proof.
  by on_memory om_holes set_holes
    (fun (l : t_hlist loc) h => list_remove_and_destroy_element l i h) owned_holes;
    [|apply removed_element_op].
Qed.

(** A process is added, or a NULL when its script is not found; then the list of
    its segments is lost. *)
Lemma process_added_works n y' (L' : list loc) h0 c L d h p h1 :
  init_process n h = Ok (p, h1) -> y' = (set_o_processes (list_add (o_processes d) p h1).1 d,
    (list_add (o_processes d) p h1).2) ->
  own h0 (fp_option fp_process p ++ fp_hlist (fp_option fp_process) (o_processes d)
            ++ concat (delete 4%nat (parts d)) ++ L') h1 ->
  connected d = c -> length L' = (length L + (lost_by c (O_new_process n)).1)%nat ->
  (is_Some p <-> script_found (O_new_process n) = true) ->
  works_on (O_new_process n) h0 c L (d, h).
Proof.
  intros E -> H Hc HL Hp.
  apply (list_add_owns (fp_option fp_process) _ p) in H.
  assert (hl_links (list_add (o_processes d) p h1).1
    = hl_links (o_processes d) ++ [((malloc h1).1, p)]) as El
    by (unfold list_add; by destruct (malloc h1)).
  eapply (works_intro (_, _) L'); cbn [fst snd].
  - cbn [operate]. rewrite E. cbn [mbind res_bind].
    rewrite (surjective_pairing (list_add _ _ _)). reflexivity.
  - part_changed 4%nat H.
  - subst c. by destruct n.
  - exact HL.
  - unfold scripts_found. cbn [o_processes set_o_processes]. rewrite El, Forall_app, Forall_singleton.
    cbn [snd]. tauto.
Qed.

Lemma new_process_works n : works (O_new_process n).
Proof.
  intros h0 c L [d h] [H Hd]. cbn [fst snd] in *. part 4%nat d H. destruct n as [n|].
  - destruct (init_process_owns n _ _ _ H) as (p & h1 & E & H1).
    eapply (process_added_works _ _ L); [exact E|reflexivity|exact H1|exact Hd|destruct c; cbn; lia|].
    split; [done|by eexists].
  - destruct (init_process_missing _ _ _ H) as (l & h1 & E & H1).
    eapply (process_added_works _ _ (l :: L)); [exact E|reflexivity| |exact Hd|destruct c; cbn; lia|].
    + eapply own_reorder; [|exact H1]. cbn [fp_option]. solve_Permutation.
    + split; [by intros [? ?]|done].
Qed.

Lemma delete_Forall_iff {A} (P : A -> Prop) l i x :
  l !! i = Some x -> P x -> Forall P (delete i l) <-> Forall P l /\ true = true.
Proof.
  intros Hi Hx. split; [|by intros [H _]; apply Forall_delete].
  intros H. split; [|done]. rewrite Forall_forall in H |- *. intros y Hy.
  rewrite (delete_Permutation _ _ _ Hi), elem_of_cons in Hy. destruct Hy as [->|Hy]; auto.
Qed.

Lemma end_process_works i : works (O_end_process i).
Proof.
  intros h0 c L [d h] [H Hd]. cbn [fst snd] in *.
  destruct (hl_links (o_processes d) !! i) as [[link p]|] eqn:E.
  - part 4%nat d H. destruct (list_remove_owns _ _ _ _ _ _ _ _ E H) as (l' & h' & E1 & El & H').
    destruct p as [q|].
    + destruct (free_process_releases q _ _ _ H') as (h2 & E2 & H2).
      apply (works_intro (set_o_processes l' d, h2) L).
      * cbn [operate]. rewrite E1. cbn [mbind res_bind]. by rewrite E2.
      * part_changed 4%nat H2.
      * by destruct c.
      * destruct c. cbn. lia.
      * unfold scripts_found. cbn [fst set_o_processes o_processes]. rewrite El.
        by rewrite (delete_Forall_iff _ _ _ _ E).
    + right. split; [cbn [operate]; rewrite E1; reflexivity|].
      intros Hs. destruct (Forall_lookup_1 _ _ _ _ Hs E) as [q Hq]. done.
  - apply (works_same (d, h)); [|done|done|done|by destruct c|done|done].
    cbn [operate]. unfold list_remove. by rewrite E.
Qed.

Lemma every_operation_works o : works o.
Proof.
  destruct o.
  - apply unknown_works.
  - apply scheduler_works.
  - apply cpu_works.
  - apply stick_works.
  - apply swap_works.
  - apply new_process_works.
  - apply end_process_works.
  - apply new_segment_works.
  - apply remove_segment_works.
  - apply new_hole_works.
  - apply remove_hole_works.
Qed.

(** A NULL among the processes stays there, until it is dereferenced. *)
Lemma operations_work ops h0 c L y :
  at_work h0 c L y ->
  (exists y' L', each operate ops y = Ok y' /\ own h0 (owned y'.1 ++ L') y'.2 /\
     length L' = (length L + lost c ops)%nat /\
     (scripts_found y'.1 <-> scripts_found y.1 /\ forallb script_found ops = true)) \/
  each operate ops y = Undef NullDeref /\ ~ (scripts_found y.1 /\ forallb script_found ops = true).
Proof.
  revert c L y. induction ops as [|o ops IH]; intros c L y H; cbn [each lost forallb].
  { left. exists y, L. split_and!; [done|apply H|lia|tauto]. }
  destruct (every_operation_works o _ _ _ _ H) as [(y1 & L1 & -> & H1 & HL & Hs)|[-> Hs]].
  2: { right. split; [done|tauto]. }
  cbn [mbind res_bind]. rewrite andb_true_iff.
  destruct (IH _ _ _ H1) as [(y2 & L2 & -> & H2 & HL2 & Hs2)|[-> Hs2]].
  - left. exists y2, L2. split_and!; [done|done|lia|rewrite andb_true_iff; tauto].
  - right. split; [done|tauto].
Qed.

(** The release reaches a process that is NULL, and dereferences it. *)
Lemma each_process_null (ps : list (loc * option o_process)) h0 O h :
  ~ Forall (fun p => is_Some p.2) ps ->
  own h0 (concat ((fun '(link, x) => link :: fp_option fp_process x) <$> ps) ++ O) h ->
  each (fun '(_, p) => free_process p) ps h = Undef NullDeref.
Proof.
  revert O h. induction ps as [|[link [p|]] ps IH]; intros O h Hn H; [by destruct Hn| |done].
  cbn [each]. assert (own h0 (fp_process p ++ concat ((fun '(link, x) =>
    link :: fp_option fp_process x) <$> ps) ++ link :: O) h) as H'.
  { eapply own_reorder; [|exact H]. cbn. solve_Permutation. }
  destruct (free_process_releases p _ _ _ H') as (h1 & -> & H1). cbn [mbind res_bind].
  apply (IH (link :: O)); [|done]. intros Hs. apply Hn. by constructor.
Qed.

Lemma releases_then op fp rest h0 O h (r : res t_heap) :
  releases op fp -> own h0 (fp ++ O) h -> (forall h', own h0 O h' -> rest h' = r) ->
  (h ← op h; rest h) = r.
Proof. intros Hr H Hrest. destruct (Hr _ _ _ H) as (h' & -> & H'). by apply Hrest. Qed.

Lemma free_data_null d h0 L h :
  ~ scripts_found d -> own h0 (owned d ++ L) h ->
  free_kernel_memory_data d h = Undef NullDeref.
Proof.
  intros Hn H. unfold free_kernel_memory_data.
  assert (own h0 ([o_socket_list_mutex d; o_processes_mutex d; o_active_threads_mutex d;
      o_active_threads_cond d] ++ fp_hlist fp_peer (o_sticks d) ++ fp_hlist fp_peer (o_cpus d)
    ++ fp_option fp_swap (o_swap d) ++ fp_main_memory (o_memory d)
    ++ concat ((fun '(link, x) => link :: fp_option fp_process x) <$> hl_links (o_processes d))
    ++ hl_self (o_processes d) :: o_self d :: o_socket_kernel_memory d
    :: fp_option (fun s => [s]) (o_socket_scheduler d) ++ L) h) as H1.
  { eapply own_reorder; [|exact H]. unfold owned, fp_hlist. solve_Permutation. }
  eapply releases_then; [|exact H1|intros h1 H2].
  { apply free_then_releases, free_then_releases, free_then_releases, free_releases. }
  eapply releases_then; [apply free_sticks_releases|exact H2|intros h2 H3].
  eapply releases_then; [apply free_cpus_releases|exact H3|intros h3 H4].
  eapply releases_then; [apply free_swap_releases|exact H4|intros h4 H5].
  eapply releases_then; [apply free_main_memory_releases|exact H5|intros h5 H6].
  unfold free_all_processes. by rewrite (each_process_null _ _ _ _ Hn H6).
Qed.

(** ** What is claimed *)


(** With one scheduler and one swap nothing is lost. *)
Lemma nothing_left h0 h : own h0 [] h -> h = h0.
Proof. intros (_ & _ & ->). set_solver. Qed.

Example kernel_memory_frees_everything :
  let ops := [O_cpu true; O_scheduler true; O_swap true (Some 2%nat); O_stick true; O_new_hole;
              O_cpu true; O_cpu false; O_new_process (Some 3%nat); O_new_segment; O_remove_hole 0;
              O_new_hole; O_new_process (Some 1%nat); O_end_process 0; O_remove_segment 0] in
  run ops {[7%positive]} = Ok {[7%positive]}.
Proof. vm_compute. reflexivity. Qed.

(** A script that is not found leaves a NULL among the processes, which the
    release dereferences. *)
Lemma missing_script_crashes_release : run [O_new_process None] ∅ = Undef NullDeref.
Proof. vm_compute. reflexivity. Qed.

(** A client of no module stops the server, and its socket is not freed. *)
Lemma unknown_client_leaks : run [O_unknown] ∅ <> Ok ∅.
Proof. vm_compute. discriminate. Qed.

(** A second swap replaces the first one, of which nothing is freed. *)
Lemma second_swap_leaks :
  lost (false, None) [O_swap true (Some 2%nat); O_swap true (Some 1%nat)] = 7%nat /\
  run [O_swap true (Some 2%nat); O_swap true (Some 1%nat)] ∅ <> Ok ∅.
Proof. split; [done|]. vm_compute. discriminate. Qed.
