(* ===== verification/StickServer.v ===== *)
(** * StickServer: memory_stick/src (main.c, memory_stick/memory_stick.c,
      kernel_memory.c, cpu.c)

    The whole memory stick: how it joins Kernel Memory, the server its CPUs
    connect to, and its end.  The requests themselves are in MemoryStick.v. *)

From Stdlib Require Import Strings.Byte Strings.String.
From S2P Require Import Prelude StateM Bytes Msg Text File Structs Peer MemoryStick.
From S2P Require Import Segments Compaction Holes MainMemory Sticks SwapModule KmSwap.
From S2P Require Import KmProcess SchedulerListener CpuListener KmServer.

(** [t_config_vars]; the level of the log is not kept. *)
Record t_config_vars := mk_config_vars {
  memory_delay : Z; km_ip : option text; km_port : option text }.

Definition read_config (config : t_properties) : res t_config_vars :=
  delay ← config_get_int_value config (txt "MEMORY_DELAY");
  Ok (mk_config_vars delay (config_get_string_value config (txt "KERNEL_MEMORY_IP"))
        (config_get_string_value config (txt "KERNEL_MEMORY_PORT"))).

Definition init_config (fs : file_system) (config_path : text) : res (option t_config_vars) :=
  config ← config_create fs config_path;
  match config with
  | None => Ok None
  | Some config => vars ← read_config config; Ok (Some vars)
  end.

(** ** kernel_memory.c *)

Section kernel_memory.
Context {U : Type} `{!Transport U}.
Implicit Types (s : t_socket U).

Definition handshake_km s : res (bool * t_socket U) :=
  '(sent, s) ← send_handshake MID_MEMORY_STICK s;
  if negb sent then Ok (false, s) else
  '(id, s) ← receive_handshake s;
  Ok (bool_decide (id = MID_KERNEL_MEMORY), s).

Definition send_size s (size : text) : res (bool * t_socket U) :=
  send_string OP_MEMORY_SIZE (size ++ [x00]) s.

(** [open_client] is [socket_create] of a client. *)
Definition connect_km (open_client : option text -> option text -> option U)
    (ip port : option text) : t_socket U := open_client ip port.

(** [None] is NULL: the socket was destroyed. *)
Definition connect_to_kernel_memory (open_client : option text -> option text -> option U)
    (ip port : option text) (size : text) : res (t_socket U) :=
  match connect_km open_client ip port with
  | None => Ok None
  | Some h =>
      '(ok, s) ← handshake_km (Some h);
      if negb ok then Ok (socket_close s) else
      '(ok, s) ← send_size s size;
      if negb ok then Ok (socket_close s) else Ok s
  end.

(** [snprintf] to a buffer of 6 bytes. *)
Definition send_cpu_server_port_to_km s (port : Z) : res (bool * t_socket U) :=
  send_string OP_PORT (take 5 (print_u32 port) ++ [x00]) s.

(** [get_cpu_port]: what [getsockname] says, -1 when it fails, as a [uint16_t]. *)
Definition get_cpu_port (local_port : Z) : Z := local_port mod 65536.

Definition send_cpu_server_port s (local_port : Z) : res (bool * t_socket U) :=
  send_cpu_server_port_to_km s (get_cpu_port local_port).
End kernel_memory.

(** ** The state of the module

    A [t_cpu_thread] is known by its address, a number.  [socket_list] holds
    pointers to the [socket_cpu] of such structs: their addresses. *)

Record t_stick (U T : Type) := mk_stick {
  st_ms : t_ms;
  st_km : t_socket U;
  main_running : bool;      (** whether the loop of [main] goes on *)
  listening : bool;         (** whether [accept] can succeed *)
  closing : bool;           (** [close_listen_thread] waits for the threads *)
  cpu_threads : gmap nat (t_socket T);
  socket_list : list nat }.
Arguments mk_stick {U T} _ _ _ _ _ _ _.
Arguments st_ms {U T} _.
Arguments st_km {U T} _.
Arguments main_running {U T} _.
Arguments listening {U T} _.
Arguments closing {U T} _.
Arguments cpu_threads {U T} _.
Arguments socket_list {U T} _.

Section stick.
Context {U T : Type} `{!Transport U, !Transport T}.
Implicit Types (x : t_stick U T) (s : t_socket T).

Definition set_ms ms x : t_stick U T :=
  mk_stick ms (st_km x) (main_running x) (listening x) (closing x) (cpu_threads x)
    (socket_list x).
Definition set_km km x : t_stick U T :=
  mk_stick (st_ms x) km (main_running x) (listening x) (closing x) (cpu_threads x)
    (socket_list x).
Definition set_flags m l c x : t_stick U T :=
  mk_stick (st_ms x) (st_km x) m l c (cpu_threads x) (socket_list x).
Definition set_threads f x : t_stick U T :=
  mk_stick (st_ms x) (st_km x) (main_running x) (listening x) (closing x)
    (f (cpu_threads x)) (socket_list x).
Definition set_list f x : t_stick U T :=
  mk_stick (st_ms x) (st_km x) (main_running x) (listening x) (closing x) (cpu_threads x)
    (f (socket_list x)).

Abbreviation M := (St (t_stick U T)).

(** ** cpu.c *)

Definition handshake_cpu s : res (bool * t_socket T) :=
  '(id, s) ← receive_handshake s;
  if decide (id ≠ MID_CPU) then Ok (false, s) else
  send_handshake MID_MEMORY_STICK s.

Definition receive_cpu_id s : res (option buf * t_socket T) :=
  '(op, s) ← receive_op_code s;
  if decide (op ≠ op_value OP_ID_CPU) then Ok (None, s) else receive_string s.

Definition create_cpu_thread_data s : M nat :=
  a ← gets (fun x => fresh (dom (cpu_threads x)));
  _ ← modify (set_threads <[a := s]>);
  mret a.

Definition list_remove_element (a : nat) : list nat -> list nat :=
  l_remove_first (fun b => bool_decide (b = a)).

(** Whether the CPU was taken in; if not the caller destroys the socket.
    [created]: whether [spawn_cpu_thread] succeeds. *)
Definition handle_new_cpu (created : bool) s : M bool :=
  '(ok, s) ← lift (handshake_cpu s);
  if negb ok then mret false else
  '(cpu_id, s) ← lift (receive_cpu_id s);
  match cpu_id with
  | None => mret false
  | Some _ =>
      a ← create_cpu_thread_data s;
      _ ← modify (set_list (fun l => l ++ [a]));
      if created then mret true
      else _ ← modify (set_list (list_remove_element a));
           _ ← modify (set_threads (delete a));
           mret false
  end.

Definition close_cpu_thread (a : nat) : M unit :=
  _ ← modify (set_list (list_remove_element a));
  modify (set_threads (delete a)).

(** One round of [handle_cpu_client] in the thread of the struct at [a]. *)
Definition cpu_thread_round (a : nat) : M unit :=
  x ← gets id;
  match cpu_threads x !! a with
  | None => lift (Undef Dangling)
  | Some s =>
      '(keep_running, ms, s) ← lift (handle_cpu_client_step (st_ms x) s);
      _ ← modify (set_ms ms);
      _ ← modify (set_threads <[a := s]>);
      if (keep_running : bool) then mret tt else close_cpu_thread a
  end.

(** [*(t_socket** )value]: the pointer is into the struct at [a]. *)
Definition iterator_shutdown (a : nat) : M unit :=
  x ← gets id;
  match cpu_threads x !! a with
  | None => lift (Undef Dangling)
  | Some s => modify (set_threads <[a := socket_shutdown s]>)
  end.

Fixpoint list_iterate (l : list nat) : M unit :=
  match l with
  | [] => mret tt
  | a :: r => _ ← iterator_shutdown a; list_iterate r
  end.

(** [close_listen_thread] up to its wait; the wait ends when the list is empty. *)
Definition close_listen_thread : M unit :=
  x ← gets id;
  _ ← list_iterate (socket_list x);
  modify (fun x => set_flags (main_running x) false true x).

(** ** memory_stick.c and main.c *)

(** [init_module]; [server_open] is whether the server socket could be created,
    [local_port] its port and [thread_created] whether its thread could be. *)
Definition init_module (fs : file_system)
    (open_client : option text -> option text -> option U) (server_open : bool)
    (local_port : Z) (thread_created : bool) (config_path size : text)
    : res (option (t_stick U T)) :=
  vars ← init_config fs config_path;
  match vars with
  | None => Ok None
  | Some vars =>
      km ← connect_to_kernel_memory open_client (km_ip vars) (km_port vars) size;
      match km with
      | None => Ok None
      | Some h =>
          if negb server_open then Ok None else
          '(ok, s) ← send_cpu_server_port (Some h) local_port;
          if negb ok then Ok None else
          ms ← init_memory size;
          if negb thread_created then Ok None else
          Ok (Some (mk_stick ms s true true false ∅ []))
      end
  end.

(** One round of the loop of [main]; when the loop ends, [close_module] shuts
    the server socket down. *)
Definition main_round : M unit :=
  x ← gets id;
  '(keep_running, ms, s) ← lift (main_step (st_ms x) (st_km x));
  _ ← modify (set_ms ms);
  _ ← modify (set_km s);
  if (keep_running : bool) then mret tt
  else modify (fun x => set_flags false false (closing x) x).

(** [main] up to its loop: [None] is [EXIT_FAILURE]. *)
Definition start (fs : file_system) (open_client : option text -> option text -> option U)
    (server_open : bool) (local_port : Z) (thread_created : bool) (args : list text)
    : res (option (t_stick U T)) :=
  a ← get_args args;
  match a with
  | None => Ok None
  | Some (config_path, size_str, _) =>
      init_module fs open_client server_open local_port thread_created config_path size_str
  end.

(** The threads: [main], the listening one and the CPUs'.  One round runs at a
    time. *)
Inductive stick_step x : t_stick U T -> Prop :=
  | st_main x' :
      main_running x = true -> main_round x = Ok (tt, x') -> stick_step x x'
  | st_accept created s b x' :
      listening x = true -> handle_new_cpu created s x = Ok (b, x') -> stick_step x x'
  | st_accept_fails : listening x = true ->
      stick_step x (set_flags (main_running x) false (closing x) x)
  | st_close x' :
      listening x = false -> closing x = false -> close_listen_thread x = Ok (tt, x') ->
      stick_step x x'
  | st_cpu a x' :
      is_Some (cpu_threads x !! a) -> cpu_thread_round a x = Ok (tt, x') ->
      stick_step x x'.
End stick.

(** ** The pointers in the list never dangle, and the memory keeps its size *)

Record stick_inv {U T} (size : Z) (x : t_stick U T) : Prop := {
  si_memory : l_size (memory (st_ms x)) = size;
  si_distinct : NoDup (socket_list x);
  si_threads : dom (cpu_threads x) = list_to_set (socket_list x);
  si_closing : closing x = true -> listening x = false;
  si_main : main_running x = false -> listening x = false }.

Section requests_keep.
Context {V : Type} `{!Transport V}.
Implicit Types (ms : t_ms) (s : t_socket V).

Lemma handle_read_keeps ms s ms' s' :
  handle_read ms s = Ok (ms', s') -> ms' = ms.
Proof.
  unfold handle_read. intros E. inv_bind E as [packet s1] E1.
  destruct packet as [|e0 [|e1 [|]]]; try by simplify_eq.
  inv_bind E as st E2. inv_bind E as n E3. inv_bind E as s2 E4. by simplify_eq.
Qed.

Lemma handle_write_size ms s ms' s' :
  handle_write ms s = Ok (ms', s') -> l_size (memory ms') = l_size (memory ms).
Proof.
  unfold handle_write. intros E. inv_bind E as [packet s1] E1.
  destruct packet as [|e0 [|e1 [|e2 [|]]]]; try by simplify_eq.
  inv_bind E as st E2. inv_bind E as n E3. unfold write_memory, ms_write in E.
  case_decide as Hd; [|done]. inv_bind E as ms1 E4. inv_bind E4 as bs E5.
  inv_bind E as [ok s2] E6. simplify_eq. cbn [memory].
  apply defined_length in E5. rewrite length_take in E5.
  unfold l_size in *. rewrite overwrite_length; lia.
Qed.

Lemma requests_keep_size ms s b ms' s' :
  main_step ms s = Ok (b, ms', s') \/ handle_cpu_client_step ms s = Ok (b, ms', s') ->
  l_size (memory ms') = l_size (memory ms).
Proof.
  unfold main_step, handle_cpu_client_step.
  intros [E|E]; inv_bind E as [op s1] E1; destruct (op_of_value op) as [[]|];
    try by simplify_eq.
  all: inv_bind E as [m s2] E2; simplify_eq; try done.
  all: by apply handle_read_keeps in E2 as -> || eapply handle_write_size.
Qed.
End requests_keep.

Section invariant.
Context {U T : Type} `{!Transport U, !Transport T}.
Implicit Types (x : t_stick U T) (s : t_socket T).

(** What only touches the sockets and the flags. *)
Lemma iterator_shutdown_Ok a x s :
  cpu_threads x !! a = Some s ->
  iterator_shutdown a x = Ok (tt, set_threads <[a := socket_shutdown s]> x).
Proof. intros E. unfold iterator_shutdown. run_M. cbn. by rewrite E. Qed.

(** The threads whose address is in [l] have their sockets shut down. *)
Definition shut_down (l : list nat) (m : gmap nat (t_socket T)) : gmap nat (t_socket T) :=
  map_imap (fun a s => Some (if decide (a ∈ l) then socket_shutdown s else s)) m.

Lemma shut_down_lookup l m a :
  shut_down l m !! a
  = (fun s => if decide (a ∈ l) then socket_shutdown s else s) <$> m !! a.
Proof. unfold shut_down. rewrite map_lookup_imap. by destruct (m !! a). Qed.

Lemma list_iterate_Ok l x :
  NoDup l -> (forall a, a ∈ l -> is_Some (cpu_threads x !! a)) ->
  list_iterate l x = Ok (tt, set_threads (shut_down l) x).
Proof.
  revert x. induction l as [|a l IH]; intros x Hl Hin; cbn [list_iterate].
  - run_M. f_equal. f_equal. destruct x. unfold set_threads. cbn. f_equal.
    apply map_eq. intros i. rewrite shut_down_lookup.
    destruct (cpu_threads0 !! i); [|done]. cbn. by rewrite decide_False by set_solver.
  - apply NoDup_cons in Hl as [Ha Hl]. destruct (Hin a) as [s E]; [set_solver|].
    run_M. rewrite (iterator_shutdown_Ok _ _ _ E). rewrite IH; [|done|].
    + f_equal. f_equal. unfold set_threads. cbn. f_equal. apply map_eq. intros i.
      rewrite !shut_down_lookup. destruct (decide (i = a)) as [->|Hi].
      * rewrite lookup_insert_eq, E. cbn. rewrite decide_False by done.
        by rewrite decide_True by set_solver.
      * rewrite lookup_insert_ne by done. destruct (_ !! i); [|done]. cbn. f_equal.
        by do 2 case_decide; set_solver.
    + intros b Hb. cbn. destruct (decide (b = a)) as [->|Hi];
        [by rewrite lookup_insert_eq|rewrite lookup_insert_ne by done; set_solver].
Qed.

(** [close_listen_thread] dereferences every pointer of the list. *)
Lemma close_listen_thread_Ok size x :
  stick_inv size x ->
  close_listen_thread x
  = Ok (tt, set_flags (main_running x) false true
              (set_threads (shut_down (socket_list x)) x)).
Proof.
  intros [H1 H2 H3 H4 H5]. unfold close_listen_thread. run_M.
  rewrite list_iterate_Ok; [by run_M|done|].
  intros a Ha. apply elem_of_dom. rewrite H3. by apply elem_of_list_to_set.
Qed.

Lemma list_remove_element_spec a (l : list nat) :
  NoDup l -> NoDup (list_remove_element a l) /\
  forall b, b ∈ list_remove_element a l <-> b ∈ l /\ b ≠ a.
Proof.
  induction l as [|c l IH]; [cbn; split; [constructor|set_solver]|].
  intros [Hc Hl]%NoDup_cons. destruct (IH Hl) as [IH1 IH2].
  unfold list_remove_element in *. cbn [l_remove_first].
  destruct (bool_decide_reflect (c = a)) as [->|Hca].
  - split; [done|]. set_solver.
  - split; [|set_solver]. constructor; [|done]. intros [? _]%IH2. done.
Qed.

Lemma close_cpu_thread_inv size a x x' :
  stick_inv size x -> close_cpu_thread a x = Ok (tt, x') -> stick_inv size x'.
Proof.
  intros [H1 H2 H3 H4 H5]. unfold close_cpu_thread. run_M. intros [= <-].
  destruct (list_remove_element_spec a _ H2) as [Hn Hm].
  constructor; [done..| |done|done]. cbn. rewrite dom_delete_L, H3. set_solver.
Qed.

Lemma set_thread_inv size a s x :
  is_Some (cpu_threads x !! a) -> stick_inv size x ->
  stick_inv size (set_threads <[a := s]> x).
Proof.
  intros Ha [H1 H2 H3 H4 H5]. constructor; [done..| |done|done]. cbn.
  rewrite dom_insert_L. apply elem_of_dom in Ha. set_solver.
Qed.

Lemma cpu_thread_round_inv size a x x' :
  stick_inv size x -> cpu_thread_round a x = Ok (tt, x') -> stick_inv size x'.
Proof.
  intros Hx H. unfold cpu_thread_round in H. run_M_in H. cbn [id] in H.
  destruct (cpu_threads x !! a) as [s|] eqn:Ea; [|done].
  run_M_in H. rewrite lift_M in H.
  destruct (handle_cpu_client_step (st_ms x) s) as [[[keep ms] s1]|] eqn:E; [|done].
  run_M_in H.
  assert (stick_inv size (set_threads <[a := s1]> (set_ms ms x))) as Hx'.
  { apply set_thread_inv; [by eexists|]. destruct Hx as [H1 H2 H3 H4 H5].
    constructor; [|done..]. cbn. rewrite <- H1. eapply requests_keep_size. by right. }
  destruct keep; [run_M_in H; by simplify_eq|by eapply close_cpu_thread_inv].
Qed.

Lemma handle_new_cpu_inv size created s x b x' :
  stick_inv size x -> handle_new_cpu created s x = Ok (b, x') -> stick_inv size x'.
Proof.
  intros Hx H. unfold handle_new_cpu in H.
  inv_M H as [ok s1] x1 E1. apply lift_Ok in E1 as [_ ->].
  destruct ok; cbn [negb] in H; [|run_M_in H; by simplify_eq].
  inv_M H as [cpu_id s2] x2 E2. apply lift_Ok in E2 as [_ ->].
  destruct cpu_id; [|run_M_in H; by simplify_eq].
  inv_M H as a x3 E3. unfold create_cpu_thread_data in E3. run_M_in E3.
  injection E3 as <- <-. set (a := fresh _) in *.
  assert (a ∉ dom (cpu_threads x)) as Ha by apply is_fresh.
  destruct Hx as [H1 H2 H3 H4 H5].
  assert (a ∉ socket_list x) as Hl by set_solver.
  assert (stick_inv size (set_list (fun l => l ++ [a]) (set_threads <[a := s2]> x))) as Hx'.
  { constructor; [done|..|done|done]; cbn.
    - apply NoDup_app. split_and!; [done|set_solver|apply NoDup_singleton].
    - rewrite dom_insert_L, list_to_set_app_L. set_solver. }
  run_M_in H. destruct created; run_M_in H; simplify_eq; [done|].
  by apply (close_cpu_thread_inv _ a _ _ Hx').
Qed.

Lemma stick_step_inv size x x' : stick_inv size x -> stick_step x x' -> stick_inv size x'.
Proof.
  intros Hx [x1 Hm H|created s b x1 Hl H|Hl|x1 Hl Hc H|a x1 Ha H].
  - destruct Hx as [H1 H2 H3 H4 H5]. unfold main_round in H. run_M_in H. cbn [id] in H.
    rewrite lift_M in H.
    destruct (main_step (st_ms x) (st_km x)) as [[[keep ms] s1]|] eqn:E; [|done].
    run_M_in H. assert (l_size (memory ms) = size)
      by (rewrite <- H1; apply (requests_keep_size (st_ms x) (st_km x) keep ms s1); by left).
    destruct keep; run_M_in H; injection H as <-; by constructor.
  - by eapply handle_new_cpu_inv.
  - destruct Hx as [H1 H2 H3 H4 H5]. by constructor.
  - rewrite (close_listen_thread_Ok size x Hx) in H. simplify_eq.
    destruct Hx as [H1 H2 H3 H4 H5]. constructor; [done..| |done|done].
    cbn. rewrite <- H3. apply set_eq. intros b. rewrite !elem_of_dom, shut_down_lookup.
    by rewrite fmap_is_Some.
  - by eapply cpu_thread_round_inv.
Qed.
End invariant.

(** What the rounds leave alone. *)
Section frame.
Context {U T : Type} `{!Transport U, !Transport T}.
Implicit Types (x : t_stick U T) (s : t_socket T).

Lemma main_round_keeps x x' :
  main_round x = Ok (tt, x') -> cpu_threads x' = cpu_threads x /\ closing x' = closing x.
Proof.
  unfold main_round. run_M. cbn [id]. rewrite lift_M.
  destruct (main_step _ _) as [[[[] ms] s1]|]; [..|done]; run_M; by intros [= <-].
Qed.

Lemma handle_new_cpu_closing created s x b x' :
  handle_new_cpu created s x = Ok (b, x') -> closing x' = closing x.
Proof.
  unfold handle_new_cpu. intros H. inv_M H as [ok s1] x1 E1. apply lift_Ok in E1 as [_ ->].
  destruct ok; cbn [negb] in H; [|run_M_in H; by simplify_eq].
  inv_M H as [cpu_id s2] x2 E2. apply lift_Ok in E2 as [_ ->].
  destruct cpu_id; [|run_M_in H; by simplify_eq].
  unfold create_cpu_thread_data in H. run_M_in H.
  destruct created; run_M_in H; by injection H as <- <-.
Qed.

Lemma cpu_thread_round_closing a x x' :
  cpu_thread_round a x = Ok (tt, x') -> closing x' = closing x.
Proof.
  unfold cpu_thread_round. run_M. cbn [id]. destruct (cpu_threads x !! a); [|done].
  run_M. rewrite lift_M. destruct (handle_cpu_client_step _ _) as [[[[] ms] s1]|]; [..|done];
    unfold close_cpu_thread; run_M; by intros [= <-].
Qed.
End frame.

(** ** The end of the module *)

(** A stick that has just started. *)
Definition fresh_stick {U T} ms (km : t_socket U) : t_stick U T :=
  mk_stick ms km true true false ∅ [].

Lemma fresh_stick_inv {U T} ms (km : t_socket U) :
  stick_inv (l_size (memory ms)) (fresh_stick ms km : t_stick U T).
Proof. constructor; done || constructor. Qed.

Section shutdown.
Context {U : Type} `{!Transport U}.
Implicit Types (x : t_stick U wire) (s : t_socket wire).

(** A reachable state: when [close_listen_thread] waits, every socket of a CPU
    is down. *)
Record reached (size : Z) x : Prop := {
  re_inv : stick_inv size x;
  re_down : closing x = true -> forall a s, cpu_threads x !! a = Some s -> down s }.

Lemma handle_down ms s : down s -> handle_cpu_client_step ms s = Ok (false, ms, s).
Proof. destruct s as [[r t u]|]; [|done]. by intros [= ->]. Qed.

Lemma cpu_thread_round_down size a s x :
  reached size x -> closing x = true -> cpu_threads x !! a = Some s ->
  cpu_thread_round a x
  = Ok (tt, set_threads (delete a) (set_list (list_remove_element a) x)).
Proof.
  intros [_ Hd] Hc Ha. unfold cpu_thread_round. run_M. cbn [id]. rewrite Ha.
  rewrite (handle_down _ s) by by eapply Hd. run_M. rewrite lift_M. run_M. unfold close_cpu_thread.
  run_M.
  destruct x. unfold set_threads, set_list, set_ms, mret, St_ret. cbn.
  by rewrite delete_insert_eq.
Qed.

(** What a step does once the threads are being waited for. *)
Lemma closing_step size x x' :
  reached size x -> closing x = true -> main_running x = false -> stick_step x x' ->
  exists a, a ∈ socket_list x /\
    x' = set_threads (delete a) (set_list (list_remove_element a) x).
Proof.
  intros Hx Hc Hm H. pose proof (re_inv _ _ Hx) as [H1 H2 H3 H4 H5].
  specialize (H4 Hc). destruct H as [x1 ? ?|? ? ? x1 ? ?|?|x1 ? ? ?|a x1 [s Ha] H];
    [congruence..|].
  rewrite (cpu_thread_round_down size a s x) in H by done. injection H as <-.
  exists a. split; [|done]. apply (elem_of_list_to_set (C:=gset nat)). rewrite <- H3.
  apply elem_of_dom. by eexists.
Qed.

Lemma stick_step_reached size x x' :
  reached size x -> stick_step x x' -> reached size x'.
Proof.
  intros Hx H. pose proof Hx as [Hi Hd]. split; [by eapply stick_step_inv|].
  pose proof Hi as [H1 H2 H3 H4 H5].
  destruct H as [x1 Hm H|created s b x1 Hl H|Hl|x1 Hl Hc H|a x1 [s Ha] H]; intros Hc'.
  - assert (cpu_threads x1 = cpu_threads x /\ closing x1 = closing x) as [-> E]
      by (apply main_round_keeps in H as (? & ?); done).
    apply Hd. congruence.
  - apply handle_new_cpu_closing in H. rewrite H in Hc'. specialize (H4 Hc'). congruence.
  - by apply Hd.
  - rewrite (close_listen_thread_Ok size x Hi) in H. injection H as <-.
    intros a s. cbn [cpu_threads set_threads set_flags]. rewrite shut_down_lookup.
    intros (s0 & Ha & ->)%fmap_Some.
    rewrite decide_True; [by destruct s0|].
    apply (elem_of_list_to_set (C:=gset nat)). rewrite <- H3. apply elem_of_dom. by eexists.
  - assert (closing x = true) as Hc.
    { apply cpu_thread_round_closing in H. congruence. }
    rewrite (cpu_thread_round_down size a s x) in H by done. injection H as <-.
    intros b t. cbn. intros [_ Hb]%lookup_delete_Some. by eapply Hd.
Qed.

Lemma reached_all ms (km : t_socket U) x :
  rtc stick_step (fresh_stick ms km) x -> reached (l_size (memory ms)) x.
Proof.
  apply rtc_ind_r; [split; [apply fresh_stick_inv|done]|].
  intros y z _ Hs Hy. by eapply stick_step_reached.
Qed.

Lemma list_remove_element_length a (l : list nat) :
  a ∈ l -> S (length (list_remove_element a l)) = length l.
Proof.
  unfold list_remove_element. induction l as [|b l IH]; intros Ha; [set_solver|].
  cbn [l_remove_first]. destruct (bool_decide_reflect (b = a)); [done|]. cbn.
  rewrite IH by set_solver. done.
Qed.

(** Closing and with [main] done; each step is the end of a CPU's thread. *)
Lemma closing_run size n x x' :
  reached size x -> closing x = true -> main_running x = false -> nsteps stick_step n x x' ->
  (n + length (socket_list x') = length (socket_list x))%nat /\
  reached size x' /\ closing x' = true /\ main_running x' = false.
Proof.
  intros Hx Hc Hm H. induction H as [x|n x y z Hxy _ IH]; [done|].
  pose proof (stick_step_reached _ _ _ Hx Hxy) as Hy.
  destruct (closing_step _ _ _ Hx Hc Hm Hxy) as (a & Ha & ->).
  destruct IH as [IH1 IH2]; [done..|]. split; [|done].
  pose proof (list_remove_element_length a _ Ha). cbn in IH1. lia.
Qed.

(** Once [main] has ended and [close_listen_thread] waits for the threads of
    the CPUs, every run is finite, each of its steps ends one of them, and it
    can only stop when none is left: the memory is freed after its last use. *)
Theorem stick_shutdown ms (km : t_socket U) x :
  rtc stick_step (fresh_stick ms km) x -> closing x = true -> main_running x = false ->
  (forall n x', nsteps stick_step n x x' ->
     (n + length (socket_list x') = length (socket_list x))%nat) /\
  (forall x', rtc stick_step x x' ->
     (exists x'', stick_step x' x'') \/ (socket_list x' = [] /\ cpu_threads x' = ∅)).
Proof.
  intros Hr%reached_all Hc Hm. split.
  { intros n x' H. by apply (closing_run _ _ _ _ Hr Hc Hm H). }
  intros x' [n H]%rtc_nsteps.
  destruct (closing_run _ _ _ _ Hr Hc Hm H) as (_ & Hr' & Hc' & _).
  pose proof (re_inv _ _ Hr') as [_ _ Hd _ _].
  destruct (socket_list x') as [|a l] eqn:El.
  - right. split; [done|]. by apply dom_empty_inv_L.
  - left. assert (is_Some (cpu_threads x' !! a)) as [s Hs]
      by (apply elem_of_dom; rewrite Hd; cbn; set_solver).
    eexists. apply (st_cpu x' a); [by eexists|].
    by apply (cpu_thread_round_down (l_size (memory ms)) a s).
Qed.
End shutdown.

(** ** Joining Kernel Memory *)

Lemma receive_int_field_frame op (m : text) n rest t u :
  x00 ∉ m -> sendable (m ++ [x00]) -> atoi m = Ok n ->
  receive_int_field op (Some (mk_wire (frame op (m ++ [x00]) ++ rest) t u))
  = Ok (Some n, Some (mk_wire rest t u)).
Proof.
  intros Hm Hs Hn. unfold receive_int_field. rewrite receive_op_code_frame.
  cbn [mbind res_bind]. rewrite decide_False by (intros E; by apply E).
  unfold receive_string. rewrite receive_buffer_wire by (done || by destruct m).
  cbn [mbind res_bind deref]. rewrite defined_Some. cbn [mbind res_bind].
  unfold str_read. rewrite c_str_app by done. cbn [at_index mbind res_bind]. by rewrite Hn.
Qed.

(** The five characters of the buffer are enough for a port. *)
Lemma port_text (port : Z) :
  0 <= port < 65536 ->
  let t := take 5 (print_u32 port) in
  (x00 ∉ t) /\ sendable (t ++ [x00]) /\ atoi t = Ok port.
Proof.
  intros Hp. unfold print_u32. rewrite u32_id by (ints; lia).
  pose proof (print_digits_length 10 4 port [] ltac:(done) ltac:(lia)) as Hl.
  cbn [length] in Hl. rewrite take_ge by (cbn in *; lia). split_and!.
  - pose proof (print_digits_isdigit 10 port [] ltac:(done)) as Hd. rewrite Forall_forall in Hd.
    intros Hx. by specialize (Hd _ Hx).
  - unfold sendable, l_size. rewrite length_app. cbn [length]. ints. lia.
  - pose proof (atoi_print_u32 port [] ltac:(ints; lia) I) as E.
    rewrite app_nil_r in E. unfold print_u32 in E. by rewrite u32_id in E by (ints; lia).
Qed.

Section joining.
Implicit Types (d : t_kernel_memory_data wire).
Context (peer_ip : t_socket wire -> option text).

(** What the stick sends, and what Kernel Memory answers. *)
Definition stick_messages (size : text) (port : Z) : list byte :=
  frame OP_HANDSHAKE (lit "memory_stick") ++ frame OP_MEMORY_SIZE (size ++ [x00])
  ++ frame OP_PORT (take 5 (print_u32 port) ++ [x00]).
Definition km_answer : list byte := frame OP_HANDSHAKE (lit "kernel_memory").

Lemma stick_side open_client ip port size local_port :
  x00 ∉ size -> open_client ip port = Some (mk_wire km_answer [] true) ->
  exists s1, connect_to_kernel_memory open_client ip port size = Ok s1 /\ s1 ≠ None /\
    send_cpu_server_port s1 local_port
    = Ok (true, Some (mk_wire [] (stick_messages size (get_cpu_port local_port)) true)).
Proof.
  intros Hz Ho. unfold connect_to_kernel_memory, connect_km. rewrite Ho. unfold handshake_km.
  rewrite (send_handshake_frame _ "memory_stick") by done. cbn [mbind res_bind].
  rewrite wire_send by apply serialize_packet_ne. cbn [negb app].
  rewrite <- (app_nil_r km_answer). unfold km_answer.
  rewrite (receive_handshake_frame MID_KERNEL_MEMORY) by done. cbn [mbind res_bind].
  rewrite bool_decide_true by done. cbn [negb]. unfold send_size.
  rewrite send_string_text by done. cbn [mbind res_bind].
  rewrite wire_send by apply serialize_packet_ne. cbn [negb].
  eexists. split; [done|]. split; [done|].
  unfold send_cpu_server_port, send_cpu_server_port_to_km.
  destruct (port_text (get_cpu_port local_port)) as (Hp & _).
  { unfold get_cpu_port. apply Z.mod_pos_bound. lia. }
  rewrite send_string_text by done. rewrite wire_send by apply serialize_packet_ne.
  unfold stick_messages. by rewrite <- app_assoc.
Qed.

Lemma km_receives_stick size n port addr t :
  x00 ∉ size -> sendable (size ++ [x00]) -> atoi size = Ok n -> 0 <= port < 65536 ->
  (forall s, peer_ip s = Some addr) ->
  receive_stick peer_ip (Some (mk_wire (frame OP_MEMORY_SIZE (size ++ [x00])
    ++ frame OP_PORT (take 5 (print_u32 port) ++ [x00])) t true))
  = Ok (true, mk_stick_data n (Some (mk_wire [] t true)) (Some addr) port).
Proof.
  intros Hz Hs Hn Hp Ha. unfold receive_stick. rewrite (receive_int_field_frame _ size n) by done.
  cbn [mbind res_bind]. destruct (port_text port Hp) as (P1 & P2 & P3).
  rewrite <- (app_nil_r (frame OP_PORT _)), (receive_int_field_frame _ _ port) by done.
  cbn [mbind res_bind default]. by rewrite Ha.
Qed.

Lemma stick_packet_Ok (stick : t_stick_data wire) addr :
  ip_memory_stick stick = Some addr -> exists packet, stick_packet stick = Ok packet.
Proof.
  intros E. unfold stick_packet. rewrite E. cbn [mbind res_bind].
  assert (forall p (v : list byte), exists p', packet_append_string p (v ++ [x00]) = Ok p')
    as Hs.
  { intros p v. unfold packet_append_string, str_read.
    assert (is_Some (c_str (v ++ [x00]))) as [w ->]; [|by eexists].
    induction v as [|b v IH]; cbn; [by eexists|]. case_decide; [by eexists|].
    destruct IH as [w ->]. by eexists. }
  destruct (Hs (create_packet OP_PACKET) addr) as [p1 ->]. cbn [mbind res_bind].
  destruct (Hs p1 (take 5 (print_u32 (stick_port stick)))) as [p2 ->]. by eexists.
Qed.

(** C26: A stick that starts with a size and a port is registered in Kernel Memory
    with that size and port and the address it called from, its bytes become
    usable memory, and each side reads exactly what the other one sent. *)
Theorem stick_joins d open_client ip port size n local_port addr :
  x00 ∉ size -> sendable (size ++ [x00]) -> atoi size = Ok n -> 0 <= local_port < 65536 ->
  (forall s, peer_ip s = Some addr) ->
  open_client ip port = Some (mk_wire km_answer [] true) ->
  exists s1 sent d',
    connect_to_kernel_memory open_client ip port size = Ok s1 /\
    send_cpu_server_port s1 local_port = Ok (true, Some (mk_wire [] sent true)) /\
    handshake peer_ip (Some (mk_wire sent [] true)) d = Ok (true, d') /\
    k_sticks d' = k_sticks d ++
      [mk_stick_data n (Some (mk_wire [] km_answer true)) (Some addr) local_port] /\
    k_memory d' = add_total_memory n (k_memory d).
Proof.
  intros Hz Hs Hn Hp Ha Ho.
  destruct (stick_side open_client ip port size local_port Hz Ho) as (s1 & E1 & _ & E2).
  unfold get_cpu_port in E2. rewrite Z.mod_small in E2 by done.
  eexists s1, _. set (stick := mk_stick_data _ _ _ _).
  destruct (stick_packet_Ok stick addr eq_refl) as [packet Ep].
  assert (exists cpus, send_cpu_connection stick (k_cpus d) = Ok cpus) as [cpus Ec].
  { unfold send_cpu_connection. rewrite Ep. destruct (k_cpus d); by eexists. }
  eexists. split_and!; [exact E1|exact E2|..].
  - unfold handshake, stick_messages. rewrite (receive_handshake_frame MID_MEMORY_STICK) by done.
    cbn [mbind res_bind]. rewrite (send_handshake_frame _ "kernel_memory") by done.
    cbn [mbind res_bind]. rewrite wire_send by apply serialize_packet_ne. cbn [negb app].
    unfold accept_stick. fold km_answer.
    rewrite (km_receives_stick size n local_port addr) by done. cbn [mbind res_bind].
    fold stick. cbn [k_cpus set_k_sticks]. rewrite Ec. cbn [mbind res_bind].
    rewrite send_string_lit by done. cbn [mbind res_bind].
    by rewrite (surjective_pairing (socket_send _ _)).
  - done.
  - done.
Qed.
End joining.

(** ** Concrete runs *)

Lemma stick_joins_witness :
  exists s1 sent d',
    connect_to_kernel_memory (fun _ _ => Some (mk_wire km_answer [] true)) None None (txt "128")
    = Ok s1 /\
    send_cpu_server_port s1 9000 = Ok (true, Some (mk_wire [] sent true)) /\
    handshake some_ip (Some (mk_wire sent [] true)) (init_kernel_memory_data [] 0 64 1)
    = Ok (true, d') /\
    k_sticks d' = k_sticks (init_kernel_memory_data (T:=wire) [] 0 64 1) ++
      [mk_stick_data 128 (Some (mk_wire [] km_answer true)) (Some (txt "10.0.0.1")) 9000] /\
    k_memory d'
    = add_total_memory 128 (k_memory (init_kernel_memory_data (T:=wire) [] 0 64 1)).
Proof.
  apply (stick_joins some_ip).
  - apply (bool_decide_unpack _). vm_compute. exact I.
  - vm_compute. discriminate.
  - vm_compute. reflexivity.
  - lia.
  - done.
  - done.
Defined.

(** A CPU that has sent its handshake and its id. *)
Definition joining_cpu : t_socket wire :=
  Some (mk_wire (frame OP_HANDSHAKE (lit "cpu") ++ frame OP_ID_CPU (lit "1")) [] true).

(** A stick of 16 bytes that a CPU has joined, whose [main] has ended, and which
    waits for the CPU's thread. *)
Definition small_ms : t_ms := mk_ms (replicate 16 x00).
Definition hung_up : t_socket wire := Some (mk_wire [] [] true).
Definition joined_cpu : t_socket wire :=
  Some (mk_wire [] (frame OP_HANDSHAKE (lit "memory_stick")) true).
Definition closing_stick : t_stick wire wire :=
  mk_stick small_ms hung_up false false true {[ 0%nat := socket_shutdown joined_cpu ]} [0%nat].

Lemma stick_shutdown_witness :
  rtc stick_step (fresh_stick small_ms hung_up) closing_stick /\
  (forall n x', nsteps stick_step n closing_stick x' ->
     (n + length (socket_list x') = 1)%nat) /\
  (forall x', rtc stick_step closing_stick x' ->
     (exists x'', stick_step x' x'') \/ (socket_list x' = [] /\ cpu_threads x' = ∅)).
Proof.
  assert (rtc stick_step (fresh_stick small_ms hung_up) closing_stick) as Hr.
  { eapply rtc_l; [apply (st_accept _ true joining_cpu true); vm_compute; reflexivity|].
    eapply rtc_l; [apply st_main; vm_compute; reflexivity|].
    eapply rtc_l; [|apply rtc_refl].
    apply st_close; vm_compute; reflexivity. }
  split; [exact Hr|]. apply (stick_shutdown small_ms hung_up closing_stick Hr); reflexivity.
Defined.
