(* ===== verification/Threads.v ===== *)
(** * Threads: mutexes, condition variables and the scheduling of threads

    The other files take a function that runs under a mutex as one step.  Here
    [mtx_lock], [mtx_unlock], [cnd_wait], [cnd_signal], [cnd_broadcast] and
    [thrd_join] are steps of their own, and the threads of a program interleave
    at every one of them.  The mutexes are plain: a thread that locks its own
    waits for ever.  The files that follow write out the synchronisation of the
    modules in these commands, statement by statement. *)

From S2P Require Import Prelude.

Abbreviation mtx := nat (only parsing).
Abbreviation cnd := nat (only parsing).

(** Statements; [Act] is one that reads or writes what is shared. *)
Inductive cmd (S : Type) :=
  | Lock (m : mtx) | Unlock (m : mtx)
  | Wait (c : cnd) (m : mtx) | Signal (c : cnd) | Broadcast (c : cnd)
  | Act (f : S -> S)
  | If (b : S -> bool) (c1 c2 : list (cmd S))
  | While (b : S -> bool) (body : list (cmd S))
  | Join (t : nat).
Arguments Lock {S} m.
Arguments Unlock {S} m.
Arguments Wait {S} c m.
Arguments Signal {S} c.
Arguments Broadcast {S} c.
Arguments Act {S} f.
Arguments If {S} b c1 c2.
Arguments While {S} b body.
Arguments Join {S} t.

(** What is left of a thread; one that sleeps needs the mutex to go on. *)
Inductive t_thread (S : Type) :=
  | Runs (k : list (cmd S))
  | Sleeps (c : cnd) (m : mtx) (k : list (cmd S)).
Arguments Runs {S} k.
Arguments Sleeps {S} c m k.

Abbreviation Ended := (Runs []).

Record t_threads (S : Type) := mk_threads {
  shared : S; owner : gmap mtx nat; pool : list (t_thread S) }.
Arguments mk_threads {S} _ _ _.
Arguments shared {S} _.
Arguments owner {S} _.
Arguments pool {S} _.

Section threads.
Context {S : Type}.
Implicit Types (y : t_threads S) (t : t_thread S) (k : list (cmd S)).

Definition sleeps_on (c : cnd) t : bool :=
  match t with Sleeps c' _ _ => bool_decide (c' = c) | Runs _ => false end.
Definition woken t : t_thread S :=
  match t with Sleeps _ m k => Runs (Lock m :: k) | Runs _ => t end.

Definition set_thread (i : nat) t y : t_threads S :=
  mk_threads (shared y) (owner y) (<[i := t]> (pool y)).
Definition set_owner f y : t_threads S := mk_threads (shared y) (f (owner y)) (pool y).

(** Thread [i] makes a step; [j] is the thread a signal wakes up, if any
    sleeps.  [None]: it cannot. *)
Definition step_of (i j : nat) y : option (t_threads S) :=
  match pool y !! i with
  | Some (Runs (c :: k)) =>
      let y' := set_thread i (Runs k) y in
      match c with
      | Lock m =>
          match owner y !! m with None => Some (set_owner <[m := i]> y') | Some _ => None end
      | Unlock m =>
          if decide (owner y !! m = Some i) then Some (set_owner (delete m) y') else None
      | Wait c m =>
          if decide (owner y !! m = Some i)
          then Some (set_owner (delete m) (set_thread i (Sleeps c m k) y)) else None
      | Signal c =>
          if existsb (sleeps_on c) (pool y) then
            match pool y !! j with
            | Some t => if sleeps_on c t then Some (set_thread j (woken t) y') else None
            | None => None
            end
          else Some y'
      | Broadcast c =>
          Some (mk_threads (shared y) (owner y)
            ((fun t => if sleeps_on c t then woken t else t) <$> pool y'))
      | Act f => Some (mk_threads (f (shared y)) (owner y) (pool y'))
      | If b c1 c2 => Some (set_thread i (Runs ((if b (shared y) then c1 else c2) ++ k)) y)
      | While b body =>
          Some (set_thread i (Runs (if b (shared y) then body ++ c :: k else k)) y)
      | Join t => match pool y !! t with Some Ended => Some y' | _ => None end
      end
  | _ => None
  end.

Definition step y y' : Prop := exists i j, step_of i j y = Some y'.

(** The C standard allows [cnd_wait] to return without a signal. *)
Inductive spurious y : t_threads S -> Prop :=
  | wake_up i c m k : pool y !! i = Some (Sleeps c m k) ->
      spurious y (set_thread i (Runs (Lock m :: k)) y).

Definition any_step y y' : Prop := step y y' \/ spurious y y'.

Definition finished y : Prop := Forall (eq Ended) (pool y).

(** Nobody can go on, and somebody should. *)
Definition deadlocked y : Prop := (forall i j, step_of i j y = None) /\ ~ finished y.

Definition start (s : S) (l : list (list (cmd S))) : t_threads S := mk_threads s ∅ (Runs <$> l).

(** A schedule: who makes each step, and whom it wakes up. *)
Fixpoint run_schedule (l : list (nat * nat)) y : option (t_threads S) :=
  match l with
  | [] => Some y
  | (i, j) :: r => y ← step_of i j y; run_schedule r y
  end.

Lemma run_schedule_nsteps l y y' :
  run_schedule l y = Some y' -> nsteps step (length l) y y'.
Proof.
  revert y. induction l as [|[i j] l IH]; intros y; cbn; [intros [= ->]; constructor|].
  intros (y1 & E & H)%bind_Some. econstructor; [by exists i, j|by apply IH].
Qed.

Lemma run_schedule_steps l y y' : run_schedule l y = Some y' -> rtc step y y'.
Proof.
  revert y. induction l as [|[i j] l IH]; intros y; [by intros [= ->]|].
  cbn. intros (y1 & E & H)%bind_Some. eapply rtc_l; [by exists i, j|by apply IH].
Qed.

(** *** The rules of the commands, read off [step_of] *)

Lemma step_of_lock i j y m k :
  pool y !! i = Some (Runs (Lock m :: k)) -> owner y !! m = None ->
  step_of i j y = Some (mk_threads (shared y) (<[m := i]> (owner y)) (<[i := Runs k]> (pool y))).
Proof. intros E Ho. unfold step_of. by rewrite E, Ho. Qed.

Lemma step_of_unlock i j y m k :
  pool y !! i = Some (Runs (Unlock m :: k)) -> owner y !! m = Some i ->
  step_of i j y = Some (mk_threads (shared y) (delete m (owner y)) (<[i := Runs k]> (pool y))).
Proof. intros E Ho. unfold step_of. by rewrite E, decide_True. Qed.

Lemma step_of_wait i j y c m k :
  pool y !! i = Some (Runs (Wait c m :: k)) -> owner y !! m = Some i ->
  step_of i j y
  = Some (mk_threads (shared y) (delete m (owner y)) (<[i := Sleeps c m k]> (pool y))).
Proof. intros E Ho. unfold step_of. by rewrite E, decide_True. Qed.

Lemma step_of_act i j y f k :
  pool y !! i = Some (Runs (Act f :: k)) ->
  step_of i j y = Some (mk_threads (f (shared y)) (owner y) (<[i := Runs k]> (pool y))).
Proof. intros E. unfold step_of. by rewrite E. Qed.

Lemma step_of_if i j y b c1 c2 k :
  pool y !! i = Some (Runs (If b c1 c2 :: k)) ->
  step_of i j y = Some (mk_threads (shared y) (owner y)
    (<[i := Runs ((if b (shared y) then c1 else c2) ++ k)]> (pool y))).
Proof. intros E. unfold step_of. by rewrite E. Qed.

Lemma step_of_while i j y b body k :
  pool y !! i = Some (Runs (While b body :: k)) ->
  step_of i j y = Some (mk_threads (shared y) (owner y)
    (<[i := Runs (if b (shared y) then body ++ While b body :: k else k)]> (pool y))).
Proof. intros E. unfold step_of. by rewrite E. Qed.

(** Nobody hears the signal. *)
Lemma step_of_signal_none i j y c k :
  pool y !! i = Some (Runs (Signal c :: k)) -> existsb (sleeps_on c) (pool y) = false ->
  step_of i j y = Some (mk_threads (shared y) (owner y) (<[i := Runs k]> (pool y))).
Proof. intros E Hs. unfold step_of. by rewrite E, Hs. Qed.

(** A step is the first command of a thread that runs. *)
Lemma step_of_Some i j y y' :
  step_of i j y = Some y' ->
  exists c k, pool y !! i = Some (Runs (c :: k)) /\
  match c with
  | Lock m => owner y !! m = None /\
      y' = mk_threads (shared y) (<[m := i]> (owner y)) (<[i := Runs k]> (pool y))
  | Unlock m => owner y !! m = Some i /\
      y' = mk_threads (shared y) (delete m (owner y)) (<[i := Runs k]> (pool y))
  | Wait c m => owner y !! m = Some i /\
      y' = mk_threads (shared y) (delete m (owner y)) (<[i := Sleeps c m k]> (pool y))
  | Signal c =>
      if existsb (sleeps_on c) (pool y)
      then exists m k', pool y !! j = Some (Sleeps c m k') /\ i ≠ j /\
        y' = mk_threads (shared y) (owner y)
          (<[j := Runs (Lock m :: k')]> (<[i := Runs k]> (pool y)))
      else y' = mk_threads (shared y) (owner y) (<[i := Runs k]> (pool y))
  | Broadcast c => y' = mk_threads (shared y) (owner y)
      ((fun t => if sleeps_on c t then woken t else t) <$> <[i := Runs k]> (pool y))
  | Act f => y' = mk_threads (f (shared y)) (owner y) (<[i := Runs k]> (pool y))
  | If b c1 c2 => y' = mk_threads (shared y) (owner y)
      (<[i := Runs ((if b (shared y) then c1 else c2) ++ k)]> (pool y))
  | While b body => y' = mk_threads (shared y) (owner y)
      (<[i := Runs (if b (shared y) then body ++ c :: k else k)]> (pool y))
  | Join t => pool y !! t = Some Ended /\
      y' = mk_threads (shared y) (owner y) (<[i := Runs k]> (pool y))
  end.
Proof.
  unfold step_of. destruct (pool y !! i) as [[[|c k]|]|] eqn:Ei; [done| |done|done].
  intros H. exists c, k. split; [done|].
  destruct c; repeat case_decide; simplify_eq; try done.
  - by destruct (owner y !! m) eqn:Eo; simplify_eq.
  - destruct (existsb _ _); [|by simplify_eq].
    destruct (pool y !! j) as [t|] eqn:Ej; [|done].
    destruct (sleeps_on c t) eqn:Es; [|done]. simplify_eq.
    destruct t as [|c' m k']; [done|]. cbn in Es. apply bool_decide_eq_true in Es as ->.
    exists m, k'. split_and!; [done|congruence|done].
  - destruct (pool y !! t) as [[[]|]|] eqn:Et; by simplify_eq.
Qed.

(** A thread that asks for a mutex somebody holds does not move, and keeps the
    mutexes it holds. *)
Lemma blocked_step i m k h y y' :
  pool y !! i = Some (Runs (Lock m :: k)) -> owner y !! m = Some h -> any_step y y' ->
  pool y' !! i = Some (Runs (Lock m :: k)) /\
  forall m', owner y !! m' = Some i -> owner y' !! m' = Some i.
Proof.
  intros Hi Ho [(j & j' & H)|[j c' m' k' H]].
  - apply step_of_Some in H as (c & k' & Hj & H). assert (j ≠ i) as Hne.
    { intros ->. rewrite Hi in Hj. injection Hj as <- <-. destruct H as [? _]. congruence. }
    destruct c; try match type of H with _ /\ _ => destruct H as [E ->] | y' = _ => subst y' end;
      cbn; rewrite ?list_lookup_insert_ne by done; try done.
    + split; [done|]. intros m' Hm. rewrite lookup_insert_ne by congruence. done.
    + split; [done|]. intros m' Hm. rewrite lookup_delete_ne by congruence. done.
    + split; [done|]. intros m' Hm. rewrite lookup_delete_ne by congruence. done.
    + destruct (existsb _ _); [destruct H as (m' & k1 & E & _ & ->)|subst y']; cbn;
        rewrite ?list_lookup_insert_ne by congruence; done.
    + by rewrite list_lookup_fmap, list_lookup_insert_ne, Hi.
  - unfold set_thread. cbn. by rewrite list_lookup_insert_ne by congruence.
Qed.

Lemma any_step_length y y' : any_step y y' -> length (pool y') = length (pool y).
Proof.
  intros [(i & j & H)|[i c m k _]]; [|unfold set_thread; cbn; by rewrite length_insert].
  apply step_of_Some in H as (c & k & _ & H). destruct c;
    try match type of H with _ /\ _ => destruct H as [_ ->] | y' = _ => subst y' end;
    cbn; rewrite ?length_fmap, ?length_insert; try done.
  destruct (existsb _ _); [destruct H as (m & k' & _ & _ & ->)|subst y'];
    cbn; by rewrite ?length_insert.
Qed.
End threads.

(** ** Order of locking

    If every thread takes the mutexes in one order, holds none but its own when
    it sleeps and none when it joins, then nobody waits for ever for a mutex. *)

Section order.
Context {S : Type} (rank : mtx -> nat).
Implicit Types (y : t_threads S) (t : t_thread S) (k : list (cmd S)) (held : list mtx).

(** The mutexes held after a command, if it keeps to the order. *)
Fixpoint check (c : cmd S) held : option (list mtx) :=
  let fix checks l held :=
    match l with
    | [] => Some held
    | c :: r => held ← check c held; checks r held
    end in
  match c with
  | Lock m => if forallb (fun h => rank h <? rank m)%nat held then Some (m :: held) else None
  | Unlock m => if decide (m ∈ held) then Some (filter (fun h => h ≠ m) held) else None
  | Wait _ m => if decide (held = [m]) then Some held else None
  | Signal _ | Broadcast _ | Act _ => Some held
  | If _ c1 c2 =>
      if decide (checks c1 held = checks c2 held) then checks c1 held else None
  | While _ body => if decide (checks body held = Some held) then Some held else None
  | Join _ => if decide (held = []) then Some held else None
  end.

Fixpoint checks k held : option (list mtx) :=
  match k with
  | [] => Some held
  | c :: r => held ← check c held; checks r held
  end.

Definition ordered k : Prop := checks k [] = Some [].

Lemma checks_app k1 k2 held : checks (k1 ++ k2) held = held ← checks k1 held; checks k2 held.
Proof.
  revert held. induction k1 as [|c k1 IH]; intros held; [done|]. cbn.
  destruct (check c held); cbn; [apply IH|done].
Qed.

Lemma ordered_app k1 k2 : ordered k1 -> ordered k2 -> ordered (k1 ++ k2).
Proof. unfold ordered. intros H1 H2. by rewrite checks_app, H1. Qed.

Lemma ordered_concat (l : list (list (cmd S))) : Forall ordered l -> ordered (concat l).
Proof. induction 1; [done|]. by apply ordered_app. Qed.

Lemma check_if b c1 c2 held h :
  check (If b c1 c2) held = Some h -> checks c1 held = Some h /\ checks c2 held = Some h.
Proof.
  change (check (If b c1 c2) held)
    with (if decide (checks c1 held = checks c2 held) then checks c1 held else None).
  case_decide as E; [|done]. intros H. by rewrite <- E.
Qed.

Lemma check_while b body held h :
  check (While b body) held = Some h -> h = held /\ checks body held = Some held.
Proof.
  change (check (While b body) held)
    with (if decide (checks body held = Some held) then Some held else None).
  case_decide; [|done]. by intros [= ->].
Qed.

Lemma check_lock m held h :
  check (Lock m) held = Some h ->
  h = m :: held /\ forall m', m' ∈ held -> (rank m' < rank m)%nat.
Proof.
  cbn. destruct (forallb _ _) eqn:E; [|done]. intros [= <-]. split; [done|].
  intros m' Hm. rewrite forallb_forall in E. specialize (E m').
  apply Nat.ltb_lt, E. by apply list_elem_of_In.
Qed.

(** What a thread that holds [held] may be. *)
Definition thread_ok held t : Prop :=
  match t with
  | Runs k => checks k held = Some []
  | Sleeps _ m k => held = [] /\ checks k [m] = Some []
  end.

Definition holds y (i : nat) held : Prop := forall m, owner y !! m = Some i <-> m ∈ held.

Record orderly y : Prop := {
  or_threads i t : pool y !! i = Some t -> exists held, thread_ok held t /\ holds y i held;
  or_owners m i : owner y !! m = Some i -> is_Some (pool y !! i) }.

Lemma start_orderly s (l : list (list (cmd S))) : Forall ordered l -> orderly (start s l).
Proof.
  intros Hl. constructor; [|intros m i; cbn; by rewrite lookup_empty].
  intros i t. cbn. rewrite list_lookup_fmap. intros (k & Hk & ->)%fmap_Some.
  exists []. split; [by eapply (Forall_lookup_1 _ _ _ _ Hl Hk)|].
  intros m. cbn. rewrite lookup_empty. split; [done|]. by intros ?%elem_of_nil.
Qed.

(** Thread [i] becomes [t], holding [held]; the mutexes of the others are the
    same. *)
Lemma orderly_set y s o i t t0 held :
  orderly y -> pool y !! i = Some t0 -> thread_ok held t ->
  (forall m, o !! m = Some i <-> m ∈ held) ->
  (forall m j, j ≠ i -> o !! m = Some j <-> owner y !! m = Some j) ->
  orderly (mk_threads s o (<[i := t]> (pool y))).
Proof.
  intros [H1 H2] Hi Ht Hh Ho. constructor; cbn.
  - intros j u [(<- & <- & _)|(Hj & Hu)]%list_lookup_insert_Some; [by exists held|].
    destruct (H1 j u Hu) as (hj & Hok & Hhj). exists hj. split; [done|].
    intros m. cbn. rewrite Ho by done. apply Hhj.
  - intros m j Hm. rewrite lookup_lt_is_Some, length_insert, <- lookup_lt_is_Some.
    destruct (decide (j = i)) as [->|Hj]; [by eexists|]. apply (H2 m), Ho; done.
Qed.

(** The thread keeps what it holds. *)
Lemma orderly_goes y s i t t0 held :
  orderly y -> pool y !! i = Some t0 -> thread_ok held t -> holds y i held ->
  orderly (mk_threads s (owner y) (<[i := t]> (pool y))).
Proof. intros. by eapply orderly_set. Qed.

Lemma woken_ok held t : thread_ok held t -> thread_ok held (woken t).
Proof. destruct t as [k|c m k]; [done|]. by intros [-> H]. Qed.

Lemma orderly_head y i c k :
  orderly y -> pool y !! i = Some (Runs (c :: k)) ->
  exists held h, holds y i held /\ check c held = Some h /\ checks k h = Some [].
Proof.
  intros [H1 _] Hi. destruct (H1 _ _ Hi) as (held & Hok & Hh). cbn in Hok.
  apply bind_Some in Hok as (h & Hc & Hk). eauto 6.
Qed.

Lemma orderly_lock y i m k :
  orderly y -> pool y !! i = Some (Runs (Lock m :: k)) -> owner y !! m = None ->
  orderly (mk_threads (shared y) (<[m := i]> (owner y)) (<[i := Runs k]> (pool y))).
Proof.
  intros Hy Hi Hm. destruct (orderly_head _ _ _ _ Hy Hi) as (held & h & Hh & Hc & Hk).
  apply check_lock in Hc as [-> _]. eapply orderly_set; [done..| |].
  - intros m'. rewrite lookup_insert_Some, elem_of_cons, <- (Hh m'). naive_solver.
  - intros m' j Hj. rewrite lookup_insert_Some. naive_solver congruence.
Qed.

Lemma orderly_release y i m k t held :
  orderly y -> pool y !! i = Some (Runs k) -> holds y i held -> m ∈ held ->
  thread_ok (filter (fun h => h ≠ m) held) t ->
  orderly (mk_threads (shared y) (delete m (owner y)) (<[i := t]> (pool y))).
Proof.
  intros Hy Hi Hh Hm Ht. eapply orderly_set; [done..| |].
  - intros m'. rewrite lookup_delete_Some, list_elem_of_filter, (Hh m'). naive_solver.
  - intros m' j Hj. apply Hh in Hm. rewrite lookup_delete_Some. naive_solver congruence.
Qed.

Lemma step_orderly y y' : orderly y -> step y y' -> orderly y'.
Proof.
  intros Hy (i & j & H). apply step_of_Some in H as (c & k & Hi & H).
  destruct (orderly_head _ _ _ _ Hy Hi) as (held & h & Hh & Hc & Hk).
  destruct c; cbn in Hc.
  - destruct H as [Ho ->]. by apply orderly_lock.
  - destruct H as [Ho ->]. case_decide as Hm; [|done]. simplify_eq.
    by eapply orderly_release.
  - destruct H as [Ho ->]. case_decide as Hm; [|done]. simplify_eq.
    eapply (orderly_release _ _ _ _ _ [m]); [done..|by left|]. cbn.
    rewrite decide_False by naive_solver. done.
  - simplify_eq. assert (orderly (mk_threads (shared y) (owner y) (<[i := Runs k]> (pool y))))
      as Hy' by (by eapply orderly_goes).
    destruct (existsb _ _); [|by subst]. destruct H as (m & k' & Hj & Hne & ->).
    destruct (or_threads _ Hy _ _ Hj) as (hj & Hok & Hhj).
    apply (orderly_goes _ _ j _ (Sleeps c m k') hj Hy'); [|by apply (woken_ok _ (Sleeps c m k'))|done].
    cbn. by rewrite list_lookup_insert_ne.
  - subst y'. simplify_eq.
    assert (orderly (mk_threads (shared y) (owner y) (<[i := Runs k]> (pool y)))) as [H1 H2]
      by (by eapply orderly_goes).
    constructor; cbn in *.
    + intros n t. rewrite list_lookup_fmap. intros (u & Hu & ->)%fmap_Some.
      destruct (H1 _ _ Hu) as (hn & Hok & Hhn). exists hn. split; [|done].
      destruct (sleeps_on c u); [by apply woken_ok|done].
    + intros m n Hm. rewrite list_lookup_fmap. apply fmap_is_Some. by eapply H2.
  - subst y'. simplify_eq. by eapply orderly_goes.
  - subst y'. apply (check_if b) in Hc as [Hc1 Hc2]. eapply orderly_goes; [done..| |done].
    cbn. rewrite checks_app. destruct (b (shared y)); [by rewrite Hc1|by rewrite Hc2].
  - subst y'. change (check (While b body) held = Some h) in Hc. pose proof Hc as Hc'.
    apply check_while in Hc as [-> Hb]. eapply orderly_goes; [done..| |done].
    cbn. destruct (b (shared y)); [|done]. rewrite checks_app, Hb. cbn [mbind option_bind].
    change (checks (While b body :: k) held = Some []). cbn [checks]. by rewrite Hc'.
  - destruct H as [Ho ->]. case_decide; [|done]. simplify_eq. by eapply orderly_goes.
Qed.

Lemma spurious_orderly y y' : orderly y -> spurious y y' -> orderly y'.
Proof.
  intros Hy [i c m k Hi]. destruct (or_threads _ Hy _ _ Hi) as (held & Hok & Hh).
  eapply orderly_goes; [done..| |done]. by apply (woken_ok _ (Sleeps c m k)).
Qed.

Lemma reachable_orderly y y' : orderly y -> rtc any_step y y' -> orderly y'.
Proof.
  intros Hy. revert y'. apply rtc_ind_r; [done|].
  intros y1 y2 _ [H|H] IH; [by eapply step_orderly|by eapply spurious_orderly].
Qed.

(** *** Progress *)

(** A thread that cannot go on although its mutex, if it wants one, is free. *)
Definition waits y t : Prop :=
  t = Ended \/ (exists c m k, t = Sleeps c m k) \/
  (exists u k, t = Runs (Join u :: k) /\ pool y !! u ≠ Some Ended).

Lemma existsb_sleeper c (l : list (t_thread S)) :
  existsb (sleeps_on c) l = true -> exists j t, l !! j = Some t /\ sleeps_on c t = true.
Proof.
  intros (t & Ht & Hs)%existsb_exists. apply list_elem_of_In, list_elem_of_lookup in Ht as [j Hj].
  eauto.
Qed.

(** Who cannot go on wants a mutex, or waits. *)
Lemma stuck_head y i t :
  orderly y -> (forall j, step_of i j y = None) -> pool y !! i = Some t ->
  waits y t \/ exists m k, t = Runs (Lock m :: k) /\ is_Some (owner y !! m).
Proof.
  intros Hy Hs Hi. destruct t as [[|c k]|c m k]; [left; by left| |left; right; left; eauto].
  destruct (orderly_head _ _ _ _ Hy Hi) as (held & h & Hh & Hc & _).
  destruct c.
  - right. exists m, k. split; [done|]. destruct (owner y !! m) eqn:Ho; [by eexists|].
    specialize (Hs 0%nat). by rewrite (step_of_lock _ _ _ _ _ Hi Ho) in Hs.
  - cbn in Hc. case_decide as Hm; [|done]. apply Hh in Hm.
    specialize (Hs 0%nat). by rewrite (step_of_unlock _ _ _ _ _ Hi Hm) in Hs.
  - cbn in Hc. case_decide as Hm; [|done]. assert (owner y !! m = Some i) as Ho
      by (apply Hh; subst; by left).
    specialize (Hs 0%nat). by rewrite (step_of_wait _ _ _ _ _ _ Hi Ho) in Hs.
  - destruct (existsb (sleeps_on c) (pool y)) eqn:Es.
    + destruct (existsb_sleeper _ _ Es) as (j & t & Hj & Ht). specialize (Hs j).
      unfold step_of in Hs. by rewrite Hi, Es, Hj, Ht in Hs.
    + specialize (Hs 0%nat). by rewrite (step_of_signal_none _ _ _ _ _ Hi Es) in Hs.
  - specialize (Hs 0%nat). unfold step_of in Hs. by rewrite Hi in Hs.
  - specialize (Hs 0%nat). by rewrite (step_of_act _ _ _ _ _ Hi) in Hs.
  - specialize (Hs 0%nat). by rewrite (step_of_if _ _ _ _ _ _ _ Hi) in Hs.
  - specialize (Hs 0%nat). by rewrite (step_of_while _ _ _ _ _ _ Hi) in Hs.
  - left. right. right. exists t, k. split; [done|]. intros Ht. specialize (Hs 0%nat).
    unfold step_of in Hs. by rewrite Hi, Ht in Hs.
Qed.

Definition wanted t : nat :=
  match t with Runs (Lock m :: _) => Datatypes.S (rank m) | _ => 0 end.

(** Nobody can go on: then nobody wants a mutex. *)
Lemma orderly_progress y :
  orderly y -> (forall i j, step_of i j y = None) -> Forall (waits y) (pool y).
Proof.
  intros Hy Hs. apply Forall_lookup_2. intros i t Hi.
  destruct (stuck_head _ _ _ Hy (Hs i) Hi) as [?|(m & k & -> & Ho)]; [done|exfalso].
  assert (forall n i m k, pool y !! i = Some (Runs (Lock m :: k)) -> is_Some (owner y !! m) ->
    (list_max (wanted <$> pool y) < rank m + n)%nat -> False) as Hup.
  { clear i m k Hi Ho. induction n as [|n IH]; intros i m k Hi [j Hj] Hn.
    - assert (wanted (Runs (Lock m :: k)) <= list_max (wanted <$> pool y))%nat as Hle.
      { pose proof (list_max_le (wanted <$> pool y) (list_max (wanted <$> pool y))) as [Hm _].
        specialize (Hm ltac:(lia)). rewrite List.Forall_forall in Hm. apply Hm.
        apply list_elem_of_In, list_elem_of_fmap. eexists. split; [done|].
        by eapply list_elem_of_lookup_2. }
      cbn in Hle. lia.
    - destruct (or_owners _ Hy _ _ Hj) as [u Hu].
      destruct (or_threads _ Hy _ _ Hu) as (held & Hok & Hh).
      assert (m ∈ held) as Hm by (by apply Hh).
      destruct (stuck_head _ _ _ Hy (Hs j) Hu) as [[->|[(c & m' & k' & ->)|(v & k' & -> & _)]]
        |(m' & k' & -> & Ho')].
      + cbn in Hok. simplify_eq. by apply elem_of_nil in Hm.
      + destruct Hok as [-> _]. by apply elem_of_nil in Hm.
      + cbn in Hok. apply bind_Some in Hok as (h & Hc & _). case_decide; [|done]. subst.
        by apply elem_of_nil in Hm.
      + cbn [thread_ok checks] in Hok. apply bind_Some in Hok as (h & [_ Hr]%check_lock & _).
        specialize (Hr _ Hm). eapply (IH j m' k'); [done..|]. lia. }
  eapply (Hup (Datatypes.S (list_max (wanted <$> pool y)))); [done..|lia].
Qed.
End order.
