(* ===== verification/CountedJoin.v ===== *)
(** * CountedJoin: waiting for threads that are counted

    Five places of the code end the same way: a thread takes a mutex, leaves (a
    counter goes down, or a list shrinks), and signals; whoever tears the data
    down waits under the same mutex until none is left.  They are
    [wait_counter_threads] and [decrement_thread_counter]
    (kernel_scheduler/.../scheduler/queues.c), [wait_zero_active_instances] and
    [decrement_active_instances] (domain/pcb.c), [close_cpu] and
    [close_thread_cpu] (connections/cpu.c), [wait_for_listener_threads]
    (kernel_memory/.../cleanup.c) with the ends of [listen_cpu] and
    [listen_scheduler], and [close_listen_thread] with [close_cpu_thread]
    (memory_stick/.../cpu.c).  In all of them but [listen_scheduler], leaving is
    the last thing the thread does with what is torn down; the wait is proved
    once for those, and refuted for [listen_scheduler]. *)

From S2P Require Import Prelude Threads.

Definition the_mutex : nat := 0.
Definition the_cond : nat := 0.

(** What varies: the condition of the wait, and the condition, if any, under
    which a thread that leaves signals, and what it still does to the data once
    it left.  The state is how many are left. *)
Record t_join := mk_join {
  busy : Z -> bool;
  signals : option (Z -> bool);
  after_leaving : list (cmd Z) }.

Definition sound_join (p : t_join) : Prop :=
  (forall n, 0 <= n -> busy p n = bool_decide (0 < n)) /\
  match signals p with None => True | Some b => b 0 = true end /\
  after_leaving p = [].

Section join.
Context (p : t_join).

Definition wait_all : list (cmd Z) :=
  [ Lock the_mutex; While (busy p) [ Wait the_cond the_mutex ]; Unlock the_mutex ].
Definition signal_left : list (cmd Z) :=
  match signals p with
  | None => [ Signal the_cond ]
  | Some b => [ If b [ Signal the_cond ] [] ]
  end.
Definition leave : list (cmd Z) :=
  [ Lock the_mutex; Act (fun n => n - 1) ] ++ signal_left
    ++ Unlock the_mutex :: after_leaving p.

(** [n] threads are to end, and thread 0 waits for them. *)
Definition joining (n : nat) : t_threads Z :=
  start (Z.of_nat n) (wait_all :: replicate n leave).

(** ** Where the threads are *)

Inductive v_pos := V_lock | V_test | V_wait | V_sleep | V_unlock | V_end.
Definition v_thread (v : v_pos) : t_thread Z :=
  match v with
  | V_lock => Runs wait_all
  | V_test => Runs (drop 1 wait_all)
  | V_wait => Runs (Wait the_cond the_mutex :: drop 1 wait_all)
  | V_sleep => Sleeps the_cond the_mutex (drop 1 wait_all)
  | V_unlock => Runs (drop 2 wait_all)
  | V_end => Ended
  end.

Inductive w_pos := W_lock | W_act | W_if | W_signal | W_unlock | W_end.
Definition w_thread (w : w_pos) : t_thread Z :=
  Runs match w with
  | W_lock => leave
  | W_act => drop 1 leave
  | W_if => drop 2 leave
  | W_signal => Signal the_cond :: Unlock the_mutex :: after_leaving p
  | W_unlock => Unlock the_mutex :: after_leaving p
  | W_end => after_leaving p
  end.

Definition v_holds (v : v_pos) : bool :=
  match v with V_test | V_wait | V_unlock => true | _ => false end.
Definition w_holds (w : w_pos) : bool :=
  match w with W_lock | W_end => false | _ => true end.
Definition present (w : w_pos) : Z := match w with W_lock | W_act => 1 | _ => 0 end.
Definition signalling (w : w_pos) : Prop := w = W_if \/ w = W_signal.

#[export] Instance v_pos_eq_dec : EqDecision v_pos.
Proof. solve_decision. Defined.
#[export] Instance w_pos_eq_dec : EqDecision w_pos.
Proof. solve_decision. Defined.

Record joins (y : t_threads Z) (v : v_pos) (ws : list w_pos) : Prop := {
  j_pool : pool y = v_thread v :: (w_thread <$> ws);
  j_count : shared y = sum_with present ws;
  j_waiter : owner y !! the_mutex = Some 0%nat <-> v_holds v = true;
  j_workers i w : ws !! i = Some w ->
    owner y !! the_mutex = Some (S i) <-> w_holds w = true;
  j_sleep : v = V_sleep -> 0 < shared y \/ exists i w, ws !! i = Some w /\ signalling w;
  j_wait : v = V_wait -> 0 < shared y;
  j_done : v = V_unlock \/ v = V_end -> Forall (eq W_end) ws }.

(** The steps left. *)
Definition v_weight (v : v_pos) : Z :=
  match v with
  | V_lock => 5 | V_test => 4 | V_wait => 3 | V_sleep => 2 | V_unlock => 1 | V_end => 0 end.
Definition w_weight (w : w_pos) : Z :=
  match w with
  | W_lock => 10 | W_act => 9 | W_if => 8 | W_signal => 7 | W_unlock => 1 | W_end => 0 end.
Definition weight (v : v_pos) (ws : list w_pos) : Z := v_weight v + sum_with w_weight ws.

Context (Hp : sound_join p).
Implicit Types (y : t_threads Z) (ws : list w_pos).

Lemma joining_joins n : joins (joining n) V_lock (replicate n W_lock).
Proof.
  constructor; cbn.
  - f_equal. by rewrite !fmap_replicate.
  - induction n; [done|]. cbn. lia.
  - by rewrite lookup_empty.
  - intros i w [-> _]%lookup_replicate. by rewrite lookup_empty.
  - done.
  - done.
  - by intros [|].
Qed.

Lemma present_nonneg ws : 0 <= sum_with present ws.
Proof. apply sum_with_nonneg, Forall_forall. by intros []. Qed.

Lemma none_present ws : Forall (eq W_end) ws -> sum_with present ws = 0.
Proof. induction 1; subst; cbn; [done|lia]. Qed.

(** Thread 0 moves. *)
Lemma waiter_moves y v v' ws o' :
  joins y v ws -> (o' !! the_mutex = Some 0%nat <-> v_holds v' = true) ->
  (forall i, o' !! the_mutex = Some (S i) <-> owner y !! the_mutex = Some (S i)) ->
  v' ≠ V_sleep \/ 0 < shared y -> v' ≠ V_wait \/ 0 < shared y ->
  (v' = V_unlock \/ v' = V_end -> Forall (eq W_end) ws) ->
  joins (mk_threads (shared y) o' (<[0%nat := v_thread v']> (pool y))) v' ws.
Proof.
  intros [H1 H2 H3 H4 H5 H6 H7] Hv Ho Hs Hw Hd. constructor; cbn; try done.
  - by rewrite H1.
  - intros i w Hi. rewrite Ho. by apply H4.
  - intros ->. left. by destruct Hs.
  - intros ->. by destruct Hw.
Qed.

(** Another thread moves; thread 0 may be woken up by it. *)
Lemma worker_moves y v v' ws i w w' s' o' :
  joins y v ws -> ws !! i = Some w -> s' = shared y - present w + present w' ->
  v' = v \/ v = V_sleep /\ v' = V_lock ->
  (o' !! the_mutex = Some 0%nat <-> owner y !! the_mutex = Some 0%nat) ->
  (o' !! the_mutex = Some (S i) <-> w_holds w' = true) ->
  (forall j, j ≠ i -> o' !! the_mutex = Some (S j) <-> owner y !! the_mutex = Some (S j)) ->
  (v' = V_sleep -> signalling w -> signalling w' \/ 0 < s') ->
  (present w' < present w -> signalling w' /\ v' ≠ V_wait) -> w ≠ W_end ->
  joins (mk_threads s' o' (v_thread v' :: (w_thread <$> <[i := w']> ws))) v' (<[i := w']> ws).
Proof.
  intros [H1 H2 H3 H4 H5 H6 H7] Hi Hs' Hv Ho0 Hoi Hoj Hsig Hpres Hne.
  assert (i < length ws)%nat as Hlen by (by eapply lookup_lt_Some).
  assert (0 <= present w' <= 1 /\ 0 <= present w <= 1) as Hb by (by destruct w, w').
  constructor; cbn.
  - done.
  - rewrite (sum_with_insert _ _ _ w) by done. by rewrite Hs', H2.
  - rewrite Ho0, H3. by destruct Hv as [->|[-> ->]].
  - intros j x [(<- & <- & _)|(Hj & Hx)]%list_lookup_insert_Some; [done|].
    rewrite Hoj by done. by apply H4.
  - intros Ev. destruct Hv as [Ev'|[_ ->]]; [|done]. rewrite Ev' in Ev.
    destruct (decide (present w' < present w)) as [Hd|Hd].
    { right. exists i, w'. rewrite list_lookup_insert_eq by done. split; [done|]. by apply Hpres. }
    destruct (H5 Ev) as [?|(j & x & Hj & Hx)]; [left; lia|].
    destruct (decide (j = i)) as [->|Hji].
    + rewrite Hi in Hj. simplify_eq. destruct Hsig as [?|?]; [done|done| |by left].
      right. exists i, w'. by rewrite list_lookup_insert_eq.
    + right. exists j, x. by rewrite list_lookup_insert_ne.
  - intros Ev. destruct Hv as [->|[_ ->]]; [|done]. specialize (H6 Ev).
    destruct (decide (present w' < present w)) as [Hd|Hd]; [by destruct (Hpres Hd)|lia].
  - intros Ev. destruct Hv as [->|[_ ->]]; [|by destruct Ev].
    specialize (H7 Ev). rewrite Forall_lookup in H7. by rewrite (H7 _ _ Hi) in Hne.
Qed.

Lemma worker_pool y v ws i t :
  joins y v ws ->
  pool y !! S i = Some t <-> exists w, ws !! i = Some w /\ t = w_thread w.
Proof.
  intros [-> _ _ _ _ _ _].
  change ((v_thread v :: (w_thread <$> ws)) !! S i) with ((w_thread <$> ws) !! i).
  by rewrite list_lookup_fmap, fmap_Some.
Qed.

Lemma worker_set y v ws i w' k :
  joins y v ws -> Runs k = w_thread w' ->
  <[S i := Runs k]> (pool y) = v_thread v :: (w_thread <$> <[i := w']> ws).
Proof. intros [-> _ _ _ _ _ _] ->. cbn. by rewrite list_fmap_insert. Qed.

(** A step of thread 0. *)
Lemma waiter_step j y y' v ws :
  joins y v ws -> step_of 0 j y = Some y' ->
  exists v', joins y' v' ws /\ v_weight v' < v_weight v.
Proof.
  intros Hy H. pose proof Hy as [H1 H2 H3 H4 H5 H6 H7]. destruct Hp as [Hb _].
  pose proof (present_nonneg ws) as Hpos. rewrite <- H2 in Hpos.
  assert (pool y !! 0%nat = Some (v_thread v)) as E by (by rewrite H1).
  assert (v_holds v = true -> forall i, owner y !! the_mutex ≠ Some (S i)) as Hown
    by (intros Hv%H3 i; congruence).
  destruct v; cbn [v_thread] in E.
  - apply step_of_Some in H as (c & k & E' & H). rewrite E in E'. simplify_eq.
    destruct H as [Ho ->]. exists V_test. split; [|done].
    eapply (waiter_moves y V_lock V_test); try done; auto.
    + by rewrite lookup_insert_eq.
    + intros i. rewrite lookup_insert_eq, Ho. done.
    + by intros [|].
  - rewrite (step_of_while _ _ _ _ _ _ E) in H. simplify_eq. rewrite Hb by done.
    case_bool_decide as Hn.
    + exists V_wait. split; [|done]. eapply (waiter_moves y V_test V_wait); try done; auto.
      by intros [|].
    + exists V_unlock. split; [|done]. eapply (waiter_moves y V_test V_unlock); try done; auto.
      intros _. apply Forall_lookup_2. intros i w Hi.
      assert (w_holds w ≠ true) as Hh.
      { intros Hw. apply (H4 i w Hi) in Hw. by apply (Hown eq_refl i). }
      assert (present w <= sum_with present ws) as Hle.
      { apply sum_with_le_elem; [|by eapply list_elem_of_lookup_2].
        apply Forall_forall. by intros []. }
      rewrite <- H2 in Hle. destruct w; cbn in *; done || lia.
  - assert (owner y !! the_mutex = Some 0%nat) as Ho by (by apply H3).
    rewrite (step_of_wait _ _ _ _ _ _ E Ho) in H. simplify_eq. exists V_sleep. split; [|done].
    eapply (waiter_moves y V_wait V_sleep); try done; auto.
    + by rewrite lookup_delete_eq.
    + intros i. rewrite lookup_delete_eq, Ho. done.
    + by intros [|].
  - unfold step_of in H. by rewrite E in H.
  - assert (owner y !! the_mutex = Some 0%nat) as Ho by (by apply H3).
    rewrite (step_of_unlock _ _ _ _ _ E Ho) in H. simplify_eq. exists V_end. split; [|done].
    eapply (waiter_moves y V_unlock V_end); try done; auto.
    + by rewrite lookup_delete_eq.
    + intros i. rewrite lookup_delete_eq, Ho. done.
  - unfold step_of in H. by rewrite E in H.
Qed.

(** The owner of the mutex is one thread. *)
Lemma worker_owns y v ws i w :
  joins y v ws -> ws !! i = Some w -> w_holds w = true ->
  owner y !! the_mutex = Some (S i) /\ v ≠ V_wait.
Proof.
  intros [_ _ H3 H4 _ _ _] Hi Hw. apply (H4 i w Hi) in Hw. split; [done|].
  intros ->. assert (owner y !! the_mutex = Some 0%nat) by (by apply H3). congruence.
Qed.

(** The step of a thread that holds the mutex and keeps it. *)
Lemma inside_moves y v v' ws i w w' s' k :
  joins y v ws -> ws !! i = Some w -> w_holds w = true -> w_holds w' = true ->
  s' = shared y - present w + present w' -> v' = v \/ v = V_sleep /\ v' = V_lock ->
  Runs k = w_thread w' ->
  (v' = V_sleep -> signalling w -> signalling w' \/ 0 < s') ->
  (present w' < present w -> signalling w') ->
  joins (mk_threads s' (owner y) (v_thread v' :: (w_thread <$> <[i := w']> ws))) v' (<[i := w']> ws).
Proof.
  intros Hy Hi Hw Hw' Hs Hv Hk Hsig Hp'. destruct (worker_owns _ _ _ _ _ Hy Hi Hw) as [Ho Hne].
  eapply (worker_moves y v); try done.
  - intros Hl. split; [by apply Hp'|]. intros ->. by destruct Hv as [<-|[_ ?]].
  - by intros ->.
Qed.

Lemma sleepers y v ws :
  joins y v ws -> existsb (sleeps_on the_cond) (pool y) = bool_decide (v = V_sleep).
Proof.
  intros [-> _ _ _ _ _ _]. cbn.
  assert (existsb (sleeps_on the_cond) (w_thread <$> ws) = false) as ->
    by (clear; by induction ws).
  by destruct v.
Qed.

(** The signal, and who hears it. *)
Lemma signal_step i j y y' v ws w k :
  joins y v ws -> ws !! i = Some w -> signalling w ->
  pool y !! S i = Some (Runs (Signal the_cond :: k)) -> Runs k = w_thread W_unlock ->
  step_of (S i) j y = Some y' ->
  exists v' ws', joins y' v' ws' /\ weight v' ws' < weight v ws.
Proof.
  intros Hy Hi Hsg E Hk H. assert (w_holds w = true) as Hw by (by destruct Hsg as [->| ->]).
  assert (present w = 0) as Hpw by (by destruct Hsg as [->| ->]).
  assert (7 <= w_weight w) as Hww by (by destruct Hsg as [->| ->]).
  apply step_of_Some in H as (c & k' & E' & H). rewrite E in E'. simplify_eq.
  rewrite (sleepers _ _ _ Hy) in H. case_bool_decide as Hv.
  - destruct H as (m & k'' & Hj & _ & ->). pose proof Hy as [H1 _ _ _ _ _ _].
    assert (j = 0%nat) as ->.
    { destruct j as [|j]; [done|]. by apply (worker_pool _ _ _ _ _ Hy) in Hj as (? & _ & [=]). }
    subst v. rewrite (worker_set _ _ _ _ W_unlock _ Hy) by done.
    rewrite H1 in Hj. cbn in Hj. simplify_eq.
    exists V_lock, (<[i := W_unlock]> ws). split.
    + eapply (inside_moves y V_sleep V_lock); try done; [cbn; lia|by right|cbn; lia].
    + unfold weight. rewrite (sum_with_insert _ _ _ w) by done. cbn. lia.
  - subst y'. rewrite (worker_set _ _ _ _ W_unlock _ Hy) by done.
    exists v, (<[i := W_unlock]> ws). split.
    + eapply (inside_moves y v v); try done; [cbn; lia|by left|cbn; lia].
    + unfold weight. rewrite (sum_with_insert _ _ _ w) by done. cbn. lia.
Qed.

(** A step that only the thread itself feels. *)
Lemma alone_step y v ws i w w' s' k :
  joins y v ws -> ws !! i = Some w -> w_holds w = true -> w_holds w' = true ->
  s' = shared y - present w + present w' -> Runs k = w_thread w' -> w_weight w' < w_weight w ->
  (v = V_sleep -> signalling w -> signalling w' \/ 0 < s') ->
  (present w' < present w -> signalling w') ->
  exists v' ws', joins (mk_threads s' (owner y) (<[S i := Runs k]> (pool y))) v' ws' /\
    weight v' ws' < weight v ws.
Proof.
  intros Hy Hi Hw Hw' Hs Hk Hwt Hsig Hp'. exists v, (<[i := w']> ws).
  rewrite (worker_set _ _ _ _ w' _ Hy) by done. split.
  - eapply (inside_moves y v v); try done. by left.
  - unfold weight. rewrite (sum_with_insert _ _ _ w) by done. lia.
Qed.

Lemma worker_step i j y y' v ws :
  joins y v ws -> step_of (S i) j y = Some y' ->
  exists v' ws', joins y' v' ws' /\ weight v' ws' < weight v ws.
Proof.
  intros Hy H. destruct Hp as (_ & Hsg & Hafter). pose proof H as (c & k & E & Hc)%step_of_Some.
  apply (worker_pool _ _ _ _ _ Hy) in E as (w & Hi & Ek).
  assert (pool y !! S i = Some (w_thread w)) as E by (apply (worker_pool _ _ _ _ _ Hy); eauto).
  pose proof (j_workers _ _ _ Hy i w Hi) as Hown.
  destruct w; unfold w_thread, leave in E, Ek; cbn in E, Ek, Hown;
    [| | | | |by rewrite Hafter in Ek].
  - simplify_eq. destruct Hc as [Ho ->]. exists v, (<[i := W_act]> ws).
    rewrite (worker_set _ _ _ _ W_act _ Hy) by done. split.
    + eapply (worker_moves y v v _ _ W_lock); try done; [cbn; lia|by left|..].
      * rewrite lookup_insert_eq, Ho. done.
      * by rewrite lookup_insert_eq.
      * intros j' Hj. rewrite lookup_insert_eq, Ho. split; [congruence|done].
      * by intros _ [|].
    + unfold weight. rewrite (sum_with_insert _ _ _ W_lock) by done. cbn. lia.
  - simplify_eq. eapply (alone_step y v ws i W_act W_if); try done.
    + cbn. lia.
    + by intros _ [|].
    + intros _. by left.
  - unfold signal_left in E, Ek. destruct (signals p) as [b|] eqn:Eb; cbn in E.
    + rewrite (step_of_if _ _ _ _ _ _ _ E) in H. simplify_eq. destruct (b (shared y)) eqn:Hb.
      * eapply (alone_step y v ws i W_if W_signal); try done;
          [cbn; lia|left; by right].
      * eapply (alone_step y v ws i W_if W_unlock); try done; [cbn; lia|].
        right. assert (shared y ≠ 0) by (intros E0; congruence).
        pose proof (present_nonneg ws). rewrite <- (j_count _ _ _ Hy) in *. lia.
    + eapply (signal_step i j y); try done. by left.
  - eapply (signal_step i j y); try done. by right.
  - assert (owner y !! the_mutex = Some (S i)) as Ho by (by apply Hown).
    rewrite (step_of_unlock _ _ _ _ _ E Ho) in H. simplify_eq.
    exists v, (<[i := W_end]> ws). rewrite (worker_set _ _ _ _ W_end _ Hy) by done. split.
    + eapply (worker_moves y v v _ _ W_unlock); try done; [cbn; lia|by left|..].
      * rewrite lookup_delete_eq, Ho. done.
      * rewrite lookup_delete_eq. done.
      * intros j' Hj. rewrite lookup_delete_eq, Ho. split; [done|congruence].
      * by intros _ [|].
    + unfold weight. rewrite (sum_with_insert _ _ _ W_unlock) by done. cbn. lia.
Qed.

Lemma joins_step y y' v ws :
  joins y v ws -> step y y' -> exists v' ws', joins y' v' ws' /\ weight v' ws' < weight v ws.
Proof.
  intros Hy (i & j & H). destruct i as [|i]; [|by eapply worker_step].
  destruct (waiter_step _ _ _ _ _ Hy H) as (v' & Hy' & Hw). exists v', ws.
  split; [done|]. unfold weight. lia.
Qed.

Lemma joins_spurious y y' v ws :
  joins y v ws -> spurious y y' -> exists v' ws', joins y' v' ws'.
Proof.
  intros Hy [[|i] c m k H].
  - pose proof Hy as [H1 _ H3 _ _ _ _]. rewrite H1 in H. cbn in H.
    destruct v; cbn in H; simplify_eq. exists V_lock, ws.
    eapply (waiter_moves y V_sleep V_lock ws (owner y)); try done; auto. by intros [|].
  - by apply (worker_pool _ _ _ _ _ Hy) in H as (? & _ & [=]).
Qed.

Lemma joins_reachable n y :
  rtc any_step (joining n) y -> exists v ws, joins y v ws /\ length ws = n.
Proof.
  intros H. assert (length (pool y) = S n) as Hl.
  { revert y H. apply rtc_ind_r; [cbn; by rewrite !length_fmap, length_replicate|].
    intros y1 y2 _ H12 <-. by apply any_step_length. }
  assert (exists v ws, joins y v ws) as (v & ws & Hy).
  { clear Hl. revert y H. apply rtc_ind_r; [do 2 eexists; apply joining_joins|].
    intros y1 y2 _ [H|H] (v & ws & Hy); [|by eapply joins_spurious].
    destruct (joins_step _ _ _ _ Hy H) as (v' & ws' & ? & _). eauto. }
  exists v, ws. split; [done|]. rewrite (j_pool _ _ _ Hy) in Hl. cbn in Hl.
  rewrite length_fmap in Hl. lia.
Qed.

Lemma joining_orderly n : orderly id (joining n).
Proof.
  apply start_orderly. constructor; [done|]. apply Forall_forall.
  intros k [-> _]%elem_of_replicate. destruct Hp as (_ & _ & Hafter).
  unfold leave, signal_left. rewrite Hafter. by destruct (signals p).
Qed.

Lemma weight_bound v ws : 0 <= weight v ws <= 10 * Z.of_nat (length ws) + 5.
Proof.
  unfold weight. assert (0 <= sum_with w_weight ws <= 10 * Z.of_nat (length ws)).
  { induction ws as [|[] ws IH]; cbn in *; lia. }
  destruct v; cbn; lia.
Qed.

Lemma steps_bound k y y' v ws :
  joins y v ws -> nsteps step k y y' -> Z.of_nat k <= weight v ws.
Proof.
  intros Hy H. revert v ws Hy. induction H as [y|k y1 y2 y3 H12 _ IH]; intros v ws Hy.
  - apply weight_bound.
  - destruct (joins_step _ _ _ _ Hy H12) as (v' & ws' & Hy' & Hw). specialize (IH _ _ Hy'). lia.
Qed.
End join.

(** C19: Where leaving the count is the last thing a thread does with what is
    torn down (everywhere but in Kernel Memory's [listen_scheduler]), and all [n]
    threads are counted before the wait starts, the wait is right: whatever the
    schedule, and with or without spurious wake-ups, the threads and the one that
    waits for them never hang; without spurious wake-ups at most [10 * n + 5]
    more steps are made; and once the wait is over every thread has ended. *)
Theorem counted_join p n y :
  sound_join p -> rtc any_step (joining p n) y ->
  ~ deadlocked y /\
  (pool y !! 0%nat = Some Ended -> finished y) /\
  forall k y', nsteps step k y y' -> Z.of_nat k <= 10 * Z.of_nat n + 5.
Proof.
  intros Hp H. pose proof Hp as (_ & _ & Hafter). destruct (joins_reachable p Hp n y H) as (v & ws & Hy & Hl).
  pose proof Hy as [H1 H2 H3 H4 H5 H6 H7]. split_and!.
  - intros [Hstuck Hfin]. apply Hfin.
    pose proof (reachable_orderly _ _ _ (joining_orderly p Hp n) H) as Ho.
    pose proof (orderly_progress id y Ho Hstuck) as Hw. unfold finished. rewrite H1 in *.
    apply Forall_cons in Hw as [Hv Hws].
    assert (Forall (eq W_end) ws) as Hends.
    { rewrite Forall_fmap in Hws. eapply Forall_impl; [exact Hws|]. intros w Hw. cbn in Hw.
      destruct Hw as [E|[(? & ? & ? & [=])|(? & ? & E & _)]];
        destruct w; unfold w_thread, leave, signal_left in E; rewrite ?Hafter in E; cbn in E;
        try destruct (signals p); by simplify_eq. }
    constructor; [|rewrite Forall_fmap; eapply Forall_impl; [exact Hends|intros ? <-; unfold w_thread; by rewrite Hafter]].
    destruct v; cbn in Hv; try (destruct Hv as [[=]|[(? & ? & ? & [=])|(? & ? & [=] & _)]]); [|done].
    exfalso. destruct (H5 eq_refl) as [Hn|(i & w & Hi & Hs)].
    + rewrite H2, none_present in Hn by done. lia.
    + rewrite Forall_lookup in Hends. rewrite <- (Hends _ _ Hi) in Hs. by destruct Hs.
  - intros E. rewrite H1 in E. cbn in E. assert (v = V_end) as -> by (by destruct v; cbn in E; simplify_eq).
    unfold finished. rewrite H1. constructor; [done|]. rewrite Forall_fmap.
    eapply Forall_impl; [apply H7; by right|intros ? <-; unfold w_thread; by rewrite Hafter].
  - intros k y' Hk. pose proof (steps_bound p Hp k y y' v ws Hy Hk).
    pose proof (weight_bound v ws). lia.
Qed.

(** *** The places where the code does it *)

(** [wait_counter_threads] and [decrement_thread_counter]. *)
Definition counter_threads : t_join :=
  mk_join (fun n => bool_decide (n > 0)) (Some (fun n => bool_decide (n <= 0))) [].
(** [wait_zero_active_instances] and [decrement_active_instances]. *)
Definition zero_active_instances : t_join :=
  mk_join (fun n => bool_decide (n ≠ 0)) (Some (fun n => bool_decide (n = 0))) [].
(** [close_cpu] and [close_thread_cpu]; [close_listen_thread] and
    [close_cpu_thread]: the number is the list's length. *)
Definition sockets_left : t_join :=
  mk_join (fun n => negb (bool_decide (n = 0))) (Some (fun n => bool_decide (n = 0))) [].
(** [wait_for_listener_threads], and the end of [listen_cpu], which signals
    always. *)
Definition listener_threads : t_join := mk_join (fun n => bool_decide (n > 0)) None [].
(** The end of [listen_scheduler]: [free_scheduler_data] uses the sockets. *)
Definition scheduler_listener : t_join :=
  mk_join (fun n => bool_decide (n > 0)) None [ Act (fun n => n) ].

Lemma all_sound : Forall sound_join
  [counter_threads; zero_active_instances; sockets_left; listener_threads].
Proof.
  repeat constructor; intros n Hn; cbn;
    try (apply bool_decide_ext; lia); rewrite <- bool_decide_not; apply bool_decide_ext; lia.
Qed.

(** Two threads of CPUs end while [close_cpu] sleeps. *)
Lemma counted_join_witness :
  exists y, run_schedule [(0, 0); (0, 0); (0, 0); (1, 0); (1, 0); (1, 0); (1, 0)]%nat
      (joining sockets_left 2) = Some y /\
    ~ deadlocked y /\
    (pool y !! 0%nat = Some Ended -> finished y) /\
    forall k y', nsteps step k y y' -> Z.of_nat k <= 10 * Z.of_nat 2 + 5.
Proof.
  eexists. split; [reflexivity|].
  apply (counted_join sockets_left 2).
  - pose proof all_sound as H. rewrite Forall_forall in H. apply H. set_solver.
  - eapply rtc_subrel; [|eapply (run_schedule_steps
      [(0, 0); (0, 0); (0, 0); (1, 0); (1, 0); (1, 0); (1, 0)]%nat); reflexivity].
    intros y1 y2 Hy. by left.
Defined.

(** The wait for the scheduler's listener ends before the listener does. *)
Lemma scheduler_listener_outlives_wait :
  exists y, rtc step (joining scheduler_listener 1) y /\
    pool y !! 0%nat = Some Ended /\ ~ finished y.
Proof.
  eexists. split; [eapply (run_schedule_steps
    [(1, 0); (1, 0); (1, 0); (1, 0); (0, 0); (0, 0); (0, 0)]%nat); reflexivity|].
  split; [reflexivity|]. intros H. inversion H as [|? ? _ H1]. by inversion H1.
Qed.
