(* ===== verification/ListenerEnd.v ===== *)
(** * ListenerEnd: the end of Kernel Memory's listeners (cleanup.c,
      scheduler_listener.c, cpu_listener.c)

    [free_kernel_memory_data] destroys the sockets once the wait is over;
    [close_cpu] of a CPU's listener comes before the listener leaves, but
    [free_scheduler_data] of the scheduler's comes after. *)

From S2P Require Import Prelude Threads CountedJoin.

Record t_end := mk_end { left : Z; freed : bool; used_after_free : bool }.

Definition leaves (s : t_end) : t_end := mk_end (left s - 1) (freed s) (used_after_free s).
Definition frees (s : t_end) : t_end := mk_end (left s) true (used_after_free s).
Definition uses_sockets (s : t_end) : t_end :=
  mk_end (left s) (freed s) (used_after_free s || freed s).

Definition free_kernel_memory_data : list (cmd t_end) :=
  [ Lock the_mutex; While (fun s => bool_decide (left s > 0)) [ Wait the_cond the_mutex ];
    Unlock the_mutex; Act frees ].
Definition end_of_listen_scheduler : list (cmd t_end) :=
  [ Lock the_mutex; Act leaves; Signal the_cond; Unlock the_mutex; Act uses_sockets ].
Definition end_of_listen_cpu : list (cmd t_end) :=
  [ Act uses_sockets; Lock the_mutex; Act leaves; Signal the_cond; Unlock the_mutex ].

(** The scheduler's listener can touch the sockets after they were freed. *)
Theorem scheduler_listener_uses_freed :
  exists y, rtc step (start (mk_end 1 false false)
      [free_kernel_memory_data; end_of_listen_scheduler]) y /\
    used_after_free (shared y) = true.
Proof.
  eexists. split; [eapply (run_schedule_steps
    [(1, 0); (1, 0); (1, 0); (1, 0); (0, 0); (0, 0); (0, 0); (0, 0); (1, 0)]%nat); reflexivity|].
  reflexivity.
Qed.
