(* ===== verification/SchedState.v ===== *)
(** * SchedState: kernel_scheduler/src/kernel_scheduler/scheduler/queue_types.h,
      domain/pcb.h

    The scheduler's data: process control blocks, queues, routine flags; the
    monad its functions are written in.  A [t_pcb*] is the process's pid; the
    store says which PCBs are alive, so that using a destroyed one shows. *)

From Stdlib Require Import Strings.Byte.
From S2P Require Import Prelude Bytes Msg Text.
From S2P Require Export StateM.

(** ** Process control blocks *)

Inductive t_process_state :=
  | PS_NEW | PS_READY | PS_EXEC | PS_BLOCK | PS_SUSP_BLOCK | PS_SUSP_READY | PS_EXIT.

#[export] Instance t_process_state_eq_dec : EqDecision t_process_state.
Proof. solve_decision. Defined.

(** [blocking_mutex] is the name of the mutex the process waits for. *)
Record t_pcb := mk_pcb {
  priority : Z;
  priority_list : list Z;
  blocked_time : Z;
  state : t_process_state;
  active_instances : Z;
  blocking_mutex : option text }.

Definition set_state (st : t_process_state) (p : t_pcb) : t_pcb :=
  mk_pcb (priority p) (priority_list p) (blocked_time p) st (active_instances p)
    (blocking_mutex p).
Definition set_blocked_time (time : Z) (p : t_pcb) : t_pcb :=
  mk_pcb (priority p) (priority_list p) time (state p) (active_instances p)
    (blocking_mutex p).
Definition set_active_instances (n : Z) (p : t_pcb) : t_pcb :=
  mk_pcb (priority p) (priority_list p) (blocked_time p) (state p) n
    (blocking_mutex p).
Definition set_blocking_mutex (m : option text) (p : t_pcb) : t_pcb :=
  mk_pcb (priority p) (priority_list p) (blocked_time p) (state p)
    (active_instances p) m.
Definition set_priorities (pr : Z) (l : list Z) (p : t_pcb) : t_pcb :=
  mk_pcb pr l (blocked_time p) (state p) (active_instances p) (blocking_mutex p).

(** ** Queues *)

Inductive t_scheduling_algorithm := SA_FIFO | SA_RR | SA_MULTILEVEL_QUEUES.

#[export] Instance t_scheduling_algorithm_eq_dec : EqDecision t_scheduling_algorithm.
Proof. solve_decision. Defined.

Inductive t_process_end_reason :=
  | PER_INVALID_PRIORITY | PER_EXIT_INSTRUCTION | PER_SYSTEM_SHUTDOWN
  | PER_IO_FAILURE | PER_NOT_ENOUGH_MEMORY | PER_SEGMENTATION_FAULT
  | PER_MUTEX_NAME_ALREADY_EXISTS | PER_MUTEX_NAME_NOT_FOUND
  | PER_PROCESS_HAS_NO_LOCKED_MUTEX.

#[export] Instance t_process_end_reason_eq_dec : EqDecision t_process_end_reason.
Proof. solve_decision. Defined.

Record t_ready_subqueue := mk_subqueue {
  queue : list Z;
  algorithm : t_scheduling_algorithm }.

Record t_ready_queue := mk_ready_queue {
  queues : list t_ready_subqueue;   (** [queue_count] is its length *)
  multilevel_queue : bool;
  ready_process_count : Z;
  terminate_queue : bool;
  preempt_all : bool;
  highest_priority : Z }.

Record t_execute_list := mk_execute_list {
  exec_list : list Z;
  lowest_priority : Z;
  quantum : Z;
  preemption : bool }.

Record t_blocking_list := mk_blocking_list {
  bl_list : list Z;
  new_process : bool }.

Inductive t_thread_state :=
  | TS_RUNNING | TS_WAITING_PROCESS | TS_BLOCKED | TS_FINISHING | TS_FINISHED.

#[export] Instance t_thread_state_eq_dec : EqDecision t_thread_state.
Proof. solve_decision. Defined.

(** The routines' flags, counters and worker threads.  [resumptions] and
    [unlockers] count the threads created that have not run yet. *)
Record t_routine_state := mk_routines {
  thread_counter : Z;
  syscall_counter : Z;
  routine_active : bool;
  terminate_routines : bool;
  compaction_active : bool;
  resume_active : bool;
  suspender : t_thread_state;
  resumer : t_thread_state;
  suspension_timeout : Z;
  resumptions : nat;
  unlockers : nat }.

Inductive t_shutdown_reason :=
  | SR_NO_PROCESSES | SR_CORRUPTED_MEMORY | SR_KERNEL_MEMORY_CONNECTION_FAILURE
  | SR_UNKNOWN_CAUSE | SR_KERNEL_MEMORY_SEND_ERROR.

#[export] Instance t_shutdown_reason_eq_dec : EqDecision t_shutdown_reason.
Proof. solve_decision. Defined.

(** [t_queues], with the process-wide statics: the PCBs alive, the pid counter,
    the clock and the reason the scheduler was shut down for. *)
Record t_queues (U : Type) := mk_queues {
  pcbs : gmap Z t_pcb;
  next_pid : Z;
  ready : t_ready_queue;
  exec : t_execute_list;
  block : t_blocking_list;
  susp_block : t_blocking_list;
  susp_ready : t_blocking_list;
  active_process_count : Z;
  km_socket : t_socket U;
  routines : t_routine_state;
  clock : Z;
  shutdown : option t_shutdown_reason }.
Arguments mk_queues {U} _ _ _ _ _ _ _ _ _ _ _ _.
Arguments pcbs {U} _.
Arguments next_pid {U} _.
Arguments ready {U} _.
Arguments exec {U} _.
Arguments block {U} _.
Arguments susp_block {U} _.
Arguments susp_ready {U} _.
Arguments active_process_count {U} _.
Arguments km_socket {U} _.
Arguments routines {U} _.
Arguments clock {U} _.
Arguments shutdown {U} _.

Section updates.
Context {U : Type}.
Implicit Types (q : t_queues U).

Definition set_pcbs f q : t_queues U :=
  mk_queues (f (pcbs q)) (next_pid q) (ready q) (exec q) (block q) (susp_block q)
    (susp_ready q) (active_process_count q) (km_socket q) (routines q) (clock q)
    (shutdown q).
Definition set_next_pid n q : t_queues U :=
  mk_queues (pcbs q) n (ready q) (exec q) (block q) (susp_block q)
    (susp_ready q) (active_process_count q) (km_socket q) (routines q) (clock q)
    (shutdown q).
Definition set_ready f q : t_queues U :=
  mk_queues (pcbs q) (next_pid q) (f (ready q)) (exec q) (block q) (susp_block q)
    (susp_ready q) (active_process_count q) (km_socket q) (routines q) (clock q)
    (shutdown q).
Definition set_exec f q : t_queues U :=
  mk_queues (pcbs q) (next_pid q) (ready q) (f (exec q)) (block q) (susp_block q)
    (susp_ready q) (active_process_count q) (km_socket q) (routines q) (clock q)
    (shutdown q).
Definition set_block f q : t_queues U :=
  mk_queues (pcbs q) (next_pid q) (ready q) (exec q) (f (block q)) (susp_block q)
    (susp_ready q) (active_process_count q) (km_socket q) (routines q) (clock q)
    (shutdown q).
Definition set_susp_block f q : t_queues U :=
  mk_queues (pcbs q) (next_pid q) (ready q) (exec q) (block q) (f (susp_block q))
    (susp_ready q) (active_process_count q) (km_socket q) (routines q) (clock q)
    (shutdown q).
Definition set_susp_ready f q : t_queues U :=
  mk_queues (pcbs q) (next_pid q) (ready q) (exec q) (block q) (susp_block q)
    (f (susp_ready q)) (active_process_count q) (km_socket q) (routines q) (clock q)
    (shutdown q).
Definition set_process_count f q : t_queues U :=
  mk_queues (pcbs q) (next_pid q) (ready q) (exec q) (block q) (susp_block q)
    (susp_ready q) (f (active_process_count q)) (km_socket q) (routines q) (clock q)
    (shutdown q).
Definition set_km_socket s q : t_queues U :=
  mk_queues (pcbs q) (next_pid q) (ready q) (exec q) (block q) (susp_block q)
    (susp_ready q) (active_process_count q) s (routines q) (clock q) (shutdown q).
Definition set_routines f q : t_queues U :=
  mk_queues (pcbs q) (next_pid q) (ready q) (exec q) (block q) (susp_block q)
    (susp_ready q) (active_process_count q) (km_socket q) (f (routines q)) (clock q)
    (shutdown q).
Definition set_clock t q : t_queues U :=
  mk_queues (pcbs q) (next_pid q) (ready q) (exec q) (block q) (susp_block q)
    (susp_ready q) (active_process_count q) (km_socket q) (routines q) t (shutdown q).
Definition set_shutdown r q : t_queues U :=
  mk_queues (pcbs q) (next_pid q) (ready q) (exec q) (block q) (susp_block q)
    (susp_ready q) (active_process_count q) (km_socket q) (routines q) (clock q) r.
End updates.

(** ** The monad of the scheduler's functions *)

Abbreviation M U := (St (t_queues U)).

(** A wait on a condition variable: the other threads run ([interfere]), and
    the thread goes on in a state where the condition holds. *)
Definition wait {U} (interfere : t_queues U -> t_queues U) (cond : t_queues U -> bool)
    : M U unit := fun q =>
  if cond q then Ok (tt, q) else
  let q := interfere q in if cond q then Ok (tt, q) else Undef Blocked.
