(* ===== verification/ExecLocks.v ===== *)
(** * ExecLocks: the mutexes of kernel_scheduler/.../scheduler/exec_list.c

    Waiting until the CPUs have handed their processes back.  [list_mutex] is the
    list's, [counter_mutex] the system call counter's; [queue_empty] and
    [condition] are their condition variables.  Of the list only its size
    matters here. *)

From S2P Require Import Prelude Threads.

Record t_exec := mk_exec { size : Z; count : Z }.

Definition list_mutex : nat := 0.
Definition counter_mutex : nat := 1.
Definition queue_empty : nat := 0.
Definition condition : nat := 1.

Definition others_run (s : t_exec) : bool := bool_decide (size s - count s > 0).
#[local] Arguments others_run : simpl never.

Definition wait_queue_exec_empty_with_syscalls : list (cmd t_exec) :=
  [ Lock list_mutex; Lock counter_mutex;
    While others_run [Wait condition list_mutex];
    Unlock counter_mutex; Unlock list_mutex ].

Definition transition_to_exec : list (cmd t_exec) :=
  [ Lock list_mutex; Act (fun s => mk_exec (size s + 1) (count s)); Unlock list_mutex ].

(** It only writes [lowest_priority]. *)
Definition update_lowest_exec_priority : list (cmd t_exec) :=
  [ Lock list_mutex; Act id; Unlock list_mutex ].

(** Up to the unlocking of the list. *)
Definition take_exec : list (cmd t_exec) :=
  [ Lock list_mutex; Act (fun s => mk_exec (size s - 1) (count s));
    If (fun s => bool_decide (size s = 0)) [Signal queue_empty] [];
    Lock counter_mutex;
    If (fun s => bool_decide (size s - count s = 0)) [Signal condition] [];
    Unlock counter_mutex; Unlock list_mutex ].
Definition transition_take_exec (preemption : bool) : list (cmd t_exec) :=
  take_exec ++ if preemption then update_lowest_exec_priority else [].

(** [increment_syscall_counter] and [decrement_syscall_counter]. *)
Definition add_syscall_counter (d : Z) : list (cmd t_exec) :=
  [ Lock counter_mutex; Act (fun s => mk_exec (size s) (count s + d)); Unlock counter_mutex ].

(** What the threads of the CPUs do with the list, a critical section each. *)
Inductive t_section := TakeExec | ToExec | UpdateLowest | Syscall (d : Z).
Definition code (c : t_section) : list (cmd t_exec) :=
  match c with
  | TakeExec => take_exec | ToExec => transition_to_exec
  | UpdateLowest => update_lowest_exec_priority | Syscall d => add_syscall_counter d
  end.
Definition codes (l : list t_section) : list (cmd t_exec) := concat (code <$> l).

(** The thread that compacts sleeps, and the others, who cannot have been inside
    the list, go on with [l]. *)
Definition waits_on : list (cmd t_exec) :=
  While others_run [Wait condition list_mutex] :: [Unlock counter_mutex; Unlock list_mutex].
Definition asleep (s : t_exec) (l : list (list t_section)) : t_threads t_exec :=
  mk_threads s {[counter_mutex := 0%nat]}
    (Sleeps condition list_mutex waits_on :: (Runs <$> (codes <$> l))).

Lemma goes_to_sleep s l :
  others_run s = true ->
  run_schedule [(0, 0); (0, 0); (0, 0); (0, 0)]%nat
    (start s (wait_queue_exec_empty_with_syscalls :: (codes <$> l))) = Some (asleep s l).
Proof.
  intros H. cbn [run_schedule].
  erewrite step_of_lock by reflexivity. cbn [mbind option_bind].
  erewrite step_of_lock by reflexivity. cbn [mbind option_bind].
  erewrite step_of_while by reflexivity. cbn [mbind option_bind].
  cbn [shared start]. rewrite H. erewrite step_of_wait by reflexivity.
  cbn [mbind option_bind]. f_equal.
Qed.

(** A section that uses the counter's mutex. *)
Definition needs_counter (c : t_section) : bool :=
  match c with TakeExec | Syscall _ => true | ToExec | UpdateLowest => false end.

(** *** Where the other threads are *)

(** The rest of the section a thread is in, and those that follow. *)
Definition thread_at (p : list (cmd t_exec) * list t_section) : t_thread t_exec :=
  Runs (p.1 ++ codes p.2).

Inductive holding : list (cmd t_exec) -> Prop :=
  | h_add : holding (drop 1 transition_to_exec)
  | h_low : holding (drop 1 update_lowest_exec_priority)
  | h_unlock : holding [Unlock list_mutex]
  | h_take : holding (drop 1 take_exec).
(** It took a process out of the list, and will need the counter. *)
Inductive taken : list (cmd t_exec) -> Prop :=
  | t_if : taken (drop 2 take_exec)
  | t_signal : taken (Signal queue_empty :: drop 3 take_exec)
  | t_lock : taken (drop 3 take_exec).

(** The sections left are still some of [l], the counter's among them. *)
Definition place (y : t_threads t_exec) (i : nat) (l : list t_section)
    (p : list (cmd t_exec) * list t_section) : Prop :=
  (p.1 = [] \/ taken p.1 \/ holding p.1) /\
  (owner y !! list_mutex = Some (S i) <-> p.1 ≠ []) /\
  (existsb needs_counter l = true ->
   taken p.1 \/ p.1 = drop 1 take_exec \/ existsb needs_counter p.2 = true).

Definition waiter_at (y : t_threads t_exec) (w : t_thread t_exec) : Prop :=
  (w = Sleeps condition list_mutex waits_on \/ w = Runs (Lock list_mutex :: waits_on)) /\
    owner y !! list_mutex ≠ Some 0%nat \/
  (w = Runs waits_on \/ w = Runs (Wait condition list_mutex :: waits_on)) /\
    owner y !! list_mutex = Some 0%nat.

Record waiting (L : list (list t_section)) (y : t_threads t_exec) w ps : Prop := {
  wa_pool : pool y = w :: (thread_at <$> ps);
  wa_counter : owner y !! counter_mutex = Some 0%nat;
  wa_waiter : waiter_at y w;
  wa_length : length ps = length L;
  wa_places i l p : L !! i = Some l -> ps !! i = Some p -> place y i l p;
  wa_size : others_run (shared y) = true \/ exists i p, ps !! i = Some p /\ taken p.1 }.

Lemma asleep_waiting s L :
  others_run s = true ->
  waiting L (asleep s L) (Sleeps condition list_mutex waits_on) ((fun l => ([], l)) <$> L).
Proof.
  intros Hs. constructor; try done.
  - cbn. f_equal. rewrite <- !list_fmap_compose. by apply list_fmap_ext.
  - left. split; [by left|done].
  - by rewrite length_fmap.
  - intros i l p Hl. rewrite list_lookup_fmap, Hl. intros [= <-].
    split_and!; [by left|done|by right; right].
  - by left.
Qed.

Section moves.
Context (L : list (list t_section)).
Implicit Types (y : t_threads t_exec).

(** Another thread moves from [p] to [p']. *)
Lemma move y w ps n l p p' s' o' :
  waiting L y w ps -> L !! n = Some l -> ps !! n = Some p ->
  let y' := mk_threads s' o' (w :: (thread_at <$> <[n := p']> ps)) in
  place y' n l p' -> o' !! counter_mutex = owner y !! counter_mutex ->
  (forall m, m ≠ S n -> o' !! list_mutex = Some m <-> owner y !! list_mutex = Some m) ->
  (others_run (shared y) = true \/ taken p.1 -> others_run s' = true \/ taken p'.1) ->
  waiting L y' w (<[n := p']> ps).
Proof.
  intros [H1 H2 H3 H4 H5 H6] Hl Hp y' Hp' Hc Hm Hs. constructor; try done.
  - unfold y'. cbn. by rewrite Hc.
  - destruct H3 as [[? H3]|[? H3]]; [left|right]; (split; [done|]); unfold y'; cbn.
    + by rewrite Hm.
    + by rewrite Hm.
  - by rewrite length_insert.
  - intros i li pi Hi [(<- & <- & _)|(Hne & E)]%list_lookup_insert_Some;
      [by rewrite Hl in Hi; simplify_eq|].
    destruct (H5 i li pi Hi E) as (A & B & C). split_and!; [done| |done].
    unfold y'; cbn. rewrite Hm by congruence. done.
  - assert (n < length ps)%nat by (by eapply lookup_lt_Some).
    assert (others_run s' = true \/ taken p'.1 \/
      exists i p, i ≠ n /\ ps !! i = Some p /\ taken p.1) as [?|[?|(i & q & ? & ? & ?)]].
    { destruct H6 as [?|(i & q & Hi & Ht)]; [destruct Hs; auto|].
      destruct (decide (i = n)) as [->|]; [|by eauto 10].
      rewrite Hp in Hi. simplify_eq. destruct Hs; auto. }
    + by left.
    + right. exists n, p'. by rewrite list_lookup_insert_eq.
    + right. exists i, q. by rewrite list_lookup_insert_ne.
Qed.

(** The thread that waits moves. *)
Lemma move_waiter y w w' ps o' :
  waiting L y w ps -> waiter_at (mk_threads (shared y) o' (w' :: (thread_at <$> ps))) w' ->
  o' !! counter_mutex = owner y !! counter_mutex ->
  (forall m, o' !! list_mutex = Some (S m) <-> owner y !! list_mutex = Some (S m)) ->
  waiting L (mk_threads (shared y) o' (w' :: (thread_at <$> ps))) w' ps.
Proof.
  intros [H1 H2 H3 H4 H5 H6] Hw Hc Hm. constructor; try done.
  - cbn. by rewrite Hc.
  - intros i l p Hl Hp. destruct (H5 i l p Hl Hp) as (A & B & C). split_and!; try done.
    cbn [owner]. by rewrite Hm.
Qed.

(** While somebody holds the list, everybody runs. *)
Lemma waiter_runs y w ps : waiting L y w ps -> others_run (shared y) = true \/
  owner y !! list_mutex ≠ Some 0%nat.
Proof.
  intros [H1 H2 H3 H4 H5 H6]. destruct H6 as [?|(i & p & Hp & Ht)]; [by left|right].
  assert (is_Some (L !! i)) as [l Hl].
  { apply lookup_lt_is_Some. rewrite <- H4. by eapply lookup_lt_Some. }
  destruct (H5 i l p Hl Hp) as (_ & [_ B] & _). rewrite B; [done|]. intros E.
  rewrite E in Ht. inversion Ht.
Qed.

Lemma nobody_hears y w ps : waiting L y w ps -> existsb (sleeps_on queue_empty) (pool y) = false.
Proof.
  intros [H1 _ H3 _ _ _]. rewrite H1. cbn.
  assert (sleeps_on queue_empty w = false) as -> by (by destruct H3 as [[[->| ->] _]|[[->| ->] _]]).
  clear. induction ps; [done|by cbn].
Qed.

(** Another thread's step, written as one of [move]. *)
Lemma other_pool w ps n p' k :
  Runs k = thread_at p' ->
  <[S n := Runs k]> (w :: (thread_at <$> ps)) = w :: (thread_at <$> <[n := p']> ps).
Proof. intros ->. cbn. by rewrite list_fmap_insert. Qed.

(** A thread between two sections locks one of the mutexes. *)
Lemma codes_cons l c k :
  codes l = c :: k -> exists sec r, l = sec :: r /\
    ((needs_counter sec = true /\ sec ≠ TakeExec /\ c = Lock counter_mutex) \/
     (holding (drop 1 (code sec)) /\ c = Lock list_mutex /\ k = drop 1 (code sec) ++ codes r /\
      (needs_counter sec = true -> drop 1 (code sec) = drop 1 take_exec))).
Proof.
  destruct l as [|sec r]; [done|]. unfold codes. cbn [fmap list_fmap concat]. intros H.
  exists sec, r. split; [done|]. destruct sec; cbn in H; simplify_eq;
    [right|right|right|left]; split_and!; try done; constructor.
Qed.

Lemma enter_step y w ps n l p c k :
  waiting L y w ps -> L !! n = Some l -> ps !! n = Some ([], p) -> codes p = c :: k ->
  (exists m, c = Lock m /\ owner y !! m = None) ->
  exists p', c = Lock list_mutex /\
    waiting L (mk_threads (shared y) (<[list_mutex := S n]> (owner y))
      (<[S n := Runs k]> (pool y))) w (<[n := p']> ps).
Proof.
  intros Hw Hl Hp Hc (m & -> & Hm). pose proof Hw as [H1 H2 H3 _ H5 _].
  destruct (codes_cons _ _ _ Hc) as (sec & r & -> & [(_ & _ & [= ->])|(Hh & [= ->] & -> & Hd)]);
    [congruence|].
  exists (drop 1 (code sec), r). split; [done|]. rewrite H1, (other_pool _ _ _ (drop 1 (code sec), r)) by done.
  destruct (H5 n l _ Hl Hp) as (_ & _ & Hneed).
  assert (drop 1 (code sec) ≠ []) as Hne by (by destruct sec).
  assert (forall i, i ≠ S n -> <[list_mutex:=S n]> (owner y) !! list_mutex = Some i <->
    owner y !! list_mutex = Some i) as Hi by (intros i ?; rewrite lookup_insert_eq, Hm; naive_solver).
  apply (move y w ps n l ([], sec :: r)); try done.
  - split_and!; [by right; right|cbn [owner]; by rewrite lookup_insert_eq|]. cbn [fst snd].
    intros Hn. destruct (Hneed Hn) as [Ht|[Ht|Ht]]; [inversion Ht|done|]. cbn in Ht.
    apply orb_true_iff in Ht as [Ht|Ht]; [right; left; by apply Hd|by right; right].
  - by rewrite lookup_insert_ne.
  - intros [?|Ht]; [by left|inversion Ht].
Qed.

Lemma unlock_other y w ps n l r :
  waiting L y w ps -> L !! n = Some l -> ps !! n = Some ([Unlock list_mutex], r) ->
  owner y !! list_mutex = Some (S n) ->
  waiting L (mk_threads (shared y) (delete list_mutex (owner y))
    (<[S n := Runs (codes r)]> (pool y))) w (<[n := ([], r)]> ps).
Proof.
  intros Hw Hl Hp Ho. pose proof Hw as [H1 H2 H3 _ H5 _].
  rewrite H1, (other_pool _ _ _ ([], r)) by done. destruct (H5 n l _ Hl Hp) as (_ & _ & Hneed).
  apply (move y w ps n l ([Unlock list_mutex], r)); try done.
  - split_and!; [by left|cbn [owner]; by rewrite lookup_delete_eq|]. cbn [fst snd].
    intros Hn. destruct (Hneed Hn) as [Ht|[Ht|Ht]]; [inversion Ht|done|by right; right].
  - by rewrite lookup_delete_ne.
  - intros i Hi. rewrite lookup_delete_eq, Ho. naive_solver.
  - intros [?|Ht]; [by left|inversion Ht].
Qed.

(** Inside the list a thread only changes the sizes. *)
Lemma inside_step y w ps n l p p' s' k :
  waiting L y w ps -> L !! n = Some l -> ps !! n = Some p -> p.1 ≠ [] ->
  p'.1 ≠ [] -> taken p'.1 \/ holding p'.1 -> Runs k = thread_at p' -> p'.2 = p.2 ->
  (taken p.1 \/ p.1 = drop 1 take_exec -> taken p'.1) ->
  (others_run (shared y) = true \/ taken p.1 -> others_run s' = true \/ taken p'.1) ->
  waiting L (mk_threads s' (owner y) (<[S n := Runs k]> (pool y))) w (<[n := p']> ps).
Proof.
  intros Hw Hl Hp Hne Hne' Hp' Hk H2 Ht Hs. pose proof Hw as [H1 _ _ _ H5 _].
  rewrite H1, (other_pool _ _ _ p') by done. destruct (H5 n l _ Hl Hp) as (_ & Ho & Hneed).
  apply (move y w ps n l p); try done. split_and!.
  - destruct Hp'; auto.
  - cbn [owner]. split; [done|]. intros _. by apply Ho.
  - intros Hn. rewrite H2. destruct (Hneed Hn) as [?|[?|?]]; auto.
Qed.

Lemma pool_other y w ps n t :
  waiting L y w ps ->
  pool y !! S n = Some t <-> exists p, ps !! n = Some p /\ t = thread_at p.
Proof.
  intros [-> _ _ _ _ _]. change ((w :: (thread_at <$> ps)) !! S n) with ((thread_at <$> ps) !! n).
  rewrite list_lookup_fmap, fmap_Some. done.
Qed.

(** The thread that took a process out of the list comes to the counter. *)
Lemma taken_step i j y y' w ps n l p1 p2 :
  waiting L y w ps -> L !! n = Some l -> ps !! n = Some (p1, p2) -> taken p1 ->
  i = S n -> step_of i j y = Some y' -> exists ps', waiting L y' w ps'.
Proof.
  intros Hw Hl Hp Ht -> H. pose proof Hw as [H1 H2 _ _ _ _].
  assert (pool y !! S n = Some (thread_at (p1, p2))) as E
    by (apply (pool_other _ _ _ _ _ Hw); eauto).
  inversion Ht; subst p1; unfold thread_at in E; cbn in E.
  - rewrite (step_of_if _ _ _ _ _ _ _ E) in H. simplify_eq. case_bool_decide.
    + exists (<[n := (Signal queue_empty :: drop 3 take_exec, p2)]> ps).
      eapply inside_step; try done; [left; constructor|intros _; constructor|].
      intros _. right. constructor.
    + exists (<[n := (drop 3 take_exec, p2)]> ps).
      eapply inside_step; try done; [left; constructor|intros _; constructor|].
      intros _. right. constructor.
  - rewrite (step_of_signal_none _ _ _ _ _ E) in H by (by eapply nobody_hears). simplify_eq.
    exists (<[n := (drop 3 take_exec, p2)]> ps).
    eapply inside_step; try done; [left; constructor|intros _; constructor|].
    intros _. right. constructor.
  - apply step_of_Some in H as (c & k & Ec & H). rewrite E in Ec. simplify_eq.
    destruct H as [Ho _]. congruence.
Qed.

Lemma holding_step i j y y' w ps n l p1 p2 :
  waiting L y w ps -> L !! n = Some l -> ps !! n = Some (p1, p2) -> holding p1 ->
  i = S n -> step_of i j y = Some y' -> exists ps', waiting L y' w ps'.
Proof.
  intros Hw Hl Hp Ht -> H. pose proof Hw as [H1 H2 _ _ H5 _].
  assert (pool y !! S n = Some (thread_at (p1, p2))) as E
    by (apply (pool_other _ _ _ _ _ Hw); eauto).
  assert (p1 ≠ []) as Hne by (intros ->; inversion Ht).
  inversion Ht; subst p1; unfold thread_at in E; cbn in E.
  1,2: rewrite (step_of_act _ _ _ _ _ E) in H; simplify_eq;
    exists (<[n := ([Unlock list_mutex], p2)]> ps);
    eapply inside_step; try done; [right; constructor|intros [Hx|Hx]; inversion Hx|];
    (intros [Hr|Hx]; [|inversion Hx]); left; unfold others_run in *;
    apply bool_decide_eq_true in Hr; apply bool_decide_eq_true; cbn; lia.
  - exists (<[n := ([], p2)]> ps).
    assert (owner y !! list_mutex = Some (S n)) as Ho by (by apply (H5 n l _ Hl Hp)).
    rewrite (step_of_unlock _ _ _ _ _ E) in H by done. simplify_eq. by eapply unlock_other.
  - rewrite (step_of_act _ _ _ _ _ E) in H. simplify_eq.
    exists (<[n := (drop 2 take_exec, p2)]> ps).
    eapply inside_step; try done; [left; constructor|intros _; constructor|].
    intros _. right. constructor.
Qed.

Lemma exec_waiter_step j y y' w ps :
  waiting L y w ps -> step_of 0 j y = Some y' -> exists w', waiting L y' w' ps.
Proof.
  intros Hw H. pose proof Hw as [H1 H2 H3 _ _ _]. apply step_of_Some in H as (c & k & E & H).
  rewrite H1 in E, H. cbn in E. simplify_eq.
  destruct H3 as [[[[=]|[= -> ->]] Hn]|[[[= -> ->]|[= -> ->]] Ho]].
  - destruct H as [Hm ->]. exists (Runs waits_on). cbn.
    apply (move_waiter y (Runs (Lock list_mutex :: waits_on))); [done| | |].
    + right. cbn [owner]. rewrite lookup_insert_eq. auto.
    + by rewrite lookup_insert_ne.
    + intros m. rewrite lookup_insert_eq, Hm. naive_solver.
  - destruct (waiter_runs _ _ _ Hw) as [Hr|Hr]; [|done]. subst y'. rewrite Hr. cbn.
    eexists. eapply (move_waiter y (Runs waits_on)); [done| |done|done].
    right. split; [by right|done].
  - destruct H as [_ ->]. cbn. exists (Sleeps condition list_mutex waits_on).
    apply (move_waiter y (Runs (Wait condition list_mutex :: waits_on))); [done| | |].
    + left. cbn [owner]. rewrite lookup_delete_eq. auto.
    + by rewrite lookup_delete_ne.
    + intros m. rewrite lookup_delete_eq, Ho. naive_solver.
Qed.

Lemma exec_waiting_step y y' w ps :
  waiting L y w ps -> any_step y y' -> exists w' ps', waiting L y' w' ps'.
Proof.
  intros Hw [(i & j & H)|[i c m k H]].
  - destruct i as [|n]; [destruct (exec_waiter_step _ _ _ _ _ Hw H); eauto|].
    pose proof Hw as [H1 H2 H3 H4 H5 H6]. pose proof H as (c & k & E & Hc)%step_of_Some.
    apply (pool_other _ _ _ _ _ Hw) in E as ([p1 p2] & Hp & Ek).
    assert (is_Some (L !! n)) as [l Hl].
    { apply lookup_lt_is_Some. rewrite <- H4. by eapply lookup_lt_Some. }
    destruct (H5 n l _ Hl Hp) as ([Hn|[Ht|Hh]] & _).
    + cbn in Hn. subst p1. injection Ek as Ek. symmetry in Ek.
      destruct (codes_cons _ _ _ Ek) as (sec & r & _ & [(_ & _ & ->)|(_ & -> & _)]);
        destruct Hc as [Hm ->]; [congruence|].
      destruct (enter_step y w ps n l p2 (Lock list_mutex) k) as (p' & _ & Hw'); eauto.
    + destruct (taken_step _ _ _ _ _ _ _ _ _ _ Hw Hl Hp Ht eq_refl H); eauto.
    + destruct (holding_step _ _ _ _ _ _ _ _ _ _ Hw Hl Hp Hh eq_refl H); eauto.
  - pose proof Hw as [H1 H2 H3 H4 H5 H6]. destruct i as [|n].
    + rewrite H1 in H. cbn in H. simplify_eq. destruct H3 as [[[[= -> -> ->]|[=]] Hn]|[[[=]|[=]] _]].
      unfold set_thread. rewrite H1. cbn. eexists _, _.
      eapply (move_waiter y (Sleeps condition list_mutex waits_on)); [done| |done|done].
      left. split; [by right|done].
    + by apply (pool_other _ _ _ _ _ Hw) in H as (? & _ & [=]).
Qed.
End moves.

(** The other wait, which sleeps with the list's mutex alone. *)
Definition wait_queue_exec_empty : list (cmd t_exec) :=
  [ Lock list_mutex; While (fun s => bool_decide (size s > 0)) [Wait queue_empty list_mutex];
    Unlock list_mutex ].

(** Everything but the wait of the compaction keeps to an order. *)
Lemma exec_functions_ordered preemption d :
  Forall (ordered id) [transition_take_exec preemption; transition_to_exec;
    update_lowest_exec_priority; add_syscall_counter d; wait_queue_exec_empty] /\
  forall rank, ~ ordered rank wait_queue_exec_empty_with_syscalls.
Proof.
  split; [destruct preemption; by repeat constructor|]. intros rank H.
  apply bind_Some in H as (h1 & [-> _]%check_lock & H).
  apply bind_Some in H as (h2 & [-> _]%check_lock & H).
  by apply bind_Some in H as (h3 & [_ H]%check_while & _).
Qed.

(** C21: A compaction that finds another CPU running a process never ends, nor
    does the thread of that CPU: the wait keeps the counter's mutex while it
    sleeps, and that mutex is needed to take a process out of the list and to
    signal.  This holds whatever the other threads do, and even if the wait
    wakes up by itself. *)
Theorem compaction_wait_never_returns s L y :
  others_run s = true -> rtc any_step (asleep s L) y ->
  pool y !! 0%nat ≠ Some Ended /\
  forall i l, L !! i = Some l -> existsb needs_counter l = true -> pool y !! S i ≠ Some Ended.
Proof.
  intros Hs H. assert (exists w ps, waiting L y w ps) as (w & ps & Hw).
  { revert y H. apply rtc_ind_r; [do 2 eexists; by apply asleep_waiting|].
    intros y1 y2 _ H12 (w & ps & Hw). by eapply exec_waiting_step. }
  pose proof Hw as [H1 H2 H3 H4 H5 H6]. split.
  - rewrite H1. cbn. destruct H3 as [[[->| ->] _]|[[->| ->] _]]; by intros [=].
  - intros i l Hl Hn ([p1 p2] & Hp & [= He])%(pool_other _ _ _ _ _ _ Hw).
    destruct (H5 i l _ Hl Hp) as (Hp1 & _ & Hneed). symmetry in He.
    apply app_eq_nil in He as [-> He]. cbn in Hneed.
    destruct (Hneed Hn) as [Ht|[Ht|Ht]]; [inversion Ht|discriminate Ht|].
    by destruct p2 as [|[] p2].
Qed.

(** Two CPUs run, one of them asks for memory: the other one's process leaves the
    list, and everything stops. *)
Lemma compaction_wait_never_returns_witness :
  exists y, run_schedule [(1, 0); (1, 0); (1, 0)]%nat (asleep (mk_exec 2 1) [[TakeExec]]) = Some y /\
  pool y !! 0%nat ≠ Some Ended /\
  forall i l, [[TakeExec]] !! i = Some l -> existsb needs_counter l = true ->
    pool y !! S i ≠ Some Ended.
Proof.
  eexists. split; [reflexivity|].
  apply (compaction_wait_never_returns (mk_exec 2 1)); [reflexivity|].
  eapply rtc_subrel; [|eapply (run_schedule_steps [(1, 0); (1, 0); (1, 0)]%nat); reflexivity].
  intros y1 y2 Hy. by left.
Defined.
