(* ===== verification/WorkerLocks.v ===== *)
(** * WorkerLocks: the mutexes of kernel_scheduler/.../scheduler/suspension.c

    The suspender, its end, and a compaction.  [state_mutex] protects the
    worker's state, [list_mutex] the BLOCK list, [km_mutex] the socket of Kernel
    Memory; [wait_process] and [unlock] are the worker's condition variables. *)

From S2P Require Import Prelude Threads SchedState.

(** The worker's state, the BLOCK list's size and flag, whether its processes
    have bytes in memory, and the worker's local variables. *)
Record t_worker := mk_worker {
  state : t_thread_state;
  blocked : nat; new_process : bool; in_memory : bool;
  keep_running : bool; list_empty : bool; cursor : nat; found : bool }.

Definition set_state st w := mk_worker st (blocked w) (new_process w) (in_memory w)
  (keep_running w) (list_empty w) (cursor w) (found w).
Definition set_keep_running b w := mk_worker (state w) (blocked w) (new_process w) (in_memory w)
  b (list_empty w) (cursor w) (found w).
Definition set_list_empty b w := mk_worker (state w) (blocked w) (new_process w) (in_memory w)
  (keep_running w) b (cursor w) (found w).
Definition set_cursor n b w := mk_worker (state w) (blocked w) (new_process w) (in_memory w)
  (keep_running w) (list_empty w) n b.
Definition set_blocked n b w := mk_worker (state w) n b (in_memory w)
  (keep_running w) (list_empty w) (cursor w) (found w).

Definition state_mutex : nat := 0.
Definition list_mutex : nat := 1.
Definition km_mutex : nat := 2.
Definition wait_process : nat := 0.
Definition unlock : nat := 1.

Definition in_state (st : t_thread_state) (w : t_worker) : bool := bool_decide (state w = st).

(** [process_size_no_logger], of the processes in turn. *)
Definition get_process_blocked : list (cmd t_worker) :=
  [ Lock list_mutex; Act (fun w => set_cursor (blocked w) false w);
    While (fun w => bool_decide (cursor w ≠ 0%nat) && negb (found w))
      [ Lock km_mutex; Act (fun w => set_cursor (pred (cursor w)) (in_memory w) w);
        Unlock km_mutex ];
    If found [] [ Act (fun w => set_state TS_WAITING_PROCESS (set_blocked (blocked w) false w)) ];
    Unlock list_mutex ].

(** The process leaves the list once Kernel Memory has answered. *)
Definition run_suspend_process : list (cmd t_worker) :=
  [ Unlock state_mutex; Lock km_mutex; Unlock km_mutex;
    Lock list_mutex; Act (fun w => set_blocked (pred (blocked w)) (new_process w) w);
    Unlock list_mutex; Lock state_mutex ].

Definition wait_process_blocked : list (cmd t_worker) :=
  [ Unlock state_mutex; Lock list_mutex;
    If new_process [] [ Wait wait_process list_mutex ];
    Act (fun w => set_list_empty (bool_decide (blocked w = 0%nat)) w);
    Unlock list_mutex; Lock state_mutex;
    If (fun w => negb (list_empty w) && in_state TS_WAITING_PROCESS w)
      [ Act (set_state TS_RUNNING) ] [] ].

Definition wait_unlock : list (cmd t_worker) :=
  [ While (in_state TS_BLOCKED) [ Wait unlock state_mutex ] ].

Definition thread_suspender : list (cmd t_worker) :=
  [ While keep_running
      [ Lock state_mutex;
        If (in_state TS_RUNNING) (get_process_blocked ++ [ If found run_suspend_process [] ])
        [ If (in_state TS_WAITING_PROCESS) wait_process_blocked
          [ If (in_state TS_BLOCKED) wait_unlock
            [ If (in_state TS_FINISHING) [ Act (set_keep_running false) ] [] ] ] ];
        Unlock state_mutex ] ].

Definition terminate_thread_suspended : list (cmd t_worker) :=
  [ Lock state_mutex; Lock list_mutex; Signal wait_process; Signal unlock;
    Unlock list_mutex; Act (set_state TS_FINISHING); Unlock state_mutex ].
Definition wait_thread_suspended (thread : nat) : list (cmd t_worker) :=
  [ Join thread; Act (set_state TS_FINISHED) ].

Definition lock_thread_suspended : list (cmd t_worker) :=
  [ Lock state_mutex;
    If (in_state TS_RUNNING) [ Act (set_state TS_BLOCKED) ]
    [ If (in_state TS_WAITING_PROCESS)
        [ Lock list_mutex; Act (set_state TS_BLOCKED); Signal wait_process; Unlock list_mutex ]
        [] ];
    Unlock state_mutex ].
Definition unlock_thread_suspended : list (cmd t_worker) :=
  [ Lock state_mutex;
    If (in_state TS_BLOCKED) [ Signal unlock; Act (set_state TS_RUNNING) ] [];
    Unlock state_mutex ].

(** [allocate_memory] when Kernel Memory answers that a compaction is needed:
    [response_km_mem_alloc] calls [routine_compaction], and so
    [lock_threads_suspended], with the socket's mutex taken.  The mutexes that
    [routine_enter] and [lock_queue_ready] take and give back before are left out;
    [rest] is what comes next. *)
Definition allocate_memory (rest : list (cmd t_worker)) : list (cmd t_worker) :=
  Lock km_mutex :: lock_thread_suspended ++ rest.

(** The suspender as [start_threads_suspended] leaves it, with [n] processes
    blocked, and a process that blocks later. *)
Definition worker (st : t_thread_state) (n : nat) : t_worker := mk_worker st n false true true false 0 false.
Definition transition_to_block : list (cmd t_worker) :=
  [ Lock list_mutex; Act (fun w => set_blocked (blocked w) true w); Signal wait_process;
    Act (fun w => set_blocked (S (blocked w)) (new_process w) w); Unlock list_mutex ].

(** The end of the scheduler can hang: [terminate_thread_suspended] signals
    before it changes the state, and the suspender looks at the state before it
    takes the mutex it sleeps with, so the signal may come before the sleep.
    Then [thrd_join] waits for a thread that nobody wakes up. *)
Theorem shutdown_loses_wakeup :
  exists y, rtc step (start (worker TS_WAITING_PROCESS 0)
      [terminate_thread_suspended ++ wait_thread_suspended 1; thread_suspender]) y /\
    deadlocked y /\ state (shared y) = TS_FINISHING.
Proof.
  eexists. split; [|split].
  - eapply (run_schedule_steps
      ([(1, 0); (1, 0); (1, 0); (1, 0); (1, 0)]
       ++ [(0, 0); (0, 0); (0, 0); (0, 0); (0, 0); (0, 0); (0, 0)]
       ++ [(1, 0); (1, 0); (1, 0)])%nat). reflexivity.
  - split; [|intros H; inversion H as [|? ? H0]; by inversion H0].
    intros [|[|[|i]]] j; reflexivity.
  - reflexivity.
Qed.

(** One thread holds the socket's mutex and wants the worker's, the other holds
    the worker's and the list's and wants the socket's. *)
Definition embraced (y : t_threads t_worker) : Prop :=
  (exists k, pool y !! 0%nat = Some (Runs (Lock state_mutex :: k))) /\
  (exists k, pool y !! 1%nat = Some (Runs (Lock km_mutex :: k))) /\
  owner y !! km_mutex = Some 0%nat /\ owner y !! state_mutex = Some 1%nat /\
  owner y !! list_mutex = Some 1%nat.

Lemma embraced_step y y' : embraced y -> any_step y y' -> embraced y'.
Proof.
  intros ([k0 H0] & [k1 H1] & Hk & Hs & Hl) H.
  destruct (blocked_step _ _ _ _ _ _ H0 Hs H) as [H0' Ho0].
  destruct (blocked_step _ _ _ _ _ _ H1 Hk H) as [H1' Ho1].
  split; [by eexists|]. split; [by eexists|]. auto.
Qed.

(** C20: A MEM_ALLOC that needs a compaction and the suspender can wait for each
    other for ever: the first holds the socket's mutex when it asks for the
    suspender's, and the suspender holds its own and the BLOCK list's when it asks
    for the socket's, to learn the size of a blocked process.  Whatever is
    blocked, whatever [allocate_memory] would do next and whatever the other
    threads [L] are, there is a schedule of seven steps after which neither of the
    two ever ends, however the run goes on, with or without spurious wake-ups; and
    none of the three mutexes is released again, so that no process can be blocked
    and nothing asked of Kernel Memory. *)
Theorem compaction_deadlocks_with_suspender n rest (L : list (list (cmd t_worker))) :
  exists y,
    nsteps step 7 (start (worker TS_RUNNING (S n)) (allocate_memory rest :: thread_suspender :: L)) y /\
    forall y', rtc any_step y y' ->
      pool y' !! 0%nat ≠ Some Ended /\ pool y' !! 1%nat ≠ Some Ended /\
      owner y' !! km_mutex = Some 0%nat /\ owner y' !! state_mutex = Some 1%nat /\
      owner y' !! list_mutex = Some 1%nat.
Proof.
  eexists. split.
  - apply (run_schedule_nsteps ((0, 0) :: replicate 6 (1, 0))%nat). reflexivity.
  - intros y' H.
    assert (embraced y') as ([k0 H0] & [k1 H1] & Hk & Hs & Hl).
    { revert y' H. apply rtc_ind_r; [|intros ? ? _ ? ?; by eapply embraced_step].
      split; [by eexists|]. split; [by eexists|]. done. }
    rewrite H0, H1. split_and!; by try intros [=].
Qed.

(** *** The order of the other functions *)

(** What the threads of the scheduler do with the worker's mutexes, the compaction
    apart. *)
Inductive worker_function : list (cmd t_worker) -> Prop :=
  | wf_suspender : worker_function thread_suspender
  | wf_terminate : worker_function terminate_thread_suspended
  | wf_lock : worker_function lock_thread_suspended
  | wf_unlock : worker_function unlock_thread_suspended
  | wf_block : worker_function transition_to_block
  | wf_wait thread : worker_function (wait_thread_suspended thread).

Lemma worker_function_ordered k : worker_function k -> ordered id k.
Proof. by intros []. Qed.

(** The compaction apart, these functions do not block each other: if nobody can
    go on, each thread has ended, sleeps on a condition variable or joins one that
    has not ended. *)
Lemma workers_never_block (l : list (list (list (cmd t_worker)))) s y :
  Forall (Forall worker_function) l ->
  rtc any_step (start s (@concat _ <$> l)) y -> (forall i j, step_of i j y = None) ->
  Forall (waits y) (pool y).
Proof.
  intros Hl H Hs. apply (orderly_progress id); [|done].
  eapply reachable_orderly, H. apply start_orderly. rewrite Forall_fmap.
  eapply Forall_impl; [exact Hl|]. intros k Hk. apply ordered_concat.
  eapply Forall_impl; [exact Hk|]. apply worker_function_ordered.
Qed.

(** No order suits the compaction and the suspender. *)
Lemma compaction_has_no_order rank rest :
  ~ (ordered rank (allocate_memory rest) /\ ordered rank thread_suspender).
Proof.
  intros [H1 H2].
  apply bind_Some in H1 as (h1 & [-> _]%check_lock & H1).
  apply bind_Some in H1 as (h2 & [_ R1]%check_lock & _).
  apply bind_Some in H2 as (h3 & [_ H2]%check_while & _).
  apply bind_Some in H2 as (h4 & [-> _]%check_lock & H2).
  apply bind_Some in H2 as (h5 & [H2 _]%check_if & _).
  apply bind_Some in H2 as (h6 & [-> _]%check_lock & H2).
  apply bind_Some in H2 as (h7 & [= <-] & H2).
  apply bind_Some in H2 as (h8 & [_ H2]%check_while & _).
  apply bind_Some in H2 as (h9 & [_ R2]%check_lock & _).
  specialize (R1 km_mutex ltac:(by left)). specialize (R2 state_mutex ltac:(set_solver)). lia.
Qed.
