(* ===== verification/RoutineLocks.v ===== *)
(** * RoutineLocks: the mutexes of kernel_scheduler/.../scheduler/compaction.c

    One routine runs at a time.  The compaction enters with the socket's mutex;
    the resumption routine asks Kernel Memory once it is in. *)

From S2P Require Import Prelude Threads.

Definition routine_mutex : nat := 0.
Definition km_mutex : nat := 1.
Definition routine_cond : nat := 0.

(** The state is [routine_active]. *)
Definition routine_enter : list (cmd bool) :=
  [ Lock routine_mutex; While id [ Wait routine_cond routine_mutex ]; Act (fun _ => true);
    Unlock routine_mutex ].
Definition routine_leave : list (cmd bool) :=
  [ Lock routine_mutex; Act (fun _ => false); Signal routine_cond; Unlock routine_mutex ].

(** Of the body only its conversation with Kernel Memory. *)
Definition resumption_routine_thread : list (cmd bool) :=
  routine_enter ++ [ Lock km_mutex; Unlock km_mutex ] ++ routine_leave.
Definition allocate_memory : list (cmd bool) :=
  [ Lock km_mutex ] ++ routine_enter ++ routine_leave ++ [ Unlock km_mutex ].

(** Each waits for the other. *)
Theorem compaction_deadlocks_with_resumption :
  exists y, rtc step (start false [allocate_memory; resumption_routine_thread]) y /\
    deadlocked y /\ owner y !! km_mutex = Some 0%nat.
Proof.
  eexists. split; [|split].
  - eapply (run_schedule_steps ([(1, 0); (1, 0); (1, 0); (1, 0)]
      ++ [(0, 0); (0, 0); (0, 0); (0, 0)])%nat). vm_compute. reflexivity.
  - split; [|unfold finished; rewrite Forall_lookup; intros H;
      by discriminate (H 1%nat _ eq_refl)].
    intros [|[|[|i]]] j; reflexivity.
  - reflexivity.
Qed.
