(* ===== verification/ReadyLocks.v ===== *)
(** * ReadyLocks: the mutex of kernel_scheduler/.../scheduler/ready_queue.c

    Who is woken up when a process becomes ready. *)

From S2P Require Import Prelude Threads.

Record t_ready := mk_ready { ready_process_count : Z; terminate_queue : bool; preempt_all : bool }.

Definition queue_mutex : nat := 0.
Definition new_process : nat := 0.
Definition exit_unblocked : nat := 1.
Definition queue_empty : nat := 2.

Definition add_count (d : Z) (s : t_ready) : t_ready :=
  mk_ready (ready_process_count s + d) (terminate_queue s) (preempt_all s).
Definition set_preempt_all (b : bool) (s : t_ready) : t_ready :=
  mk_ready (ready_process_count s) (terminate_queue s) b.
Definition set_terminate_queue (s : t_ready) : t_ready :=
  mk_ready (ready_process_count s) true (preempt_all s).
Definition none_ready (s : t_ready) : bool := bool_decide (ready_process_count s = 0).

Definition transition_to_ready : list (cmd t_ready) :=
  [ Lock queue_mutex; If none_ready [ Signal new_process ] []; Act (add_count 1);
    Unlock queue_mutex ].

Definition transition_take_ready_blocking : list (cmd t_ready) :=
  [ Lock queue_mutex;
    While (fun s => negb (terminate_queue s) && (none_ready s || preempt_all s))
      [ If (fun s => negb (terminate_queue s) && none_ready s)
          [ Wait new_process queue_mutex ] [];
        If (fun s => negb (terminate_queue s) && preempt_all s)
          [ Wait exit_unblocked queue_mutex ] [] ];
    If terminate_queue [] [ Act (add_count (-1)); If none_ready [ Signal queue_empty ] [] ];
    Unlock queue_mutex ].

Definition lock_queue_ready : list (cmd t_ready) := [ Act (set_preempt_all true) ].
Definition unlock_queue_ready : list (cmd t_ready) :=
  [ Act (set_preempt_all false); Lock queue_mutex; Broadcast exit_unblocked;
    Unlock queue_mutex ].
Definition terminate_queue_ready : list (cmd t_ready) :=
  [ Act set_terminate_queue; Lock queue_mutex; Broadcast new_process;
    Broadcast exit_unblocked; Unlock queue_mutex ].

Lemma ready_functions_ordered :
  Forall (ordered id) [transition_to_ready; transition_take_ready_blocking; lock_queue_ready;
    unlock_queue_ready; terminate_queue_ready].
Proof. by repeat constructor. Qed.

(** The queue signals only when it was empty: of two processes that become ready
    while two CPUs wait, the second may wake up nobody, and stays ready while a
    CPU sleeps. *)
Theorem cpu_sleeps_beside_ready :
  exists y, rtc step (start (mk_ready 0 false false)
      [transition_take_ready_blocking; transition_take_ready_blocking;
       transition_to_ready ++ transition_to_ready]) y /\
    deadlocked y /\ ready_process_count (shared y) = 1 /\
    existsb (sleeps_on new_process) (pool y) = true.
Proof.
  eexists. split; [|split; [|split]].
  - eapply (run_schedule_steps (repeat (0, 0) 4 ++ repeat (1, 0) 4 ++ repeat (2, 0) 9
      ++ repeat (0, 0) 7)%nat). vm_compute. reflexivity.
  - split; [|unfold finished; rewrite Forall_lookup; intros H; by discriminate (H 1%nat _ eq_refl)].
    intros [|[|[|[|i]]]] j; reflexivity.
  - reflexivity.
  - reflexivity.
Qed.
