(* ===== verification/Pcb.v ===== *)
(** * Pcb: kernel_scheduler/src/kernel_scheduler/domain/pcb.c *)

From Stdlib Require Import Strings.Byte.
From S2P Require Import Prelude Bytes Msg Text SchedState.

Section pcb.
Context {U : Type}.
Context (interfere : t_queues U -> t_queues U).

(** Following a [t_pcb*]. *)
Definition get_pcb (p : Z) : M U t_pcb := fun q =>
  match pcbs q !! p with Some pcb => Ok (pcb, q) | None => Undef Dangling end.

(** Writing through a [t_pcb*]. *)
Definition update_pcb (p : Z) (f : t_pcb -> t_pcb) : M U unit :=
  _ ← get_pcb p; modify (set_pcbs (alter f p)).

Definition create_pcb (st : t_process_state) (prio : Z) : M U Z :=
  p ← gets next_pid;
  _ ← modify (set_next_pid (u32 (p + 1)));
  _ ← modify (set_pcbs (insert p (mk_pcb prio [prio] 0 st 0 None)));
  mret p.

Definition destroy_pcb (p : Z) : M U unit :=
  _ ← get_pcb p; modify (set_pcbs (delete p)).

Definition get_state_pcb (p : Z) : M U t_process_state :=
  pcb ← get_pcb p; mret (state pcb).

Definition get_priority_pcb (p : Z) : M U Z :=
  pcb ← get_pcb p; mret (priority pcb).

(** [list_add_sorted] with [is_highest_priority], which dereferences the
    elements it is compared with. *)
Fixpoint insert_pcb_sorted (l : list Z) (p : Z) : M U (Z * list Z) :=
  match l with
  | [] => mret (0, [p])
  | x :: r =>
      priority_pcb ← get_priority_pcb p;
      priority_x ← get_priority_pcb x;
      if decide (priority_pcb <= priority_x) then mret (0, p :: l)
      else '(i, r) ← insert_pcb_sorted r p; mret (1 + i, x :: r)
  end.

Definition increment_active_instances (p : Z) : M U unit :=
  update_pcb p (fun pcb => set_active_instances (s32 (active_instances pcb + 1)) pcb).

Definition decrement_active_instances (p : Z) : M U unit :=
  update_pcb p (fun pcb => set_active_instances (s32 (active_instances pcb - 1)) pcb).

Definition no_active_instances (p : Z) (q : t_queues U) : bool :=
  match pcbs q !! p with
  | Some pcb => bool_decide (active_instances pcb = 0) | None => true end.

Definition wait_zero_active_instances (p : Z) : M U unit :=
  _ ← get_pcb p; wait interfere (no_active_instances p).

Definition set_mutex_blocking (p : Z) (mutex : option text) : M U unit :=
  update_pcb p (set_blocking_mutex mutex).

Definition get_mutex_blocking (p : Z) : M U (option text) :=
  pcb ← get_pcb p; mret (blocking_mutex pcb).
End pcb.

(** ** Lemmas *)

Section lemmas.
Context {U : Type}.
Implicit Types (q : t_queues U).

Definition prio q (p : Z) : Z := default 0 (priority <$> pcbs q !! p).
Definition alive q (p : Z) : Prop := is_Some (pcbs q !! p).

Lemma get_pcb_Ok p q pcb q' :
  get_pcb p q = Ok (pcb, q') <-> q' = q /\ pcbs q !! p = Some pcb.
Proof. unfold get_pcb. destruct (pcbs q !! p); naive_solver. Qed.

Lemma get_pcb_alive p q pcb : pcbs q !! p = Some pcb -> get_pcb p q = Ok (pcb, q).
Proof. intros H. unfold get_pcb. by rewrite H. Qed.

Lemma update_pcb_alive p f q pcb :
  pcbs q !! p = Some pcb -> update_pcb p f q = Ok (tt, set_pcbs (alter f p) q).
Proof.
  intros H. unfold update_pcb. run_M.
  by rewrite (get_pcb_alive _ _ _ H).
Qed.

Lemma update_pcb_Ok p f q r q' :
  update_pcb p f q = Ok (r, q') ->
  alive q p /\ q' = set_pcbs (alter f p) q.
Proof.
  intros H. unfold update_pcb in H. inv_M H as pcb q1 E.
  apply get_pcb_Ok in E as [-> E]. run_M_in H. simplify_eq.
  split; [by eexists|done].
Qed.

Lemma get_priority_alive p q :
  alive q p -> get_priority_pcb p q = Ok (prio q p, q).
Proof.
  intros [pcb H]. unfold get_priority_pcb, prio. run_M.
  by rewrite (get_pcb_alive _ _ _ H), H.
Qed.

Lemma get_priority_Ok p q x q' :
  get_priority_pcb p q = Ok (x, q') -> q' = q /\ alive q p /\ x = prio q p.
Proof.
  intros H. unfold get_priority_pcb in H. inv_M H as pcb q1 E.
  apply get_pcb_Ok in E as [-> E]. run_M_in H. simplify_eq.
  unfold alive, prio. rewrite E. split_and!; [done|by eexists|done].
Qed.

(** The test [list_add_sorted] is given. *)
Definition is_highest_priority q (x y : Z) : bool := bool_decide (prio q x <= prio q y).

Lemma insert_pcb_sorted_ok q l p :
  alive q p -> Forall (alive q) l ->
  insert_pcb_sorted l p q
  = Ok (l_insert_pos (is_highest_priority q) p l,
        l_insert (is_highest_priority q) p l, q).
Proof.
  intros Hp. induction 1 as [|x l Hx Hl IH]; [done|].
  cbn [insert_pcb_sorted l_insert l_insert_pos]. run_M.
  rewrite !get_priority_alive by done. run_M. rewrite get_priority_alive by done.
  destruct (is_highest_priority q p x) eqn:E; unfold is_highest_priority in E.
  - apply bool_decide_eq_true in E. by rewrite decide_True.
  - apply bool_decide_eq_false in E. rewrite decide_False by done. run_M.
    by rewrite IH.
Qed.

Lemma insert_pcb_sorted_Ok l p q r q' :
  insert_pcb_sorted l p q = Ok (r, q') -> q' = q /\ r.2 ≡ₚ p :: l.
Proof.
  revert r q'. induction l as [|x l IH]; intros r q' H; cbn [insert_pcb_sorted] in H.
  - run_M_in H. by simplify_eq.
  - inv_M H as a q1 E1. apply get_priority_Ok in E1 as (-> & _ & _).
    inv_M H as b q1 E2. apply get_priority_Ok in E2 as (-> & _ & _).
    case_decide; [run_M_in H; by simplify_eq|].
    inv_M H as [i l'] q1 E3. apply IH in E3 as [-> E3]. run_M_in H. simplify_eq.
    split; [done|]. cbn in *. rewrite E3. by constructor.
Qed.
End lemmas.
