(* ===== verification/ReadyQueue.v ===== *)
(** * ReadyQueue: kernel_scheduler/src/kernel_scheduler/scheduler/ready_queue.c *)

From Stdlib Require Import Strings.Byte.
From S2P Require Import Prelude Bytes Msg Text SchedState Pcb.

(** [init_ready_queue]; the highest priority starts at [INT_MAX]. *)
Definition init_ready_queue (alg : t_scheduling_algorithm)
    (multilevel_algorithms : list t_scheduling_algorithm) : t_ready_queue :=
  match alg with
  | SA_MULTILEVEL_QUEUES =>
      mk_ready_queue (mk_subqueue [] <$> multilevel_algorithms) true 0 false false INT_MAX
  | _ => mk_ready_queue [mk_subqueue [] alg] false 0 false false INT_MAX
  end.

Definition queue_count (r : t_ready_queue) : Z := l_size (queues r).

Definition set_queues f (r : t_ready_queue) : t_ready_queue :=
  mk_ready_queue (f (queues r)) (multilevel_queue r) (ready_process_count r)
    (terminate_queue r) (preempt_all r) (highest_priority r).
Definition set_ready_count n (r : t_ready_queue) : t_ready_queue :=
  mk_ready_queue (queues r) (multilevel_queue r) n (terminate_queue r)
    (preempt_all r) (highest_priority r).
Definition set_terminate b (r : t_ready_queue) : t_ready_queue :=
  mk_ready_queue (queues r) (multilevel_queue r) (ready_process_count r) b
    (preempt_all r) (highest_priority r).
Definition set_preempt_all b (r : t_ready_queue) : t_ready_queue :=
  mk_ready_queue (queues r) (multilevel_queue r) (ready_process_count r)
    (terminate_queue r) b (highest_priority r).
Definition set_highest_priority n (r : t_ready_queue) : t_ready_queue :=
  mk_ready_queue (queues r) (multilevel_queue r) (ready_process_count r)
    (terminate_queue r) (preempt_all r) n.

Definition set_queue (f : list Z -> list Z) (s : t_ready_subqueue) : t_ready_subqueue :=
  mk_subqueue (f (queue s)) (algorithm s).

(** [queues[pos].queue] changed; the index is not checked. *)
Definition alter_subqueue (f : list Z -> list Z) (pos : Z) (r : t_ready_queue)
    : res t_ready_queue :=
  match l_get (queues r) pos with
  | Some _ => Ok (set_queues (alter (set_queue f) (Z.to_nat pos)) r)
  | None => Undef OutOfBounds
  end.

(** The index of the first subqueue that holds a process, from [i] on. *)
Fixpoint first_nonempty (i : Z) (qs : list t_ready_subqueue) : option Z :=
  match qs with
  | [] => None
  | s :: r => match queue s with [] => first_nonempty (i + 1) r | _ => Some i end
  end.

Definition update_highest_priority_ready_no_mutex (r : t_ready_queue) : t_ready_queue :=
  if decide (0 < ready_process_count r /\ multilevel_queue r = true) then
    set_highest_priority (default (queue_count r) (first_nonempty 0 (queues r))) r
  else set_highest_priority (queue_count r) r.

(** [transition_to_ready] and [transition_take_ready] with the priority of the
    process at hand. *)
Definition to_ready (p prio : Z) (r : t_ready_queue) : res t_ready_queue :=
  let r :=
    if decide (ready_process_count r = 0 \/ prio < highest_priority r)
    then set_highest_priority prio r else r in
  let r := set_ready_count (s32 (ready_process_count r + 1)) r in
  alter_subqueue (fun l => l ++ [p]) (if multilevel_queue r then prio else 0) r.

Definition take_ready (p prio : Z) (r : t_ready_queue) : res t_ready_queue :=
  r ← alter_subqueue (l_remove_first (fun x => bool_decide (x = p)))
        (if multilevel_queue r then prio else 0) r;
  let r := update_highest_priority_ready_no_mutex r in
  Ok (set_ready_count (s32 (ready_process_count r - 1)) r).

(** [transition_take_ready_next_no_mutex]. *)
Definition take_ready_next (r : t_ready_queue) : option Z * t_ready_queue :=
  match first_nonempty 0 (queues r) with
  | None => (None, r)
  | Some i =>
      match queue <$> l_get (queues r) i with
      | Some (p :: rest) =>
          let r := set_ready_count (s32 (ready_process_count r - 1)) r in
          let r := set_queues (alter (set_queue (fun _ => rest)) (Z.to_nat i)) r in
          (Some p, if decide (rest = []) then update_highest_priority_ready_no_mutex r
                   else r)
      | _ => (None, r)
      end
  end.

Section operations.
Context {U : Type}.
Context (interfere : t_queues U -> t_queues U).

Definition is_queue_ready_empty : M U bool :=
  gets (fun q => bool_decide (ready_process_count (ready q) = 0)).
Definition is_queue_ready_blocked : M U bool := gets (fun q => preempt_all (ready q)).
Definition lock_queue_ready : M U unit := modify (set_ready (set_preempt_all true)).
Definition unlock_queue_ready : M U unit := modify (set_ready (set_preempt_all false)).
Definition queue_ready_terminated : M U bool := gets (fun q => terminate_queue (ready q)).
Definition terminate_queue_ready : M U unit := modify (set_ready (set_terminate true)).

Definition check_priority_valid (p : Z) : M U bool :=
  r ← gets ready;
  if negb (multilevel_queue r) then mret true
  else priority ← get_priority_pcb p; mret (bool_decide (priority < queue_count r)).

Definition get_algorithm_ready_queue (priority : Z) : M U t_scheduling_algorithm :=
  r ← gets ready;
  s ← lift (at_index (l_get (queues r) (if multilevel_queue r then priority else 0)));
  mret (algorithm s).

(** [ready_queue.c]'s operations on the state. *)
Definition with_ready (f : t_ready_queue -> res t_ready_queue) : M U unit :=
  r ← gets ready; r ← lift (f r); modify (set_ready (fun _ => r)).

Definition transition_to_ready (p : Z) : M U unit :=
  priority ← get_priority_pcb p; with_ready (to_ready p priority).

Definition transition_take_ready (p : Z) : M U unit :=
  r ← gets ready;
  priority ← (if multilevel_queue r then get_priority_pcb p else mret 0);
  with_ready (take_ready p priority).

Definition transition_take_ready_next : M U (option Z) :=
  r ← gets ready;
  let (p, r) := take_ready_next r in
  _ ← modify (set_ready (fun _ => r)); mret p.

(** The exit condition of the loop of [transition_take_ready_blocking]. *)
Definition can_take_ready (q : t_queues U) : bool :=
  terminate_queue (ready q) ||
  negb (bool_decide (ready_process_count (ready q) = 0) || preempt_all (ready q)).

Definition transition_take_ready_blocking : M U (option Z) :=
  _ ← wait interfere can_take_ready;
  terminated ← queue_ready_terminated;
  if (terminated : bool) then mret None else transition_take_ready_next.
End operations.

(** ** The ready queue as a queue of processes *)

Definition ready_pids (r : t_ready_queue) : list Z := concat (queue <$> queues r).

Record ready_wf (r : t_ready_queue) : Prop := {
  rw_count : ready_process_count r = l_size (ready_pids r);
  rw_single : multilevel_queue r = false -> length (queues r) = 1%nat;
  rw_highest : multilevel_queue r = true -> 0 < ready_process_count r ->
    first_nonempty 0 (queues r) = Some (highest_priority r) }.

(** What no operation changes: the algorithms, the kind of queue, the flags. *)
Definition same_shape (r r' : t_ready_queue) : Prop :=
  algorithm <$> queues r' = algorithm <$> queues r /\
  multilevel_queue r' = multilevel_queue r /\
  terminate_queue r' = terminate_queue r /\ preempt_all r' = preempt_all r.

(** The subqueue a process of this priority goes to. *)
Definition subqueue_of (r : t_ready_queue) (prio : Z) : Z :=
  if multilevel_queue r then prio else 0.

Definition in_subqueue (r : t_ready_queue) (i p : Z) : Prop :=
  exists s, l_get (queues r) i = Some s /\ p ∈ queue s.

Lemma in_subqueue_pids r i p : in_subqueue r i p -> p ∈ ready_pids r.
Proof.
  intros (s & Hs & Hp). apply l_get_Some in Hs as [_ Hs].
  unfold ready_pids. apply list_elem_of_In, in_concat. exists (queue s).
  split; apply list_elem_of_In; [|done]. apply list_elem_of_fmap. exists s.
  split; [done|]. by eapply list_elem_of_lookup_2.
Qed.

Lemma pids_in_subqueue r p : p ∈ ready_pids r -> exists i, in_subqueue r i p.
Proof.
  unfold ready_pids. intros (l & Hl & Hp)%list_elem_of_In%in_concat.
  apply list_elem_of_In in Hl, Hp. apply list_elem_of_fmap in Hl as (s & -> & Hs).
  apply list_elem_of_lookup_1 in Hs as [i Hi]. exists (Z.of_nat i), s.
  by rewrite l_get_nat.
Qed.

Lemma alter_subqueue_split f pos r s :
  l_get (queues r) pos = Some s ->
  exists l1 l2, queues r = l1 ++ s :: l2 /\ Z.of_nat (length l1) = pos /\
    alter (set_queue f) (Z.to_nat pos) (queues r) = l1 ++ set_queue f s :: l2.
Proof.
  intros [Hp Hs]%l_get_Some. exists (take (Z.to_nat pos) (queues r)),
    (drop (S (Z.to_nat pos)) (queues r)).
  pose proof (lookup_lt_Some _ _ _ Hs).
  assert (length (take (Z.to_nat pos) (queues r)) = Z.to_nat pos) as Hl
    by (rewrite length_take; lia).
  split; [by rewrite take_drop_middle|]. split; [lia|].
  rewrite <- (take_drop_middle _ _ _ Hs) at 1.
  rewrite <- Hl at 1. by rewrite alter_app_r_alt, Nat.sub_diag by lia.
Qed.

(** The pids of the lists around a subqueue. *)
Lemma ready_pids_split l1 s l2 r :
  queues r = l1 ++ s :: l2 ->
  ready_pids r = concat (queue <$> l1) ++ queue s ++ concat (queue <$> l2).
Proof. unfold ready_pids. intros ->. by rewrite fmap_app, concat_app. Qed.

Lemma first_nonempty_shift i qs :
  first_nonempty i qs = (Z.add i) <$> first_nonempty 0 qs.
Proof.
  assert (forall j, first_nonempty (i + j) qs = (Z.add i) <$> first_nonempty j qs) as H.
  { induction qs as [|s qs IH]; intros j; cbn; [done|].
    destruct (queue s); [|done]. rewrite <- Z.add_assoc. apply IH. }
  rewrite <- H. f_equal. lia.
Qed.

Lemma first_nonempty_app l1 s l2 :
  Forall (fun s => queue s = []) l1 -> queue s ≠ [] ->
  first_nonempty 0 (l1 ++ s :: l2) = Some (Z.of_nat (length l1)).
Proof.
  intros H Hs. induction H as [|s1 l1 H1 H IH]; cbn.
  - by destruct (queue s).
  - rewrite H1, first_nonempty_shift, IH. cbn. f_equal. lia.
Qed.

Lemma first_nonempty_Some qs i :
  first_nonempty 0 qs = Some i ->
  exists l1 s l2, qs = l1 ++ s :: l2 /\ i = Z.of_nat (length l1) /\
    queue s ≠ [] /\ Forall (fun s => queue s = []) l1.
Proof.
  revert i. induction qs as [|s qs IH]; intros i; cbn; [done|].
  destruct (queue s) eqn:E.
  - rewrite first_nonempty_shift. intros (j & Hj & ->)%fmap_Some.
    destruct (IH j Hj) as (l1 & s' & l2 & -> & -> & ? & ?).
    exists (s :: l1), s', l2. split_and!; [done|cbn; lia|done|by constructor].
  - intros [= <-]. exists [], s, qs. split_and!; try done. by rewrite E.
Qed.

Lemma first_nonempty_None qs :
  first_nonempty 0 qs = None -> concat (queue <$> qs) = [].
Proof.
  induction qs as [|s qs IH]; cbn; [done|]. destruct (queue s); [|done].
  rewrite first_nonempty_shift. intros H%fmap_None. by apply IH.
Qed.

Lemma first_nonempty_pids r i :
  first_nonempty 0 (queues r) = Some i -> ready_pids r ≠ [].
Proof.
  intros (l1 & s & l2 & E & _ & Hs & _)%first_nonempty_Some.
  rewrite (ready_pids_split _ _ _ _ E). intros [_ [H _]%app_eq_nil]%app_eq_nil. done.
Qed.

Lemma first_nonempty_spec qs i :
  first_nonempty 0 qs = Some i <->
  (exists s, l_get qs i = Some s /\ queue s ≠ []) /\
  forall j s, j < i -> l_get qs j = Some s -> queue s = [].
Proof.
  split.
  - intros (l1 & s & l2 & -> & -> & Hs & Hl)%first_nonempty_Some. split.
    + exists s. by rewrite l_get_middle.
    + intros j s' Hj [H0 Hj']%l_get_Some. rewrite Forall_forall in Hl. apply Hl.
      rewrite lookup_app_l in Hj' by lia. by eapply list_elem_of_lookup_2.
  - intros [(s & Hi & Hs) Hl]. apply l_get_Some in Hi as [H0 Hi].
    rewrite <- (take_drop_middle _ _ _ Hi). rewrite first_nonempty_app; [|..|done].
    + rewrite length_take. pose proof (lookup_lt_Some _ _ _ Hi). f_equal. lia.
    + apply Forall_forall. intros x (k & Hk)%list_elem_of_lookup_1.
      apply lookup_take_Some in Hk as [Hk Hlt]. apply (Hl (Z.of_nat k)); [lia|].
      by rewrite l_get_nat.
Qed.

Lemma l_get_alter {A} (f : A -> A) (l : list A) k i :
  0 <= k ->
  l_get (alter f (Z.to_nat k) l) i = (if decide (i = k) then f else id) <$> l_get l i.
Proof.
  intros Hk. unfold l_get. case_decide; [|done]. case_decide.
  - subst. by rewrite list_lookup_alter_eq.
  - rewrite list_lookup_alter_ne by lia. by destruct (l !! _).
Qed.

(** [alter_subqueue] changes one subqueue. *)
Lemma alter_subqueue_ok f pos r s :
  l_get (queues r) pos = Some s ->
  exists r', alter_subqueue f pos r = Ok r' /\ same_shape r r' /\
    ready_process_count r' = ready_process_count r /\
    highest_priority r' = highest_priority r /\
    length (queues r') = length (queues r) /\
    (forall i, l_get (queues r') i
       = (if decide (i = pos) then set_queue f else id) <$> l_get (queues r) i).
Proof.
  intros H. unfold alter_subqueue. rewrite H. eexists. split; [done|].
  apply l_get_Some in H as [H0 H]. split_and!; cbn; [|done..| |].
  - split_and!; [|done..]. cbn. apply list_eq. intros k.
    rewrite !list_lookup_fmap. destruct (decide (k = Z.to_nat pos)) as [->|Hk].
    + by rewrite list_lookup_alter_eq, H.
    + by rewrite list_lookup_alter_ne by done.
  - apply length_alter.
  - intros i. by apply l_get_alter.
Qed.

Lemma ready_pids_alter f r r' pos s x l :
  l_get (queues r) pos = Some s ->
  (forall i, l_get (queues r') i
     = (if decide (i = pos) then set_queue f else id) <$> l_get (queues r) i) ->
  length (queues r') = length (queues r) ->
  x ++ f (queue s) ≡ₚ l ++ queue s ->
  x ++ ready_pids r' ≡ₚ l ++ ready_pids r.
Proof.
  intros Hs Hr Hlen Hp.
  assert (queues r' = alter (set_queue f) (Z.to_nat pos) (queues r)) as E.
  { apply list_eq. intros k. rewrite <- !l_get_nat, Hr.
    apply l_get_Some in Hs as [H0 Hs].
    by rewrite l_get_alter by done. }
  destruct (alter_subqueue_split f pos r s Hs) as (l1 & l2 & E1 & _ & E2).
  rewrite E2 in E. rewrite (ready_pids_split _ _ _ _ E), (ready_pids_split _ _ _ _ E1).
  cbn [set_queue queue].
  rewrite (Permutation_app_comm _ (f (queue s) ++ _)), <- !app_assoc, app_assoc, Hp.
  rewrite <- !app_assoc. apply Permutation_app_head.
  rewrite Permutation_app_comm, <- !app_assoc.
  apply (Permutation_trans (l' := (concat (queue <$> l2) ++ concat (queue <$> l1)) ++ queue s)).
  { by rewrite <- app_assoc. }
  rewrite Permutation_app_comm. rewrite (Permutation_app_comm (concat (queue <$> l2))).
  rewrite app_assoc, (Permutation_app_comm (queue s)). by rewrite <- app_assoc.
Qed.

Lemma subqueue_exists r prio :
  (multilevel_queue r = false -> length (queues r) = 1%nat) ->
  (multilevel_queue r = true -> 0 <= prio < queue_count r) ->
  exists s, l_get (queues r) (subqueue_of r prio) = Some s.
Proof.
  intros Hw Hp. unfold subqueue_of. apply l_get_range. unfold queue_count in Hp.
  destruct (multilevel_queue r); [by apply Hp|]. unfold l_size. rewrite Hw by done. lia.
Qed.

Lemma ready_empty_subqueues r i s :
  ready_pids r = [] -> l_get (queues r) i = Some s -> queue s = [].
Proof.
  intros H Hs. destruct (queue s) as [|p l] eqn:E; [done|].
  assert (p ∈ ready_pids r) as Hp.
  { apply (in_subqueue_pids r i). exists s. split; [done|]. rewrite E. by left. }
  rewrite H in Hp. by apply elem_of_nil in Hp.
Qed.

Lemma highest_after_push qs qs' prio p h c s :
  l_get qs prio = Some s ->
  (c = 0 -> forall i s, l_get qs i = Some s -> queue s = []) ->
  (c ≠ 0 -> first_nonempty 0 qs = Some h) ->
  (forall i, l_get qs' i
     = (if decide (i = prio) then set_queue (fun l => l ++ [p]) else id) <$> l_get qs i) ->
  first_nonempty 0 qs' = Some (if decide (c = 0 \/ prio < h) then prio else h).
Proof.
  intros Hs H0 Hh Hr. apply first_nonempty_spec. destruct (decide _) as [Hd|Hd].
  - split.
    + exists (set_queue (fun l => l ++ [p]) s). rewrite Hr, decide_True, Hs by done.
      split; [done|]. cbn. by destruct (queue s).
    + intros j s' Hj Hs'. rewrite Hr, decide_False, option_fmap_id in Hs' by lia.
      destruct (decide (c = 0)) as [Hc|Hc]; [by eapply H0|].
      specialize (Hh Hc). apply first_nonempty_spec in Hh as [_ Hh].
      apply (Hh j); [lia|done].
  - assert (c ≠ 0) as Hc by tauto. specialize (Hh Hc).
    apply first_nonempty_spec in Hh as [(sh & Hsh & Hne) Hh]. split.
    + rewrite Hr, Hsh. case_decide; eexists; (split; [done|]); cbn; [|done].
      by destruct (queue sh).
    + intros j s' Hj Hs'. rewrite Hr, decide_False, option_fmap_id in Hs' by lia.
      by apply (Hh j).
Qed.

Lemma to_ready_spec r p prio :
  ready_wf r -> l_size (ready_pids r) < INT_MAX ->
  (multilevel_queue r = true -> 0 <= prio < queue_count r) ->
  exists r', to_ready p prio r = Ok r' /\ ready_wf r' /\ same_shape r r' /\
    ready_pids r' ≡ₚ p :: ready_pids r /\
    (forall i, l_get (queues r') i
       = (if decide (i = subqueue_of r prio) then set_queue (fun l => l ++ [p]) else id)
           <$> l_get (queues r) i).
Proof.
  intros [Hc H1 Hh] Hlt Hp. destruct (subqueue_exists r prio H1 Hp) as [s Hs].
  unfold to_ready. set (r1 := if decide _ then _ else _).
  assert (queues r1 = queues r /\ multilevel_queue r1 = multilevel_queue r /\
    same_shape r r1 /\ ready_process_count r1 = ready_process_count r)
    as (Eq & Em & Hsh & Ec1) by (unfold r1; by case_decide).
  rewrite s32_id by (rewrite Ec1, Hc; pose proof (l_size_nonneg (ready_pids r)); ints; lia).
  destruct (alter_subqueue_ok (fun l => l ++ [p]) (subqueue_of r prio)
    (set_ready_count (ready_process_count r + 1) r1) s)
    as (r' & E & Hsh' & Ec & Eh & El & Hr); [by rewrite <- Hs; cbn; rewrite Eq|].
  exists r'. cbn in E, Ec, Eh, El, Hr, Hsh'. rewrite Eq in El, Hr.
  assert (ready_pids r' ≡ₚ p :: ready_pids r) as Hpids.
  { apply (ready_pids_alter (fun l => l ++ [p]) r r' (subqueue_of r prio) s [] [p]);
      [done..|]. cbn. by rewrite Permutation_app_comm. }
  destruct Hsh' as (Ea & Em' & Et & Ep). cbn in Ea, Em', Et, Ep. rewrite Em in Em'.
  split_and!; [| | |done|done].
  - rewrite <- E. unfold subqueue_of. rewrite Ec1, <- Em. done.
  - constructor.
    + rewrite Ec, Hc. unfold l_size. rewrite Hpids. cbn [length]. lia.
    + rewrite Em', El. apply H1.
    + rewrite Em'. intros Hm Hpos. specialize (Hh Hm). rewrite Eh.
      unfold subqueue_of in Hr, Hs. rewrite Hm in Hr, Hs.
      rewrite (highest_after_push (queues r) _ prio p (highest_priority r)
        (ready_process_count r) s) by
        (done || (intros; (apply Hh; rewrite Hc in *; pose proof (l_size_nonneg
           (ready_pids r)); lia) || (eapply ready_empty_subqueues; [|done];
           apply l_size_le_0; lia))).
      unfold r1. by case_decide.
  - destruct Hsh as (? & ? & ? & ?). split_and!; congruence.
Qed.

Lemma nonempty_first r : ready_pids r ≠ [] -> is_Some (first_nonempty 0 (queues r)).
Proof.
  intros H. destruct (first_nonempty 0 (queues r)) eqn:E; [by eexists|].
  by apply first_nonempty_None in E.
Qed.

Lemma update_highest_same r :
  let r' := update_highest_priority_ready_no_mutex r in
  queues r' = queues r /\ multilevel_queue r' = multilevel_queue r /\
  ready_process_count r' = ready_process_count r /\ same_shape r r' /\
  (multilevel_queue r = true -> 0 < ready_process_count r -> ready_pids r ≠ [] ->
   first_nonempty 0 (queues r) = Some (highest_priority r')).
Proof.
  cbn. unfold update_highest_priority_ready_no_mutex. destruct (decide _) as [H|H].
  - split_and!; try done. intros _ _ Hne. apply nonempty_first in Hne as [i Hi].
    by rewrite Hi.
  - split_and!; try done. tauto.
Qed.

(** A process leaves the subqueue it is in. *)
Lemma remove_pid_perm (p : Z) l : p ∈ l -> p :: l_remove_first (fun x => bool_decide (x = p)) l ≡ₚ l.
Proof.
  intros Hp. destruct (l_find (fun x => bool_decide (x = p)) l) as [x|] eqn:E.
  - pose proof (l_find_Some _ _ _ E) as [Hx%bool_decide_eq_true _]. subst x.
    symmetry. by apply l_remove_first_perm.
  - apply l_find_None in E. rewrite Forall_forall in E. specialize (E p Hp).
    by apply bool_decide_eq_false in E.
Qed.

Definition taken_from (r r' : t_ready_queue) (p pos : Z) (f : list Z -> list Z) : Prop :=
  ready_wf r' /\ same_shape r r' /\ p :: ready_pids r' ≡ₚ ready_pids r /\
  forall i, l_get (queues r') i
    = (if decide (i = pos) then set_queue f else id) <$> l_get (queues r) i.

Lemma take_ready_spec r p prio :
  ready_wf r -> l_size (ready_pids r) <= INT_MAX ->
  in_subqueue r (subqueue_of r prio) p ->
  exists r', take_ready p prio r = Ok r' /\
    taken_from r r' p (subqueue_of r prio) (l_remove_first (fun x => bool_decide (x = p))).
Proof.
  intros [Hc H1 Hh] Hlt Hin. pose proof (in_subqueue_pids _ _ _ Hin) as Hp.
  destruct Hin as (s & Hs & Hps).
  destruct (alter_subqueue_ok (l_remove_first (fun x => bool_decide (x = p))) _ r s Hs)
    as (r1 & E & Hsh & Ec & Eh & El & Hr).
  assert (p :: ready_pids r1 ≡ₚ ready_pids r) as Hpids.
  { by apply (ready_pids_alter (l_remove_first (fun x => bool_decide (x = p))) r r1
      (subqueue_of r prio) s [p] []), remove_pid_perm. }
  assert (l_size (ready_pids r) = 1 + l_size (ready_pids r1)) as Hsz
    by (unfold l_size; rewrite <- Hpids; cbn [length]; lia).
  pose proof (l_size_nonneg (ready_pids r1)).
  destruct (update_highest_same r1) as (Eq2 & Em2 & Ec2 & Hsh2 & Hh2).
  unfold take_ready. unfold subqueue_of in E. rewrite E. cbn [mbind res_bind].
  rewrite s32_id by (rewrite Ec2, Ec, Hc; ints; lia).
  eexists. split; [done|]. destruct Hsh as (Ea & Em & Et & Ep).
  destruct Hsh2 as (Ea2 & _ & Et2 & Ep2).
  split_and!; cbn; [|split_and!; cbn; congruence|by unfold ready_pids; cbn; rewrite Eq2|
                    by rewrite Eq2].
  constructor; unfold ready_pids; cbn; rewrite Eq2, ?Em2, ?Ec2, ?Ec.
  - fold (ready_pids r1). lia.
  - rewrite Em, El. done.
  - intros Hm Hpos. apply Hh2; [done|lia|]. intros E0. rewrite E0 in Hsz.
    change (l_size (A := Z) []) with 0 in Hsz. lia.
Qed.

Lemma take_ready_next_empty r :
  ready_wf r -> ready_process_count r = 0 -> take_ready_next r = (None, r).
Proof.
  intros [Hc _ _] H0. unfold take_ready_next.
  destruct (first_nonempty 0 (queues r)) eqn:E; [|done].
  apply first_nonempty_pids in E. pose proof (l_size_pos _ E). lia.
Qed.

Lemma take_ready_next_spec r :
  ready_wf r -> 0 < ready_process_count r <= INT_MAX ->
  exists i s p rest r', first_nonempty 0 (queues r) = Some i /\
    l_get (queues r) i = Some s /\ queue s = p :: rest /\
    take_ready_next r = (Some p, r') /\ taken_from r r' p i (fun _ => rest).
Proof.
  intros [Hc H1 Hh] Hpos.
  assert (ready_pids r ≠ []) as Hne
    by (intros E; rewrite Hc, E in Hpos; unfold l_size in Hpos; cbn in Hpos; lia).
  destruct (nonempty_first r Hne) as [i Hi]. pose proof Hi as Hi'.
  apply first_nonempty_spec in Hi' as [(s & Hs & Hq) Hlt].
  destruct (queue s) as [|p rest] eqn:Eq; [done|].
  unfold take_ready_next. rewrite Hi, Hs. cbn [fmap option_fmap option_map].
  rewrite Eq. rewrite s32_id by (ints; lia).
  set (r1 := set_queues _ _).
  assert (forall j, l_get (queues r1) j
    = (if decide (j = i) then set_queue (fun _ => rest) else id) <$> l_get (queues r) j)
    as Hr by (intros j; apply l_get_Some in Hs as [? _]; by apply l_get_alter).
  assert (p :: ready_pids r1 ≡ₚ ready_pids r) as Hpids.
  { apply (ready_pids_alter (fun _ => rest) r r1 i s [p] []); [done..| |].
    - cbn. apply length_alter.
    - by rewrite Eq. }
  assert (l_size (ready_pids r) = 1 + l_size (ready_pids r1)) as Hsz
    by (unfold l_size; rewrite <- Hpids; cbn [length]; lia).
  assert (same_shape r r1) as Hsh.
  { split_and!; [|done..]. cbn. apply list_eq. intros k. rewrite !list_lookup_fmap.
    rewrite <- !l_get_nat. fold (queues r1). change (alter _ _ (queues r)) with (queues r1).
    rewrite Hr. destruct (decide _); destruct (l_get (queues r) (Z.of_nat k)); done. }
  exists i, s, p, rest. eexists. split_and!; [done..|].
  destruct (decide (rest = [])) as [->|Hrest].
  - destruct (update_highest_same r1) as (Eq2 & Em2 & Ec2 & Hsh2 & Hh2).
    destruct Hsh as (Ea & Em & Et & Ep). destruct Hsh2 as (Ea2 & _ & Et2 & Ep2).
    split_and!; [|split_and!; congruence|by unfold ready_pids; rewrite Eq2|by rewrite Eq2].
    constructor; unfold ready_pids; rewrite Eq2, ?Em2, ?Ec2.
    + fold (ready_pids r1). change (ready_process_count r1)
        with (ready_process_count r - 1). lia.
    + rewrite Em. intros Hm. cbn. rewrite length_alter. by apply H1.
    + intros Hm H0. apply Hh2; [done..|]. intros E0. rewrite E0 in Hsz.
      cbn in H0. change (l_size (A := Z) []) with 0 in Hsz. lia.
  - split_and!; [|done..]. constructor.
    + change (ready_process_count r1) with (ready_process_count r - 1). lia.
    + cbn. by rewrite length_alter.
    + intros Hm _. cbn in Hm. cbn. rewrite <- (Hh Hm) by lia. rewrite Hi.
      apply first_nonempty_spec. change (alter _ _ (queues r)) with (queues r1). split.
      * exists (set_queue (fun _ => rest) s). by rewrite Hr, decide_True, Hs.
      * intros j s' Hj. rewrite Hr, decide_False, option_fmap_id by lia. by apply Hlt.
Qed.

(** C11: the scheduling policy: the process taken from the ready queue is the
    oldest of the best non-empty priority (of the only queue when there are no
    levels), it leaves the queue and nothing else does, and the count and the
    cached best priority stay exact. *)
Theorem ready_next_policy (r : t_ready_queue) :
  ready_wf r -> 0 < ready_process_count r <= INT_MAX ->
  exists i p r', take_ready_next r = (Some p, r') /\
    (forall s, l_get (queues r) i = Some s -> hd_error (queue s) = Some p) /\
    in_subqueue r i p /\ (multilevel_queue r = true -> i = highest_priority r) /\
    (forall j x, in_subqueue r j x -> i <= j) /\
    ready_pids r ≡ₚ p :: ready_pids r' /\ ready_wf r'.
Proof.
  intros Hwf Hpos. destruct (take_ready_next_spec r Hwf Hpos)
    as (i & s & p & rest & r' & Hi & Hs & Hq & E & Hwf' & _ & Hp & _).
  exists i, p, r'. split_and!; try done.
  - intros s' Hs'. rewrite Hs in Hs'. simplify_eq. by rewrite Hq.
  - exists s. split; [done|]. rewrite Hq. by left.
  - intros Hm. destruct Hwf as [_ _ Hh]. rewrite Hh in Hi by (done || lia).
    by simplify_eq.
  - intros j x (s' & Hs' & Hx). destruct (decide (i <= j)); [done|].
    apply first_nonempty_spec in Hi as [_ Hlt].
    rewrite (Hlt j s') in Hx by (done || lia). by apply elem_of_nil in Hx.
Qed.

(** Three processes, two of priority 2 and one of priority 0. *)
Definition three_ready : t_ready_queue :=
  mk_ready_queue [mk_subqueue [9] SA_RR; mk_subqueue [] SA_FIFO; mk_subqueue [4; 7] SA_RR]
    true 3 false false 0.

Lemma ready_next_policy_witness :
  exists i p r', take_ready_next three_ready = (Some p, r') /\
    (forall s, l_get (queues three_ready) i = Some s -> hd_error (queue s) = Some p) /\
    in_subqueue three_ready i p /\
    (multilevel_queue three_ready = true -> i = highest_priority three_ready) /\
    (forall j x, in_subqueue three_ready j x -> i <= j) /\
    ready_pids three_ready ≡ₚ p :: ready_pids r' /\ ready_wf r'.
Proof.
  apply (ready_next_policy three_ready); [|cbn; ints; lia].
  by constructor.
Defined.
