(* ===== verification/ProcessLists.v ===== *)
(** * ProcessLists: kernel_scheduler/src/kernel_scheduler/scheduler/exec_list.c,
      blocking_list.c *)

From Stdlib Require Import Strings.Byte.
From S2P Require Import Prelude Bytes Msg Text SchedState Pcb.

Definition same_pcb (p : Z) (x : Z) : bool := bool_decide (x = p).

(** ** exec_list.c *)

Definition init_exec_list (quantum : Z) (preemption : bool) : t_execute_list :=
  mk_execute_list [] 0 quantum preemption.

Definition set_exec_list f (e : t_execute_list) : t_execute_list :=
  mk_execute_list (f (exec_list e)) (lowest_priority e) (quantum e) (preemption e).
Definition set_lowest_priority n (e : t_execute_list) : t_execute_list :=
  mk_execute_list (exec_list e) n (quantum e) (preemption e).

Section exec.
Context {U : Type}.
Context (interfere : t_queues U -> t_queues U).

(** The loop of [update_lowest_exec_priority]. *)
Fixpoint lowest_of (lowest : Z) (l : list Z) : M U Z :=
  match l with
  | [] => mret lowest
  | p :: r =>
      priority ← get_priority_pcb p;
      lowest_of (if decide (lowest < priority) then priority else lowest) r
  end.

Definition update_lowest_exec_priority : M U unit :=
  e ← gets exec;
  lowest ← lowest_of 0 (exec_list e);
  modify (set_exec (set_lowest_priority lowest)).

(** [time_diff]: the distance between two instants. *)
Definition quantum_ended (start : Z) : M U bool :=
  q ← gets id;
  mret (bool_decide (quantum (exec q) <= Z.abs (clock q - start))).

Definition is_lowest_priority_in_exec (priority : Z) : M U bool :=
  e ← gets exec; mret (bool_decide (lowest_priority e <= priority)).

Definition exec_empty (q : t_queues U) : bool :=
  negb (bool_decide (0 < l_size (exec_list (exec q)))).
Definition wait_queue_exec_empty : M U unit := wait interfere exec_empty.

Definition exec_only_syscalls (q : t_queues U) : bool :=
  negb (bool_decide (0 < l_size (exec_list (exec q)) - syscall_counter (routines q))).
(** The wait keeps the counter's mutex, which whoever takes a process out of the
    list needs before it can signal: once asleep it never returns
    (ExecLocks.v). *)
Definition wait_queue_exec_empty_with_syscalls : M U unit :=
  q ← gets id;
  if exec_only_syscalls q then mret tt else lift (Undef Deadlock).

Definition transition_to_exec (p : Z) : M U unit :=
  e ← gets exec;
  lowest ← (if preemption e then
              priority_pcb ← get_priority_pcb p;
              mret (if decide (lowest_priority e < priority_pcb) then priority_pcb
                    else lowest_priority e)
            else mret (lowest_priority e));
  modify (set_exec (fun e => set_exec_list (fun l => l ++ [p])
                               (set_lowest_priority lowest e))).

Definition transition_take_exec (p : Z) : M U unit :=
  _ ← modify (set_exec (set_exec_list (l_remove_first (same_pcb p))));
  e ← gets exec;
  when (preemption e) update_lowest_exec_priority.

Definition transition_take_exec_next : M U (option Z) :=
  e ← gets exec;
  match exec_list e with
  | [] => mret None
  | p :: r => _ ← modify (set_exec (set_exec_list (fun _ => r))); mret (Some p)
  end.
End exec.

(** ** blocking_list.c *)

Definition init_blocking_list : t_blocking_list := mk_blocking_list [] false.

Definition set_bl_list f (b : t_blocking_list) : t_blocking_list :=
  mk_blocking_list (f (bl_list b)) (new_process b).
Definition set_new_process n (b : t_blocking_list) : t_blocking_list :=
  mk_blocking_list (bl_list b) n.

Section blocking.
Context {U : Type}.

Definition blocking_list_is_empty (which : t_queues U -> t_blocking_list) : M U bool :=
  b ← gets which; mret (bool_decide (bl_list b = [])).

(** [set_blocked_time(pcb, millis())] comes first. *)
Definition transition_to_block (p : Z) : M U unit :=
  now ← gets clock;
  _ ← update_pcb p (set_blocked_time now);
  modify (set_block (fun b => set_bl_list (fun l => l ++ [p]) (set_new_process true b))).

Definition transition_to_susp_block (p : Z) : M U unit :=
  b ← gets susp_block;
  '(_, l) ← insert_pcb_sorted (bl_list b) p;
  modify (set_susp_block (set_bl_list (fun _ => l))).

Definition transition_to_susp_ready (p : Z) : M U unit :=
  b ← gets susp_ready;
  '(_, l) ← insert_pcb_sorted (bl_list b) p;
  modify (set_susp_ready (set_bl_list (fun _ => l))).

Definition transition_take_block (p : Z) : M U unit :=
  _ ← modify (set_block (set_bl_list (l_remove_first (same_pcb p))));
  update_pcb p (set_blocked_time 0).

Definition transition_take_block_next : M U (option Z) :=
  b ← gets block;
  match bl_list b with
  | [] => mret None
  | p :: r =>
      _ ← modify (set_block (set_bl_list (fun _ => r)));
      _ ← update_pcb p (set_blocked_time 0); mret (Some p)
  end.

Definition transition_take_susp_block (p : Z) : M U unit :=
  modify (set_susp_block (set_bl_list (l_remove_first (same_pcb p)))).

Definition transition_take_susp_block_next : M U (option Z) :=
  b ← gets susp_block;
  match bl_list b with
  | [] => mret None
  | p :: r => _ ← modify (set_susp_block (set_bl_list (fun _ => r))); mret (Some p)
  end.

Definition transition_take_susp_ready (p : Z) : M U unit :=
  modify (set_susp_ready (set_bl_list (l_remove_first (same_pcb p)))).

Definition transition_take_susp_ready_next : M U (option Z) :=
  b ← gets susp_ready;
  match bl_list b with
  | [] => mret None
  | p :: r => _ ← modify (set_susp_ready (set_bl_list (fun _ => r))); mret (Some p)
  end.
End blocking.
