(* ===== verification/KmReply.v ===== *)
(** * KmReply: what the scheduler asks Kernel Memory, and what it hears

    kernel_scheduler/src/kernel_scheduler/shutdown.c,
    scheduler/{kernel_memory_reply,memory_query,process_counter,counter}.c,
    connections/kernel_memory.c.  The socket's mutex is held around each
    request and its reply, so a request is one step. *)

From Stdlib Require Import Strings.Byte Strings.String.
From S2P Require Import Prelude Bytes Msg Text Structs SchedState Pcb.

Definition set_thread_counter n (r : t_routine_state) : t_routine_state :=
  mk_routines n (syscall_counter r) (routine_active r) (terminate_routines r)
    (compaction_active r) (resume_active r) (suspender r) (resumer r)
    (suspension_timeout r) (resumptions r) (unlockers r).
Definition set_syscall_counter n (r : t_routine_state) : t_routine_state :=
  mk_routines (thread_counter r) n (routine_active r) (terminate_routines r)
    (compaction_active r) (resume_active r) (suspender r) (resumer r)
    (suspension_timeout r) (resumptions r) (unlockers r).
Definition set_routine_active b (r : t_routine_state) : t_routine_state :=
  mk_routines (thread_counter r) (syscall_counter r) b (terminate_routines r)
    (compaction_active r) (resume_active r) (suspender r) (resumer r)
    (suspension_timeout r) (resumptions r) (unlockers r).
Definition set_terminate_routines b (r : t_routine_state) : t_routine_state :=
  mk_routines (thread_counter r) (syscall_counter r) (routine_active r) b
    (compaction_active r) (resume_active r) (suspender r) (resumer r)
    (suspension_timeout r) (resumptions r) (unlockers r).
Definition set_compaction_active b (r : t_routine_state) : t_routine_state :=
  mk_routines (thread_counter r) (syscall_counter r) (routine_active r)
    (terminate_routines r) b (resume_active r) (suspender r) (resumer r)
    (suspension_timeout r) (resumptions r) (unlockers r).
Definition set_resume_active b (r : t_routine_state) : t_routine_state :=
  mk_routines (thread_counter r) (syscall_counter r) (routine_active r)
    (terminate_routines r) (compaction_active r) b (suspender r) (resumer r)
    (suspension_timeout r) (resumptions r) (unlockers r).
Definition set_workers sus res (r : t_routine_state) : t_routine_state :=
  mk_routines (thread_counter r) (syscall_counter r) (routine_active r)
    (terminate_routines r) (compaction_active r) (resume_active r) sus res
    (suspension_timeout r) (resumptions r) (unlockers r).
Definition set_spawned n u (r : t_routine_state) : t_routine_state :=
  mk_routines (thread_counter r) (syscall_counter r) (routine_active r)
    (terminate_routines r) (compaction_active r) (resume_active r) (suspender r)
    (resumer r) (suspension_timeout r) n u.

Section reply.
Context {U : Type} `{!Transport U}.
(** Enough rounds for the loops that read the socket. *)
Context (fuel : nat).

(** ** Socket operations on the scheduler's state *)

Definition km_send (f : t_socket U -> bool * t_socket U) : M U bool :=
  s ← gets km_socket;
  let (ok, s) := f s in _ ← modify (set_km_socket s); mret ok.

Definition km_receive {A} (f : t_socket U -> res (A * t_socket U)) : M U A :=
  s ← gets km_socket;
  '(a, s) ← lift (f s); _ ← modify (set_km_socket s); mret a.

Definition km_send_string (op : t_op_code) (message : list byte) : M U bool :=
  km_receive (send_string op message).

(** [free(receive_string(...))] *)
Definition km_skip_string : M U unit := _ ← km_receive receive_string; mret tt.

(** ** counter.c, process_counter.c *)

Definition increment_thread_counter : M U unit :=
  modify (set_routines (fun r => set_thread_counter (s32 (thread_counter r + 1)) r)).
Definition decrement_thread_counter : M U unit :=
  modify (set_routines (fun r => set_thread_counter (s32 (thread_counter r - 1)) r)).
Definition increment_syscall_counter : M U unit :=
  modify (set_routines (fun r => set_syscall_counter (s32 (syscall_counter r + 1)) r)).
Definition decrement_syscall_counter : M U unit :=
  modify (set_routines (fun r => set_syscall_counter (s32 (syscall_counter r - 1)) r)).

(** ** shutdown.c *)

Definition notify_shutdown_kernel_memory (reason : t_shutdown_reason) : M U unit :=
  if decide (reason = SR_NO_PROCESSES) then
    _ ← km_send_string OP_KERNEL_SCHEDULER_SHUTDOWN (lit "No more processes to run");
    mret tt
  else mret tt.

(** The loop of [check_reason_shutdown]. *)
Fixpoint drain_kernel_memory (fuel : nat) : M U t_shutdown_reason :=
  match fuel with
  | O => lift (Undef OutOfFuel)
  | S fuel =>
      op ← km_receive receive_op_code;
      if decide (op = op_value OP_CODE_ERROR) then
        mret SR_KERNEL_MEMORY_CONNECTION_FAILURE
      else if decide (op = op_value OP_MEMORY_CORRUPTED) then mret SR_CORRUPTED_MEMORY
      else _ ← km_skip_string; drain_kernel_memory fuel
  end.

Definition check_reason_shutdown (reason : t_shutdown_reason) : M U t_shutdown_reason :=
  if decide (reason ≠ SR_KERNEL_MEMORY_SEND_ERROR) then mret reason
  else drain_kernel_memory fuel.

(** The server socket is shut down: [shutdown] records why.  The flag is
    exchanged first, so only the first call has an effect. *)
Definition close_kernel_scheduler (reason_shutdown : t_shutdown_reason) : M U unit :=
  done ← gets shutdown;
  match (done : option t_shutdown_reason) with
  | Some _ => mret tt
  | None =>
      _ ← modify (set_shutdown (Some reason_shutdown));
      _ ← notify_shutdown_kernel_memory reason_shutdown;
      reason ← check_reason_shutdown reason_shutdown;
      modify (set_shutdown (Some reason))
  end.

Definition increment_process_count : M U unit :=
  modify (set_process_count (fun n => s32 (n + 1))).

Definition decrement_process_count : M U unit :=
  n ← gets active_process_count;
  _ ← modify (set_process_count (fun n => s32 (n - 1)));
  when (bool_decide (n = 1)) (close_kernel_scheduler SR_NO_PROCESSES).

(** ** Starting the resumption routine (scheduler/compaction.c) *)

Definition is_compacting : M U bool := gets (fun q => compaction_active (routines q)).

(** [atomic_exchange]: the flag's previous value. *)
Definition set_is_resuming (new_state : bool) : M U bool :=
  r ← gets routines; _ ← modify (set_routines (set_resume_active new_state));
  mret (resume_active r).
Definition set_is_compacting (new_state : bool) : M U bool :=
  r ← gets routines; _ ← modify (set_routines (set_compaction_active new_state));
  mret (compaction_active r).

Definition create_resumption_routine_thread : M U unit :=
  compacting ← is_compacting;
  if (compacting : bool) then mret tt else
  resuming ← set_is_resuming true;
  if (resuming : bool) then mret tt else
  _ ← increment_thread_counter;
  modify (set_routines (fun r => set_spawned (S (resumptions r)) (unlockers r) r)).

(** ** kernel_memory_reply.c *)

Definition is_expected (op_code : Z) (expected : list t_op_code) : bool :=
  existsb (fun e => bool_decide (op_code = op_value e)) expected.

Fixpoint receive_km_opcode_loop (fuel : nat) (expected : list t_op_code) : M U Z :=
  match fuel with
  | O => lift (Undef OutOfFuel)
  | S fuel' =>
      op_code ← km_receive receive_op_code;
      if is_expected op_code expected then mret op_code else
      _ ← km_skip_string;
      if decide (op_code = op_value OP_NEW_MEMORY_STICK) then
        _ ← create_resumption_routine_thread; receive_km_opcode_loop fuel' expected
      else
        _ ← close_kernel_scheduler
              (if decide (op_code = op_value OP_MEMORY_CORRUPTED)
               then SR_CORRUPTED_MEMORY else SR_KERNEL_MEMORY_CONNECTION_FAILURE);
        mret (op_value OP_CODE_ERROR)
  end.

Definition receive_km_opcode (expected : list t_op_code) : M U Z :=
  receive_km_opcode_loop fuel expected.

(** ** memory_query.c *)

(** The [int] of an expected reply, -1 when there is none. *)
Definition receive_int_reply (op : t_op_code) : M U Z :=
  code ← receive_km_opcode [op];
  if decide (code = op_value OP_CODE_ERROR) then mret (-1) else
  '(b, _) ← km_receive (fun s => '(b, n, s) ← receive_buffer s; Ok (b, n, s));
  lift (b ← deref b; read_int b 0).

Definition receive_space : M U Z := receive_int_reply OP_FREE_MEMORY.
Definition receive_size : M U Z := receive_int_reply OP_PROCESS_SIZE.
Definition receive_size_no_logger : M U Z := receive_int_reply OP_PROCESS_SIZE.

Definition space_available_no_mutex : M U Z :=
  ok ← km_send_string OP_REQUEST_FREE_MEMORY (lit "Requesting the available space");
  if (ok : bool) then receive_space
  else _ ← close_kernel_scheduler SR_KERNEL_MEMORY_SEND_ERROR; mret (-1).

Definition process_size_no_mutex (pid : Z) : M U Z :=
  ok ← km_send (send_buffer OP_REQUEST_PROCESS_SIZE (int_bytes pid));
  if (ok : bool) then receive_size
  else _ ← close_kernel_scheduler SR_KERNEL_MEMORY_SEND_ERROR; mret (-1).

Definition process_size_no_mutex_no_logger (pid : Z) : M U Z :=
  ok ← km_send (send_buffer OP_REQUEST_PROCESS_SIZE (int_bytes pid));
  if (ok : bool) then receive_size_no_logger
  else _ ← close_kernel_scheduler SR_KERNEL_MEMORY_SEND_ERROR; mret (-1).

(** Under the socket's mutex. *)
Definition space_available : M U Z := space_available_no_mutex.
Definition process_size (pid : Z) : M U Z := process_size_no_mutex pid.
Definition process_size_no_logger (pid : Z) : M U Z := process_size_no_mutex_no_logger pid.

(** ** connections/kernel_memory.c *)

Definition notify_terminate_process (pid : Z) : M U bool :=
  ok ← km_send (send_buffer OP_END_PROCESS (int_bytes pid));
  if (ok : bool) then mret true
  else _ ← close_kernel_scheduler SR_KERNEL_MEMORY_SEND_ERROR; mret false.

(** One round of [thread_check_connection_kernel_memory]. *)
Definition check_connection_kernel_memory : M U bool :=
  ok ← km_send_string OP_KERNEL_MEMORY_RUNNING
         (lit "Is Kernel Memory still connected?");
  if (ok : bool) then mret true
  else _ ← close_kernel_scheduler SR_KERNEL_MEMORY_SEND_ERROR; mret false.
End reply.

(** Sending a literal is sending its bytes. *)
Lemma km_send_string_lit {U} `{!Transport U} op str (q : t_queues U) :
  bool_decide (x00 ∈ list_byte_of_string str) = false ->
  km_send_string op (lit str) q = km_send (send_buffer op (lit str)) q.
Proof.
  intros H. unfold km_send_string, km_receive, km_send, send_buffer. run_M.
  rewrite send_string_lit, lift_M by done. unfold frame.
  by destruct (socket_send _ _).
Qed.
