(* ===== verification/Queues.v ===== *)
(** * Queues: kernel_scheduler/src/kernel_scheduler/scheduler/queues.c, and the
      transitions of scheduler/suspension.c

    The process state machine.  Every transition holds the process's
    [state_mutex] from its check to its end, so it is one step. *)

From Stdlib Require Import Strings.Byte Strings.String.
From S2P Require Import Prelude Bytes Msg Text SchedState Pcb ReadyQueue ProcessLists.
From S2P Require Import KmReply.

(** [init_queues]. *)
Definition init_queues {U} (alg : t_scheduling_algorithm)
    (multilevel_algorithms : list t_scheduling_algorithm) (quantum : Z)
    (preemption : bool) (km : t_socket U) (suspension_timeout : Z) : t_queues U :=
  mk_queues ∅ 0 (init_ready_queue alg multilevel_algorithms)
    (init_exec_list quantum preemption) init_blocking_list init_blocking_list
    init_blocking_list 0 km
    (mk_routines 0 0 false false false false TS_RUNNING TS_RUNNING
       suspension_timeout 0 0) 0 None.

Section transitions.
Context {U : Type} `{!Transport U}.
Context (fuel : nat) (interfere : t_queues U -> t_queues U).

(** Whether the process was in [expected_state]; if so it moves to
    [next_state]. *)
Definition manage_state_pcb (p : Z) (expected_state next_state : t_process_state)
    : M U bool :=
  st ← get_state_pcb p;
  if decide (st = expected_state)
  then _ ← update_pcb p (set_state next_state); mret true
  else mret false.

Definition transition_to_exit (p : Z) (reason : t_process_end_reason) : M U unit :=
  _ ← wait_zero_active_instances interfere p;
  _ ← (if decide (reason ≠ PER_SYSTEM_SHUTDOWN /\ reason ≠ PER_INVALID_PRIORITY) then
         size ← process_size fuel p;
         notified ← notify_terminate_process fuel p;
         when (notified && bool_decide (0 < size)) create_resumption_routine_thread
       else mret tt);
  _ ← destroy_pcb p;
  decrement_process_count fuel.

Definition notify_new_process (instructions_file : list byte) (pid : Z) : M U bool :=
  packet ← lift (packet_append_string (create_packet OP_NEW_PROCESS) instructions_file);
  let packet := packet_append packet (int_bytes pid) in
  ok ← km_send (send_packet packet);
  if negb ok then _ ← close_kernel_scheduler fuel SR_KERNEL_MEMORY_SEND_ERROR; mret false
  else
    op ← receive_km_opcode fuel [OP_PROCESS_STARTED];
    if decide (op = op_value OP_PROCESS_STARTED)
    then _ ← km_skip_string; mret true else mret false.

Definition transition_take_new (instructions_file : list byte) (prio : Z)
    : M U (option Z) :=
  p ← create_pcb PS_NEW prio;
  _ ← increment_process_count;
  ok ← notify_new_process instructions_file p;
  if (ok : bool) then mret (Some p)
  else _ ← transition_to_exit p PER_SYSTEM_SHUTDOWN; mret None.

Definition transition_new_ready (instructions_file : list byte) (prio : Z) : M U unit :=
  p ← transition_take_new instructions_file prio;
  match (p : option Z) with
  | None => mret tt
  | Some p =>
      valid ← check_priority_valid p;
      if negb valid then transition_to_exit p PER_INVALID_PRIORITY
      else _ ← update_pcb p (set_state PS_READY); transition_to_ready p
  end.

Definition transition_ready_exec (p : Z) : M U unit :=
  _ ← manage_state_pcb p PS_READY PS_EXEC; mret tt.

Definition transition_exec_ready (p : Z) : M U unit :=
  ok ← manage_state_pcb p PS_EXEC PS_READY;
  when ok (_ ← transition_take_exec p; transition_to_ready p).

Definition transition_exec_exit (p : Z) (reason : t_process_end_reason) : M U unit :=
  ok ← manage_state_pcb p PS_EXEC PS_EXIT;
  when ok (_ ← transition_take_exec p; transition_to_exit p reason).

Definition transition_exec_block (p : Z) : M U unit :=
  ok ← manage_state_pcb p PS_EXEC PS_BLOCK;
  when ok (_ ← transition_take_exec p; transition_to_block p).

Definition transition_block_ready (p : Z) : M U unit :=
  ok ← manage_state_pcb p PS_BLOCK PS_READY;
  when ok (_ ← transition_take_block p; transition_to_ready p).

(** ** suspension.c: the transitions *)

Definition receive_suspend_process_response : M U bool :=
  op ← receive_km_opcode fuel [OP_SUSPENSION_OK; OP_SUSPENSION_FAILED];
  if decide (op = op_value OP_CODE_ERROR) then mret false
  else _ ← km_skip_string; mret (bool_decide (op = op_value OP_SUSPENSION_OK)).

Definition notify_process_suspended (p : Z) : M U bool :=
  ok ← km_send (send_buffer OP_SUSPEND_PROCESS (int_bytes p));
  if negb ok then _ ← close_kernel_scheduler fuel SR_KERNEL_MEMORY_SEND_ERROR; mret false
  else receive_suspend_process_response.

(** [fits_process] of compaction.c. *)
Definition fits_process : M U bool :=
  op ← receive_km_opcode fuel [OP_RESUME_SUSPENSION_OK; OP_RESUME_SUSPENSION_FAILED];
  if decide (op = op_value OP_CODE_ERROR) then mret false
  else _ ← km_skip_string; mret (bool_decide (op = op_value OP_RESUME_SUSPENSION_OK)).

Definition notify_process_resume_suspended (p : Z) : M U bool :=
  ok ← km_send (send_buffer OP_RESUME_SUSPENDED_PROCESS (int_bytes p));
  if negb ok then _ ← close_kernel_scheduler fuel SR_KERNEL_MEMORY_SEND_ERROR; mret false
  else fits_process.

Definition can_resume_suspended (p : Z) : M U bool :=
  space ← space_available fuel; size ← process_size fuel p;
  mret (bool_decide (size <= space)).

(** [lock_thread_suspended] and [unlock_thread_suspended] of one worker. *)
Definition lock_worker (st : t_thread_state) : t_thread_state :=
  match st with TS_RUNNING | TS_WAITING_PROCESS => TS_BLOCKED | _ => st end.
Definition unlock_worker (st : t_thread_state) : t_thread_state :=
  match st with TS_BLOCKED => TS_RUNNING | _ => st end.

Definition lock_threads_suspended : M U unit :=
  modify (set_routines (fun r =>
    set_workers (lock_worker (suspender r)) (lock_worker (resumer r)) r)).
Definition unlock_threads_suspended : M U unit :=
  modify (set_routines (fun r =>
    set_workers (unlock_worker (suspender r)) (unlock_worker (resumer r)) r)).
Definition unlock_resumer : M U unit :=
  modify (set_routines (fun r => set_workers (suspender r) (unlock_worker (resumer r)) r)).

Definition transition_block_susp_block (p : Z) : M U unit :=
  st ← get_state_pcb p;
  if decide (st ≠ PS_BLOCK) then mret tt else
  ok ← notify_process_suspended p;
  if negb ok then mret tt else
  _ ← update_pcb p (set_state PS_SUSP_BLOCK);
  _ ← transition_take_block p;
  _ ← transition_to_susp_block p;
  r ← gets routines;
  when (negb (compaction_active r) && negb (resume_active r)) unlock_resumer.

Definition transition_susp_block (p : Z) : M U unit :=
  ok ← manage_state_pcb p PS_SUSP_BLOCK PS_BLOCK;
  when ok (_ ← transition_take_susp_block p; transition_to_block p).

Definition transition_susp_block_susp_ready (p : Z) : M U unit :=
  ok ← manage_state_pcb p PS_SUSP_BLOCK PS_SUSP_READY;
  when ok (_ ← transition_take_susp_block p; transition_to_susp_ready p).

Definition transition_susp_ready (p : Z) : M U bool :=
  st ← get_state_pcb p;
  if decide (st ≠ PS_SUSP_READY) then mret false else
  can ← can_resume_suspended p;
  if negb can then mret false else
  ok ← notify_process_resume_suspended p;
  if negb ok then mret false else
  _ ← update_pcb p (set_state PS_READY);
  _ ← transition_take_susp_ready p;
  _ ← transition_to_ready p;
  mret true.

(** ** queues.c, continued *)

Definition transition_unlock (p : Z) : M U unit :=
  st ← get_state_pcb p;
  if decide (st = PS_BLOCK) then transition_block_ready p
  else transition_susp_block_susp_ready p.

(** Taking out of the subqueue of the priority the process has now. *)
Definition update_priority (p : Z) : M U unit :=
  r ← gets ready;
  if negb (multilevel_queue r) then mret tt else
  st ← get_state_pcb p;
  if decide (st = PS_READY) then _ ← transition_take_ready p; transition_to_ready p
  else mret tt.

Definition transition_any_exit (st : t_process_state) (reason : t_process_end_reason)
    : M U bool :=
  p ← (match st with
       | PS_READY => transition_take_ready_next
       | PS_EXEC => transition_take_exec_next
       | PS_BLOCK => transition_take_block_next
       | PS_SUSP_BLOCK => transition_take_susp_block_next
       | PS_SUSP_READY => transition_take_susp_ready_next
       | _ => mret None
       end);
  match (p : option Z) with
  | None => mret false
  | Some p => _ ← transition_to_exit p reason; mret true
  end.

(** The inner loop of [clear_queues]; each round takes a process. *)
Fixpoint clear_state (n : nat) (st : t_process_state) : M U unit :=
  match n with
  | O => lift (Undef OutOfFuel)
  | S n =>
      more ← transition_any_exit st PER_SYSTEM_SHUTDOWN;
      if (more : bool) then clear_state n st else mret tt
  end.

Fixpoint clear_states (n : nat) (sts : list t_process_state) : M U unit :=
  match sts with
  | [] => mret tt
  | st :: r => _ ← clear_state n st; clear_states n r
  end.

Definition clear_queues (n : nat) : M U unit :=
  clear_states n [PS_READY; PS_EXEC; PS_BLOCK; PS_SUSP_BLOCK; PS_SUSP_READY].
End transitions.
