(* ===== verification/QueuesWf.v ===== *)
(** * QueuesWf: the process state machine is safe

    The invariant of the scheduler's queues: every live process is in exactly
    the list its state names, once; and every transition of Queues.v keeps
    it. *)

From Stdlib Require Import Strings.Byte Strings.String.
From S2P Require Import Prelude Bytes Msg Text Structs SchedState Pcb ReadyQueue.
From S2P Require Import ProcessLists KmReply Queues.

Section wf.
Context {U : Type} `{!Transport U}.
Implicit Types (q : t_queues U) (st : t_process_state).

(** The list that holds the processes in a state. *)
Definition pids_in q st : list Z :=
  match st with
  | PS_READY => ready_pids (ready q)
  | PS_EXEC => exec_list (exec q)
  | PS_BLOCK => bl_list (block q)
  | PS_SUSP_BLOCK => bl_list (susp_block q)
  | PS_SUSP_READY => bl_list (susp_ready q)
  | PS_NEW | PS_EXIT => []
  end.

Definition listed st : bool :=
  match st with PS_NEW | PS_EXIT => false | _ => true end.

Definition state_of q (p : Z) : option t_process_state := state <$> pcbs q !! p.

(** Membership in the lists is what the states say. *)
Definition lists_agree q : Prop :=
  (forall st, NoDup (pids_in q st)) /\
  (forall p st, p ∈ pids_in q st <-> listed st = true /\ state_of q p = Some st).

(** With levels, a ready process is in the subqueue of its priority. *)
Definition placed q : Prop :=
  multilevel_queue (ready q) = true ->
  (forall i p, in_subqueue (ready q) i p -> prio q p = i) /\
  (forall p, alive q p -> state_of q p ≠ Some PS_NEW -> state_of q p ≠ Some PS_EXIT ->
     0 <= prio q p < queue_count (ready q)).

Record sched_wf q : Prop := {
  sw_ready : ready_wf (ready q);
  sw_lists : lists_agree q;
  sw_placed : placed q;
  sw_pids : forall p, alive q p -> 0 <= p < next_pid q;
  sw_few : 0 <= next_pid q <= INT_MAX }.

Lemma lists_alive q st p : lists_agree q -> p ∈ pids_in q st -> alive q p.
Proof.
  intros [_ H] Hp. apply H in Hp as [_ Hp]. unfold state_of in Hp.
  apply fmap_Some in Hp as (pcb & Hpcb & _). by eexists.
Qed.

(** ** The list of ready processes fits in an [int] *)

Lemma NoDup_range_length (l : list Z) n :
  NoDup l -> Forall (fun p => 0 <= p < n) l -> 0 <= n -> l_size l <= n.
Proof.
  intros Hnd Hl Hn. unfold l_size.
  assert (length l <= length (seqZ 0 n))%nat as H.
  { apply submseteq_length, NoDup_submseteq; [done|]. intros p Hp.
    rewrite Forall_forall in Hl. apply elem_of_seqZ. specialize (Hl p Hp). lia. }
  rewrite length_seqZ in H. lia.
Qed.

Lemma pids_below q st : sched_wf q -> l_size (pids_in q st) <= next_pid q.
Proof.
  intros [_ Hl _ Hp Hn]. apply NoDup_range_length; [apply Hl| |lia].
  apply Forall_forall. intros p Hin. apply Hp. by eapply lists_alive.
Qed.

Lemma pids_few q st : sched_wf q -> l_size (pids_in q st) <= INT_MAX.
Proof. intros H. pose proof (pids_below q st H). pose proof (sw_few _ H). lia. Qed.

(** ** Moving one process *)

(** [q'] is [q] with the process [p] moved from the list of [a] to the list of
    [b]; its PCB may change otherwise, but not in priority. *)
Record moved q (p : Z) (a b : t_process_state) q' : Prop := {
  mv_from : if listed a then p :: pids_in q' a ≡ₚ pids_in q a else True;
  mv_to : if listed b then pids_in q' b ≡ₚ p :: pids_in q b else True;
  mv_rest : forall st, st ≠ a -> st ≠ b -> pids_in q' st ≡ₚ pids_in q st;
  mv_state : forall x, state_of q' x = if decide (x = p) then Some b else state_of q x;
  mv_prio : forall x, prio q' x = prio q x;
  mv_pid : next_pid q' = next_pid q }.

Lemma moved_lists q p a b q' :
  lists_agree q -> state_of q p = Some a -> a ≠ b -> moved q p a b q' -> lists_agree q'.
Proof.
  intros [Hnd Hin] Hp Hab [Hf Ht Hr Hs _ _].
  assert (forall st, listed st = true -> st ≠ a -> p ∉ pids_in q st) as Hnot.
  { intros st Hst Hne Hx. apply Hin in Hx as [_ Hx]. congruence. }
  assert (forall st, pids_in q' st ≡ₚ
    if decide (st = b) then (if listed b then p :: pids_in q b else [])
    else if decide (st = a) then pids_in q' a else pids_in q st) as Hall.
  { intros st. case_decide as E1; [subst st; destruct (listed b) eqn:E; [done|]|].
    - by destruct b.
    - case_decide; [by subst|by apply Hr]. }
  assert (listed a = true -> NoDup (pids_in q' a) /\ (p ∉ pids_in q' a) /\
    forall x, x ≠ p -> x ∈ pids_in q' a <-> x ∈ pids_in q a) as Ha.
  { intros E. rewrite E in Hf. pose proof (Hnd a) as H. rewrite <- Hf in H.
    apply NoDup_cons in H as [H1 H2]. split_and!; [done..|].
    intros x Hx. rewrite <- Hf. set_solver. }
  split.
  - intros st. rewrite Hall. case_decide as E1.
    + destruct (listed b) eqn:E; [|constructor]. constructor; [|apply Hnd].
      apply Hnot; [done|congruence].
    + case_decide; [|apply Hnd]. subst st. destruct (listed a) eqn:E; [by apply Ha|].
      destruct a; try done; constructor.
  - intros x st. rewrite Hall, Hs. destruct (decide (x = p)) as [->|Hx].
    + case_decide as E1; [subst st|].
      * destruct (listed b); set_solver.
      * case_decide as E2; [subst st|].
        -- destruct (listed a) eqn:E; [|destruct a; set_solver].
           destruct (Ha eq_refl) as (_ & Hni & _).
           split; [done|intros [_ ?]; congruence].
        -- split; [|intros [_ ?]; congruence]. intros H.
           apply Hin in H as [_ H]. congruence.
    + case_decide as E1; [subst st|].
      * destruct (listed b) eqn:E; [|destruct b; set_solver].
        rewrite elem_of_cons, Hin, E. naive_solver.
      * case_decide as E2; [subst st|by rewrite <- Hin].
        destruct (listed a) eqn:E; [|destruct a; set_solver].
        destruct Ha as (_ & _ & Ha); [done|]. rewrite Ha, Hin, E by done. done.
Qed.

Lemma moved_alive q p a b q' x :
  state_of q p = Some a -> moved q p a b q' -> alive q' x <-> alive q x.
Proof.
  intros Hp [_ _ _ Hs _ _]. specialize (Hs x). unfold state_of, alive in *.
  destruct (decide (x = p)) as [->|].
  - destruct (pcbs q' !! p), (pcbs q !! p); simplify_eq/=; split; by eexists.
  - destruct (pcbs q' !! x), (pcbs q !! x); simplify_eq/=; split; (done || by eexists).
Qed.

(** ** What one function changes *)

(** Nothing but the connection, the counters and the flags. *)
Definition same_lists q q' : Prop :=
  pcbs q' = pcbs q /\ next_pid q' = next_pid q /\ ready q' = ready q /\
  exec q' = exec q /\ block q' = block q /\ susp_block q' = susp_block q /\
  susp_ready q' = susp_ready q.

#[export] Instance same_lists_preorder : PreOrder same_lists.
Proof. unfold same_lists. split; repeat intro; naive_solver congruence. Qed.
End wf.

Section same.
Context {U : Type} `{!Transport U}.

Lemma keeps_km_send f : keeps same_lists (km_send (U := U) f).
Proof. unfold km_send. keeps_tac. Qed.
Lemma keeps_km_receive {A} (f : t_socket U -> res (A * t_socket U)) :
  keeps same_lists (km_receive f).
Proof. unfold km_receive. keeps_tac. Qed.

Lemma keeps_km_skip_string : keeps same_lists (km_skip_string (U := U)).
Proof. unfold km_skip_string. apply keeps_bind; [apply _|apply keeps_km_receive|]. keeps_tac. Qed.
Lemma keeps_km_send_string op m : keeps same_lists (km_send_string (U := U) op m).
Proof. apply keeps_km_receive. Qed.
#[local] Hint Resolve keeps_km_send keeps_km_receive keeps_km_skip_string
  keeps_km_send_string : keeps.

Lemma keeps_drain n : keeps same_lists (drain_kernel_memory (U := U) n).
Proof. induction n; cbn [drain_kernel_memory]; keeps_tac. Qed.
#[local] Hint Resolve keeps_drain : keeps.

Lemma keeps_close fuel reason : keeps same_lists (close_kernel_scheduler (U := U) fuel reason).
Proof.
  unfold close_kernel_scheduler, notify_shutdown_kernel_memory, check_reason_shutdown.
  keeps_tac.
Qed.
#[local] Hint Resolve keeps_close : keeps.

Lemma keeps_create_resumption : keeps same_lists (create_resumption_routine_thread (U := U)).
Proof.
  unfold create_resumption_routine_thread, is_compacting, set_is_resuming,
    increment_thread_counter. keeps_tac.
Qed.
#[local] Hint Resolve keeps_create_resumption : keeps.

Lemma keeps_receive_km_opcode fuel expected :
  keeps same_lists (receive_km_opcode (U := U) fuel expected).
Proof.
  unfold receive_km_opcode. generalize fuel at 2 as n.
  induction n; cbn [receive_km_opcode_loop]; keeps_tac.
Qed.
#[local] Hint Resolve keeps_receive_km_opcode : keeps.

Lemma keeps_int_reply fuel op : keeps same_lists (receive_int_reply (U := U) fuel op).
Proof. unfold receive_int_reply. keeps_tac. Qed.
#[local] Hint Resolve keeps_int_reply : keeps.
Lemma keeps_space_no_mutex fuel : keeps same_lists (space_available_no_mutex (U := U) fuel).
Proof. unfold space_available_no_mutex, receive_space. keeps_tac. Qed.
Lemma keeps_space fuel : keeps same_lists (space_available (U := U) fuel).
Proof. apply keeps_space_no_mutex. Qed.
Lemma keeps_process_size fuel p : keeps same_lists (process_size (U := U) fuel p).
Proof. unfold process_size, process_size_no_mutex, receive_size. keeps_tac. Qed.
Lemma keeps_process_size_no_logger fuel p :
  keeps same_lists (process_size_no_logger (U := U) fuel p).
Proof.
  unfold process_size_no_logger, process_size_no_mutex_no_logger, receive_size_no_logger. keeps_tac.
Qed.
Lemma keeps_notify_terminate fuel p :
  keeps same_lists (notify_terminate_process (U := U) fuel p).
Proof. unfold notify_terminate_process. keeps_tac. Qed.
Lemma keeps_notify_new fuel f p : keeps same_lists (notify_new_process (U := U) fuel f p).
Proof. unfold notify_new_process. keeps_tac. Qed.
Lemma keeps_notify_suspended fuel p :
  keeps same_lists (notify_process_suspended (U := U) fuel p).
Proof. unfold notify_process_suspended, receive_suspend_process_response. keeps_tac. Qed.
Lemma keeps_notify_resume fuel p :
  keeps same_lists (notify_process_resume_suspended (U := U) fuel p).
Proof. unfold notify_process_resume_suspended, fits_process. keeps_tac. Qed.
Lemma keeps_increment_count : keeps same_lists (increment_process_count (U := U)).
Proof. unfold increment_process_count. keeps_tac. Qed.
Lemma keeps_decrement_count fuel : keeps same_lists (decrement_process_count (U := U) fuel).
Proof. unfold decrement_process_count. keeps_tac. Qed.
Lemma keeps_unlock_resumer : keeps same_lists (unlock_resumer (U := U)).
Proof. unfold unlock_resumer. keeps_tac. Qed.
#[local] Hint Resolve keeps_space keeps_process_size : keeps.
Lemma keeps_can_resume fuel p : keeps same_lists (can_resume_suspended (U := U) fuel p).
Proof. unfold can_resume_suspended. keeps_tac. Qed.

Lemma same_lists_wf (q q' : t_queues U) : same_lists q q' -> sched_wf q -> sched_wf q'.
Proof.
  intros (E1 & E2 & E3 & E4 & E5 & E6 & E7) [H1 H2 H3 H4 H5].
  assert (forall st, pids_in q' st = pids_in q st) as Ep
    by (intros []; cbn; congruence).
  constructor.
  - by rewrite E3.
  - destruct H2 as [Ha Hb]. unfold lists_agree, state_of. setoid_rewrite Ep.
    by rewrite E1.
  - unfold placed, prio, alive, state_of in *. by rewrite E3, E1.
  - unfold alive in *. by rewrite E1, E2.
  - by rewrite E2.
Qed.
End same.

#[export] Hint Resolve keeps_km_send keeps_km_receive keeps_km_skip_string
  keeps_km_send_string keeps_drain keeps_close keeps_create_resumption
  keeps_receive_km_opcode keeps_space keeps_space_no_mutex keeps_process_size
  keeps_process_size_no_logger keeps_notify_terminate
  keeps_notify_new keeps_notify_suspended keeps_notify_resume keeps_increment_count
  keeps_decrement_count keeps_unlock_resumer keeps_can_resume : keeps.

(** [keep_step E]: the step [E] changed no list. *)
Ltac keep_step E :=
  match type of E with
  | ?m ?q = Ok (_, ?q') =>
      let Hs := fresh "Hs" in
      assert (same_lists q q') as Hs
        by (refine ((_ : keeps same_lists m) _ _ _ E); keeps_tac)
  end.

(** ** What each step of a transition changes *)

Section inversion.
Context {U : Type} `{!Transport U}.
Implicit Types (q : t_queues U).

Lemma state_of_alter f p q x :
  state_of (set_pcbs (alter f p) q) x
  = if decide (x = p) then (fun pcb => state (f pcb)) <$> pcbs q !! p else state_of q x.
Proof.
  unfold state_of. cbn. case_decide as E.
  - subst. rewrite lookup_alter_eq. by destruct (pcbs q !! p).
  - by rewrite lookup_alter_ne.
Qed.

Lemma prio_alter f p q x :
  (forall pcb, priority (f pcb) = priority pcb) ->
  prio (set_pcbs (alter f p) q) x = prio q x.
Proof.
  intros Hf. unfold prio. cbn. destruct (decide (x = p)) as [->|].
  - rewrite lookup_alter_eq. destruct (pcbs q !! p); cbn; by rewrite ?Hf.
  - by rewrite lookup_alter_ne.
Qed.

Lemma get_state_Ok p q st q' :
  get_state_pcb p q = Ok (st, q') <-> q' = q /\ state_of q p = Some st.
Proof.
  unfold get_state_pcb, state_of. split.
  - intros H. inv_M H as pcb q1 E. apply get_pcb_Ok in E as [-> E]. run_M_in H.
    simplify_eq. by rewrite E.
  - intros [-> H]. apply fmap_Some in H as (pcb & E & ->). run_M.
    by rewrite (get_pcb_alive _ _ _ E).
Qed.

Lemma manage_state_Ok p a b q r q' :
  manage_state_pcb p a b q = Ok (r, q') ->
  (r = true /\ state_of q p = Some a /\ q' = set_pcbs (alter (set_state b) p) q) \/
  (r = false /\ state_of q p ≠ Some a /\ q' = q).
Proof.
  intros H. unfold manage_state_pcb in H. inv_M H as st q1 E.
  apply get_state_Ok in E as [-> E]. case_decide as Hd.
  - inv_M H as u q1 E1. apply update_pcb_Ok in E1 as [_ ->]. run_M_in H.
    simplify_eq. by left.
  - run_M_in H. simplify_eq. right. split_and!; congruence.
Qed.

Lemma lowest_of_Ok l : forall n q m q', lowest_of n l q = Ok (m, q') -> q' = q.
Proof.
  induction l as [|x l IH]; intros n q m q' H; cbn [lowest_of] in H.
  - run_M_in H. by simplify_eq.
  - inv_M H as a q1 E. apply get_priority_Ok in E as (-> & _). by eapply IH.
Qed.

Lemma update_lowest_Ok q r q' :
  update_lowest_exec_priority q = Ok (r, q') ->
  exists n, q' = set_exec (set_lowest_priority n) q.
Proof.
  intros H. unfold update_lowest_exec_priority in H. run_M_in H.
  destruct (lowest_of _ _ q) as [[n q1]|] eqn:E; [|done].
  apply lowest_of_Ok in E as ->. run_M_in H. simplify_eq. eauto.
Qed.

Lemma take_exec_Ok p q r q' :
  transition_take_exec p q = Ok (r, q') ->
  exists n, q' = set_exec (fun e => set_lowest_priority n
                             (set_exec_list (l_remove_first (same_pcb p)) e)) q.
Proof.
  intros H. unfold transition_take_exec in H. run_M_in H. cbn [set_exec exec] in H.
  destruct (preemption _); cbn [when] in H.
  - apply update_lowest_Ok in H as [n ->]. by exists n.
  - rewrite ret_M in H. simplify_eq. exists (lowest_priority (exec q)).
    unfold set_exec. cbn. by destruct (exec q).
Qed.

Lemma to_exec_Ok p q r q' :
  transition_to_exec p q = Ok (r, q') ->
  exists n, q' = set_exec (fun e => set_exec_list (fun l => l ++ [p])
                                      (set_lowest_priority n e)) q.
Proof.
  intros H. unfold transition_to_exec in H. run_M_in H.
  destruct (preemption _).
  - run_M_in H. destruct (get_priority_pcb p q) as [[x q1]|] eqn:E; [|done].
    apply get_priority_Ok in E as (-> & _). run_M_in H. simplify_eq. eauto.
  - run_M_in H. simplify_eq. eauto.
Qed.

Lemma to_block_Ok p q r q' :
  transition_to_block p q = Ok (r, q') ->
  q' = set_block (fun b => set_bl_list (fun l => l ++ [p]) (set_new_process true b))
         (set_pcbs (alter (set_blocked_time (clock q)) p) q).
Proof.
  intros H. unfold transition_to_block in H. run_M_in H.
  destruct (update_pcb _ _ q) as [[u q1]|] eqn:E; [|done].
  apply update_pcb_Ok in E as [_ ->]. run_M_in H. by simplify_eq.
Qed.

Lemma take_block_Ok p q r q' :
  transition_take_block p q = Ok (r, q') ->
  q' = set_pcbs (alter (set_blocked_time 0) p)
         (set_block (set_bl_list (l_remove_first (same_pcb p))) q).
Proof.
  intros H. unfold transition_take_block in H. run_M_in H.
  by apply update_pcb_Ok in H as [_ ->].
Qed.

Lemma to_susp_block_Ok p q r q' :
  transition_to_susp_block p q = Ok (r, q') ->
  exists l, l ≡ₚ p :: bl_list (susp_block q) /\
    q' = set_susp_block (set_bl_list (fun _ => l)) q.
Proof.
  intros H. unfold transition_to_susp_block in H. run_M_in H.
  destruct (insert_pcb_sorted _ p q) as [[[i l] q1]|] eqn:E; [|done].
  apply insert_pcb_sorted_Ok in E as [-> E]. run_M_in H. simplify_eq. eauto.
Qed.

Lemma to_susp_ready_Ok p q r q' :
  transition_to_susp_ready p q = Ok (r, q') ->
  exists l, l ≡ₚ p :: bl_list (susp_ready q) /\
    q' = set_susp_ready (set_bl_list (fun _ => l)) q.
Proof.
  intros H. unfold transition_to_susp_ready in H. run_M_in H.
  destruct (insert_pcb_sorted _ p q) as [[[i l] q1]|] eqn:E; [|done].
  apply insert_pcb_sorted_Ok in E as [-> E]. run_M_in H. simplify_eq. eauto.
Qed.

Lemma to_ready_Ok p q r q' :
  transition_to_ready p q = Ok (r, q') ->
  exists r', to_ready p (prio q p) (ready q) = Ok r' /\ q' = set_ready (fun _ => r') q.
Proof.
  intros H. unfold transition_to_ready, with_ready in H. run_M_in H.
  destruct (get_priority_pcb p q) as [[x q1]|] eqn:E; [|done].
  apply get_priority_Ok in E as (-> & _ & ->). run_M_in H. rewrite lift_M in H.
  destruct (to_ready _ _ _) eqn:E; [|done]. run_M_in H. simplify_eq. eauto.
Qed.
End inversion.

(** ** Transitions keep the invariant *)

Section transitions.
Context {U : Type} `{!Transport U}.
Implicit Types (q : t_queues U).

Lemma same_shape_count r r' :
  same_shape r r' -> queue_count r' = queue_count r /\ multilevel_queue r' = multilevel_queue r.
Proof.
  intros (E & Em & _). split; [|done]. apply (f_equal length) in E.
  rewrite !length_fmap in E. unfold queue_count, l_size. by rewrite E.
Qed.

Lemma wf_move q p a b q' :
  sched_wf q -> state_of q p = Some a -> a ≠ b ->
  (listed a = true \/ listed b = false \/
   (multilevel_queue (ready q) = true -> 0 <= prio q p < queue_count (ready q))) ->
  moved q p a b q' -> ready_wf (ready q') -> same_shape (ready q) (ready q') ->
  (multilevel_queue (ready q) = true -> forall i x,
     in_subqueue (ready q') i x -> prio q x = i) ->
  sched_wf q'.
Proof.
  intros [H1 H2 H3 H4 H5] Hp Hab Hprio Hmv Hr Hsh Hin.
  apply same_shape_count in Hsh as [Ec Em]. constructor; [done| | | |].
  - by eapply moved_lists.
  - intros Hm. rewrite Em in Hm. destruct (H3 Hm) as [H3a H3b]. split.
    + intros i x Hx. rewrite (mv_prio _ _ _ _ _ Hmv). by apply Hin.
    + intros x Hx. rewrite (mv_state _ _ _ _ _ Hmv), (mv_prio _ _ _ _ _ Hmv), Ec.
      apply (moved_alive q p a b q' x Hp Hmv) in Hx.
      destruct (decide (x = p)) as [->|]; [|by apply H3b].
      intros Hn Hx'. destruct Hprio as [Ha|[Hb|Hprio]].
      * apply H3b; [done| |]; rewrite Hp; intros [= ->]; done.
      * destruct b; done.
      * by apply Hprio.
  - intros x Hx. rewrite (mv_pid _ _ _ _ _ Hmv). apply H4.
    by apply (moved_alive q p a b q' x Hp Hmv).
  - by rewrite (mv_pid _ _ _ _ _ Hmv).
Qed.

(** Neither list is the ready queue. *)
Lemma wf_move_elsewhere q p a b q' :
  sched_wf q -> state_of q p = Some a -> a ≠ b ->
  listed a = true \/ listed b = false -> moved q p a b q' -> ready q' = ready q ->
  sched_wf q'.
Proof.
  intros Hwf Hp Hab Hl Hmv E. eapply wf_move; try done.
  - tauto.
  - rewrite E. apply Hwf.
  - by rewrite E.
  - intros Hm i x. rewrite E. by apply (sw_placed _ Hwf Hm).
Qed.

Lemma moved_states q p a b q' f :
  state_of q p = Some a -> pcbs q' = alter f p (pcbs q) ->
  (forall pcb, state (f pcb) = b) ->
  forall x, state_of q' x = if decide (x = p) then Some b else state_of q x.
Proof.
  intros Hp E Hf x. unfold state_of in *. rewrite E. case_decide as Hx.
  - subst. rewrite lookup_alter_eq. destruct (pcbs q !! p); [|done]. cbn.
    by rewrite Hf.
  - by rewrite lookup_alter_ne.
Qed.

Lemma moved_prios q p q' f :
  pcbs q' = alter f p (pcbs q) ->
  (forall pcb, priority (f pcb) = priority pcb) -> forall x, prio q' x = prio q x.
Proof.
  intros E Hf x. unfold prio. rewrite E. destruct (decide (x = p)) as [->|].
  - rewrite lookup_alter_eq. destruct (pcbs q !! p); cbn; by rewrite ?Hf.
  - by rewrite lookup_alter_ne.
Qed.

(** A process that enters the ready queue from elsewhere. *)
Lemma wf_move_ready q p a q1 r' :
  sched_wf q -> state_of q p = Some a -> a ≠ PS_READY ->
  (listed a = true \/
   (multilevel_queue (ready q) = true -> 0 <= prio q p < queue_count (ready q))) ->
  ready q1 = ready q -> to_ready p (prio q p) (ready q) = Ok r' ->
  next_pid q1 = next_pid q ->
  (forall x, state_of q1 x = if decide (x = p) then Some PS_READY else state_of q x) ->
  (forall x, prio q1 x = prio q x) ->
  (if listed a then p :: pids_in q1 a ≡ₚ pids_in q a else True) ->
  (forall st, st ≠ a -> st ≠ PS_READY -> pids_in q1 st ≡ₚ pids_in q st) ->
  sched_wf (set_ready (fun _ => r') q1).
Proof.
  intros Hwf Hp Ha Hprio Er Hto En Hs Hpr Hfrom Hrest. pose proof Hwf as [H1 H2 H3 H4 H5].
  assert (p ∉ ready_pids (ready q)) as Hnin.
  { intros Hx. apply (proj2 H2 p PS_READY) in Hx as [_ Hx]. congruence. }
  assert (multilevel_queue (ready q) = true -> 0 <= prio q p < queue_count (ready q)) as Hq.
  { intros Hm. destruct Hprio as [Hl|Hprio]; [|by apply Hprio].
    destruct (H3 Hm) as [_ H3b]. apply H3b.
    - unfold state_of in Hp. apply fmap_Some in Hp as (pcb & E & _). by eexists.
    - rewrite Hp. by intros [= ->].
    - rewrite Hp. by intros [= ->]. }
  assert (l_size (ready_pids (ready q)) < INT_MAX) as Hlt.
  { assert (l_size (p :: ready_pids (ready q)) <= next_pid q) as Hle.
    { assert (alive q p) as Hal
        by (unfold state_of in Hp; apply fmap_Some in Hp as (pcb & E & _); by eexists).
      apply NoDup_range_length.
      - constructor; [done|]. apply (proj1 H2 PS_READY).
      - constructor; [by apply H4|]. apply Forall_forall. intros x Hx. apply H4.
        by apply (lists_alive q PS_READY).
      - specialize (H4 p Hal). lia. }
    unfold l_size in *. cbn [length] in Hle. lia. }
  destruct (to_ready_spec (ready q) p (prio q p) H1 Hlt Hq)
    as (r2 & E & Hwf2 & Hsh & Hpids & Hget).
  rewrite Hto in E. injection E as <-.
  eapply (wf_move q p a PS_READY); try done; [tauto| |].
  - constructor.
    + destruct a; done.
    + cbn. exact Hpids.
    + intros st Hst Hne. rewrite <- Hrest by done. by destruct st.
    + exact Hs.
    + exact Hpr.
    + exact En.
  - intros Hm i x (s & Hget' & Hx). cbn in Hget'. rewrite Hget in Hget'.
    destruct (l_get (queues (ready q)) i) as [s0|] eqn:E0; [|by destruct (decide _)].
    cbn in Hget'. simplify_eq. destruct (H3 Hm) as [H3a _].
    destruct (decide (i = subqueue_of (ready q) (prio q p))) as [->|].
    + cbn in Hx. apply elem_of_app in Hx as [Hx|Hx%list_elem_of_singleton].
      * apply H3a. by exists s0.
      * subst. unfold subqueue_of. by rewrite Hm.
    + apply H3a. by exists s0.
Qed.
End transitions.

(** What a transition may do: move the one process from [a] to [b], or nothing
    visible in the lists. *)
Definition steps {U} (q : t_queues U) (p : Z) (a b : t_process_state) (q' : t_queues U)
    : Prop :=
  sched_wf q' /\
  ((state_of q p = Some a /\
    forall x, state_of q' x = if decide (x = p) then Some b else state_of q x) \/
   (state_of q p ≠ Some a /\ q' = q)).

Section each.
Context {U : Type} `{!Transport U}.
Implicit Types (q : t_queues U).

Lemma in_list q p st :
  sched_wf q -> listed st = true -> state_of q p = Some st -> p ∈ pids_in q st.
Proof. intros Hwf Hl Hp. by apply (proj2 (sw_lists _ Hwf)). Qed.

Lemma remove_same_perm p l : p ∈ l -> p :: l_remove_first (same_pcb p) l ≡ₚ l.
Proof. apply remove_pid_perm. Qed.

Lemma alter_twice (f g : t_pcb -> t_pcb) p (m : gmap Z t_pcb) :
  alter f p (alter g p m) = alter (fun x => f (g x)) p m.
Proof.
  apply map_eq. intros i. destruct (decide (i = p)) as [->|].
  - rewrite !lookup_alter_eq. by destruct (m !! p).
  - by rewrite !lookup_alter_ne.
Qed.

(** A transition that starts with [manage_state_pcb]. *)
Lemma managed p a b (m : M U unit) q r q' :
  (ok ← manage_state_pcb p a b; when ok m) q = Ok (r, q') ->
  (state_of q p = Some a /\ m (set_pcbs (alter (set_state b) p) q) = Ok (r, q')) \/
  (state_of q p ≠ Some a /\ q' = q).
Proof.
  intros H. inv_M H as ok q1 E1.
  apply manage_state_Ok in E1 as [(-> & Hp & ->)|(-> & Hp & ->)]; cbn [when] in H.
  - by left.
  - rewrite ret_M in H. simplify_eq. by right.
Qed.

(** The outcome of a move between two lists other than the ready queue. *)
Lemma steps_elsewhere q p a b q' f :
  sched_wf q -> state_of q p = Some a -> a ≠ b -> listed a = true ->
  pcbs q' = alter f p (pcbs q) ->
  (forall pcb, state (f pcb) = b /\ priority (f pcb) = priority pcb) ->
  next_pid q' = next_pid q -> ready q' = ready q ->
  p :: pids_in q' a ≡ₚ pids_in q a ->
  (if listed b then pids_in q' b ≡ₚ p :: pids_in q b else True) ->
  (forall st, st ≠ a -> st ≠ b -> pids_in q' st ≡ₚ pids_in q st) ->
  steps q p a b q'.
Proof.
  intros Hwf Hp Hab Hla Epcbs Hf En Er Ha Hb Hrest.
  assert (moved q p a b q') as Hmv.
  { constructor; try done.
    - by rewrite Hla.
    - eapply moved_states; [done..|]. intros pcb. apply Hf.
    - eapply moved_prios; [done|]. intros pcb. apply Hf. }
  split; [|left; split; [done|apply Hmv]].
  eapply (wf_move_elsewhere q p a b); try done. by left.
Qed.

(** The outcome of a move into the ready queue. *)
Lemma steps_ready q p a q1 r' f :
  sched_wf q -> state_of q p = Some a -> a ≠ PS_READY -> listed a = true ->
  pcbs q1 = alter f p (pcbs q) ->
  (forall pcb, state (f pcb) = PS_READY /\ priority (f pcb) = priority pcb) ->
  next_pid q1 = next_pid q -> ready q1 = ready q ->
  to_ready p (prio q1 p) (ready q1) = Ok r' ->
  p :: pids_in q1 a ≡ₚ pids_in q a ->
  (forall st, st ≠ a -> st ≠ PS_READY -> pids_in q1 st ≡ₚ pids_in q st) ->
  steps q p a PS_READY (set_ready (fun _ => r') q1).
Proof.
  intros Hwf Hp Ha Hla Epcbs Hf En Er Hto Hfrom Hrest.
  assert (forall x, state_of q1 x = if decide (x = p) then Some PS_READY else state_of q x)
    as Hs by (eapply moved_states; [done..|]; intros pcb; apply Hf).
  assert (forall x, prio q1 x = prio q x) as Hpr
    by (eapply moved_prios; [done|]; intros pcb; apply Hf).
  split; [|by left]. rewrite Hpr, Er in Hto.
  apply (wf_move_ready q p a); try done; [by left|]. by rewrite Hla.
Qed.

Lemma steps_stay q p a b : sched_wf q -> state_of q p ≠ Some a -> steps q p a b q.
Proof. intros. split; [done|by right]. Qed.
#[local] Hint Resolve steps_stay : core.

Lemma transition_exec_block_steps p q r q' :
  sched_wf q -> transition_exec_block p q = Ok (r, q') -> steps q p PS_EXEC PS_BLOCK q'.
Proof.
  intros Hwf H. apply managed in H as [[Hp H]|[Hp ->]]; [|auto].
  inv_M H as u q2 E2. apply take_exec_Ok in E2 as [n ->]. apply to_block_Ok in H as ->.
  eapply steps_elsewhere; try done; cbn.
  - by rewrite alter_twice.
  - by intros [].
  - by apply remove_same_perm, (in_list q p PS_EXEC).
  - by rewrite Permutation_app_comm.
  - by intros [].
Qed.

Lemma transition_exec_ready_steps p q r q' :
  sched_wf q -> transition_exec_ready p q = Ok (r, q') -> steps q p PS_EXEC PS_READY q'.
Proof.
  intros Hwf H. apply managed in H as [[Hp H]|[Hp ->]]; [|auto].
  inv_M H as u q2 E2. apply take_exec_Ok in E2 as [n ->].
  apply to_ready_Ok in H as (r' & Hr & ->).
  eapply steps_ready; try done; [|by intros []].
  cbn. by apply remove_same_perm, (in_list q p PS_EXEC).
Qed.

Lemma transition_block_ready_steps p q r q' :
  sched_wf q -> transition_block_ready p q = Ok (r, q') -> steps q p PS_BLOCK PS_READY q'.
Proof.
  intros Hwf H. apply managed in H as [[Hp H]|[Hp ->]]; [|auto].
  inv_M H as u q2 E2. apply take_block_Ok in E2 as ->.
  apply to_ready_Ok in H as (r' & Hr & ->).
  eapply steps_ready; try done; [cbn; by rewrite alter_twice|by intros []| |by intros []].
  cbn. by apply remove_same_perm, (in_list q p PS_BLOCK).
Qed.

Lemma transition_susp_block_steps p q r q' :
  sched_wf q -> transition_susp_block p q = Ok (r, q') ->
  steps q p PS_SUSP_BLOCK PS_BLOCK q'.
Proof.
  intros Hwf H. apply managed in H as [[Hp H]|[Hp ->]]; [|auto].
  unfold transition_take_susp_block in H. run_M_in H. apply to_block_Ok in H as ->.
  eapply steps_elsewhere; try done; cbn.
  - by rewrite alter_twice.
  - by intros [].
  - by apply remove_same_perm, (in_list q p PS_SUSP_BLOCK).
  - by rewrite Permutation_app_comm.
  - by intros [].
Qed.

Lemma transition_susp_block_susp_ready_steps p q r q' :
  sched_wf q -> transition_susp_block_susp_ready p q = Ok (r, q') ->
  steps q p PS_SUSP_BLOCK PS_SUSP_READY q'.
Proof.
  intros Hwf H. apply managed in H as [[Hp H]|[Hp ->]]; [|auto].
  unfold transition_take_susp_block in H. run_M_in H.
  apply to_susp_ready_Ok in H as (l & Hl & ->).
  eapply steps_elsewhere; try done; cbn; [|by intros []].
  by apply remove_same_perm, (in_list q p PS_SUSP_BLOCK).
Qed.

Lemma steps_same q0 q p a b q' :
  same_lists q0 q -> steps q p a b q' -> state_of q p = Some a ->
  sched_wf q' /\ state_of q0 p = Some a /\
  forall x, state_of q' x = if decide (x = p) then Some b else state_of q0 x.
Proof.
  intros (E & _) [Hwf [[Hp Hs]|[Hp _]]] Ha; [|done]. unfold state_of in *.
  rewrite <- E. done.
Qed.

(** Suspending: the lists change only after Kernel Memory said it is done. *)
Lemma transition_block_susp_block_wf fuel p q r q' :
  sched_wf q -> transition_block_susp_block fuel p q = Ok (r, q') ->
  sched_wf q' /\
  ((forall x, state_of q' x = state_of q x) \/
   state_of q p = Some PS_BLOCK /\
   forall x, state_of q' x = if decide (x = p) then Some PS_SUSP_BLOCK else state_of q x).
Proof.
  intros Hwf H. unfold transition_block_susp_block in H.
  inv_M H as st q1 E. apply get_state_Ok in E as [-> Hp].
  case_decide as Hst; [run_M_in H; simplify_eq; auto|]. subst st.
  inv_M H as ok q1 E1. apply keeps_notify_suspended in E1.
  pose proof (same_lists_wf _ _ E1 Hwf) as Hwf1.
  assert (forall x, state_of q1 x = state_of q x) as Es
    by (intros x; unfold state_of; by destruct E1 as (-> & _)).
  destruct ok; cbn [negb] in H; [|run_M_in H; simplify_eq; auto].
  inv_M H as u q2 E2. apply update_pcb_Ok in E2 as [_ ->].
  inv_M H as u2 q3 E3. apply take_block_Ok in E3 as ->.
  inv_M H as u3 q4 E4. apply to_susp_block_Ok in E4 as (l & Hl & ->).
  assert (steps q1 p PS_BLOCK PS_SUSP_BLOCK q') as Hsteps.
  { run_M_in H. set (q4 := set_susp_block _ _) in *.
    assert (same_lists q4 q') as Hq
      by (destruct (_ && _); cbn [when] in H;
          [by eapply keeps_unlock_resumer|rewrite ret_M in H; by simplify_eq]).
    assert (steps q1 p PS_BLOCK PS_SUSP_BLOCK q4) as [Hw4 Hs4].
    { eapply steps_elsewhere; try done; cbn;
        [by rewrite Es|by rewrite alter_twice|by intros []| |by intros []].
      apply remove_same_perm, (in_list q1 p PS_BLOCK); [done..|]. by rewrite Es. }
    split; [by eapply same_lists_wf|]. left. split; [by rewrite Es|].
    destruct Hs4 as [[_ Hs4]|[Hne _]]; [|by rewrite Es in Hne].
    intros x. rewrite <- Hs4. unfold state_of. by destruct Hq as (-> & _). }
  apply (steps_same q) in Hsteps; [|done|by rewrite Es].
  destruct Hsteps as (H1 & H2 & H3). auto.
Qed.

(** Resuming: a process leaves SUSP. READY only when Kernel Memory has brought
    it back. *)
Lemma transition_susp_ready_wf fuel p q r q' :
  sched_wf q -> transition_susp_ready fuel p q = Ok (r, q') ->
  sched_wf q' /\
  ((r = false /\ forall x, state_of q' x = state_of q x) \/
   (r = true /\ state_of q p = Some PS_SUSP_READY /\
    forall x, state_of q' x = if decide (x = p) then Some PS_READY else state_of q x)).
Proof.
  intros Hwf H. unfold transition_susp_ready in H.
  inv_M H as st q1 E. apply get_state_Ok in E as [-> Hp].
  case_decide as Hst; [run_M_in H; simplify_eq; auto|]. subst st.
  inv_M H as can q1 E1. apply keeps_can_resume in E1.
  pose proof (same_lists_wf _ _ E1 Hwf) as Hwf1.
  assert (forall q2, same_lists q q2 -> forall x, state_of q2 x = state_of q x) as Es
    by (intros q2 (E & _) x; unfold state_of; by rewrite E).
  destruct can; cbn [negb] in H; [|run_M_in H; simplify_eq; split; auto].
  inv_M H as ok q2 E2. apply keeps_notify_resume in E2.
  assert (same_lists q q2) as E3 by (by etrans).
  pose proof (same_lists_wf _ _ E2 Hwf1) as Hwf2.
  destruct ok; cbn [negb] in H; [|run_M_in H; simplify_eq; split; auto].
  inv_M H as u q3 E4. apply update_pcb_Ok in E4 as [_ ->].
  unfold transition_take_susp_ready in H. run_M_in H.
  destruct (transition_to_ready p _) as [[u4 q4]|] eqn:E5; [|done].
  apply to_ready_Ok in E5 as (r' & Hr & ->). run_M_in H. simplify_eq.
  assert (state_of q2 p = Some PS_SUSP_READY) as Hp2 by (by rewrite (Es q2 E3)).
  eassert (steps q2 p PS_SUSP_READY PS_READY _) as Hsteps.
  2: { apply (steps_same q) in Hsteps; [|done..].
       destruct Hsteps as (H1 & H2 & H3). split; [exact H1|]. right. auto. }
  eapply steps_ready; try done; [|by intros []].
  cbn. by apply remove_same_perm, (in_list q2 p PS_SUSP_READY).
Qed.
End each.

(** ** Creating, dispatching and destroying *)

(** What the other threads may do while one waits: keep the invariant, and
    leave alone the processes that are in no list. *)
Record rely {U} (interfere : t_queues U -> t_queues U) : Prop := {
  rely_wf : forall q, sched_wf q -> sched_wf (interfere q);
  rely_unlisted : forall q p st, sched_wf q -> listed st = false ->
    state_of q p = Some st -> state_of (interfere q) p = Some st }.

Lemma rely_id {U} : rely (fun q : t_queues U => q).
Proof. by constructor. Qed.

Section lifecycle.
Context {U : Type} `{!Transport U}.
Context (fuel : nat) (interfere : t_queues U -> t_queues U).
Implicit Types (q : t_queues U).

Lemma wait_rely cond q r q' p st :
  rely interfere -> sched_wf q -> listed st = false -> state_of q p = Some st ->
  wait interfere cond q = Ok (r, q') -> sched_wf q' /\ state_of q' p = Some st.
Proof.
  intros Hr Hwf Hl Hp H. unfold wait in H. destruct (cond q); [by simplify_eq|].
  destruct (cond (interfere q)); [|done]. simplify_eq.
  split; [by apply Hr|by apply (rely_unlisted _ Hr)].
Qed.

Lemma destroy_wf q p st :
  sched_wf q -> listed st = false -> state_of q p = Some st ->
  sched_wf (set_pcbs (delete p) q).
Proof.
  intros [H1 [H2 H3] H4 H5 H6] Hl Hp.
  assert (forall st, p ∉ pids_in q st) as Hno.
  { intros st' Hin. apply H3 in Hin as [Hl' Hin]. rewrite Hp in Hin.
    simplify_eq. congruence. }
  assert (forall x, x ≠ p -> pcbs (set_pcbs (delete p) q) !! x = pcbs q !! x) as Hne
    by (intros; cbn; by rewrite lookup_delete_ne).
  assert (forall st', pids_in (set_pcbs (delete p) q) st' = pids_in q st') as Ep
    by (by intros []).
  constructor; [done| | | |done].
  - split; intros; rewrite Ep; [done|]. destruct (decide (p0 = p)) as [->|Hx].
    + unfold state_of. cbn. rewrite lookup_delete_eq. specialize (Hno st0). naive_solver.
    + unfold state_of. rewrite Hne by done. apply H3.
  - intros Hm. destruct (H4 Hm) as [H4a H4b]. split.
    + intros i x Hx. assert (x ≠ p) as Hxp.
      { intros ->. by apply in_subqueue_pids, (Hno PS_READY) in Hx. }
      unfold prio. rewrite Hne by done. by apply H4a.
    + intros x Hx. assert (x ≠ p) as Hxp.
      { intros ->. unfold alive in Hx. cbn in Hx. rewrite lookup_delete_eq in Hx.
        by destruct Hx. }
      unfold alive, prio, state_of in *. rewrite Hne in * by done. by apply H4b.
  - intros x [pcb Hx]. apply H5. cbn in Hx. apply lookup_delete_Some in Hx as [_ Hx].
    by eexists.
Qed.

Lemma transition_to_exit_wf p reason q r q' st :
  rely interfere -> sched_wf q -> listed st = false -> state_of q p = Some st ->
  transition_to_exit fuel interfere p reason q = Ok (r, q') ->
  sched_wf q' /\ ~ alive q' p.
Proof.
  intros Hr Hwf Hl Hp H. unfold transition_to_exit in H.
  inv_M H as u q1 E1. unfold wait_zero_active_instances in E1.
  inv_M E1 as pcb q0 E0. apply get_pcb_Ok in E0 as [-> _].
  apply (wait_rely _ _ _ _ p st) in E1 as [Hwf1 Hp1]; [|done..].
  inv_M H as u2 q2 E2. keep_step E2. inv_M H as u3 q3 E3. unfold destroy_pcb in E3.
  inv_M E3 as pcb3 q4 E4. apply get_pcb_Ok in E4 as [-> _]. run_M_in E3. simplify_eq.
  keep_step H.
  assert (state_of q2 p = Some st) as Hp2 by (unfold state_of; by destruct Hs as (-> & _)).
  split.
  - eapply same_lists_wf; [done|]. eapply destroy_wf; [|done..].
    by eapply same_lists_wf.
  - destruct Hs0 as (E & _). unfold alive. rewrite E. cbn.
    rewrite lookup_delete_eq. by intros [].
Qed.

(** Taken out of the executing ones, to end. *)
Lemma take_exec_to_exit p q r q' :
  sched_wf q -> state_of q p = Some PS_EXEC ->
  transition_take_exec p (set_pcbs (alter (set_state PS_EXIT) p) q) = Ok (r, q') ->
  sched_wf q' /\ forall x, state_of q' x = if decide (x = p) then Some PS_EXIT else state_of q x.
Proof.
  intros Hwf Hp E. apply take_exec_Ok in E as [n ->]. set (q2 := set_exec _ _).
  assert (steps q p PS_EXEC PS_EXIT q2) as [Hwf2 [[_ Hs]|[Hne _]]]; [|done..].
  eapply steps_elsewhere; try done; [|by intros []].
  cbn. by apply remove_same_perm, (in_list q p PS_EXEC).
Qed.

Lemma transition_exec_exit_wf p reason q r q' :
  rely interfere -> sched_wf q ->
  transition_exec_exit fuel interfere p reason q = Ok (r, q') ->
  sched_wf q' /\ (state_of q p = Some PS_EXEC /\ ~ alive q' p \/
                  state_of q p ≠ Some PS_EXEC /\ q' = q).
Proof.
  intros Hr Hwf H. apply managed in H as [[Hp H]|[Hp ->]]; [|auto].
  inv_M H as u q2 E2. apply take_exec_to_exit in E2 as [Hwf2 Hs]; [|done..].
  eapply (transition_to_exit_wf p reason q2 _ _ PS_EXIT) in H as [H1 H2]; try done; [auto|].
  by rewrite Hs, decide_True.
Qed.

(** A fresh PCB. *)
Lemma create_pcb_wf prio0 q r q' :
  sched_wf q -> next_pid q < INT_MAX -> create_pcb PS_NEW prio0 q = Ok (r, q') ->
  r = next_pid q /\ sched_wf q' /\ state_of q' r = Some PS_NEW /\
  prio q' r = prio0 /\ ready q' = ready q /\ ~ alive q r.
Proof.
  intros [H1 [H2 H3] H4 H5 H6] Hlt H. unfold create_pcb in H. run_M_in H. simplify_eq.
  set (pcb := mk_pcb _ _ _ _ _ _). set (q1 := set_pcbs _ _).
  assert (~ alive q (next_pid q)) as Hfresh by (intros Ha; apply H5 in Ha; lia).
  assert (pcbs q !! next_pid q = None) as Hnone
    by (destruct (pcbs q !! next_pid q) eqn:E; [destruct Hfresh; by eexists|done]).
  assert (forall x, x ≠ next_pid q -> pcbs q1 !! x = pcbs q !! x) as Hne
    by (intros; cbn; by rewrite lookup_insert_ne).
  assert (pcbs q1 !! next_pid q = Some pcb) as Heq by (cbn; by rewrite lookup_insert_eq).
  assert (forall st', pids_in q1 st' = pids_in q st') as Ep by (by intros []).
  split_and!; [done| |unfold state_of; by rewrite Heq|unfold prio; by rewrite Heq|done|done].
  assert (next_pid q1 = next_pid q + 1) as En by (cbn; apply u32_id; ints; lia).
  constructor; [done| | | |rewrite En; lia].
  - split; intros; rewrite Ep; [done|]. rewrite H3. unfold state_of.
    destruct (decide (p = next_pid q)) as [->|]; [|by rewrite Hne].
    rewrite Heq, Hnone. cbn. split; [by intros [_ ?]|]. intros [? [= <-]]. done.
  - intros Hm. destruct (H4 Hm) as [H4a H4b]. split.
    + intros i x Hx. assert (x ≠ next_pid q) as Hxp.
      { intros ->. apply in_subqueue_pids, (H3 _ PS_READY) in Hx as [_ Hx].
        unfold state_of in Hx. by rewrite Hnone in Hx. }
      unfold prio. rewrite Hne by done. by apply H4a.
    + intros x Hx. destruct (decide (x = next_pid q)) as [->|Hxp].
      * unfold state_of. by rewrite Heq.
      * unfold alive, prio, state_of in *. rewrite Hne in * by done. by apply H4b.
  - intros x Hx. rewrite En. destruct (decide (x = next_pid q)) as [->|Hxp]; [lia|].
    unfold alive in Hx. rewrite Hne in Hx by done. apply H5 in Hx. lia.
Qed.

Lemma transition_take_new_wf f prio0 q r q' :
  rely interfere -> sched_wf q -> next_pid q < INT_MAX ->
  transition_take_new fuel interfere f prio0 q = Ok (r, q') ->
  sched_wf q' /\
  match r with
  | Some p => state_of q' p = Some PS_NEW /\ prio q' p = prio0
  | None => True
  end.
Proof.
  intros Hr Hwf Hlt H. unfold transition_take_new in H. inv_M H as p q1 E1.
  apply create_pcb_wf in E1 as (-> & Hwf1 & Hs1 & Hp1 & _ & _); [|done..].
  inv_M H as u q2 E2. keep_step E2. inv_M H as ok q3 E3. keep_step E3.
  assert (same_lists q1 q3) as Hs' by (by etrans).
  pose proof (same_lists_wf _ _ Hs' Hwf1) as Hwf3. destruct Hs' as (E & _).
  assert (state_of q3 (next_pid q) = Some PS_NEW) as Hs3 by (unfold state_of; by rewrite E).
  destruct ok.
  - run_M_in H. simplify_eq. split_and!; [done..|]. unfold prio. by rewrite E.
  - inv_M H as u2 q4 E4. run_M_in H. simplify_eq. split; [|done].
    by eapply (transition_to_exit_wf _ _ q3 _ _ PS_NEW) in E4 as [? _].
Qed.

Lemma to_ready_level p prio0 r r' :
  to_ready p prio0 r = Ok r' -> multilevel_queue r = true ->
  0 <= prio0 < queue_count r.
Proof.
  unfold to_ready, alter_subqueue, queue_count. intros H Hm.
  set (r1 := if decide _ then _ else r) in H.
  assert (queues r1 = queues r /\ multilevel_queue r1 = true) as [E1 E2]
    by (unfold r1; case_decide; split; done).
  cbn [queues multilevel_queue set_ready_count] in H. rewrite E1, E2 in H.
  apply l_get_range. destruct (l_get _ _); [by eexists|done].
Qed.

Lemma check_valid_same p q r q' : check_priority_valid p q = Ok (r, q') -> q' = q.
Proof.
  unfold check_priority_valid. intros H. run_M_in H.
  destruct (multilevel_queue (ready q)); cbn [negb] in H; run_M_in H; [|by simplify_eq].
  destruct (get_priority_pcb _ q) as [[y q6]|] eqn:E6; [|done].
  apply get_priority_Ok in E6 as [-> _]. run_M_in H. by simplify_eq.
Qed.

Lemma transition_new_ready_wf f prio0 q r q' :
  rely interfere -> sched_wf q -> next_pid q < INT_MAX ->
  transition_new_ready fuel interfere f prio0 q = Ok (r, q') -> sched_wf q'.
Proof.
  intros Hr Hwf Hlt H. unfold transition_new_ready in H. inv_M H as op q1 E1.
  apply transition_take_new_wf in E1 as [Hwf1 Hp1]; [|done..].
  destruct op as [p|]; [|run_M_in H; by simplify_eq]. destruct Hp1 as [Hs1 Hpr].
  inv_M H as valid q2 E2.
  apply check_valid_same in E2 as ->.
  destruct valid; cbn [negb] in H.
  - inv_M H as u q3 E3. apply update_pcb_Ok in E3 as [_ ->].
    apply to_ready_Ok in H as (r' & Ht & ->).
    set (q3 := set_pcbs _ _) in *.
    assert (forall x, prio q3 x = prio q1 x) as Hprio
      by (eapply (moved_prios q1 p); [done|]; by intros []).
    rewrite Hprio in Ht.
    eapply (wf_move_ready q1 p PS_NEW q3); try done.
    + right. by apply to_ready_level with (1 := Ht).
    + by eapply (moved_states q1 p).
  - by eapply (transition_to_exit_wf _ _ q1 _ _ PS_NEW) in H as [? _].
Qed.

(** [transition_take_ready_next], [transition_ready_exec] and
    [transition_to_exec], as the CPU threads call them. *)
Definition dispatch_next : M U (option Z) :=
  p ← transition_take_ready_next;
  match (p : option Z) with
  | None => mret None
  | Some p => _ ← transition_ready_exec p; _ ← transition_to_exec p; mret (Some p)
  end.

Lemma take_next_Ok q r q' :
  sched_wf q -> transition_take_ready_next q = Ok (r, q') ->
  (r = None /\ q' = q /\ ready_process_count (ready q) = 0) \/
  exists p i f r', r = Some p /\ q' = set_ready (fun _ => r') q /\
    in_subqueue (ready q) i p /\ taken_from (ready q) r' p i f /\
    (forall x s, l_get (queues (ready q)) i = Some s -> x ∈ f (queue s) -> x ∈ queue s).
Proof.
  intros Hwf H. pose proof (sw_ready _ Hwf) as Hr.
  pose proof (pids_few q PS_READY Hwf) as Hfew. cbn in Hfew.
  unfold transition_take_ready_next in H. run_M_in H.
  destruct (decide (ready_process_count (ready q) = 0)) as [H0|H0].
  - rewrite take_ready_next_empty in H by done. run_M_in H. simplify_eq. left.
    split_and!; try done. unfold set_ready. by destruct q.
  - pose proof (l_size_nonneg (ready_pids (ready q))). pose proof (rw_count _ Hr).
    destruct (take_ready_next_spec (ready q) Hr) as (i & s & p & rest & r' & Hi & Hs & Hq & E & Ht);
      [lia|].
    rewrite E in H. run_M_in H. simplify_eq. right. exists p, i, (fun _ => rest), r'.
    split_and!; try done.
    + exists s. split; [done|]. rewrite Hq. by left.
    + intros x s' Hs' Hx. rewrite Hs in Hs'. simplify_eq. rewrite Hq. by right.
Qed.

Lemma dispatch_next_wf q r q' :
  sched_wf q -> dispatch_next q = Ok (r, q') ->
  sched_wf q' /\
  match r with
  | None => q' = q /\ ready_process_count (ready q) = 0
  | Some p => state_of q p = Some PS_READY /\
      forall x, state_of q' x = if decide (x = p) then Some PS_EXEC else state_of q x
  end.
Proof.
  intros Hwf H. unfold dispatch_next in H. inv_M H as op q1 E1.
  apply take_next_Ok in E1 as [(-> & -> & H0)|(p & i & f & r' & -> & -> & Hin & Ht & Hf)];
    [run_M_in H; simplify_eq; auto| |done].
  destruct Ht as (Hr' & Hsh & Hperm & Hget).
  assert (state_of q p = Some PS_READY) as Hp
    by (apply (proj2 (sw_lists _ Hwf) p PS_READY), (in_subqueue_pids _ i), Hin).
  inv_M H as u q2 E2. unfold transition_ready_exec in E2. inv_M E2 as b q3 E3.
  apply manage_state_Ok in E3 as [(-> & _ & ->)|(_ & Hne & _)]; [|done].
  run_M_in E2. simplify_eq. inv_M H as u2 q4 E4. apply to_exec_Ok in E4 as [n ->].
  run_M_in H. simplify_eq. set (q1 := set_exec _ _).
  assert (moved q p PS_READY PS_EXEC q1) as Hmv.
  { constructor.
    - exact Hperm.
    - cbn. by rewrite Permutation_app_comm.
    - by intros [].
    - by eapply (moved_states q p).
    - eapply (moved_prios q p); [done|]. by intros [].
    - done. }
  split; [|split; [done|apply Hmv]].
  eapply (wf_move q p PS_READY PS_EXEC); try done; [by left|].
  intros Hm j x (s & Hs & Hx). cbn in Hs. rewrite Hget in Hs.
  destruct (l_get (queues (ready q)) j) as [s0|] eqn:E0; [|by destruct (decide _)].
  cbn in Hs. simplify_eq. apply (sw_placed _ Hwf Hm). exists s0. split; [done|].
  destruct (decide (j = i)) as [->|]; [|done]. cbn in Hx. by eapply Hf.
Qed.

Lemma transition_unlock_wf p q r q' :
  sched_wf q -> transition_unlock p q = Ok (r, q') ->
  steps q p PS_BLOCK PS_READY q' \/ steps q p PS_SUSP_BLOCK PS_SUSP_READY q'.
Proof.
  intros Hwf H. unfold transition_unlock in H. inv_M H as st q1 E.
  apply get_state_Ok in E as [-> Hp]. case_decide.
  - left. by eapply transition_block_ready_steps.
  - right. by eapply transition_susp_block_susp_ready_steps.
Qed.
End lifecycle.

(** ** The scheduler's queues as a transition system *)

Section system.
Context {U : Type} `{!Transport U}.
Context (fuel : nat) (interfere : t_queues U -> t_queues U).
Implicit Types (q : t_queues U).

(** The transitions the threads of the scheduler make, and the steps that only
    talk to Kernel Memory or count. *)
Inductive sched_step q : t_queues U -> Prop :=
  | step_new f prio0 r q' : next_pid q < INT_MAX ->
      transition_new_ready fuel interfere f prio0 q = Ok (r, q') -> sched_step q q'
  | step_dispatch r q' : dispatch_next q = Ok (r, q') -> sched_step q q'
  | step_exec_ready p r q' : transition_exec_ready p q = Ok (r, q') -> sched_step q q'
  | step_exec_block p r q' : transition_exec_block p q = Ok (r, q') -> sched_step q q'
  | step_exec_exit p reason r q' :
      transition_exec_exit fuel interfere p reason q = Ok (r, q') -> sched_step q q'
  | step_unlock p r q' : transition_unlock p q = Ok (r, q') -> sched_step q q'
  | step_block_susp_block p r q' :
      transition_block_susp_block fuel p q = Ok (r, q') -> sched_step q q'
  | step_susp_block p r q' : transition_susp_block p q = Ok (r, q') -> sched_step q q'
  | step_susp_ready p r q' : transition_susp_ready fuel p q = Ok (r, q') -> sched_step q q'
  | step_other q' : same_lists q q' -> sched_step q q'.

Lemma sched_step_wf q q' :
  rely interfere -> sched_wf q -> sched_step q q' -> sched_wf q'.
Proof.
  intros Hr Hwf [f prio0 r q1 Hlt H|r q1 H|p r q1 H|p r q1 H|p reason r q1 H|p r q1 H
    |p r q1 H|p r q1 H|p r q1 H|q1 H].
  - by eapply transition_new_ready_wf.
  - by eapply dispatch_next_wf in H as [? _].
  - by eapply transition_exec_ready_steps in H as [? _].
  - by eapply transition_exec_block_steps in H as [? _].
  - by eapply transition_exec_exit_wf in H as [? _].
  - by eapply transition_unlock_wf in H as [[? _]|[? _]].
  - by eapply transition_block_susp_block_wf in H as [? _].
  - by eapply transition_susp_block_steps in H as [? _].
  - by eapply transition_susp_ready_wf in H as [? _].
  - by eapply same_lists_wf.
Qed.

Lemma init_ready_wf alg ml : ready_wf (init_ready_queue alg ml).
Proof.
  assert (forall l, concat (queue <$> (mk_subqueue [] <$> (l : list t_scheduling_algorithm)))
    = []) as E by (induction l; done).
  destruct alg; constructor; cbn; try done; unfold ready_pids; cbn; try by rewrite ?E.
Qed.

Lemma init_queues_wf alg ml quantum preemption km timeout :
  sched_wf (init_queues (U := U) alg ml quantum preemption km timeout).
Proof.
  assert (forall l, concat (queue <$> (mk_subqueue [] <$> (l : list t_scheduling_algorithm)))
    = []) as E by (induction l; done).
  set (q := init_queues _ _ _ _ _ _).
  assert (forall st, pids_in q st = []) as Ep.
  { intros []; try done. cbn. destruct alg; cbn; unfold ready_pids; cbn; by rewrite ?E. }
  constructor.
  - apply init_ready_wf.
  - split; intros; rewrite Ep; [constructor|]. split; [set_solver|]. by intros [_ ?].
  - intros _. split; [|by intros p []]. intros i p Hin.
    apply in_subqueue_pids in Hin. change (p ∈ pids_in q PS_READY) in Hin.
    rewrite Ep in Hin. set_solver.
  - by intros p [].
  - cbn. ints. lia.
Qed.

(** no process is lost and none is in two places: in every state the
    scheduler's threads reach, each live process is exactly once in the list of
    its state and in no other, a ready process is in the queue of its
    priority, and the ready queue's count and cached best priority are exact;
    whatever the other threads do while one waits for a process's instances to
    drain. *)
Theorem transitions_keep_invariant alg ml quantum preemption km timeout q :
  rely interfere ->
  rtc sched_step (init_queues (U := U) alg ml quantum preemption km timeout) q ->
  sched_wf q.
Proof.
  intros Hr H. pose proof (init_queues_wf alg ml quantum preemption km timeout) as Hwf.
  induction H as [|q1 q2 q3 H12 _ IH]; [done|]. apply IH. by eapply sched_step_wf.
Qed.
End system.

(** The edges of the state diagram. *)
Definition edge (a b : t_process_state) : bool :=
  match a, b with
  | PS_READY, PS_EXEC | PS_EXEC, PS_READY | PS_EXEC, PS_BLOCK
  | PS_BLOCK, PS_READY | PS_BLOCK, PS_SUSP_BLOCK | PS_SUSP_BLOCK, PS_BLOCK
  | PS_SUSP_BLOCK, PS_SUSP_READY | PS_SUSP_READY, PS_READY => true
  | _, _ => false
  end.

Section diagram.
Context {U : Type} `{!Transport U}.
Implicit Types (q : t_queues U).

Lemma steps_edge q p a b q' x s s' :
  steps q p a b q' -> edge a b = true ->
  state_of q x = Some s -> state_of q' x = Some s' -> s = s' \/ edge s s' = true.
Proof.
  intros [_ [[Hp Hs]|[_ ->]]] He Hx Hx'; [|left; congruence].
  rewrite Hs in Hx'. case_decide; simplify_eq; auto.
Qed.

(** Waiting, the other threads leave [x] in the state [st]. *)
Definition spares (interfere : t_queues U -> t_queues U) x st : Prop :=
  forall q, sched_wf q -> state_of q x = st -> state_of (interfere q) x = st.

Lemma spares_id x st : spares (fun q => q) x st.
Proof. by intros q _. Qed.

Lemma wait_others interfere cond x st q r q' :
  spares interfere x st -> sched_wf q -> wait interfere cond q = Ok (r, q') ->
  state_of q x = st -> state_of q' x = st.
Proof.
  intros Hi Hwf H Hx. unfold wait in H. destruct (cond q); [by simplify_eq|].
  destruct (cond (interfere q)); [|done]. simplify_eq. by apply Hi.
Qed.

Lemma to_exit_others fuel interfere p reason q r q' x st :
  spares interfere x st -> sched_wf q -> transition_to_exit fuel interfere p reason q = Ok (r, q') ->
  x ≠ p -> state_of q x = st -> state_of q' x = st.
Proof.
  intros Hi Hwf H Hx Hst. unfold transition_to_exit in H. inv_M H as u1 q1 E1.
  unfold wait_zero_active_instances in E1. inv_M E1 as pcb q0 E0.
  apply get_pcb_Ok in E0 as [-> _]. eapply wait_others in E1; [|done..].
  inv_M H as u2 q2 E2. keep_step E2.
  inv_M H as u3 q3 E3. unfold destroy_pcb in E3. inv_M E3 as pcb3 q4 E4.
  apply get_pcb_Ok in E4 as [-> _]. run_M_in E3. simplify_eq. keep_step H.
  destruct Hs as (Ea & _), Hs0 as (Eb & _). rewrite <- E1. unfold state_of. rewrite Eb. cbn.
  by rewrite lookup_delete_ne, Ea.
Qed.

Lemma exec_exit_others fuel interfere p reason q r q' x st :
  spares interfere x st -> sched_wf q ->
  transition_exec_exit fuel interfere p reason q = Ok (r, q') ->
  x ≠ p -> state_of q x = st -> state_of q' x = st.
Proof.
  intros Hi Hwf H Hx Hst. apply managed in H as [[Hp H]|[Hp ->]]; [|done].
  inv_M H as u q2 E2. apply take_exec_to_exit in E2 as [Hwf2 Hs]; [|done..].
  eapply to_exit_others in H; [done..|]. by rewrite Hs, decide_False.
Qed.

Lemma new_ready_others fuel interfere f prio0 q r q' x st :
  spares interfere x st -> sched_wf q -> next_pid q < INT_MAX ->
  transition_new_ready fuel interfere f prio0 q = Ok (r, q') ->
  x ≠ next_pid q -> state_of q x = st -> state_of q' x = st.
Proof.
  intros Hi Hwf Hlt H Hx Hst. unfold transition_new_ready, transition_take_new in H.
  inv_M H as op q1 E1. inv_M E1 as p q2 E2.
  assert (state_of q2 x = state_of q x) as Hx2.
  { pose proof E2 as E. unfold create_pcb in E. run_M_in E. simplify_eq.
    unfold state_of; cbn; by rewrite lookup_insert_ne. }
  apply create_pcb_wf in E2 as (-> & Hwf2 & _); [|done..].
  inv_M E1 as u q3 E3. keep_step E3. inv_M E1 as ok q4 E4. keep_step E4.
  assert (same_lists q2 q4) as Hs4 by (by etrans). pose proof (same_lists_wf _ _ Hs4 Hwf2) as Hwf4.
  destruct Hs4 as (Ea & _). clear Hs Hs0.
  assert (state_of q4 x = state_of q x) as Hx4 by (rewrite <- Hx2; unfold state_of; by rewrite Ea).
  destruct ok.
  - run_M_in E1. simplify_eq. inv_M H as valid q5 E5. apply check_valid_same in E5 as ->.
    destruct valid; cbn [negb] in H.
    + inv_M H as u2 q6 E6. apply update_pcb_Ok in E6 as [_ ->].
      apply to_ready_Ok in H as (r' & _ & ->). rewrite <- Hx4. unfold state_of. cbn.
      by rewrite lookup_alter_ne.
    + rewrite <- Hx4 in *. eapply to_exit_others in H; eauto.
  - inv_M E1 as u2 q5 E5. run_M_in E1. simplify_eq. run_M_in H. simplify_eq.
    rewrite <- Hx4 in *. eapply to_exit_others in E5; eauto.
Qed.

(** C10: a process changes state only along the edges of the state diagram: in
    one transition of the scheduler every process alive before and after it
    either keeps its state or follows an edge. *)
Theorem transitions_follow_diagram fuel q q' x s s' :
  sched_wf q -> sched_step fuel id q q' ->
  state_of q x = Some s -> state_of q' x = Some s' -> s = s' \/ edge s s' = true.
Proof.
  intros Hwf [f prio0 r q1 Hlt H|r q1 H|p r q1 H|p r q1 H|p reason r q1 H|p r q1 H
    |p r q1 H|p r q1 H|p r q1 H|q1 H] Hx Hx'.
  - destruct (decide (x = next_pid q)) as [->|].
    + unfold state_of in Hx. apply fmap_Some in Hx as (pcb & E & _).
      assert (alive q (next_pid q)) as Ha by (by eexists). apply (sw_pids _ Hwf) in Ha. lia.
    + eapply (new_ready_others _ id) in H; [|apply spares_id|done..]. left. congruence.
  - apply dispatch_next_wf in H as [_ H]; [|done]. destruct r as [p|].
    + destruct H as [Hp H]. rewrite H in Hx'. case_decide; simplify_eq; auto.
    + destruct H as [-> _]. left. congruence.
  - apply transition_exec_ready_steps in H; [|done]. by eapply steps_edge.
  - apply transition_exec_block_steps in H; [|done]. by eapply steps_edge.
  - destruct (decide (x = p)) as [->|].
    + apply (transition_exec_exit_wf _ _ _ _ _ _ _ rely_id) in H as [_ [[_ H]|[_ ->]]];
        [|left; congruence|done].
      destruct H. unfold state_of in Hx'. apply fmap_Some in Hx' as (pcb & E & _).
      by eexists.
    + eapply (exec_exit_others _ id) in H; [|apply spares_id|done..]. left. congruence.
  - apply transition_unlock_wf in H as [H|H]; [by eapply steps_edge..|done].
  - apply transition_block_susp_block_wf in H as [_ [H|[Hp H]]]; [..|done].
    + left. rewrite H in Hx'. congruence.
    + rewrite H in Hx'. case_decide; simplify_eq; auto.
  - apply transition_susp_block_steps in H; [|done]. by eapply steps_edge.
  - apply transition_susp_ready_wf in H as [_ [[_ H]|(_ & Hp & H)]]; [..|done].
    + left. rewrite H in Hx'. congruence.
    + rewrite H in Hx'. case_decide; simplify_eq; auto.
  - destruct H as (E & _). unfold state_of in *. rewrite E in Hx'. left. congruence.
Qed.
End diagram.

(** ** A run *)

(** The state a function that returns leaves. *)
Definition after {U A} (m : M U A) (q : t_queues U) : t_queues U :=
  match m q with Ok (_, q') => q' | Undef _ => q end.

(** Two levels, and a Kernel Memory that accepts one process. *)
Definition demo : t_queues wire :=
  init_queues SA_MULTILEVEL_QUEUES [SA_RR; SA_FIFO] 10 true
    (Some (mk_wire (frame OP_PROCESS_STARTED (lit "ok")) [] true)) 1000.
Definition demo_ready : t_queues wire :=
  after (transition_new_ready 5 id (lit "a.prc") 1) demo.
Definition demo_exec : t_queues wire := after dispatch_next demo_ready.
Definition demo_block : t_queues wire := after (transition_exec_block 0) demo_exec.

Lemma demo_steps : sched_step 5 id demo demo_ready /\ sched_step 5 id demo_ready demo_exec /\
  sched_step 5 id demo_exec demo_block.
Proof.
  split_and!.
  - eapply (step_new _ _ _ (lit "a.prc") 1); [vm_compute; reflexivity|].
    vm_compute. reflexivity.
  - eapply step_dispatch. vm_compute. reflexivity.
  - eapply (step_exec_block _ _ _ 0). vm_compute. reflexivity.
Qed.

Lemma transitions_keep_invariant_witness :
  sched_wf demo_block /\ state_of demo_block 0 = Some PS_BLOCK.
Proof.
  split; [|vm_compute; reflexivity].
  destruct demo_steps as (H1 & H2 & H3).
  apply (transitions_keep_invariant 5 id SA_MULTILEVEL_QUEUES [SA_RR; SA_FIFO] 10 true
    (Some (mk_wire (frame OP_PROCESS_STARTED (lit "ok")) [] true)) 1000).
  - apply rely_id.
  - eapply rtc_l; [exact H1|]. eapply rtc_l; [exact H2|]. by apply rtc_once.
Defined.

Lemma transitions_follow_diagram_witness :
  state_of demo_exec 0 = Some PS_EXEC /\ state_of demo_block 0 = Some PS_BLOCK /\
  (PS_EXEC = PS_BLOCK \/ edge PS_EXEC PS_BLOCK = true).
Proof.
  split; [vm_compute; reflexivity|]. split; [vm_compute; reflexivity|].
  destruct demo_steps as (H1 & H2 & H3).
  apply (transitions_follow_diagram 5 demo_exec demo_block 0).
  - eapply sched_step_wf; [apply rely_id| |exact H2].
    eapply sched_step_wf; [apply rely_id| |exact H1]. apply init_queues_wf.
  - exact H3.
  - vm_compute. reflexivity.
  - vm_compute. reflexivity.
Defined.

(** ** A priority that changes while the process is ready *)

Section inheritance.
Context {U : Type} `{!Transport U}.
Implicit Types (q : t_queues U).

(** Taking a process out of a subqueue it is not in, and putting it there. *)
Lemma retake_ready r p i j :
  ready_wf r -> l_size (ready_pids r) <= INT_MAX -> multilevel_queue r = true ->
  in_subqueue r i p -> i ≠ j -> 0 <= j < queue_count r ->
  exists r1 r2, take_ready p j r = Ok r1 /\ to_ready p j r1 = Ok r2 /\
    in_subqueue r2 i p /\ in_subqueue r2 j p /\
    ready_process_count r2 = ready_process_count r /\ multilevel_queue r2 = true.
Proof.
  intros [Hc _ _] Hle Hm Hi Hij Hj. apply l_get_range in Hj as [s Hs].
  pose proof (l_size_pos (ready_pids r)) as Hpos.
  assert (0 < ready_process_count r <= INT_MAX) as Hcount.
  { rewrite Hc. split; [|done]. apply Hpos. intros E.
    apply in_subqueue_pids in Hi. rewrite E in Hi. by apply elem_of_nil in Hi. }
  destruct (alter_subqueue_ok (l_remove_first (fun x => bool_decide (x = p))) j r s Hs)
    as (r1 & E1 & Hsh1 & Ec1 & _ & _ & Hr1).
  destruct (update_highest_same r1) as (Eq2 & Em2 & Ec2 & _ & _).
  set (r2 := update_highest_priority_ready_no_mutex r1) in *.
  assert (l_get (queues r1) j
    = Some (set_queue (l_remove_first (fun x => bool_decide (x = p))) s)) as Hs1
    by (by rewrite Hr1, decide_True, Hs).
  set (r3 := if decide (s32 (ready_process_count r2 - 1) = 0 \/ j < highest_priority r2)
    then set_highest_priority j (set_ready_count (s32 (ready_process_count r2 - 1)) r2)
    else set_ready_count (s32 (ready_process_count r2 - 1)) r2).
  assert (queues r3 = queues r1 /\ ready_process_count r3 = s32 (ready_process_count r2 - 1)
    /\ multilevel_queue r3 = true) as (Eq3 & Ec3 & Em3).
  { destruct Hsh1 as (_ & Em1 & _). unfold r3. case_decide; cbn; rewrite Em2, Em1; done. }
  destruct (alter_subqueue_ok (fun l => l ++ [p]) j
    (set_ready_count (s32 (ready_process_count r3 + 1)) r3) _
    ltac:(cbn; rewrite Eq3; exact Hs1)) as (r4 & E4 & (_ & Em4 & _) & Ec4 & _ & _ & Hr4).
  exists (set_ready_count (s32 (ready_process_count r2 - 1)) r2), r4. split_and!.
  - unfold take_ready. rewrite Hm, E1. done.
  - unfold to_ready. cbn [ready_process_count highest_priority set_ready_count].
    fold r3. cbn [multilevel_queue set_ready_count]. by rewrite Em3.
  - destruct Hi as (si & Hsi & Hp). exists si. split; [|done].
    rewrite Hr4, decide_False by done. cbn. rewrite Eq3, Hr1, decide_False by done.
    by rewrite Hsi.
  - eexists. rewrite Hr4, decide_True by done. cbn [queues set_ready_count].
    rewrite Eq3, Hs1. split; [done|]. cbn. set_solver.
  - rewrite Ec4. cbn. rewrite Ec3, Ec2, Ec1. cint. lia.
  - by rewrite Em4.
Qed.

(** changing the effective priority of a ready process, which the mutexes
    do to whoever holds one, breaks the ready queue: [update_priority] takes
    the process out of the subqueue of its new priority instead of the one it
    is in, so it ends in both, and the invariant of the queues is lost. *)
Theorem priority_change_duplicates q p j l :
  sched_wf q -> multilevel_queue (ready q) = true ->
  state_of q p = Some PS_READY -> 0 <= j < queue_count (ready q) -> j ≠ prio q p ->
  exists q', (_ ← update_pcb p (set_priorities j l); update_priority p) q = Ok (tt, q') /\
    in_subqueue (ready q') (prio q p) p /\ in_subqueue (ready q') j p /\
    ready_process_count (ready q') = ready_process_count (ready q) /\ ~ sched_wf q'.
Proof.
  intros Hwf Hm Hp Hj Hne. pose proof Hp as Hp'. unfold state_of in Hp'.
  apply fmap_Some in Hp' as (pcb & Hpcb & Hst).
  assert (in_subqueue (ready q) (prio q p) p) as Hin.
  { pose proof (in_list q p PS_READY Hwf eq_refl Hp) as H.
    apply pids_in_subqueue in H as [i Hi].
    destruct (sw_placed _ Hwf Hm) as [Hpl _]. by rewrite (Hpl i p Hi). }
  destruct (retake_ready (ready q) p (prio q p) j) as (r1 & r2 & E1 & E2 & H1 & H2 & Hc & Hm2);
    [apply Hwf|by apply (pids_few q PS_READY)|done..|].
  run_M. rewrite (update_pcb_alive _ _ _ _ Hpcb). run_M.
  set (q1 := set_pcbs _ q).
  assert (pcbs q1 !! p = Some (set_priorities j l pcb)) as Hpcb1
    by (cbn; by rewrite lookup_alter_eq, Hpcb).
  unfold update_priority. run_M. change (ready q1) with (ready q). rewrite Hm.
  cbn [negb]. unfold get_state_pcb. run_M. rewrite (get_pcb_alive _ _ _ Hpcb1). run_M.
  rewrite decide_True by done. unfold transition_take_ready. run_M.
  change (ready q1) with (ready q). rewrite Hm.
  assert (prio q1 p = j) as Hpr by (unfold prio; by rewrite Hpcb1).
  rewrite get_priority_alive, Hpr by (by eexists). run_M. unfold with_ready. run_M.
  change (ready q1) with (ready q). rewrite lift_M, E1. run_M.
  unfold transition_to_ready. run_M. set (q2 := set_ready _ q1).
  rewrite (get_priority_alive p q2) by (by eexists). unfold with_ready. run_M.
  change (prio q2 p) with (prio q1 p). rewrite Hpr. cbn [ready q2 set_ready].
  rewrite lift_M, E2. run_M. eexists. split_and!; [done..|].
  intros Hwf'. destruct (sw_placed _ Hwf' Hm2) as [Hpl _].
  pose proof (Hpl _ _ H1) as P1. pose proof (Hpl _ _ H2) as P2. cbn in P1, P2. congruence.
Qed.
End inheritance.

Lemma priority_change_duplicates_witness :
  state_of demo_ready 0 = Some PS_READY /\ prio demo_ready 0 = 1 /\
  exists q', (_ ← update_pcb 0 (set_priorities 0 [0; 1]); update_priority 0) demo_ready
    = Ok (tt, q') /\
    in_subqueue (ready q') 1 0 /\ in_subqueue (ready q') 0 0 /\
    ready_process_count (ready q') = 1 /\ ~ sched_wf q'.
Proof.
  split; [vm_compute; reflexivity|]. split; [vm_compute; reflexivity|].
  apply (priority_change_duplicates demo_ready 0 0 [0; 1]).
  - eapply sched_step_wf; [apply rely_id| |apply demo_steps]. apply init_queues_wf.
  - vm_compute. reflexivity.
  - vm_compute. reflexivity.
  - vm_compute. split; congruence.
  - vm_compute. congruence.
Defined.

(** ** A process with a negative priority *)

Lemma to_ready_negative r p prio0 :
  multilevel_queue r = true -> prio0 < 0 -> to_ready p prio0 r = Undef OutOfBounds.
Proof.
  intros Hm Hneg. unfold to_ready, alter_subqueue.
  destruct (decide (ready_process_count r = 0 \/ prio0 < highest_priority r));
    cbn; by rewrite Hm, l_get_negative.
Qed.

(** a negative priority passes [check_priority_valid], which only looks at
    the upper bound: with multilevel queues the new process, accepted by Kernel
    Memory, is then added to a subqueue before the array. *)
Theorem negative_priority_out_of_bounds {U} `{!Transport U} fuel interfere f prio0
    (q : t_queues U) p q1 :
  multilevel_queue (ready q) = true -> prio0 < 0 ->
  transition_take_new fuel interfere f prio0 q = Ok (Some p, q1) ->
  transition_new_ready fuel interfere f prio0 q = Undef OutOfBounds.
Proof.
  intros Hm Hneg H. unfold transition_new_ready. rewrite bind_M, H. cbv beta iota.
  unfold transition_take_new, create_pcb in H. run_M_in H.
  destruct (increment_process_count _) as [[u q2]|] eqn:E3; [|done]. keep_step E3.
  inv_M H as ok q4 E4. keep_step E4.
  destruct ok; [|inv_M H as u2 q5 E5; run_M_in H; by simplify_eq].
  run_M_in H. simplify_eq. destruct Hs as (Ea & _ & Er & _), Hs0 as (Eb & _ & Er' & _).
  set (p := next_pid q) in *. set (pcb := mk_pcb prio0 [prio0] 0 PS_NEW 0 None) in *.
  assert (pcbs q1 !! p = Some pcb) as Hp by (rewrite Eb, Ea; cbn; apply lookup_insert_eq).
  unfold check_priority_valid. run_M. rewrite Er', Er. cbn [ready set_pcbs set_next_pid].
  rewrite Hm. cbn [negb]. unfold get_priority_pcb. run_M.
  rewrite (get_pcb_alive _ _ _ Hp). run_M. rewrite bool_decide_true by
    (cbn; unfold queue_count; pose proof (l_size_nonneg (queues (ready q))); lia).
  cbn [negb]. run_M. rewrite (update_pcb_alive _ _ _ _ Hp). run_M.
  unfold transition_to_ready. run_M. rewrite get_priority_alive by
    (unfold alive; cbn; rewrite lookup_alter_eq, Hp; by eexists). run_M.
  unfold with_ready. run_M. cbn [ready set_pcbs]. rewrite Er', Er. cbn [ready set_pcbs set_next_pid].
  unfold prio. cbn [pcbs set_pcbs]. rewrite lookup_alter_eq, Hp. cbn [fmap option_fmap option_map default priority set_state pcb].
  rewrite lift_M, to_ready_negative by done. done.
Qed.

Lemma negative_priority_out_of_bounds_witness :
  (exists q1, transition_take_new 5 id (lit "a.prc") (-1) demo = Ok (Some 0, q1)) /\
  transition_new_ready 5 id (lit "a.prc") (-1) demo = Undef OutOfBounds.
Proof.
  split; [eexists; vm_compute; reflexivity|].
  eapply (negative_priority_out_of_bounds 5 id (lit "a.prc") (-1) demo 0).
  - vm_compute. reflexivity.
  - lia.
  - vm_compute. reflexivity.
Defined.
