(* ===== verification/Mutex.v ===== *)
(** * Mutex: kernel_scheduler/src/kernel_scheduler/syscalls/mutex.c

    The mutexes processes create by name, with priority inheritance.  The table
    is the map the dictionary implements (Dictionary.v); a [t_mutex*] is the
    mutex's name; [held] are the mutexes whose [mtx_t] the thread has locked. *)

From Stdlib Require Import Strings.Byte Strings.String.
From S2P Require Import Prelude Bytes Msg Text SchedState Pcb ReadyQueue ProcessLists.
From S2P Require Import KmReply Queues.

Record t_mutex := mk_mutex {
  next_priority : Z;
  priority_active : bool;
  waiting : list Z;                 (** [list] *)
  current_process : option Z;
  mutex_state : Z }.

Abbreviation t_mutex_list := (gmap text t_mutex).

Inductive t_mutex_result :=
  | MR_MUTEX_CREATED | MR_MUTEX_NAME_ALREADY_EXISTS | MR_MUTEX_NAME_NOT_FOUND
  | MR_MUTEX_LOCKED | MR_WAITING_MUTEX | MR_MUTEX_UNLOCKED
  | MR_PROCESS_HAS_NO_LOCKED_MUTEX.

Definition set_next n (m : t_mutex) : t_mutex :=
  mk_mutex n (priority_active m) (waiting m) (current_process m) (mutex_state m).
Definition set_waiting l (m : t_mutex) : t_mutex :=
  mk_mutex (next_priority m) (priority_active m) l (current_process m) (mutex_state m).
Definition set_current p (m : t_mutex) : t_mutex :=
  mk_mutex (next_priority m) (priority_active m) (waiting m) p (mutex_state m).
Definition set_mutex_state n (m : t_mutex) : t_mutex :=
  mk_mutex (next_priority m) (priority_active m) (waiting m) (current_process m) n.

(** [create_mutex]. *)
Definition create_mutex (priority_active : bool) : t_mutex :=
  mk_mutex INT_MAX priority_active [] None 1.

Definition init_list_mutex : t_mutex_list := ∅.

Definition create_and_add_mutex (ms : t_mutex_list) (id : text) (priority_active : bool)
    : t_mutex_result * t_mutex_list :=
  match ms !! id with
  | Some _ => (MR_MUTEX_NAME_ALREADY_EXISTS, ms)
  | None => (MR_MUTEX_CREATED, <[id := create_mutex priority_active]> ms)
  end.

(** ** Priorities *)

Definition has_higher_priority_than (p1 p2 : Z) : bool := bool_decide (p1 < p2).

Definition remove_priority_list (l : list Z) (prio : Z) : list Z :=
  l_remove_first (fun x => bool_decide (x = prio)) l.

Definition add_priority (l : list Z) (prio : Z) : list Z :=
  l_insert has_higher_priority_than prio l.

Section mutex.
Context {U : Type}.

Definition insert_priority (p prio : Z) : M U unit :=
  update_pcb p (fun pcb =>
    set_priorities (if decide (prio < priority pcb) then prio else priority pcb)
      (add_priority (priority_list pcb) prio) pcb).

(** Whether the effective priority changed. *)
Definition remove_priority (p prio : Z) : M U bool :=
  pcb ← get_pcb p;
  let l := remove_priority_list (priority_list pcb) prio in
  new_priority ← lift (deref (hd_error l));
  _ ← update_pcb p (set_priorities new_priority l);
  mret (bool_decide (priority pcb ≠ new_priority)).

(** [replace_priority]; [propagate] is [propagate_priority_transitive]. *)
Definition replace_priority (propagate : Z -> Z -> t_mutex_list -> M U t_mutex_list)
    (p old_priority priority_new : Z) (ms : t_mutex_list) : M U t_mutex_list :=
  pcb ← get_pcb p;
  let l := add_priority (remove_priority_list (priority_list pcb) old_priority)
             priority_new in
  prio ← lift (deref (hd_error l));
  _ ← update_pcb p (set_priorities prio l);
  if decide (prio ≠ priority pcb) then
    _ ← update_priority p; propagate p prio ms
  else mret ms.

Fixpoint propagate_priority_transitive (fuel : nat) (held : gset text)
    (p priority_new : Z) (ms : t_mutex_list) : M U t_mutex_list :=
  match fuel with
  | O => lift (Undef OutOfFuel)
  | S fuel =>
      expected_mutex ← get_mutex_blocking p;
      match (expected_mutex : option text) with
      | None => mret ms
      | Some id =>
          if decide (id ∈ held) then lift (Undef Deadlock) else
          m ← lift (match ms !! id with Some m => Ok m | None => Undef Dangling end);
          if negb (priority_active m) then mret ms else
          if negb (bool_decide (p ∈ waiting m)) then mret ms else
          '(i, l) ← insert_pcb_sorted (l_remove_first (same_pcb p) (waiting m)) p;
          let ms := <[id := set_waiting l m]> ms in
          if decide (i = 0 /\ priority_new ≠ next_priority m) then
            owner ← lift (deref (current_process m));
            replace_priority (propagate_priority_transitive fuel ({[id]} ∪ held))
              owner (next_priority m) priority_new
              (alter (set_next priority_new) id ms)
          else mret ms
      end
  end.

(** ** Locking and unlocking *)

(** The new waiter is put in the list; if it is the first one, its priority
    reaches the owner. *)
Definition wait_with_priority (fuel : nat) (id : text) (m : t_mutex) (p priority_pcb : Z)
    (ms : t_mutex_list) : M U t_mutex_list :=
  '(i, l) ← insert_pcb_sorted (waiting m) p;
  let ms := <[id := set_waiting l m]> ms in
  if decide (i = 0) then
    owner ← lift (deref (current_process m));
    ms ← replace_priority (propagate_priority_transitive fuel {[id]})
           owner (next_priority m) priority_pcb ms;
    _ ← update_lowest_exec_priority;
    mret (alter (set_next priority_pcb) id ms)
  else mret ms.

Definition mutex_lock (fuel : nat) (id : text) (m : t_mutex) (p : Z) (ms : t_mutex_list)
    : M U (t_mutex_result * t_mutex_list) :=
  priority_pcb ← get_priority_pcb p;
  '(ret, ms) ←
    (if decide (mutex_state m = 1) then
       _ ← insert_priority p INT_MAX;
       mret (MR_MUTEX_LOCKED, <[id := set_next INT_MAX (set_current (Some p) m)]> ms)
     else
       ms ← (if priority_active m then wait_with_priority fuel id m p priority_pcb ms
             else mret (<[id := set_waiting (waiting m ++ [p]) m]> ms));
       _ ← set_mutex_blocking p (Some id);
       _ ← transition_exec_block p;
       mret (MR_WAITING_MUTEX, ms));
  mret (ret, alter (fun m => set_mutex_state (s32 (mutex_state m - 1)) m) id ms).

Definition list_mutex_lock (fuel : nat) (ms : t_mutex_list) (id : text) (p : Z)
    : M U (t_mutex_result * t_mutex_list) :=
  match ms !! id with
  | None => mret (MR_MUTEX_NAME_NOT_FOUND, ms)
  | Some m => mutex_lock fuel id m p ms
  end.

(** The next owner: the first waiter. *)
Definition hand_over (m : t_mutex) : M U t_mutex :=
  owner ← lift (deref (hd_error (waiting m)));
  let rest := tail (waiting m) in
  _ ← set_mutex_blocking owner None;
  next ← (if priority_active m then
            next ← (if decide (mutex_state m = -1) then mret INT_MAX
                    else first ← lift (deref (hd_error rest)); get_priority_pcb first);
            _ ← insert_priority owner next; mret next
          else mret (next_priority m));
  _ ← transition_unlock owner;
  mret (set_next next (set_waiting rest (set_current (Some owner) m))).

Definition mutex_unlock (id : text) (m : t_mutex) (p : Z) (ms : t_mutex_list)
    : M U (t_mutex_result * t_mutex_list) :=
  if decide (current_process m ≠ Some p) then mret (MR_PROCESS_HAS_NO_LOCKED_MUTEX, ms)
  else
    updated ← (if priority_active m then remove_priority p (next_priority m)
               else mret false);
    _ ← when updated update_lowest_exec_priority;
    m ← (if decide (mutex_state m = 0) then
           mret (set_next INT_MAX (set_current None m))
         else if decide (mutex_state m < 0) then hand_over m
         else mret m);
    mret (MR_MUTEX_UNLOCKED,
          <[id := set_mutex_state (s32 (mutex_state m + 1)) m]> ms).

Definition list_mutex_unlock (ms : t_mutex_list) (id : text) (p : Z)
    : M U (t_mutex_result * t_mutex_list) :=
  match ms !! id with
  | None => mret (MR_MUTEX_NAME_NOT_FOUND, ms)
  | Some m => mutex_unlock id m p ms
  end.

(** ** Destroying *)

Fixpoint release_waiters (l : list Z) : M U unit :=
  match l with
  | [] => mret tt
  | p :: r =>
      _ ← set_mutex_blocking p None; _ ← transition_unlock p; release_waiters r
  end.

Definition destroy_mutex (m : t_mutex) : M U unit := release_waiters (waiting m).

Fixpoint destroy_mutexes (l : list t_mutex) : M U unit :=
  match l with
  | [] => mret tt
  | m :: r => _ ← destroy_mutex m; destroy_mutexes r
  end.

(** In the order the table is traversed. *)
Definition destroy_list_mutex (ms : t_mutex_list) : M U unit :=
  destroy_mutexes (snd <$> map_to_list ms).
End mutex.
