(* ===== verification/MutexWf.v ===== *)
(** * MutexWf: the mutexes exclude, hand over and inherit

    The invariant that ties the table of mutexes to the process control blocks,
    and what [mutex_lock] and [mutex_unlock] do to it. *)

From Stdlib Require Import Strings.Byte Strings.String.
From S2P Require Import Prelude Bytes Msg Text SchedState Pcb ReadyQueue ProcessLists.
From S2P Require Import KmReply Queues QueuesWf Mutex.

(** ** Results that are defined but for one kind of failure *)

Section outcome.
Context {U : Type}.

(** The computation returns with [P], or the thread deadlocks. *)
Definition outcome {A} (r : res (A * t_queues U)) (P : A -> t_queues U -> Prop) : Prop :=
  match r with Ok (a, q) => P a q | Undef u => u = Deadlock end.

Lemma outcome_bind {A B} (m : M U A) (f : A -> M U B) q P Q :
  outcome (m q) P -> (forall a q', P a q' -> outcome (f a q') Q) ->
  outcome (mbind f m q) Q.
Proof. rewrite bind_M. destruct (m q) as [[a q']|u]; [|done]. eauto. Qed.

Lemma outcome_mono {A} (r : res (A * t_queues U)) (P Q : A -> t_queues U -> Prop) :
  outcome r P -> (forall a q, P a q -> Q a q) -> outcome r Q.
Proof. destruct r as [[a q]|u]; [|done]. cbn. auto. Qed.
End outcome.

(** ** What a change of priority leaves alone *)

Definition kept (pcb : t_pcb) : Z * t_process_state * Z * option text :=
  (blocked_time pcb, state pcb, active_instances pcb, blocking_mutex pcb).

Definition pcb_le (pcb pcb' : t_pcb) : Prop :=
  kept pcb' = kept pcb /\ (length (priority_list pcb) <= length (priority_list pcb'))%nat.

Definition ownership (m : t_mutex) : bool * option Z := (priority_active m, current_process m).
Definition mkept (m : t_mutex) : bool * option Z * Z := (ownership m, mutex_state m).

Section repriced.
Context {U : Type}.
Implicit Types (q : t_queues U) (ms : t_mutex_list).

Record repriced_q q q' : Prop := {
  rp_lists : forall st, pids_in q' st = pids_in q st;
  rp_ready : ready q' = ready q;
  rp_next : next_pid q' = next_pid q;
  rp_pcbs : forall x, option_Forall2 pcb_le (pcbs q !! x) (pcbs q' !! x) }.

Record repriced_ms ms ms' : Prop := {
  rp_mkept : mkept <$> ms' = mkept <$> ms;
  rp_waiting : forall id m m', ms !! id = Some m -> ms' !! id = Some m' ->
    waiting m' ≡ₚ waiting m }.

#[export] Instance pcb_le_preorder : PreOrder pcb_le.
Proof. split; [done|]. intros x y z [E1 H1] [E2 H2]. split; [congruence|lia]. Qed.

#[export] Instance repriced_q_preorder : PreOrder repriced_q.
Proof.
  split.
  - intros q. by split.
  - intros q1 q2 q3 [A1 B1 C1 D1] [A2 B2 C2 D2]. split; try congruence.
    intros x. specialize (D1 x). specialize (D2 x).
    destruct D1; inversion D2; subst; constructor. by etrans.
Qed.

Lemma mkept_lookup ms ms' id m' :
  mkept <$> ms' = mkept <$> ms -> ms' !! id = Some m' ->
  exists m, ms !! id = Some m /\ mkept m' = mkept m.
Proof.
  intros H Hm'. assert ((mkept <$> ms') !! id = (mkept <$> ms) !! id) as E by (by rewrite H).
  rewrite !lookup_fmap, Hm' in E. destruct (ms !! id) as [m|]; cbn in E; [|done].
  exists m. split; [done|congruence].
Qed.

#[export] Instance repriced_ms_preorder : PreOrder repriced_ms.
Proof.
  split.
  - intros ms. split; [done|]. intros. by simplify_eq.
  - intros m1 m2 m3 [A1 B1] [A2 B2]. split; [congruence|].
    intros id x z Hx Hz. destruct (mkept_lookup _ _ _ _ A2 Hz) as (y & Hy & _).
    rewrite (B2 _ _ _ Hy Hz). by eapply B1.
Qed.

Definition blocks q (p : Z) : option text := pcbs q !! p ≫= blocking_mutex.

Lemma repriced_alive q q' p : repriced_q q q' -> alive q' p <-> alive q p.
Proof.
  intros [_ _ _ H]. unfold alive. destruct (H p); split; intros []; (done || by eexists).
Qed.

Lemma repriced_state q q' p : repriced_q q q' -> state_of q' p = state_of q p.
Proof.
  intros [_ _ _ H]. unfold state_of. destruct (H p) as [x y [E _]|]; [|done].
  unfold kept in E. cbn. congruence.
Qed.

Lemma repriced_blocks q q' p : repriced_q q q' -> blocks q' p = blocks q p.
Proof.
  intros [_ _ _ H]. unfold blocks. destruct (H p) as [x y [E _]|]; [|done].
  unfold kept in E. cbn. congruence.
Qed.

Lemma repriced_wf q q' :
  sched_wf q -> multilevel_queue (ready q) = false -> repriced_q q q' -> sched_wf q'.
Proof.
  intros [H1 [H2 H2'] H3 H4 H5] Hm Hrp. constructor.
  - by rewrite (rp_ready _ _ Hrp).
  - split; intros.
    + by rewrite (rp_lists _ _ Hrp).
    + by rewrite (rp_lists _ _ Hrp), (repriced_state q), H2'.
  - intros Hm'. rewrite (rp_ready _ _ Hrp) in Hm'. congruence.
  - intros p Hp. rewrite (rp_next _ _ Hrp). apply H4. by apply (repriced_alive q q').
  - by rewrite (rp_next _ _ Hrp).
Qed.

(** Changing the priorities of one process. *)
Lemma repriced_alter p f q :
  (forall pcb, pcbs q !! p = Some pcb -> pcb_le pcb (f pcb)) ->
  repriced_q q (set_pcbs (alter f p) q).
Proof.
  intros Hf. split; try done. intros x. cbn.
  destruct (decide (x = p)) as [->|].
  - rewrite lookup_alter_eq. destruct (pcbs q !! p) eqn:E; constructor. by apply Hf.
  - rewrite lookup_alter_ne by done. by destruct (pcbs q !! x); constructor.
Qed.

Lemma repriced_set_lowest n q : repriced_q q (set_exec (set_lowest_priority n) q).
Proof. by split. Qed.

Lemma repriced_ms_insert id m m' ms :
  ms !! id = Some m -> mkept m' = mkept m -> waiting m' ≡ₚ waiting m ->
  repriced_ms ms (<[id := m']> ms).
Proof.
  intros Hm Hk Hw. split.
  - apply map_eq. intros i. rewrite !lookup_fmap. destruct (decide (i = id)) as [->|].
    + rewrite lookup_insert_eq, Hm. cbn. by rewrite Hk.
    + by rewrite lookup_insert_ne.
  - intros i x y Hx Hy. destruct (decide (i = id)) as [->|].
    + rewrite lookup_insert_eq in Hy. by simplify_eq.
    + rewrite lookup_insert_ne in Hy by done. by simplify_eq.
Qed.

Lemma repriced_dom ms ms' : repriced_ms ms ms' -> dom ms' = dom ms.
Proof. intros [H _]. apply (f_equal dom) in H. by rewrite !dom_fmap_L in H. Qed.

Lemma repriced_lookup ms ms' id m' :
  repriced_ms ms ms' -> ms' !! id = Some m' ->
  exists m, ms !! id = Some m /\ mkept m' = mkept m /\ waiting m' ≡ₚ waiting m.
Proof.
  intros [H Hw] Hm'. destruct (mkept_lookup _ _ _ _ H Hm') as (m & Hm & E). eauto 10.
Qed.
End repriced.

(** ** Raising priorities along the waits-for chain *)

Lemma remove_priority_length l x :
  (length l <= S (length (remove_priority_list l x)))%nat.
Proof.
  unfold remove_priority_list. induction l as [|y l IH]; cbn [l_remove_first length]; [lia|].
  destruct (bool_decide (y = x)); cbn [length]; lia.
Qed.

Lemma add_priority_length l x : length (add_priority l x) = S (length l).
Proof. unfold add_priority. by rewrite l_insert_perm. Qed.

Lemma add_priority_head l x : exists h, hd_error (add_priority l x) = Some h.
Proof.
  pose proof (add_priority_length l x) as H. destruct (add_priority l x); [done|]. by eexists.
Qed.

Section propagate.
Context {U : Type}.
Implicit Types (q : t_queues U) (ms : t_mutex_list).

(** What the propagation relies on: it follows pointers to live processes. *)
Record linked ms q : Prop := {
  ln_single : multilevel_queue (ready q) = false;
  ln_exec : Forall (alive q) (exec_list (exec q));
  ln_waiting : forall id m, ms !! id = Some m -> Forall (alive q) (waiting m);
  ln_owner : forall id m o, ms !! id = Some m -> current_process m = Some o -> alive q o;
  ln_owned : forall id m, ms !! id = Some m -> waiting m ≠ [] -> is_Some (current_process m);
  ln_blocks : forall p id, blocks q p = Some id -> is_Some (ms !! id) }.

Lemma repriced_linked ms q ms' q' :
  linked ms q -> repriced_ms ms ms' -> repriced_q q q' -> linked ms' q'.
Proof.
  intros [H1 H2 H3 H4 H5 H6] Hm Hq.
  assert (forall l, Forall (alive q) l -> Forall (alive q') l) as Hl.
  { intros l Hl. eapply Forall_impl; [exact Hl|]. intros x. by apply repriced_alive. }
  constructor.
  - by rewrite (rp_ready _ _ Hq).
  - change (exec_list (exec q')) with (pids_in q' PS_EXEC). rewrite (rp_lists _ _ Hq).
    by apply Hl.
  - intros id m' Hm'. destruct (repriced_lookup _ _ _ _ Hm Hm') as (m & E & _ & Hw).
    rewrite Hw. by eapply Hl, H3.
  - intros id m' o Hm' Ho. destruct (repriced_lookup _ _ _ _ Hm Hm') as (m & E & Hk & _).
    eapply (repriced_alive q q'); [done|]. eapply H4; [done|]. unfold mkept, ownership in Hk.
    congruence.
  - intros id m' Hm' Hw. destruct (repriced_lookup _ _ _ _ Hm Hm') as (m & E & Hk & Hp).
    replace (current_process m') with (current_process m)
      by (unfold mkept, ownership in Hk; congruence).
    eapply H5; [done|]. intros E0. apply Hw. rewrite E0 in Hp. by apply Permutation_nil_r.
  - intros p id Hb. rewrite (repriced_blocks q q') in Hb by done. apply H6 in Hb.
    apply elem_of_dom. rewrite (repriced_dom ms ms') by done. by apply elem_of_dom.
Qed.

Lemma update_priority_single p q :
  multilevel_queue (ready q) = false -> update_priority p q = Ok (tt, q).
Proof. intros H. unfold update_priority. run_M. by rewrite H. Qed.

(** [replace_priority] changes priorities and goes on with the propagation. *)
Lemma replace_priority_outcome k p old new ms q :
  linked ms q -> alive q p ->
  (forall q' x, linked ms q' -> repriced_q q q' ->
     outcome (k p x ms q') (fun ms' q'' => repriced_ms ms ms' /\ repriced_q q' q'')) ->
  outcome (replace_priority k p old new ms q)
    (fun ms' q' => repriced_ms ms ms' /\ repriced_q q q').
Proof.
  intros Hl [pcb Hp] Hk. unfold replace_priority. run_M.
  rewrite (get_pcb_alive _ _ _ Hp). run_M.
  destruct (add_priority_head (remove_priority_list (priority_list pcb) old) new) as [h Hh].
  rewrite Hh. rewrite lift_M. cbn [deref]. run_M.
  rewrite (update_pcb_alive _ _ _ _ Hp). run_M.
  set (q1 := set_pcbs _ q).
  assert (repriced_q q q1) as Hq1.
  { apply repriced_alter. intros pcb' Hp'. simplify_eq. split; [done|]. cbn.
    rewrite add_priority_length. apply remove_priority_length. }
  case_decide; [|by rewrite ret_M]. run_M.
  rewrite update_priority_single by (apply Hl). run_M.
  eapply outcome_mono; [apply Hk; [by eapply repriced_linked|done]|].
  intros ms' q' [H1 H2]. split; [done|by etrans].
Qed.

Lemma propagate_outcome fuel held p new ms q :
  linked ms q -> alive q p -> held ⊆ dom ms -> (size ms < fuel + size held)%nat ->
  outcome (propagate_priority_transitive fuel held p new ms q)
    (fun ms' q' => repriced_ms ms ms' /\ repriced_q q q').
Proof.
  revert held p new ms q. induction fuel as [|fuel IH]; intros held p new ms q Hl Hp Hh Hf.
  { apply subseteq_size in Hh. rewrite size_dom in Hh. lia. }
  destruct Hp as [pcb Hp]. cbn [propagate_priority_transitive]. unfold get_mutex_blocking.
  run_M. rewrite (get_pcb_alive _ _ _ Hp). run_M.
  destruct (blocking_mutex pcb) as [id|] eqn:Hb; [|by rewrite ret_M].
  case_decide as Hin; [done|]. run_M. rewrite lift_M.
  destruct (ln_blocks _ _ Hl p id) as [m Hm]; [by unfold blocks; rewrite Hp|].
  rewrite Hm. cbv iota beta. destruct (priority_active m); cbn [negb]; [|by rewrite ret_M].
  destruct (bool_decide (p ∈ waiting m)) eqn:Hw; cbn [negb]; [|by rewrite ret_M].
  apply bool_decide_eq_true in Hw. run_M.
  pose proof (ln_waiting _ _ Hl _ _ Hm) as Hal.
  pose proof (remove_same_perm p (waiting m) Hw) as Hperm.
  rewrite insert_pcb_sorted_ok; [|by eexists|].
  2: { rewrite <- Hperm in Hal. by apply Forall_cons in Hal as [_ Hal]. }
  cbv beta iota. set (l := l_insert _ _ _).
  assert (l ≡ₚ waiting m) as Hl' by (unfold l; rewrite l_insert_perm; done).
  case_decide.
  - destruct (ln_owned _ _ Hl _ _ Hm) as [o Ho]; [by intros E; rewrite E in Hw; set_solver|].
    run_M. rewrite lift_M, Ho. cbn [deref]. rewrite alter_insert_eq.
    assert (repriced_ms ms (<[id:=set_next new (set_waiting l m)]> ms)) as Hms
      by (by eapply repriced_ms_insert).
    eapply outcome_mono; [eapply replace_priority_outcome|].
    + by eapply repriced_linked.
    + by eapply (ln_owner _ _ Hl).
    + intros q' x Hl'' Hq'. apply IH; [done| | |].
      * apply (repriced_alive q); [done|]. by eapply (ln_owner _ _ Hl).
      * rewrite (repriced_dom _ _ Hms). apply elem_of_dom_2 in Hm. set_solver.
      * rewrite map_size_insert_Some by (by eexists). rewrite size_union by set_solver.
        rewrite size_singleton. lia.
    + intros ms' q' [H1 H2]. split; [by etrans|done].
  - rewrite ret_M. split; [|done]. by eapply repriced_ms_insert.
Qed.
End propagate.

(** ** The transitions the mutexes use return *)

(** The state of a process that stops waiting. *)
Definition unblocked_state (st : t_process_state) : t_process_state :=
  match st with PS_BLOCK => PS_READY | PS_SUSP_BLOCK => PS_SUSP_READY | _ => st end.

Section transitions.
Context {U : Type} `{!Transport U}.
Implicit Types (q : t_queues U).

Lemma lowest_of_ok l n q : Forall (alive q) l -> exists m, lowest_of n l q = Ok (m, q).
Proof.
  intros H. revert n. induction H as [|x l Hx _ IH]; intros n; cbn [lowest_of].
  - rewrite ret_M. eauto.
  - run_M. rewrite get_priority_alive by done. apply IH.
Qed.

Lemma update_lowest_ok q :
  Forall (alive q) (exec_list (exec q)) ->
  exists n, update_lowest_exec_priority q = Ok (tt, set_exec (set_lowest_priority n) q).
Proof.
  intros H. unfold update_lowest_exec_priority. run_M.
  destruct (lowest_of_ok _ 0 q H) as [m ->]. eauto.
Qed.

Lemma exec_alive q : sched_wf q -> Forall (alive q) (exec_list (exec q)).
Proof.
  intros Hwf. apply Forall_forall. intros x Hx. by apply (lists_alive q PS_EXEC), Hx; apply Hwf.
Qed.

Lemma state_pcb q p st : state_of q p = Some st -> exists pcb, pcbs q !! p = Some pcb /\ state pcb = st.
Proof. intros H. apply fmap_Some in H as (pcb & H & ->). eauto. Qed.

Lemma manage_state_ok q p a b :
  state_of q p = Some a ->
  manage_state_pcb p a b q = Ok (true, set_pcbs (alter (set_state b) p) q).
Proof.
  intros Hp. unfold manage_state_pcb. run_M.
  rewrite (proj2 (get_state_Ok p q a q)) by done. rewrite decide_True by done. run_M.
  destruct (state_pcb _ _ _ Hp) as (pcb & Hpcb & _).
  by rewrite (update_pcb_alive _ _ _ _ Hpcb).
Qed.

Lemma alive_alter f x q p : alive (set_pcbs (alter f x) q) p <-> alive q p.
Proof.
  unfold alive. cbn. destruct (decide (p = x)) as [->|].
  - rewrite lookup_alter_eq. destruct (pcbs q !! x); split; intros []; (done || by eexists).
  - by rewrite lookup_alter_ne.
Qed.

Definition same_name (f : t_pcb -> t_pcb) : Prop := forall pcb,
  blocking_mutex (f pcb) = blocking_mutex pcb /\ priority_list (f pcb) = priority_list pcb /\
  priority (f pcb) = priority pcb.

Lemma exec_block_ok q p :
  sched_wf q -> state_of q p = Some PS_EXEC ->
  exists q' f, transition_exec_block p q = Ok (tt, q') /\
    pcbs q' = alter f p (pcbs q) /\ same_name f /\ ready q' = ready q.
Proof.
  intros Hwf Hp. destruct (state_pcb _ _ _ Hp) as (pcb & Hpcb & _).
  unfold transition_exec_block. run_M. rewrite (manage_state_ok q p PS_EXEC PS_BLOCK Hp).
  run_M. unfold transition_take_exec. run_M. cbn [exec set_exec set_exec_list preemption].
  set (q1 := set_exec _ _).
  assert (exists q2, when (preemption (exec q)) update_lowest_exec_priority q1 = Ok (tt, q2) /\
    pcbs q2 = pcbs q1 /\ ready q2 = ready q1) as (q2 & E & E2 & Er).
  { destruct (preemption _); cbn [when]; [|by eexists].
    destruct (update_lowest_ok q1) as [n ->]; [|by eexists].
    apply Forall_forall. intros x Hx. apply (alive_alter (set_state PS_BLOCK) p q).
    apply elem_of_l_remove_first in Hx.
    pose proof (exec_alive q Hwf) as Ha. rewrite Forall_forall in Ha. by apply Ha. }
  change (exec (set_pcbs _ q)) with (exec q). rewrite E. unfold transition_to_block. run_M.
  assert (exists pcb', pcbs q2 !! p = Some pcb') as [pcb' Hpcb'].
  { rewrite E2. cbn. rewrite lookup_alter_eq, Hpcb. by eexists. }
  rewrite (update_pcb_alive _ _ _ _ Hpcb'). run_M.
  eexists _, (fun pcb => set_blocked_time (clock q2) (set_state PS_BLOCK pcb)).
  split_and!; [done| |by intros []|by cbn; rewrite Er].
  cbn. rewrite E2. cbn. by rewrite alter_twice.
Qed.

Lemma unlock_ok q p :
  sched_wf q ->
  state_of q p = Some PS_BLOCK \/ state_of q p = Some PS_SUSP_BLOCK ->
  exists q' f, transition_unlock p q = Ok (tt, q') /\
    pcbs q' = alter f p (pcbs q) /\ same_name f /\
    multilevel_queue (ready q') = multilevel_queue (ready q) /\ km_socket q' = km_socket q /\
    forall st pcb, state_of q p = Some st -> state (f pcb) = unblocked_state st.
Proof.
  intros Hwf Hst. unfold transition_unlock. run_M.
  destruct Hst as [Hp|Hp]; destruct (state_pcb _ _ _ Hp) as (pcb & Hpcb & _);
    rewrite (proj2 (get_state_Ok p q _ q)) by done.
  - rewrite decide_True by done. unfold transition_block_ready. run_M.
    rewrite (manage_state_ok q p _ _ Hp). run_M. unfold transition_take_block. run_M.
    erewrite update_pcb_alive by (cbn; by rewrite lookup_alter_eq, Hpcb). run_M.
    unfold transition_to_ready. run_M. set (q1 := set_pcbs _ (set_block _ _)).
    rewrite (get_priority_alive p q1) by (unfold alive; cbn; rewrite !lookup_alter_eq, Hpcb; by eexists).
    run_M. unfold with_ready. run_M. change (ready q1) with (ready q). rewrite lift_M.
    destruct (to_ready_spec (ready q) p (prio q1 p)) as (r' & E & _ & Hsh & _);
      [apply Hwf| | |].
    2: { intros Hm. destruct (sw_placed _ Hwf Hm) as [_ Hpl].
      replace (prio q1 p) with (prio q p); [apply Hpl; [by eexists|congruence..]|].
      unfold prio. cbn. by rewrite !lookup_alter_eq, Hpcb. }
    { assert (NoDup (p :: ready_pids (ready q))) as Hnd.
      { apply NoDup_cons. split; [|apply (proj1 (sw_lists _ Hwf) PS_READY)].
        intros Hin. apply (proj2 (sw_lists _ Hwf) p PS_READY) in Hin as [_ Hin]. congruence. }
      apply (NoDup_range_length _ (next_pid q)) in Hnd; [| |by apply (sw_few _ Hwf)].
      - unfold l_size in *. cbn [length] in Hnd. pose proof (sw_few _ Hwf). lia.
      - apply Forall_cons. split; [apply (sw_pids _ Hwf); by eexists|].
        apply Forall_forall. intros x Hx. apply (sw_pids _ Hwf).
        by apply (lists_alive q PS_READY), Hx; apply Hwf. }
    rewrite E. run_M. eexists _, _.
    split_and!; [done|cbn; by rewrite alter_twice|by intros []|..].
    + by destruct Hsh as (_ & Em & _).
    + done.
    + intros st x Hx. rewrite Hp in Hx. by simplify_eq.
  - rewrite decide_False by done. unfold transition_susp_block_susp_ready. run_M.
    rewrite (manage_state_ok q p _ _ Hp). run_M. unfold transition_take_susp_block. run_M.
    unfold transition_to_susp_ready. run_M. set (q1 := set_susp_block _ _).
    rewrite (insert_pcb_sorted_ok q1).
    + run_M. eexists _, _. split_and!; try done.
      intros st x Hx. rewrite Hp in Hx. by simplify_eq.
    + unfold q1. apply (alive_alter _ _ q). by eexists.
    + apply Forall_forall. intros x Hx. apply (alive_alter _ _ q).
      by apply (lists_alive q PS_SUSP_READY), Hx; apply Hwf.
Qed.
End transitions.

(** ** The invariant *)

(** The mutexes with inheritance a process owns. *)
Definition owned (ms : t_mutex_list) (p : Z) : nat :=
  size (filter (fun kv => kv.2 = (true, Some p)) (ownership <$> ms)).

Definition owns (p : Z) (m : t_mutex) : nat :=
  if decide (ownership m = (true, Some p)) then 1%nat else 0%nat.

Lemma owned_repriced ms ms' p : repriced_ms ms ms' -> owned ms' p = owned ms p.
Proof.
  intros [H _]. unfold owned.
  assert (forall ms : t_mutex_list, ownership <$> ms = fst <$> (mkept <$> ms)) as E.
  { intros m. rewrite <- map_fmap_compose. done. }
  by rewrite (E ms'), (E ms), H.
Qed.

Lemma owned_new ms id m p :
  ms !! id = None -> owned (<[id := m]> ms) p = (owns p m + owned ms p)%nat.
Proof.
  intros H. unfold owned, owns. rewrite fmap_insert. destruct (decide _) as [Hd|Hd].
  - rewrite map_filter_insert_True by done. rewrite map_size_insert_None; [done|].
    apply map_lookup_filter_None. left. by rewrite lookup_fmap, H.
  - rewrite map_filter_insert_False by done. rewrite delete_id; [done|].
    by rewrite lookup_fmap, H.
Qed.

Lemma owned_insert ms id m m' p :
  ms !! id = Some m -> (owned (<[id := m']> ms) p + owns p m = owns p m' + owned ms p)%nat.
Proof.
  intros H. rewrite <- (insert_delete_id ms id m H) at 2. rewrite <- insert_delete_eq.
  rewrite !owned_new by (apply lookup_delete_eq). lia.
Qed.

Section wf.
Context {U : Type} `{!Transport U}.
Implicit Types (q : t_queues U) (ms : t_mutex_list).

Definition suspended_or_blocked q (p : Z) : Prop :=
  state_of q p = Some PS_BLOCK \/ state_of q p = Some PS_SUSP_BLOCK.

(** The table of mutexes and the processes agree. *)
Record mutex_wf ms q : Prop := {
  mw_sched : sched_wf q;
  (** A free mutex has no waiter; [state] counts those of one taken. *)
  mw_state : forall id m, ms !! id = Some m ->
    match current_process m with
    | None => mutex_state m = 1 /\ waiting m = []
    | Some o => alive q o /\ mutex_state m = - l_size (waiting m)
    end;
  (** The waiters are the blocked processes that name the mutex, once each. *)
  mw_waiting : forall id m p, ms !! id = Some m -> p ∈ waiting m ->
    blocks q p = Some id /\ suspended_or_blocked q p;
  mw_blocked : forall p id, blocks q p = Some id ->
    exists m, ms !! id = Some m /\ p ∈ waiting m;
  mw_nodup : forall id m, ms !! id = Some m -> NoDup (waiting m);
  (** A process keeps its own priority beside the inherited ones. *)
  mw_lists : forall p pcb, pcbs q !! p = Some pcb ->
    (owned ms p < length (priority_list pcb))%nat }.

(** What the proofs use: there is one ready queue, so a change of priority moves
    no process from one to another. *)
Record single_wf ms q : Prop := {
  mx_sched : sched_wf q;
  mx_single : multilevel_queue (ready q) = false;
  mx_state : forall id m, ms !! id = Some m ->
    match current_process m with
    | None => mutex_state m = 1 /\ waiting m = []
    | Some o => alive q o /\ mutex_state m = - l_size (waiting m)
    end;
  mx_waiting : forall id m p, ms !! id = Some m -> p ∈ waiting m ->
    blocks q p = Some id /\ suspended_or_blocked q p;
  mx_blocked : forall p id, blocks q p = Some id ->
    exists m, ms !! id = Some m /\ p ∈ waiting m;
  mx_nodup : forall id m, ms !! id = Some m -> NoDup (waiting m);
  mx_lists : forall p pcb, pcbs q !! p = Some pcb ->
    (owned ms p < length (priority_list pcb))%nat }.

Lemma single_wf_iff ms q :
  single_wf ms q <-> mutex_wf ms q /\ multilevel_queue (ready q) = false.
Proof. split; [by intros []|by intros [[] ?]]. Qed.

Lemma mutex_waiting_alive ms q id m :
  single_wf ms q -> ms !! id = Some m -> Forall (alive q) (waiting m).
Proof.
  intros Hwf Hm. apply Forall_forall. intros p Hp.
  destruct (mx_waiting _ _ Hwf id m p Hm Hp) as [Hb _]. unfold blocks in Hb.
  unfold alive. destruct (pcbs q !! p); [by eexists|done].
Qed.

Lemma mutex_linked ms q : single_wf ms q -> linked ms q.
Proof.
  intros Hwf. constructor.
  - apply Hwf.
  - by apply exec_alive, Hwf.
  - intros. by eapply mutex_waiting_alive.
  - intros id m o Hm Ho. pose proof (mx_state _ _ Hwf id m Hm) as H. rewrite Ho in H. apply H.
  - intros id m Hm Hw. pose proof (mx_state _ _ Hwf id m Hm) as H.
    destruct (current_process m); [by eexists|]. by destruct H.
  - intros p id Hb. destruct (mx_blocked _ _ Hwf p id Hb) as (m & Hm & _). by eexists.
Qed.

(** A running process waits for nothing. *)
Lemma exec_unblocked ms q p :
  single_wf ms q -> state_of q p = Some PS_EXEC -> blocks q p = None.
Proof.
  intros Hwf Hp. destruct (blocks q p) as [id|] eqn:E; [|done].
  destruct (mx_blocked _ _ Hwf p id E) as (m & Hm & Hin).
  destruct (mx_waiting _ _ Hwf id m p Hm Hin) as [_ [H|H]]; congruence.
Qed.

Lemma waiters_few ms q id m p :
  single_wf ms q -> ms !! id = Some m -> alive q p -> p ∉ waiting m ->
  l_size (waiting m) < INT_MAX.
Proof.
  intros Hwf Hm Hp Hin. pose proof (mx_sched _ _ Hwf) as Hs.
  assert (NoDup (p :: waiting m)) as Hnd
    by (apply NoDup_cons; split; [done|by eapply mx_nodup]).
  apply (NoDup_range_length _ (next_pid q)) in Hnd; [| |by apply (sw_few _ Hs)].
  - unfold l_size in *. cbn [length] in Hnd. pose proof (sw_few _ Hs). lia.
  - apply Forall_cons. split; [by apply (sw_pids _ Hs)|].
    eapply Forall_impl; [by eapply mutex_waiting_alive|]. intros x. by apply (sw_pids _ Hs).
Qed.
End wf.

(** ** Locking *)

Section lock.
Context {U : Type} `{!Transport U}.
Implicit Types (q : t_queues U) (ms : t_mutex_list).

Lemma state_of_same f p q x :
  (forall pcb, state (f pcb) = state pcb) ->
  state_of (set_pcbs (alter f p) q) x = state_of q x.
Proof.
  intros Hf. rewrite state_of_alter. case_decide as E; [|done].
  subst. unfold state_of. destruct (pcbs q !! p) as [pcb|]; [|done]. cbn. by rewrite Hf.
Qed.

(** Without levels a process's priority does not matter to the lists. *)
Lemma sched_wf_alter f p q :
  multilevel_queue (ready q) = false -> (forall pcb, state (f pcb) = state pcb) ->
  sched_wf q -> sched_wf (set_pcbs (alter f p) q).
Proof.
  intros Hm Hf [H1 [H2 H2'] H3 H4 H5]. set (q' := set_pcbs _ q).
  assert (forall x, state_of q' x = state_of q x) as Es by (intros x; by apply state_of_same).
  assert (forall st, pids_in q' st = pids_in q st) as El by (by intros []).
  constructor; [done| |intros Hm'; unfold q' in Hm'; cbn in Hm'; congruence| |done].
  - split; intros; rewrite El; [done|]. by rewrite H2', Es.
  - intros x Hx. apply H4. by apply (alive_alter f p q).
Qed.

Lemma blocks_alter f p q x :
  blocks (set_pcbs (alter f p) q) x
  = if decide (x = p) then pcbs q !! p ≫= (fun pcb => blocking_mutex (f pcb))
    else blocks q x.
Proof.
  unfold blocks. cbn. case_decide as E.
  - subst. rewrite lookup_alter_eq. by destruct (pcbs q !! p).
  - by rewrite lookup_alter_ne.
Qed.

(** The same process with other lists: what [alter] with [same_name] keeps. *)
Lemma same_name_facts f p q q' x :
  same_name f -> pcbs q' = alter f p (pcbs q) ->
  blocks q' x = blocks q x /\ prio q' x = prio q x /\
  priority_list <$> pcbs q' !! x = priority_list <$> pcbs q !! x.
Proof.
  intros Hf E. unfold blocks, prio. rewrite E. destruct (decide (x = p)) as [->|].
  - rewrite lookup_alter_eq. destruct (pcbs q !! p) as [pcb|]; [|done]. cbn.
    destruct (Hf pcb) as (-> & -> & ->). done.
  - by rewrite lookup_alter_ne.
Qed.

(** A running process starts to wait for a mutex. *)
Lemma wait_mutex_ok q p id :
  sched_wf q -> multilevel_queue (ready q) = false -> state_of q p = Some PS_EXEC ->
  exists q1 q2, set_mutex_blocking p (Some id) q = Ok (tt, q1) /\
    transition_exec_block p q1 = Ok (tt, q2) /\ sched_wf q2 /\
    multilevel_queue (ready q2) = false /\
    (forall x, state_of q2 x = if decide (x = p) then Some PS_BLOCK else state_of q x) /\
    (forall x, blocks q2 x = if decide (x = p) then Some id else blocks q x) /\
    (forall x, priority_list <$> pcbs q2 !! x = priority_list <$> pcbs q !! x) /\
    (forall x, prio q2 x = prio q x).
Proof.
  intros Hwf Hm Hp. destruct (state_pcb _ _ _ Hp) as (pcb & Hpcb & Hst).
  set (q1 := set_pcbs (alter (set_blocking_mutex (Some id)) p) q).
  assert (sched_wf q1) as Hwf1 by (apply sched_wf_alter; done).
  assert (forall x, state_of q1 x = state_of q x) as Es1.
  { intros x. by apply state_of_same. }
  destruct (exec_block_ok q1 p Hwf1) as (q2 & f & E & Ep & Hf & Er); [by rewrite Es1|].
  exists q1, q2. split; [by apply (update_pcb_alive _ _ _ pcb)|]. split; [done|].
  apply transition_exec_block_steps in E as [Hwf2 [[_ Hs]|[H _]]];
    [|by rewrite Es1 in H|done].
  split_and!; [done|by rewrite Er|by intros x; rewrite Hs, Es1| | |];
    intros x; destruct (same_name_facts f p q1 q2 x Hf Ep) as (Hb & Hpr & Hl).
  - rewrite Hb. unfold q1. rewrite blocks_alter. case_decide; [|done]. by rewrite Hpcb.
  - rewrite Hl. unfold q1. cbn. destruct (decide (x = p)) as [->|]; [|by rewrite lookup_alter_ne].
    by rewrite lookup_alter_eq, Hpcb.
  - rewrite Hpr. apply prio_alter. by intros [].
Qed.

(** Taking a free mutex. *)
Lemma take_mutex_ok ms id m p q :
  single_wf ms q -> ms !! id = Some m -> current_process m = None ->
  state_of q p = Some PS_EXEC ->
  exists q', insert_priority p INT_MAX q = Ok (tt, q') /\ state_of q' p = Some PS_EXEC /\
    single_wf (<[id := set_mutex_state 0 (set_next INT_MAX (set_current (Some p) m))]> ms) q'.
Proof.
  intros Hwf Hm Hc Hp. destruct (state_pcb _ _ _ Hp) as (pcb & Hpcb & _).
  unfold insert_priority. rewrite (update_pcb_alive _ _ _ _ Hpcb). eexists. split; [done|].
  set (f := fun pcb : t_pcb => _). set (q' := set_pcbs _ q).
  assert (repriced_q q q') as Hrp.
  { apply repriced_alter. intros x _. split; [done|]. cbn.
    rewrite add_priority_length. lia. }
  split; [by rewrite (repriced_state q)|].
  pose proof (mx_state _ _ Hwf id m Hm) as Hst. rewrite Hc in Hst. destruct Hst as [Hst Hw].
  set (m' := set_mutex_state 0 _).
  assert (forall i x, <[id:=m']> ms !! i = Some x ->
    (i = id /\ x = m') \/ (i ≠ id /\ ms !! i = Some x)) as Hins.
  { intros i x. destruct (decide (i = id)) as [->|];
      [rewrite lookup_insert_eq|rewrite lookup_insert_ne by done]; naive_solver. }
  assert (forall x, alive q' x <-> alive q x) as Hal by (intros; by apply repriced_alive).
  constructor.
  - by eapply repriced_wf; [apply Hwf|apply Hwf|].
  - apply Hwf.
  - intros i x [[-> ->]|[_ Hx]]%Hins.
    + cbn. rewrite Hw, Hal. split; [by eexists|done].
    + pose proof (mx_state _ _ Hwf i x Hx). by destruct (current_process x); rewrite ?Hal.
  - intros i x y [[-> ->]|[_ Hx]]%Hins Hy; [cbn in Hy; rewrite Hw in Hy; by apply elem_of_nil in Hy|].
    unfold suspended_or_blocked. rewrite (repriced_blocks q), !(repriced_state q) by done.
    by eapply mx_waiting.
  - intros y i. rewrite (repriced_blocks q) by done. intros Hy.
    destruct (mx_blocked _ _ Hwf y i Hy) as (x & Hx & Hin). destruct (decide (i = id)) as [->|].
    + simplify_eq. rewrite Hw in Hin. by apply elem_of_nil in Hin.
    + exists x. by rewrite lookup_insert_ne.
  - intros i x [[-> ->]|[_ Hx]]%Hins; [cbn; rewrite Hw; constructor|by eapply mx_nodup].
  - intros x pcb' Hx. pose proof (owned_insert ms id m m' x Hm) as Ho.
    unfold owns, ownership in Ho. rewrite Hc in Ho. cbn in Ho, Hx.
    rewrite decide_False in Ho by congruence. destruct (decide (x = p)) as [->|Hne].
    + rewrite lookup_alter_eq, Hpcb in Hx. cbn in Hx. simplify_eq. cbn.
      rewrite add_priority_length. pose proof (mx_lists _ _ Hwf p pcb Hpcb).
      destruct (decide _); lia.
    + rewrite lookup_alter_ne in Hx by done. pose proof (mx_lists _ _ Hwf x pcb' Hx).
      rewrite decide_False in Ho by congruence. lia.
Qed.

Lemma linked_waiting ms q id m l p :
  linked ms q -> ms !! id = Some m -> is_Some (current_process m) -> alive q p ->
  l ≡ₚ p :: waiting m -> linked (<[id := set_waiting l m]> ms) q.
Proof.
  intros [H1 H2 H3 H4 H5 H6] Hm Hc Hp Hl. constructor; [done|done| | | |].
  - intros i x Hx. destruct (decide (i = id)) as [->|].
    + rewrite lookup_insert_eq in Hx. simplify_eq. cbn. rewrite Hl.
      apply Forall_cons. split; [done|by eapply H3].
    + rewrite lookup_insert_ne in Hx by done. by eapply H3.
  - intros i x o Hx Ho. destruct (decide (i = id)) as [->|].
    + rewrite lookup_insert_eq in Hx. simplify_eq. by eapply H4.
    + rewrite lookup_insert_ne in Hx by done. by eapply H4.
  - intros i x Hx Hw. destruct (decide (i = id)) as [->|].
    + rewrite lookup_insert_eq in Hx. by simplify_eq.
    + rewrite lookup_insert_ne in Hx by done. by eapply H5.
  - intros y i Hy. apply H6 in Hy. destruct (decide (i = id)) as [->|].
    + rewrite lookup_insert_eq. by eexists.
    + by rewrite lookup_insert_ne.
Qed.

Lemma alter_next_repriced n id ms : repriced_ms ms (alter (set_next n) id ms).
Proof.
  destruct (ms !! id) as [m|] eqn:E.
  - rewrite <- (insert_id ms id m E) at 2. rewrite alter_insert_eq.
    by eapply repriced_ms_insert.
  - rewrite alter_id; [done|]. intros x. by rewrite E.
Qed.

Lemma wait_with_priority_outcome fuel id m o p pr ms q :
  linked ms q -> ms !! id = Some m -> current_process m = Some o -> alive q p ->
  (size ms <= fuel)%nat ->
  outcome (wait_with_priority fuel id m p pr ms q) (fun ms' q' =>
    exists l, l ≡ₚ p :: waiting m /\ repriced_ms (<[id := set_waiting l m]> ms) ms' /\
      repriced_q q q').
Proof.
  intros Hl Hm Ho Hp Hf. unfold wait_with_priority. run_M.
  rewrite insert_pcb_sorted_ok by (done || by eapply ln_waiting).
  cbv beta iota. set (l := l_insert _ _ _).
  assert (l ≡ₚ p :: waiting m) as Hlp by apply l_insert_perm.
  assert (linked (<[id := set_waiting l m]> ms) q) as Hl'
    by (by eapply linked_waiting; [..|by eexists| |]).
  case_decide; [|rewrite ret_M; by exists l].
  run_M. rewrite lift_M, Ho. cbn [deref].
  eapply outcome_bind; [apply replace_priority_outcome; [done|by eapply (ln_owner ms q Hl)|]|].
  - intros q' x Hl'' Hq'. apply propagate_outcome; [done| | |].
    + apply (repriced_alive q); [done|]. by eapply (ln_owner ms q Hl).
    + rewrite dom_insert_L. set_solver.
    + rewrite map_size_insert_Some by (by eexists). rewrite size_singleton. lia.
  - intros ms' q' [Hms Hq]. run_M.
    destruct (update_lowest_ok q') as [n ->].
    { eapply ln_exec, repriced_linked; [exact Hl'|done..]. }
    rewrite ret_M. exists l. split_and!; [done| |].
    + etrans; [exact Hms|]. apply alter_next_repriced.
    + etrans; [exact Hq|]. apply repriced_set_lowest.
Qed.

(** The table after one more process waits. *)
Definition bump (m : t_mutex) : t_mutex := set_mutex_state (s32 (mutex_state m - 1)) m.

Lemma waiting_table ms id m p l ms1 i x :
  ms !! id = Some m -> l ≡ₚ p :: waiting m ->
  repriced_ms (<[id := set_waiting l m]> ms) ms1 -> alter bump id ms1 !! i = Some x ->
  exists y, ms !! i = Some y /\ ownership x = ownership y /\
    mutex_state x = (if decide (i = id) then s32 (mutex_state y - 1) else mutex_state y) /\
    waiting x ≡ₚ (if decide (i = id) then p :: waiting y else waiting y).
Proof.
  intros Hm Hl Hms Hx. destruct (decide (i = id)) as [->|Hne].
  - rewrite lookup_alter_eq in Hx. apply fmap_Some in Hx as (z & Hz & ->).
    destruct (repriced_lookup _ _ _ _ Hms Hz) as (y & Hy & Hk & Hw).
    rewrite lookup_insert_eq in Hy. injection Hy as <-. exists m.
    apply pair_equal_spec in Hk as [Hk1 Hk2]. cbn in Hk2.
    split_and!; [done|exact Hk1|cbn; by rewrite Hk2|by rewrite Hw].
  - rewrite lookup_alter_ne in Hx by done.
    destruct (repriced_lookup _ _ _ _ Hms Hx) as (y & Hy & Hk & Hw).
    rewrite lookup_insert_ne in Hy by done. exists y.
    by apply pair_equal_spec in Hk as [Hk1 Hk2].
Qed.

Lemma waiting_table_dom ms id m l ms1 :
  ms !! id = Some m -> repriced_ms (<[id := set_waiting l m]> ms) ms1 ->
  dom (alter bump id ms1) = dom ms.
Proof.
  intros Hm Hms. rewrite dom_alter_L, (repriced_dom _ _ Hms), dom_insert_L.
  apply elem_of_dom_2 in Hm. set_solver.
Qed.

Lemma owned_alter f ms id x :
  (forall m, ownership (f m) = ownership m) -> owned (alter f id ms) x = owned ms x.
Proof.
  intros Hf. unfold owned. assert (ownership <$> alter f id ms = ownership <$> ms) as ->; [|done].
  apply map_eq. intros i. rewrite !lookup_fmap. destruct (decide (i = id)) as [->|].
  - rewrite lookup_alter_eq. destruct (ms !! id) as [m|]; [|done]. cbn. by rewrite Hf.
  - by rewrite lookup_alter_ne.
Qed.

Lemma owned_waiting ms id m l ms1 x :
  ms !! id = Some m -> repriced_ms (<[id := set_waiting l m]> ms) ms1 ->
  owned (alter bump id ms1) x = owned ms x.
Proof.
  intros Hm Hms. rewrite owned_alter by done. rewrite (owned_repriced _ _ x Hms).
  pose proof (owned_insert ms id m (set_waiting l m) x Hm) as H.
  change (owns x (set_waiting l m)) with (owns x m) in H. lia.
Qed.

(** One more waiter: the invariant after the process is blocked. *)
Lemma waiting_wf ms q id m o p l ms1 q1 q3 :
  single_wf ms q -> ms !! id = Some m -> current_process m = Some o ->
  state_of q p = Some PS_EXEC ->
  l ≡ₚ p :: waiting m -> repriced_ms (<[id := set_waiting l m]> ms) ms1 ->
  repriced_q q q1 -> sched_wf q3 -> multilevel_queue (ready q3) = false ->
  (forall x, state_of q3 x = if decide (x = p) then Some PS_BLOCK else state_of q1 x) ->
  (forall x, blocks q3 x = if decide (x = p) then Some id else blocks q1 x) ->
  (forall x, priority_list <$> pcbs q3 !! x = priority_list <$> pcbs q1 !! x) ->
  single_wf (alter bump id ms1) q3.
Proof.
  intros Hwf Hm Hc Hp Hl Hms Hq Hwf3 Hsingle Hst Hbl Hpl.
  assert (p ∉ waiting m) as Hnot.
  { intros Hin. destruct (mx_waiting _ _ Hwf id m p Hm Hin) as [Hb _].
    rewrite (exec_unblocked ms q p) in Hb by done. done. }
  assert (alive q p) as Hap by (destruct (state_pcb _ _ _ Hp) as (? & ? & _); by eexists).
  pose proof (waiters_few ms q id m p Hwf Hm Hap Hnot) as Hfew.
  assert (forall x, alive q3 x <-> alive q x) as Hal.
  { intros x. rewrite <- (repriced_alive q q1 x) by done. specialize (Hpl x). unfold alive.
    destruct (pcbs q3 !! x), (pcbs q1 !! x); try done; split; intros []; by eexists. }
  constructor; [done|done| | | | |].
  - intros i x Hx. destruct (waiting_table _ _ _ _ _ _ _ _ Hm Hl Hms Hx)
      as (y & Hy & Ho & Hs & Hw). pose proof (mx_state _ _ Hwf i y Hy) as H.
    apply pair_equal_spec in Ho as [_ ->]. rewrite Hs.
    assert (l_size (waiting x) = l_size (if decide (i = id) then p :: waiting y else waiting y))
      as -> by (unfold l_size; by rewrite Hw).
    case_decide as Hi.
    + subst i. simplify_eq. rewrite Hc in *. rewrite Hal. destruct H as [Ha Hn].
      split; [done|]. unfold l_size in *. cbn [length]. rewrite Hn. cint. lia.
    + destruct (current_process y); [by rewrite Hal|]. destruct H as [Hn E]. split; [done|].
      rewrite E in Hw. by apply Permutation_nil_r.
  - intros i x y Hx Hy. destruct (waiting_table _ _ _ _ _ _ _ _ Hm Hl Hms Hx)
      as (z & Hz & _ & _ & Hw). rewrite Hw in Hy. unfold suspended_or_blocked.
    rewrite Hbl, !Hst, (repriced_blocks q), !(repriced_state q) by done.
    destruct (decide (y = p)) as [->|Hyp].
    + split; [|by left]. case_decide as Hi; [by subst|].
      destruct (mx_waiting _ _ Hwf i z p Hz Hy) as [Hb _].
      by rewrite (exec_unblocked ms q p) in Hb.
    + apply (mx_waiting _ _ Hwf i z y Hz). case_decide; [|done]. set_solver.
  - intros y i. rewrite Hbl. case_decide as Hyp.
    + intros [= <-]. assert (id ∈ dom (alter bump id ms1)) as Hd
        by (rewrite (waiting_table_dom ms id m l); [by eapply elem_of_dom_2|done..]).
      apply elem_of_dom in Hd as [x Hx]. exists x. split; [done|].
      destruct (waiting_table _ _ _ _ _ _ _ _ Hm Hl Hms Hx) as (z & Hz & _ & _ & Hw).
      rewrite Hw, decide_True, Hyp by done. by left.
    + rewrite (repriced_blocks q) by done. intros Hy.
      destruct (mx_blocked _ _ Hwf y i Hy) as (z & Hz & Hin).
      assert (i ∈ dom (alter bump id ms1)) as Hd
        by (rewrite (waiting_table_dom ms id m l); [by eapply elem_of_dom_2|done..]).
      apply elem_of_dom in Hd as [x Hx]. exists x. split; [done|].
      destruct (waiting_table _ _ _ _ _ _ _ _ Hm Hl Hms Hx) as (z' & Hz' & _ & _ & Hw).
      simplify_eq. rewrite Hw. case_decide; set_solver.
  - intros i x Hx. destruct (waiting_table _ _ _ _ _ _ _ _ Hm Hl Hms Hx)
      as (y & Hy & _ & _ & Hw). rewrite Hw. pose proof (mx_nodup _ _ Hwf i y Hy).
    case_decide; [|done]. subst i. simplify_eq. by apply NoDup_cons.
  - intros x pcb Hx. rewrite (owned_waiting ms id m l) by done.
    specialize (Hpl x). rewrite Hx in Hpl. pose proof (rp_pcbs _ _ Hq x) as Hf.
    destruct (pcbs q1 !! x) as [b|]; [|done]. injection Hpl as ->.
    inversion Hf as [a b' [_ Hab] Ha Hb|]; subst.
    pose proof (mx_lists _ _ Hwf x a (eq_sym Ha)). lia.
Qed.

Lemma enqueue_outcome fuel id m o p pr ms q :
  linked ms q -> ms !! id = Some m -> current_process m = Some o -> alive q p ->
  (size ms <= fuel)%nat ->
  outcome ((if priority_active m then wait_with_priority fuel id m p pr ms
            else mret (<[id := set_waiting (waiting m ++ [p]) m]> ms)) q) (fun ms' q' =>
    exists l, l ≡ₚ p :: waiting m /\ repriced_ms (<[id := set_waiting l m]> ms) ms' /\
      repriced_q q q').
Proof.
  intros. destruct (priority_active m); [by eapply wait_with_priority_outcome|].
  rewrite ret_M. exists (waiting m ++ [p]). split_and!; [|done..].
  by rewrite Permutation_app_comm.
Qed.

(** What [list_mutex_lock] answers, and what it means. *)
Definition lock_answer ms q id p (ret : t_mutex_result) ms' q' : Prop :=
  match ms !! id with
  | None => ret = MR_MUTEX_NAME_NOT_FOUND /\ ms' = ms /\ q' = q
  | Some m => exists m', ms' !! id = Some m' /\
      match current_process m with
      | None => ret = MR_MUTEX_LOCKED /\ current_process m' = Some p /\ waiting m' = [] /\
          state_of q' p = Some PS_EXEC
      | Some o => ret = MR_WAITING_MUTEX /\ current_process m' = Some o /\
          waiting m' ≡ₚ p :: waiting m /\ state_of q' p = Some PS_BLOCK
      end
  end.

Lemma list_mutex_lock_ok fuel ms id p q :
  single_wf ms q -> state_of q p = Some PS_EXEC -> (size ms <= fuel)%nat ->
  outcome (list_mutex_lock fuel ms id p q) (fun r q' =>
    single_wf r.2 q' /\ lock_answer ms q id p r.1 r.2 q').
Proof.
  intros Hwf Hp Hf. unfold list_mutex_lock, lock_answer.
  destruct (ms !! id) as [m|] eqn:Hm; [|by rewrite ret_M].
  assert (alive q p) as Hap by (destruct (state_pcb _ _ _ Hp) as (? & ? & _); by eexists).
  unfold mutex_lock. run_M. rewrite (get_priority_alive p q Hap). run_M.
  pose proof (mx_state _ _ Hwf id m Hm) as Hst. destruct (current_process m) as [o|] eqn:Hc.
  - destruct Hst as [Hao Hst]. pose proof (l_size_nonneg (waiting m)).
    rewrite decide_False by lia. rewrite bind_M.
    pose proof (enqueue_outcome fuel id m o p (prio q p) ms q (mutex_linked _ _ Hwf) Hm Hc Hap Hf)
      as Hout. revert Hout.
    match goal with |- outcome ?r _ -> _ => destruct r as [[ms1 q1]|u]; [|done] end.
    intros Hout.
    destruct Hout as (l & Hl & Hms & Hq).
    destruct (wait_mutex_ok q1 p id) as (q2 & q3 & E1 & E2 & Hwf3 & Hs3 & Hst3 & Hbl3 & Hpl3 & _).
    { by eapply repriced_wf; [apply Hwf|apply Hwf|]. }
    { rewrite (rp_ready _ _ Hq). apply Hwf. }
    { by rewrite (repriced_state q). }
    run_M. rewrite E1. run_M. rewrite E2. run_M. cbn.
    change (fun m0 => set_mutex_state _ m0) with bump. split; [by eapply waiting_wf|].
    assert (id ∈ dom (alter bump id ms1)) as Hd
      by (rewrite (waiting_table_dom ms id m l); [by eapply elem_of_dom_2|done..]).
    apply elem_of_dom in Hd as [x Hx]. exists x.
    destruct (waiting_table _ _ _ _ _ _ _ _ Hm Hl Hms Hx) as (y & Hy & Ho & _ & Hw).
    apply pair_equal_spec in Ho as [_ Ho]. simplify_eq. rewrite decide_True in Hw by done.
    split_and!; [done|done|congruence|done|]. by rewrite Hst3, decide_True.
  - rewrite decide_True by apply Hst. run_M.
    destruct (take_mutex_ok ms id m p q Hwf Hm Hc Hp) as (q' & E & Hp' & Hwf').
    rewrite E. run_M. cbn. rewrite alter_insert_eq. cbn.
    destruct Hst as [-> Hw]. change (s32 (1 - 1)) with 0. split; [done|].
    eexists. rewrite lookup_insert_eq. split_and!; done.
Qed.

(** C7: With a single ready queue (a mutex beside a multilevel one is excluded), when
    a process in execution locks a mutex the invariant [mutex_wf] on owners,
    waiters and process states is kept: a free mutex gets its owner; for a taken
    one the owner stays, the process joins the waiters and blocks.  The only
    failure is to lock, along the chain of waiting owners, a mutex the thread
    already holds. *)
Theorem list_mutex_lock_wf fuel ms id p q :
  multilevel_queue (ready q) = false ->
  mutex_wf ms q -> state_of q p = Some PS_EXEC -> (size ms <= fuel)%nat ->
  outcome (list_mutex_lock fuel ms id p q) (fun r q' =>
    multilevel_queue (ready q') = false /\ mutex_wf r.2 q' /\
    lock_answer ms q id p r.1 r.2 q').
Proof.
  intros Hm Hwf Hp Hf.
  eapply outcome_mono; [apply list_mutex_lock_ok; [by apply single_wf_iff|done..]|].
  intros r q' [[H1 H2]%single_wf_iff H3]. done.
Qed.
End lock.

(** ** Unlocking *)

Section unlock.
Context {U : Type} `{!Transport U}.
Implicit Types (q : t_queues U) (ms : t_mutex_list).

Lemma hd_error_elem {A} (l : list A) x : hd_error l = Some x -> x ∈ l.
Proof. destruct l; intros; simplify_eq/=. by left. Qed.

Lemma elem_tail {A} (l : list A) x : NoDup l -> x ∈ tail l <-> x ∈ l /\ hd_error l ≠ Some x.
Proof.
  destruct 1 as [|y l Hy Hl]; cbn; [set_solver|]. split; [|set_solver].
  intros Hx. split; [set_solver|]. intros [= ->]. done.
Qed.

Lemma size_tail {A} (l : list A) : l ≠ [] -> l_size l = 1 + l_size (tail l).
Proof. destruct l; [done|]. unfold l_size. cbn [length tail]. lia. Qed.

(** The invariant once the first waiter, if any, owns the mutex. *)
Lemma unlocked_wf ms q id m m' q' p :
  single_wf ms q -> ms !! id = Some m -> current_process m = Some p ->
  current_process m' = hd_error (waiting m) -> waiting m' = tail (waiting m) ->
  mutex_state m' = mutex_state m + 1 ->
  sched_wf q' -> multilevel_queue (ready q') = false ->
  (forall x, hd_error (waiting m) ≠ Some x -> state_of q' x = state_of q x) ->
  (forall x, blocks q' x = if decide (hd_error (waiting m) = Some x) then None else blocks q x) ->
  (forall x, alive q' x <-> alive q x) ->
  (forall x pcb', pcbs q' !! x = Some pcb' -> exists pcb, pcbs q !! x = Some pcb /\
     (length (priority_list pcb) + owns x m' <= length (priority_list pcb') + owns x m)%nat) ->
  single_wf (<[id := m']> ms) q'.
Proof.
  intros Hwf Hm Hc Hc' Hw' Hs' Hwf' Hsingle Hst Hbl Hal Hlen.
  pose proof (mx_nodup _ _ Hwf id m Hm) as Hnd.
  pose proof (mutex_waiting_alive _ _ _ _ Hwf Hm) as Hwa. rewrite Forall_forall in Hwa.
  assert (forall i x, <[id:=m']> ms !! i = Some x ->
    (i = id /\ x = m') \/ (i ≠ id /\ ms !! i = Some x)) as Hins.
  { intros i x. destruct (decide (i = id)) as [->|];
      [rewrite lookup_insert_eq|rewrite lookup_insert_ne by done]; naive_solver. }
  assert (forall i x y, ms !! i = Some x -> y ∈ waiting x -> i ≠ id ->
    hd_error (waiting m) ≠ Some y) as Hother.
  { intros i x y Hx Hy Hi Hhd. apply hd_error_elem in Hhd.
    destruct (mx_waiting _ _ Hwf i x y Hx Hy) as [H1 _].
    destruct (mx_waiting _ _ Hwf id m y Hm Hhd) as [H2 _]. congruence. }
  constructor; [done|done| | | | |].
  - intros i x [[-> ->]|[_ Hx]]%Hins.
    + pose proof (mx_state _ _ Hwf id m Hm) as H. rewrite Hc in H. destruct H as [_ H].
      rewrite Hc', Hw', Hs'. unfold l_size in *.
      destruct (waiting m) as [|o rest]; cbn [hd_error tail length] in *; [split; [lia|done]|].
      rewrite Hal. split; [apply Hwa; by left|lia].
    + pose proof (mx_state _ _ Hwf i x Hx). by destruct (current_process x); rewrite ?Hal.
  - intros i x y Hi Hy. unfold suspended_or_blocked. apply Hins in Hi as [[-> ->]|[Hi Hx]].
    + rewrite Hw' in Hy. apply elem_tail in Hy as [Hy Hhd]; [|done].
      rewrite Hbl, decide_False, Hst by done. by eapply mx_waiting.
    + rewrite Hbl, decide_False, Hst by (by eapply Hother). by eapply mx_waiting.
  - intros y i. rewrite Hbl. case_decide as Hhd; [done|]. intros Hy.
    destruct (mx_blocked _ _ Hwf y i Hy) as (x & Hx & Hin). destruct (decide (i = id)) as [->|].
    + simplify_eq. exists m'. rewrite lookup_insert_eq, Hw'. split; [done|]. by apply elem_tail.
    + exists x. by rewrite lookup_insert_ne.
  - intros i x [[-> ->]|[_ Hx]]%Hins; [|by eapply mx_nodup].
    rewrite Hw'. destruct Hnd; [constructor|done].
  - intros x pcb' Hx. destruct (Hlen x pcb' Hx) as (pcb & Hpcb & Hle).
    pose proof (mx_lists _ _ Hwf x pcb Hpcb). pose proof (owned_insert ms id m m' x Hm). lia.
Qed.

Lemma remove_priority_ok q p n pcb :
  pcbs q !! p = Some pcb -> (1 < length (priority_list pcb))%nat ->
  exists b x l, remove_priority p n q = Ok (b, set_pcbs (alter (set_priorities x l) p) q) /\
    (length (priority_list pcb) <= S (length l))%nat.
Proof.
  intros Hp Hlen. unfold remove_priority. run_M. rewrite (get_pcb_alive _ _ _ Hp). run_M.
  pose proof (remove_priority_length (priority_list pcb) n) as Hl.
  destruct (remove_priority_list _ n) as [|h l] eqn:E; [cbn [length] in Hl; lia|].
  rewrite lift_M. cbn [hd_error deref]. run_M. rewrite (update_pcb_alive _ _ _ _ Hp). run_M.
  eauto.
Qed.

(** What unlocking leaves in the store once the priority is given back. *)
Definition gave_back (p : Z) (n : nat) q q' : Prop :=
  (exists f, pcbs q' = alter f p (pcbs q) /\ forall pcb, pcbs q !! p = Some pcb ->
     kept (f pcb) = kept pcb /\
     (length (priority_list pcb) <= n + length (priority_list (f pcb)))%nat) /\
  sched_wf q' /\ multilevel_queue (ready q') = false.

Lemma owns_le_owned ms id m p : ms !! id = Some m -> (owns p m <= owned ms p)%nat.
Proof.
  intros Hm. rewrite <- (insert_delete_id ms id m Hm), owned_new by apply lookup_delete_eq. lia.
Qed.

Lemma give_back_ok ms q id m p :
  single_wf ms q -> ms !! id = Some m -> current_process m = Some p ->
  exists b q1 q2, (if priority_active m then remove_priority p (next_priority m)
                   else mret false) q = Ok (b, q1) /\
    when b update_lowest_exec_priority q1 = Ok (tt, q2) /\ gave_back p (owns p m) q q2.
Proof.
  intros Hwf Hm Hc. pose proof (mx_state _ _ Hwf id m Hm) as Hst. rewrite Hc in Hst.
  destruct Hst as [[pcb Hp] _]. pose proof (owns_le_owned ms id m p Hm) as Ho.
  pose proof (mx_lists _ _ Hwf p pcb Hp) as Hlen. pose proof (mx_single _ _ Hwf) as Hm1.
  unfold owns, ownership in *. rewrite Hc in *. destruct (priority_active m).
  - rewrite decide_True in * by done.
    destruct (remove_priority_ok q p (next_priority m) pcb Hp) as (b & x & l & E & Hl); [lia|].
    set (q1 := set_pcbs _ q) in E. exists b, q1.
    assert (sched_wf q1) as Hwf1 by (apply sched_wf_alter; [done..|apply Hwf]).
    destruct (update_lowest_ok q1 (exec_alive q1 Hwf1)) as [n En].
    assert (forall q2, q2 = q1 \/ q2 = set_exec (set_lowest_priority n) q1 ->
      gave_back p 1 q q2) as Hg.
    { intros q2 Hq2. split; [|split].
      - exists (set_priorities x l). split; [by destruct Hq2 as [-> | ->]|].
        intros pcb' Hp'. simplify_eq. split; [done|]. cbn. lia.
      - destruct Hq2 as [-> | ->]; [done|]. eapply repriced_wf; [exact Hwf1|done|].
        apply repriced_set_lowest.
      - by destruct Hq2 as [-> | ->]. }
    destruct b; cbn [when].
    + eexists. split_and!; [done|done|]. apply Hg. by right.
    + eexists. rewrite ret_M. split_and!; [done|done|]. apply Hg. by left.
  - rewrite decide_False by congruence. exists false, q, q. split_and!; [done|done|].
    split; [|by split; [apply Hwf|]]. exists (fun x => x). split; [|by intros].
    symmetry. by apply alter_id.
Qed.

(** The priority the next owner inherits. *)
Lemma inherit_next_ok m q o rest pcb :
  pcbs q !! o = Some pcb -> mutex_state m = - (1 + l_size rest) -> Forall (alive q) rest ->
  exists next f, (if priority_active m then
      next ← (if decide (mutex_state m = -1) then mret INT_MAX
              else first ← lift (deref (hd_error rest)); get_priority_pcb first);
      _ ← insert_priority o next; mret next
    else mret (next_priority m)) q = Ok (next, set_pcbs (alter f o) q) /\
    forall pcb, kept (f pcb) = kept pcb /\
      (length (priority_list (f pcb))
       = length (priority_list pcb) + if priority_active m then 1 else 0)%nat.
Proof.
  intros Hp Hs Hrest. destruct (priority_active m).
  - assert (exists next, (if decide (mutex_state m = -1) then mret INT_MAX
      else first ← lift (deref (hd_error rest)); get_priority_pcb first) q = Ok (next, q))
      as [next E].
    { case_decide as Hd; [by eexists|]. destruct rest as [|x rest].
      - destruct Hd. rewrite Hs. done.
      - apply Forall_cons in Hrest as [Hx _]. run_M. rewrite lift_M. cbn [hd_error deref].
        rewrite get_priority_alive by done. eauto. }
    run_M. rewrite E. run_M. unfold insert_priority. rewrite (update_pcb_alive _ _ _ _ Hp).
    run_M. eexists next, _. split; [done|]. intros y. split; [done|]. cbn.
    rewrite add_priority_length. lia.
  - run_M. exists (next_priority m), (fun x => x). split; [|intros y; split; [done|lia]].
    unfold set_pcbs. rewrite alter_id by done. by destruct q.
Qed.

Lemma hand_over_ok m q o rest :
  sched_wf q -> multilevel_queue (ready q) = false -> waiting m = o :: rest ->
  mutex_state m = - l_size (waiting m) ->
  suspended_or_blocked q o -> Forall (alive q) rest ->
  exists next q' f, hand_over m q
      = Ok (set_next next (set_waiting rest (set_current (Some o) m)), q') /\
    sched_wf q' /\ multilevel_queue (ready q') = false /\
    (forall x, state_of q' x
       = if decide (x = o) then unblocked_state <$> state_of q x else state_of q x) /\
    pcbs q' = alter f o (pcbs q) /\ forall pcb, blocking_mutex (f pcb) = None /\
      (length (priority_list (f pcb))
       = length (priority_list pcb) + if priority_active m then 1 else 0)%nat.
Proof.
  intros Hwf Hm Hw Hs Ho Hrest. unfold hand_over. rewrite Hw. cbn [hd_error tail].
  assert (exists pcb, pcbs q !! o = Some pcb) as [pcb Hpcb]
    by (destruct Ho as [Ho|Ho]; destruct (state_pcb _ _ _ Ho) as (pcb & ? & _); eauto).
  run_M. rewrite lift_M. cbn [deref]. run_M. unfold set_mutex_blocking.
  rewrite (update_pcb_alive _ _ _ _ Hpcb). run_M. set (q1 := set_pcbs _ q).
  assert (pcbs q1 !! o = Some (set_blocking_mutex None pcb)) as Hpcb1
    by (cbn; by rewrite lookup_alter_eq, Hpcb).
  destruct (inherit_next_ok m q1 o rest _ Hpcb1) as (next & g & E & Hg).
  { rewrite Hs, Hw. unfold l_size. cbn [length]. lia. }
  { eapply Forall_impl; [exact Hrest|]. intros x Hx. by apply alive_alter. }
  rewrite E. run_M. set (q2 := set_pcbs (alter g o) q1).
  assert (forall x, state_of q2 x = state_of q x) as Es.
  { intros x. unfold q2, q1. rewrite !state_of_same; [done|done|]. intros y.
    specialize (Hg y). unfold kept in Hg. destruct Hg as [Hg _]. congruence. }
  assert (sched_wf q2) as Hwf2.
  { apply sched_wf_alter; [done| |by apply sched_wf_alter]. intros y.
    specialize (Hg y). unfold kept in Hg. destruct Hg as [Hg _]. congruence. }
  destruct (unlock_ok q2 o Hwf2) as (q3 & f & E3 & Ep3 & Hf & Hm3 & _ & Hst3);
    [by unfold suspended_or_blocked in Ho; rewrite !Es|].
  rewrite E3. run_M. exists next, q3, (fun x => f (g (set_blocking_mutex None x))).
  split; [done|].
  split_and!; [|by rewrite Hm3| | |].
  - by apply transition_unlock_wf in E3 as [[? _]|[? _]].
  - intros x. rewrite <- Es. unfold state_of at 1. rewrite Ep3.
    destruct (decide (x = o)) as [->|]; [|by rewrite lookup_alter_ne].
    rewrite lookup_alter_eq. unfold state_of in *. destruct (pcbs q2 !! o) as [y|]; [|done].
    cbn in *. f_equal. by apply Hst3.
  - rewrite Ep3. cbn. rewrite !alter_twice. done.
  - intros y. destruct (Hf (g (set_blocking_mutex None y))) as (-> & -> & _).
    destruct (Hg (set_blocking_mutex None y)) as [Hk ->]. unfold kept in Hk. cbn in Hk.
    split; [congruence|done].
Qed.

Lemma gave_back_facts p n q q' :
  gave_back p n q q' ->
  (forall x, state_of q' x = state_of q x) /\ (forall x, blocks q' x = blocks q x) /\
  (forall x, alive q' x <-> alive q x) /\
  (forall x pcb', pcbs q' !! x = Some pcb' -> exists pcb, pcbs q !! x = Some pcb /\
     (length (priority_list pcb)
      <= length (priority_list pcb') + if decide (x = p) then n else 0)%nat).
Proof.
  intros [(f & E & Hf) _].
  assert (forall x, pcbs q' !! x = pcbs q !! x \/
    exists pcb, x = p /\ pcbs q !! x = Some pcb /\ pcbs q' !! x = Some (f pcb)) as H.
  { intros x. rewrite E. destruct (decide (x = p)) as [->|].
    - rewrite lookup_alter_eq. destruct (pcbs q !! p) eqn:Hp; [|by left]. right. eauto.
    - left. by rewrite lookup_alter_ne. }
  split_and!; intros x; unfold state_of, blocks, alive;
    destruct (H x) as [-> |(pcb & -> & Hp & Hp')].
  - done.
  - rewrite Hp, Hp'. destruct (Hf pcb Hp) as [Hk _]. unfold kept in Hk. cbn. congruence.
  - done.
  - rewrite Hp, Hp'. destruct (Hf pcb Hp) as [Hk _]. unfold kept in Hk. cbn. congruence.
  - done.
  - rewrite Hp, Hp'. split; by eexists.
  - intros pcb' Hx. exists pcb'. split; [done|lia].
  - intros pcb' Hx. rewrite Hp' in Hx. simplify_eq. exists pcb. split; [done|].
    rewrite decide_True by done. destruct (Hf pcb Hp) as [_ Hl]. lia.
Qed.

(** The first waiter becomes the owner. *)
Lemma hand_over_unlocked ms q id m p o rest q2 :
  single_wf ms q -> ms !! id = Some m -> current_process m = Some p ->
  waiting m = o :: rest -> gave_back p (owns p m) q q2 ->
  exists m' q3, hand_over m q2 = Ok (m', q3) /\ current_process m' = Some o /\
    waiting m' = rest /\
    single_wf (<[id := set_mutex_state (s32 (mutex_state m' + 1)) m']> ms) q3 /\
    forall x, state_of q3 x = if decide (Some o = Some x) then unblocked_state <$> state_of q x
                              else state_of q x.
Proof.
  intros Hwf Hm Hc Hw Hg. destruct (gave_back_facts _ _ _ _ Hg) as (Hst & Hbl & Hal & Hlen).
  destruct Hg as (_ & Hwf2 & Hm2). pose proof (mx_state _ _ Hwf id m Hm) as Hs.
  rewrite Hc in Hs. destruct Hs as [Hap Hs].
  pose proof (mutex_waiting_alive _ _ _ _ Hwf Hm) as Hwa. rewrite Hw in Hwa.
  apply Forall_cons in Hwa as [Hao Hrest].
  destruct (mx_waiting _ _ Hwf id m o Hm) as [Hbo Hso]; [rewrite Hw; by left|].
  destruct (hand_over_ok m q2 o rest Hwf2 Hm2 Hw Hs)
    as (next & q3 & f & E3 & Hwf3 & Hm3 & Hst3 & Ep3 & Hf).
  { unfold suspended_or_blocked. by rewrite !Hst. }
  { eapply Forall_impl; [exact Hrest|]. intros x. by rewrite Hal. }
  eexists _, q3. split; [exact E3|]. split_and!; [done|done| |].
  - assert (l_size (waiting m) <= INT_MAX) as Hfew.
    { pose proof (mx_sched _ _ Hwf) as Hsw. transitivity (next_pid q); [|apply Hsw].
      apply NoDup_range_length; [by eapply mx_nodup| |apply (sw_few _ Hsw)].
      eapply Forall_impl; [by eapply mutex_waiting_alive|]. intros x. by apply (sw_pids _ Hsw). }
    eapply (unlocked_wf ms q id m _ q3 p); rewrite ?Hw; try done.
    + cbn. rewrite Hs in *. pose proof (l_size_nonneg (waiting m)). cint. lia.
    + intros x Hx. rewrite Hst3, decide_False, Hst; [done|]. cbn in Hx. congruence.
    + intros x. unfold blocks in *. rewrite Ep3. cbn [hd_error].
      destruct (decide (Some o = Some x)) as [[= <-]|Hx].
      * rewrite lookup_alter_eq. destruct (pcbs q2 !! o) as [y|]; [|done]. apply Hf.
      * rewrite lookup_alter_ne by congruence. apply Hbl.
    + intros x. rewrite <- Hal. unfold alive. rewrite Ep3.
      destruct (decide (x = o)) as [->|]; [|by rewrite lookup_alter_ne].
      rewrite lookup_alter_eq. destruct (pcbs q2 !! o); split; intros []; (done || by eexists).
    + intros x pcb' Hx. rewrite Ep3 in Hx.
      assert (exists y, pcbs q2 !! x = Some y /\ (length (priority_list y)
        + owns x (set_current (Some o) m) <= length (priority_list pcb'))%nat) as (y & Hy & Hle).
      { unfold owns, ownership. cbn. destruct (decide (x = o)) as [->|].
        - rewrite lookup_alter_eq in Hx. apply fmap_Some in Hx as (y & Hy & ->).
          exists y. split; [done|]. destruct (Hf y) as [_ ->].
          destruct (priority_active m); case_decide; congruence || lia.
        - rewrite lookup_alter_ne in Hx by done. exists pcb'. split; [done|].
          rewrite decide_False by congruence. lia. }
      destruct (Hlen x y Hy) as (pcb & Hpcb & Hl). exists pcb. split; [done|].
      change (owns x (set_mutex_state _ _)) with (owns x (set_current (Some o) m)).
      destruct (decide (x = p)) as [->|]; lia.
  - intros x. rewrite Hst3, Hst. destruct (decide (x = o)) as [->|].
    + by rewrite decide_True.
    + rewrite decide_False; [done|congruence].
Qed.

(** What [list_mutex_unlock] answers, and what it means. *)
Definition unlock_answer ms q id p (ret : t_mutex_result) ms' q' : Prop :=
  match ms !! id with
  | None => ret = MR_MUTEX_NAME_NOT_FOUND /\ ms' = ms /\ q' = q
  | Some m =>
      if decide (current_process m = Some p) then
        ret = MR_MUTEX_UNLOCKED /\ exists m', ms' !! id = Some m' /\
          current_process m' = hd_error (waiting m) /\ waiting m' = tail (waiting m) /\
          forall x, state_of q' x
            = if decide (hd_error (waiting m) = Some x) then unblocked_state <$> state_of q x
              else state_of q x
      else ret = MR_PROCESS_HAS_NO_LOCKED_MUTEX /\ ms' = ms /\ q' = q
  end.

Lemma list_mutex_unlock_ok ms id p q :
  single_wf ms q -> state_of q p = Some PS_EXEC ->
  exists ret ms' q', list_mutex_unlock ms id p q = Ok (ret, ms', q') /\
    single_wf ms' q' /\ unlock_answer ms q id p ret ms' q'.
Proof.
  intros Hwf Hp. unfold list_mutex_unlock, unlock_answer.
  destruct (ms !! id) as [m|] eqn:Hm; [|rewrite ret_M; by eexists _, _, _].
  unfold mutex_unlock. destruct (decide (current_process m = Some p)) as [Hc|Hc];
    [rewrite decide_False by tauto|rewrite decide_True by done; rewrite ret_M; by eexists _, _, _].
  destruct (give_back_ok ms q id m p Hwf Hm Hc) as (b & q1 & q2 & E1 & E2 & Hg).
  run_M. rewrite E1. run_M. rewrite E2. run_M.
  destruct (gave_back_facts _ _ _ _ Hg) as (Hst & Hbl & Hal & Hlen).
  pose proof Hg as (_ & Hwf2 & Hm2). pose proof (mx_state _ _ Hwf id m Hm) as Hs.
  rewrite Hc in Hs. destruct Hs as [_ Hs]. destruct (waiting m) as [|o rest] eqn:Hw.
  - rewrite decide_True by done. run_M. eexists _, _, q2. split; [done|]. split.
    + eapply (unlocked_wf ms q id m); rewrite ?Hw; try done.
      * cbn. by rewrite Hs.
      * intros x pcb' Hx. destruct (Hlen x pcb' Hx) as (pcb & Hpcb & Hle).
        exists pcb. split; [done|]. unfold owns at 1. rewrite decide_False by done.
        case_decide; [subst|]; lia.
    + split; [done|]. eexists. rewrite lookup_insert_eq. split_and!; try done.
  - rewrite decide_False, decide_True by (rewrite Hs; unfold l_size; cbn [length]; lia).
    destruct (hand_over_unlocked ms q id m p o rest q2 Hwf Hm Hc Hw Hg)
      as (m' & q3 & E3 & Hcur & Hwait & Hwf3 & Hst3).
    rewrite E3. run_M. eexists _, _, q3. split; [done|]. split; [done|]. split; [done|].
    eexists. rewrite lookup_insert_eq. split_and!; done.
Qed.

(** C8: With a single ready queue (a mutex beside a multilevel one is excluded), when
    a process in execution unlocks a mutex the call returns and keeps the
    invariant [mutex_wf]: only the owner can, the head of the list of waiters
    becomes the owner and leaves its blocked state in the same step, and no other
    process moves.  Where the scheduler uses priorities that list is sorted by
    priority, not by the order of the requests ([later_waiter_first]). *)
Theorem list_mutex_unlock_wf ms id p q :
  multilevel_queue (ready q) = false ->
  mutex_wf ms q -> state_of q p = Some PS_EXEC ->
  exists ret ms' q', list_mutex_unlock ms id p q = Ok (ret, ms', q') /\
    multilevel_queue (ready q') = false /\ mutex_wf ms' q' /\
    unlock_answer ms q id p ret ms' q'.
Proof.
  intros Hm Hwf Hp. destruct (list_mutex_unlock_ok ms id p q) as (ret & ms' & q' & E & Hs & Ha);
    [by apply single_wf_iff|done|].
  apply single_wf_iff in Hs as [H1 H2]. by exists ret, ms', q'.
Qed.
End unlock.

(** ** Inheritance *)

Section inheritance.
Context {U : Type} `{!Transport U}.
Implicit Types (q : t_queues U) (ms : t_mutex_list).

(** The owner's priorities are in order, the first is the effective one, and
    among them is that of the first waiter. *)
Record inherits (m : t_mutex) q (o : Z) : Prop := {
  ih_sorted : forall pcb, pcbs q !! o = Some pcb -> StronglySorted Z.le (priority_list pcb);
  ih_head : forall pcb, pcbs q !! o = Some pcb -> hd_error (priority_list pcb) = Some (priority pcb);
  ih_next : forall pcb, pcbs q !! o = Some pcb -> next_priority m ∈ priority_list pcb;
  ih_first : next_priority m = match waiting m with [] => INT_MAX | x :: _ => prio q x end }.

Lemma add_priority_sorted l x : StronglySorted Z.le l -> StronglySorted Z.le (add_priority l x).
Proof.
  apply l_insert_sorted.
  - intros a b H. apply bool_decide_eq_true in H. lia.
  - intros a b H. apply bool_decide_eq_false in H. lia.
  - intros a b c. lia.
Qed.

Lemma remove_priority_sorted l x :
  StronglySorted Z.le l -> StronglySorted Z.le (remove_priority_list l x).
Proof.
  unfold remove_priority_list. induction 1 as [|y l Hl IH Hy]; cbn; [constructor|].
  case_bool_decide; [done|]. constructor; [done|]. apply Forall_forall. intros z Hz.
  apply elem_of_l_remove_first in Hz. rewrite Forall_forall in Hy. by apply Hy.
Qed.

Lemma replaced_head l h old new :
  StronglySorted Z.le l -> hd_error l = Some h -> old ∈ l -> new <= old ->
  hd_error (add_priority (remove_priority_list l old) new) = Some (Z.min h new).
Proof.
  intros Hl Hh Hin Hle. destruct Hl as [|y l Hl Hy]; [done|]. injection Hh as ->.
  unfold remove_priority_list. cbn. case_bool_decide as Hd.
  - subst old. destruct l as [|z l]; cbn; [by rewrite Z.min_r|].
    apply Forall_cons in Hy as [Hz _]. unfold has_higher_priority_than.
    case_bool_decide; cbn; f_equal; lia.
  - cbn. unfold has_higher_priority_than. case_bool_decide; cbn; f_equal; lia.
Qed.

Lemma elem_add_priority l x y : y ∈ add_priority l x <-> y = x \/ y ∈ l.
Proof. unfold add_priority. rewrite l_insert_perm. set_solver. Qed.

(** The priority of the first waiter replaces the one before it. *)
Lemma replace_first_ok fuel held q o pcb old new ms :
  multilevel_queue (ready q) = false -> pcbs q !! o = Some pcb ->
  blocking_mutex pcb = None -> StronglySorted Z.le (priority_list pcb) ->
  hd_error (priority_list pcb) = Some (priority pcb) -> old ∈ priority_list pcb -> new <= old ->
  replace_priority (propagate_priority_transitive (S fuel) held) o old new ms q
  = Ok (ms, set_pcbs (alter (set_priorities (Z.min (priority pcb) new)
              (add_priority (remove_priority_list (priority_list pcb) old) new)) o) q).
Proof.
  intros Hm Hp Hb Hsort Hh Hin Hle. unfold replace_priority. run_M.
  rewrite (get_pcb_alive _ _ _ Hp). run_M.
  rewrite (replaced_head _ (priority pcb)) by done. rewrite lift_M. cbn [deref]. run_M.
  rewrite (update_pcb_alive _ _ _ _ Hp). run_M. set (q1 := set_pcbs _ q).
  case_decide; [|done]. run_M. rewrite update_priority_single by done. run_M.
  cbn [propagate_priority_transitive]. unfold get_mutex_blocking. run_M.
  erewrite get_pcb_alive by (cbn; by rewrite lookup_alter_eq, Hp). run_M. cbn.
  by rewrite Hb.
Qed.

Lemma owner_first m q o pcb :
  inherits m q o -> pcbs q !! o = Some pcb -> priority pcb <= next_priority m.
Proof.
  intros [Hs Hh Hn _] Hp. specialize (Hs _ Hp). specialize (Hh _ Hp). specialize (Hn _ Hp).
  destruct Hs as [|y l Hl Hy]; [done|]. injection Hh as ->.
  apply elem_of_cons in Hn as [->|Hn]; [lia|]. rewrite Forall_forall in Hy. by apply Hy.
Qed.

Lemma wait_inherits fuel ms id m p o q :
  linked ms q -> ms !! id = Some m -> current_process m = Some o -> alive q p ->
  blocks q o = None -> inherits m q o -> prio q p <= INT_MAX ->
  exists m' q', wait_with_priority (S fuel) id m p (prio q p) ms q = Ok (<[id := m']> ms, q') /\
    repriced_q q q' /\ prio q' o = Z.min (prio q o) (prio q p) /\
    (forall x, x ≠ o -> prio q' x = prio q x) /\ inherits m' q' o.
Proof.
  intros Hl Hm Ho Hp Hb Hi Hmax. destruct (ln_owner _ _ Hl id m o Hm Ho) as [pcb Hpcb].
  pose proof (owner_first _ _ _ _ Hi Hpcb) as Hfirst.
  pose proof Hi as [Hs Hh Hn Hf]. specialize (Hs _ Hpcb). specialize (Hh _ Hpcb).
  specialize (Hn _ Hpcb). assert (prio q o = priority pcb) as Hpo by (unfold prio; by rewrite Hpcb).
  assert (blocking_mutex pcb = None) as Hbp by (unfold blocks in Hb; by rewrite Hpcb in Hb).
  unfold wait_with_priority. run_M.
  rewrite insert_pcb_sorted_ok by (done || by eapply ln_waiting).
  cbv beta iota. set (l := l_insert _ _ _). case_decide as Hd.
  - assert (l = p :: waiting m /\ prio q p <= next_priority m) as [El Hle].
    { unfold l. destruct (waiting m) as [|x r]; cbn in *; [by rewrite Hf|].
      unfold is_highest_priority in *. case_bool_decide; [by rewrite Hf|].
      pose proof (l_insert_pos_nonneg (is_highest_priority q) p r).
      unfold is_highest_priority in *. lia. }
    run_M. rewrite lift_M, Ho. cbn [deref]. rewrite bind_M.
    rewrite (replace_first_ok fuel {[id]} q o pcb) by (done || apply Hl). run_M.
    set (q1 := set_pcbs _ q).
    assert (repriced_q q q1) as Hq1.
    { apply repriced_alter. intros x Hx. simplify_eq. split; [done|]. cbn.
      rewrite add_priority_length. apply remove_priority_length. }
    destruct (update_lowest_ok q1) as [n ->].
    { change (exec_list (exec q1)) with (exec_list (exec q)). eapply Forall_impl; [apply Hl|].
      intros x. by apply repriced_alive. }
    run_M. rewrite alter_insert_eq. eexists _, _. split; [done|].
    assert (pcbs q1 !! o = Some (set_priorities (Z.min (priority pcb) (prio q p))
      (add_priority (remove_priority_list (priority_list pcb) (next_priority m)) (prio q p)) pcb))
      as Hpcb1 by (cbn; by rewrite lookup_alter_eq, Hpcb).
    assert (forall x, x ≠ o -> prio q1 x = prio q x) as Hne
      by (intros x Hx; unfold prio; cbn; by rewrite lookup_alter_ne).
    split_and!.
    + etrans; [exact Hq1|]. apply repriced_set_lowest.
    + unfold prio at 1. cbn [pcbs set_exec]. rewrite Hpcb1. cbn. by rewrite Hpo.
    + exact Hne.
    + constructor; cbn [pcbs set_exec next_priority set_next waiting set_waiting];
        [intros x Hx; rewrite Hpcb1 in Hx; simplify_eq; cbn..|].
      * by apply add_priority_sorted, remove_priority_sorted.
      * by apply replaced_head.
      * apply elem_add_priority. by left.
      * rewrite El. change (prio (set_exec _ q1) p) with (prio q1 p).
        destruct (decide (p = o)) as [->|]; [|by rewrite Hne].
        unfold prio at 2. rewrite Hpcb1. cbn. rewrite Hpo. lia.
  - run_M. exists (set_waiting l m), q. split; [done|]. destruct (waiting m) as [|x r] eqn:Hw; [done|].
    cbn in Hd, Hf. unfold is_highest_priority in Hd. case_bool_decide as Hx; [done|].
    assert (exists r', l = x :: r') as [r' El].
    { unfold l. cbn. unfold is_highest_priority. rewrite bool_decide_false by done. eauto. }
    split_and!; [done|lia|done|]. constructor; [intros y Hy; simplify_eq; done..|].
    cbn [waiting set_waiting next_priority]. by rewrite El.
Qed.

Lemma inherits_same m m' q q' o :
  (forall x, priority_list <$> pcbs q' !! x = priority_list <$> pcbs q !! x) ->
  (forall x, prio q' x = prio q x) ->
  next_priority m' = next_priority m -> waiting m' = waiting m ->
  inherits m q o -> inherits m' q' o.
Proof.
  intros Hl Hp En Ew [H1 H2 H3 H4].
  assert (forall y, pcbs q' !! o = Some y -> exists z, pcbs q !! o = Some z /\
    priority_list y = priority_list z /\ priority y = priority z) as Hy.
  { intros y Hy. specialize (Hl o). specialize (Hp o). unfold prio in Hp. rewrite Hy in *.
    destruct (pcbs q !! o) as [z|]; [|done]. cbn in *. exists z. split_and!; congruence. }
  constructor.
  1-3: intros y (z & Hz & E1 & E2)%Hy; rewrite E1, ?E2, ?En; eauto.
  rewrite En, Ew, H4. destruct (waiting m); [done|]. by rewrite Hp.
Qed.

(** C27: Priority inheritance, with a single ready queue (a mutex beside a multilevel
    one is excluded) and [mutex_wf]: when a process in execution locks a mutex
    that uses priorities and whose owner is another process that waits for
    nothing and inherits from the first waiter so far, it waits, and the owner
    gets the better of the two priorities and inherits from the first waiter
    still. *)
Theorem mutex_lock_inherits fuel ms id m p o q :
  multilevel_queue (ready q) = false -> mutex_wf ms q -> state_of q p = Some PS_EXEC -> ms !! id = Some m ->
  current_process m = Some o -> priority_active m = true -> blocks q o = None ->
  inherits m q o -> prio q p <= INT_MAX -> (size ms <= fuel)%nat -> p ≠ o ->
  exists ms' q' m', list_mutex_lock fuel ms id p q = Ok (MR_WAITING_MUTEX, ms', q') /\
    prio q' o = Z.min (prio q o) (prio q p) /\
    ms' !! id = Some m' /\ inherits m' q' o.
Proof.
  intros Hsingle Hwf0 Hp Hm Ho Ha Hb Hi Hmax Hf Hne.
  assert (single_wf ms q) as Hwf by by apply single_wf_iff.
  assert (alive q p) as Hap by (destruct (state_pcb _ _ _ Hp) as (? & ? & _); by eexists).
  destruct fuel as [|fuel].
  { assert (size ms = 0)%nat as Hz%map_size_empty_inv by lia. subst. by rewrite lookup_empty in Hm. }
  pose proof (mx_state _ _ Hwf id m Hm) as Hst. rewrite Ho in Hst.
  pose proof (l_size_nonneg (waiting m)).
  destruct (wait_inherits fuel ms id m p o q (mutex_linked _ _ Hwf) Hm Ho Hap Hb Hi Hmax)
    as (m' & q1 & E & Hq & Hpo & Hpr & Hi').
  unfold list_mutex_lock. rewrite Hm. unfold mutex_lock. run_M.
  rewrite (get_priority_alive p q Hap). run_M. rewrite decide_False by lia. run_M.
  rewrite Ha, E. run_M.
  destruct (wait_mutex_ok q1 p id) as (q2 & q3 & E2 & E3 & _ & _ & _ & _ & Hl3 & Hp3).
  { by eapply repriced_wf; [apply Hwf|apply Hwf|]. }
  { rewrite (rp_ready _ _ Hq). apply Hwf. }
  { by rewrite (repriced_state q). }
  rewrite E2. run_M. rewrite E3. run_M. rewrite alter_insert_eq.
  eexists _, q3, _. split; [done|]. split; [by rewrite Hp3|].
  split; [by rewrite lookup_insert_eq|].
  eapply (inherits_same m' _ q1 q3); done.
Qed.
End inheritance.

(** ** The table of mutexes from the start *)

Section start.
Context {U : Type} `{!Transport U}.
Implicit Types (q : t_queues U) (ms : t_mutex_list).

Lemma mutex_wf_init q :
  sched_wf q -> multilevel_queue (ready q) = false ->
  map_Forall (fun _ pcb => blocking_mutex pcb = None /\ priority_list pcb ≠ []) (pcbs q) ->
  single_wf init_list_mutex q.
Proof.
  intros Hwf Hm Hall. constructor; try done.
  - intros p id Hb. unfold blocks in Hb. destruct (pcbs q !! p) as [pcb|] eqn:E; [|done].
    cbn in Hb. destruct (Hall p pcb E) as [E' _]. congruence.
  - intros p pcb E. destruct (Hall p pcb E) as [_ Hne]. change (owned init_list_mutex p) with 0%nat.
    destruct (priority_list pcb); [done|]. cbn [length]. lia.
Qed.

Lemma mutex_wf_same ms q q' : same_lists q q' -> single_wf ms q -> single_wf ms q'.
Proof.
  intros Hs [H1 H2 H3 H4 H5 H6 H7]. pose proof (same_lists_wf _ _ Hs H1) as Hwf.
  destruct Hs as (E1 & _ & E3 & _). unfold blocks, suspended_or_blocked, state_of, alive in *.
  constructor; unfold blocks, suspended_or_blocked, state_of, alive; rewrite ?E1, ?E3; try done.
Qed.

(** creating a mutex: a new name gets a free mutex and the invariant stays;
    a name in use is refused and nothing changes. *)
Theorem create_and_add_mutex_wf ms q id b :
  single_wf ms q ->
  single_wf (create_and_add_mutex ms id b).2 q /\
  match ms !! id with
  | Some _ => create_and_add_mutex ms id b = (MR_MUTEX_NAME_ALREADY_EXISTS, ms)
  | None => (create_and_add_mutex ms id b).1 = MR_MUTEX_CREATED /\
      (create_and_add_mutex ms id b).2 !! id = Some (mk_mutex INT_MAX b [] None 1)
  end.
Proof.
  intros Hwf. unfold create_and_add_mutex. destruct (ms !! id) as [m|] eqn:Hm; [done|].
  cbn [fst snd]. split; [|by rewrite lookup_insert_eq].
  assert (forall i x, <[id:=create_mutex b]> ms !! i = Some x ->
    x = create_mutex b \/ ms !! i = Some x) as Hins.
  { intros i x. destruct (decide (i = id)) as [->|];
      [rewrite lookup_insert_eq|rewrite lookup_insert_ne by done]; naive_solver. }
  constructor; try apply Hwf.
  - intros i x [->|Hx]%Hins; [done|by apply (mx_state _ _ Hwf i)].
  - intros i x y [->|Hx]%Hins Hy; [by apply elem_of_nil in Hy|by eapply mx_waiting].
  - intros y i Hy. destruct (mx_blocked _ _ Hwf y i Hy) as (x & Hx & Hin). exists x.
    split; [|done]. rewrite lookup_insert_ne; [done|]. intros ->. congruence.
  - intros i x [->|Hx]%Hins; [constructor|by eapply mx_nodup].
  - intros x pcb Hx. rewrite owned_new by done. unfold owns. rewrite decide_False by done.
    by apply (mx_lists _ _ Hwf).
Qed.
End start.

(** ** A run: process 0 of priority 5 and process 1 of priority 1 *)

Definition mutex_demo : t_queues wire :=
  let km := mk_wire (frame OP_PROCESS_STARTED (lit "ok") ++ frame OP_PROCESS_STARTED (lit "ok"))
              [] true in
  after dispatch_next (after dispatch_next
    (after (transition_new_ready 5 id (lit "b.prc") 1)
      (after (transition_new_ready 5 id (lit "a.prc") 5)
        (init_queues SA_FIFO [] 10 true (Some km) 1000)))).

Lemma after_new_wf fuel f prio0 (q : t_queues wire) :
  sched_wf q -> next_pid q < INT_MAX ->
  is_ok (transition_new_ready fuel id f prio0 q) = true ->
  sched_wf (after (transition_new_ready fuel id f prio0) q).
Proof.
  intros Hwf Hlt Hok. eapply (sched_step_wf fuel id q); [apply rely_id|done|].
  unfold after. destruct (transition_new_ready _ _ _ _ q) as [[r q']|] eqn:E; [|done].
  by eapply step_new.
Qed.

Lemma after_dispatch_wf (q : t_queues wire) :
  sched_wf q -> is_ok (dispatch_next q) = true -> sched_wf (after dispatch_next q).
Proof.
  intros Hwf Hok. eapply (sched_step_wf 5 id q); [apply rely_id|done|].
  unfold after. destruct (dispatch_next q) as [[r q']|] eqn:E; [|done].
  by eapply step_dispatch.
Qed.

Lemma mutex_demo_wf : sched_wf mutex_demo.
Proof.
  unfold mutex_demo. apply after_dispatch_wf; [apply after_dispatch_wf|];
    [apply after_new_wf; [apply after_new_wf; [apply init_queues_wf|..]|..]|..];
    vm_compute; reflexivity.
Qed.

Definition one_mutex : t_mutex_list := {[txt "m" := create_mutex true]}.

Lemma one_mutex_wf : single_wf one_mutex mutex_demo.
Proof.
  assert (single_wf init_list_mutex mutex_demo) as H.
  { apply mutex_wf_init; [apply mutex_demo_wf|vm_compute; reflexivity|].
    apply (bool_decide_unpack _). vm_compute. exact I. }
  unfold one_mutex.
  constructor; try apply H.
  - intros i x [_ <-]%lookup_singleton_Some. done.
  - intros i x y [_ <-]%lookup_singleton_Some Hy. by apply elem_of_nil in Hy.
  - intros y i Hy. destruct (mx_blocked _ _ H y i Hy) as (x & Hx & _).
    done.
  - intros i x [_ <-]%lookup_singleton_Some. constructor.
Qed.

(** Process 0 holds the mutex. *)
Definition held_demo : t_queues wire := after (insert_priority 0 INT_MAX) mutex_demo.
Definition held_mutex : t_mutex_list :=
  <[txt "m" := mk_mutex INT_MAX true [] (Some 0) 0]> one_mutex.

Lemma held_wf : single_wf held_mutex held_demo.
Proof.
  destruct (take_mutex_ok one_mutex (txt "m") (create_mutex true) 0 mutex_demo one_mutex_wf)
    as (q' & E & _ & H); [done|done|vm_compute; reflexivity|].
  unfold held_demo, after. rewrite E. exact H.
Qed.

Lemma list_mutex_lock_wf_witness :
  outcome (list_mutex_lock 5 held_mutex (txt "m") 1 held_demo) (fun r q' =>
    multilevel_queue (ready q') = false /\ mutex_wf r.2 q' /\ lock_answer held_mutex held_demo (txt "m") 1 r.1 r.2 q').
Proof.
  apply (list_mutex_lock_wf 5 held_mutex (txt "m") 1 held_demo).
  - vm_compute. reflexivity.
  - apply single_wf_iff, held_wf.
  - vm_compute. reflexivity.
  - vm_compute. lia.
Defined.

Lemma create_and_add_mutex_wf_witness :
  single_wf (create_and_add_mutex held_mutex (txt "n") true).2 held_demo /\
  (create_and_add_mutex held_mutex (txt "n") true).1 = MR_MUTEX_CREATED.
Proof.
  destruct (create_and_add_mutex_wf held_mutex held_demo (txt "n") true held_wf) as [H1 H2].
  split; [exact H1|]. vm_compute. reflexivity.
Defined.

Lemma mutex_lock_inherits_witness :
  exists ms' q' m', list_mutex_lock 5 held_mutex (txt "m") 1 held_demo
      = Ok (MR_WAITING_MUTEX, ms', q') /\
    prio q' 0 = 1 /\ ms' !! txt "m" = Some m' /\ inherits m' q' 0.
Proof.
  apply (mutex_lock_inherits 5 held_mutex (txt "m") (mk_mutex INT_MAX true [] (Some 0) 0) 1 0
    held_demo); try (vm_compute; reflexivity).
  - apply single_wf_iff, held_wf.
  - constructor; try (vm_compute; reflexivity); intros pcb H; vm_compute in H;
      injection H as <-; cbn; [repeat constructor; lia|done|set_solver].
  - vm_compute. congruence.
  - vm_compute. lia.
  - lia.
Defined.

(** Process 1 waits for the mutex of process 0. *)
Definition waited_demo : t_queues wire :=
  after (list_mutex_lock 5 held_mutex (txt "m") 1) held_demo.
Definition waited_mutex : t_mutex_list :=
  match list_mutex_lock 5 held_mutex (txt "m") 1 held_demo with
  | Ok (_, ms, _) => ms | Undef _ => held_mutex end.

Lemma after_lock_wf ms id p (q : t_queues wire) :
  single_wf ms q -> state_of q p = Some PS_EXEC -> (size ms <= 5)%nat ->
  is_ok (list_mutex_lock 5 ms id p q) = true ->
  single_wf (match list_mutex_lock 5 ms id p q with Ok (_, ms', _) => ms' | Undef _ => ms end)
    (after (list_mutex_lock 5 ms id p) q).
Proof.
  intros Hwf Hp Hs Hok. pose proof (list_mutex_lock_ok 5 ms id p q Hwf Hp Hs) as H.
  unfold after. destruct (list_mutex_lock 5 ms id p q) as [[[ret ms'] q']|u]; [apply H|done].
Qed.

Lemma waited_wf : single_wf waited_mutex waited_demo.
Proof.
  apply after_lock_wf; [apply held_wf|vm_compute; reflexivity|vm_compute; lia|vm_compute; reflexivity].
Qed.

(** Process 1 gets it. *)
Lemma list_mutex_unlock_wf_witness :
  waiting <$> waited_mutex !! txt "m" = Some [1] /\
  exists ret ms' q', list_mutex_unlock waited_mutex (txt "m") 0 waited_demo = Ok (ret, ms', q') /\
    multilevel_queue (ready q') = false /\ mutex_wf ms' q' /\
    unlock_answer waited_mutex waited_demo (txt "m") 0 ret ms' q'.
Proof.
  split; [vm_compute; reflexivity|].
  apply (list_mutex_unlock_wf waited_mutex (txt "m") 0 waited_demo).
  - vm_compute. reflexivity.
  - apply single_wf_iff, waited_wf.
  - vm_compute. reflexivity.
Defined.

(** Unlocking hands the mutex over: process 1 is ready and process 0 has its
    own priority again. *)
Example unlock_hands_over :
  match list_mutex_unlock waited_mutex (txt "m") 0 waited_demo with
  | Ok (MR_MUTEX_UNLOCKED, ms, q) =>
      current_process <$> ms !! txt "m" = Some (Some 1) /\
      state_of q 1 = Some PS_READY /\ prio waited_demo 0 = 1 /\ prio q 0 = 5
  | _ => False
  end.
Proof. vm_compute. done. Qed.

(** Of two waiters of one priority the one that asked later comes first. *)
Definition three_started : list byte :=
  let ok := frame OP_PROCESS_STARTED (lit "ok") in ok ++ ok ++ ok.

Definition two_waiters : M wire (list Z) :=
  _ ← transition_new_ready 5 id (lit "a.prc") 5;
  _ ← transition_new_ready 5 id (lit "b.prc") 5;
  _ ← transition_new_ready 5 id (lit "c.prc") 5;
  _ ← dispatch_next; _ ← dispatch_next; _ ← dispatch_next;
  '(_, ms) ← list_mutex_lock 5 one_mutex (txt "m") 0;
  '(_, ms) ← list_mutex_lock 5 ms (txt "m") 1;
  '(_, ms) ← list_mutex_lock 5 ms (txt "m") 2;
  '(_, ms) ← list_mutex_unlock ms (txt "m") 0;
  mret (option_list (ms !! txt "m" ≫= current_process) ++ default [] (waiting <$> ms !! txt "m")).

Lemma later_waiter_first :
  fst <$> (match two_waiters (init_queues SA_FIFO [] 10 true
             (Some (mk_wire three_started [] true)) 1000) with Ok r => Some r | Undef _ => None end)
  = Some [2; 1].
Proof. vm_compute. reflexivity. Qed.

(** ** What goes wrong *)

Section dangling.
Context {U : Type} `{!Transport U}.
Implicit Types (q : t_queues U) (ms : t_mutex_list).

(** a process that ends while it holds a mutex leaves the mutex to a
    destroyed PCB: the next process that locks it follows the dangling pointer
    to raise the priority of its owner. *)
Theorem owner_exit_dangles fuel fuel' interfere ms id m p x reason q q1 :
  rely interfere -> mutex_wf ms q -> ms !! id = Some m -> current_process m = Some p ->
  priority_active m = true -> waiting m = [] -> state_of q p = Some PS_EXEC ->
  transition_exec_exit fuel interfere p reason q = Ok (tt, q1) ->
  state_of q1 x = Some PS_EXEC ->
  list_mutex_lock fuel' ms id x q1 = Undef Dangling.
Proof.
  intros Hr Hwf Hm Hc Ha Hw Hp E Hx.
  destruct (transition_exec_exit_wf fuel interfere p reason q tt q1 Hr (mw_sched _ _ Hwf) E)
    as [_ [[_ Hdead]|[Hne _]]]; [|done].
  pose proof (mw_state _ _ Hwf id m Hm) as Hs. rewrite Hc, Hw in Hs. destruct Hs as [_ Hs].
  destruct (state_pcb _ _ _ Hx) as (pcb & Hpcb & _).
  unfold list_mutex_lock. rewrite Hm. unfold mutex_lock. run_M.
  rewrite get_priority_alive by (by eexists). run_M.
  rewrite decide_False by (rewrite Hs; done). run_M. rewrite Ha.
  unfold wait_with_priority. rewrite Hw. cbn [insert_pcb_sorted]. run_M.
  rewrite decide_True by done. run_M. rewrite Hc, lift_M. cbn [deref].
  unfold replace_priority. run_M. unfold get_pcb.
  destruct (pcbs q1 !! p) as [y|] eqn:Hy; [|done]. destruct Hdead. by eexists.
Qed.
End dangling.

Definition dangling_demo : t_queues wire :=
  set_km_socket (Some (mk_wire (frame OP_PROCESS_SIZE (int_bytes 0)) [] true)) held_demo.

Lemma owner_exit_dangles_witness :
  exists q1, transition_exec_exit 5 id 0 PER_EXIT_INSTRUCTION dangling_demo = Ok (tt, q1) /\
    list_mutex_lock 5 held_mutex (txt "m") 1 q1 = Undef Dangling.
Proof.
  eexists. split; [vm_compute; reflexivity|].
  eapply (owner_exit_dangles 5 5 id held_mutex (txt "m") (mk_mutex INT_MAX true [] (Some 0) 0) 0 1
    PER_EXIT_INSTRUCTION dangling_demo); try (vm_compute; reflexivity).
  - apply rely_id.
  - apply single_wf_iff. apply (mutex_wf_same _ held_demo); [|apply held_wf].
    unfold dangling_demo. by generalize held_demo.
Defined.

(** Two processes that wait for each other, and a third, of better priority,
    that asks for one of the two mutexes: the scheduler's thread follows the
    owners round the circle and locks a [mtx_t] it already holds. *)
Definition circle : M wire t_mutex_result :=
  _ ← transition_new_ready 5 id (lit "a.prc") 7;
  _ ← transition_new_ready 5 id (lit "b.prc") 5;
  _ ← transition_new_ready 5 id (lit "c.prc") 1;
  _ ← dispatch_next; _ ← dispatch_next; _ ← dispatch_next;
  let ms := (create_and_add_mutex (create_and_add_mutex ∅ (txt "a") true).2 (txt "b") true).2 in
  '(_, ms) ← list_mutex_lock 5 ms (txt "a") 0;
  '(_, ms) ← list_mutex_lock 5 ms (txt "b") 1;
  '(_, ms) ← list_mutex_lock 5 ms (txt "b") 0;
  '(_, ms) ← list_mutex_lock 5 ms (txt "a") 1;
  '(r, ms) ← list_mutex_lock 5 ms (txt "a") 2; mret r.

Example circular_wait_deadlocks :
  circle (init_queues SA_FIFO [] 10 true (Some (mk_wire three_started [] true)) 1000)
  = Undef Deadlock.
Proof. vm_compute. reflexivity. Qed.
