(* ===== verification/Routines.v ===== *)
(** * Routines: kernel_scheduler/src/kernel_scheduler/scheduler/compaction.c, the
      worker threads of scheduler/suspension.c, and syscalls/memory.c

    The threads that suspend, resume and compact beside the CPUs' threads, and
    the memory system calls that start them.  Each critical section is one
    step; [interfere] is what the other threads do while one waits. *)

From Stdlib Require Import Strings.Byte Strings.String.
From S2P Require Import Prelude Bytes Msg Text Structs SchedState Pcb ReadyQueue.
From S2P Require Import ProcessLists KmReply Queues QueuesWf.

Definition u64 (x : Z) : Z := x mod 18446744073709551616.

Section routines.
Context {U : Type} `{!Transport U}.
Context (fuel : nat) (interfere : t_queues U -> t_queues U).
Implicit Types (q : t_queues U).

(** ** compaction.c *)

Definition terminate_routines : M U unit :=
  modify (set_routines (set_terminate_routines true)).

Definition routine_enter : M U unit :=
  _ ← wait interfere (fun q => negb (routine_active (routines q)));
  modify (set_routines (set_routine_active true)).

Definition routine_leave : M U unit :=
  modify (set_routines (set_routine_active false)).

(** What [routine_enter] and [routine_leave] surround in both routines. *)
Definition as_routine (body : M U unit) : M U unit :=
  _ ← routine_enter;
  r ← gets routines;
  _ ← when (negb (SchedState.terminate_routines r)) body;
  routine_leave.

Definition lock_all : M U unit :=
  _ ← lock_queue_ready;
  _ ← lock_threads_suspended;
  wait_queue_exec_empty_with_syscalls.

Definition compaction_finished : M U bool :=
  op ← receive_km_opcode fuel [OP_COMPACTION_DONE];
  if decide (op = op_value OP_CODE_ERROR) then mret false
  else _ ← km_skip_string; mret true.

Definition compaction : M U unit :=
  ok ← km_send_string OP_CAN_COMPACT (lit "Start compaction");
  if negb ok then close_kernel_scheduler fuel SR_KERNEL_MEMORY_SEND_ERROR
  else _ ← compaction_finished; mret tt.

Definition create_thread_unlock_queue_ready : M U unit :=
  _ ← increment_thread_counter;
  modify (set_routines (fun r => set_spawned (resumptions r) (S (unlockers r)) r)).

Definition routine_compaction : M U unit :=
  compacting ← set_is_compacting true;
  if (compacting : bool) then mret tt else
  as_routine (
    _ ← lock_all;
    _ ← compaction;
    _ ← set_is_compacting false;
    _ ← create_thread_unlock_queue_ready;
    create_resumption_routine_thread).

(** The first process of the list, [NULL] when it is empty. *)
Definition remove_of_the_list : M U bool :=
  b ← gets susp_ready;
  p ← lift (deref (l_get (bl_list b) 0));
  st ← get_state_pcb p;
  if decide (st = PS_SUSP_READY) then transition_susp_ready fuel p else mret true.

Fixpoint resumption_routine (n : nat) : M U unit :=
  match n with
  | O => lift (Undef OutOfFuel)
  | S n =>
      empty ← blocking_list_is_empty susp_ready;
      if (empty : bool) then mret tt else
      compacting ← is_compacting;
      if (compacting : bool) then mret tt else
      keep_running ← remove_of_the_list;
      if (keep_running : bool) then resumption_routine n else mret tt
  end.

(** A spawned thread: it starts, and is counted until it ends. *)
Definition resumption_routine_thread (n : nat) : M U unit :=
  _ ← modify (set_routines (fun r => set_spawned (pred (resumptions r)) (unlockers r) r));
  _ ← as_routine (
    _ ← lock_threads_suspended;
    _ ← resumption_routine n;
    _ ← set_is_resuming false;
    unlock_threads_suspended);
  decrement_thread_counter.

Definition thread_unlock_queue_ready : M U unit :=
  _ ← modify (set_routines (fun r => set_spawned (resumptions r) (pred (unlockers r)) r));
  _ ← wait_queue_exec_empty interfere;
  compacting ← is_compacting;
  _ ← when (negb compacting) unlock_queue_ready;
  decrement_thread_counter.

(** ** suspension.c: the suspender *)

Definition set_suspender st : M U unit :=
  modify (set_routines (fun r => set_workers st (resumer r) r)).
Definition set_resumer st : M U unit :=
  modify (set_routines (fun r => set_workers (suspender r) st r)).

(** The loop over the blocked processes: the first with bytes in memory. *)
Fixpoint first_in_memory (l : list Z) : M U (option Z) :=
  match l with
  | [] => mret None
  | p :: r =>
      size_in_memory ← process_size_no_logger fuel p;
      if decide (0 < size_in_memory)
      then _ ← increment_active_instances p; mret (Some p)
      else first_in_memory r
  end.

Definition get_process_blocked : M U (option Z) :=
  b ← gets block;
  p ← first_in_memory (bl_list b);
  match p with
  | Some p => mret (Some p)
  | None =>
      _ ← modify (set_block (set_new_process false));
      _ ← set_suspender TS_WAITING_PROCESS; mret None
  end.

(** The sleep of a process that was blocked too recently is left out. *)
Definition run_suspend_process (p : Z) : M U unit :=
  q ← gets id;
  pcb ← get_pcb p;
  let sleep_time := u64 (clock q - blocked_time pcb) in
  let must_suspend := bool_decide (u64 (suspension_timeout (routines q)) <= sleep_time) in
  _ ← when (must_suspend && bool_decide (state pcb = PS_BLOCK))
        (transition_block_susp_block fuel p);
  decrement_active_instances p.

(** [cnd_wait], woken for whatever reason, only when [may_wait]. *)
Definition wait_once (may_wait : bool) : M U unit := when may_wait (modify interfere).

Definition wait_process_blocked : M U unit :=
  b ← gets block;
  _ ← wait_once (negb (new_process b));
  empty ← blocking_list_is_empty block;
  r ← gets routines;
  when (negb empty && bool_decide (suspender r = TS_WAITING_PROCESS)) (set_suspender TS_RUNNING).

(** One round of [thread_suspender]: whether to keep running. *)
Definition thread_suspender_step : M U bool :=
  r ← gets routines;
  match suspender r with
  | TS_RUNNING =>
      p ← get_process_blocked;
      _ ← (match p with Some p => run_suspend_process p | None => mret tt end);
      mret true
  | TS_WAITING_PROCESS => _ ← wait_process_blocked; mret true
  | TS_BLOCKED =>
      _ ← wait interfere (fun q => negb (bool_decide (suspender (routines q) = TS_BLOCKED)));
      mret true
  | TS_FINISHING => mret false
  | TS_FINISHED => mret true
  end.

(** ** suspension.c: the resumer *)

Definition get_process_susp_ready : M U (option Z) :=
  b ← gets susp_ready;
  match bl_list b with
  | p :: _ => _ ← increment_active_instances p; mret (Some p)
  | [] => _ ← set_resumer TS_WAITING_PROCESS; mret None
  end.

Definition resume_suspended_process (p : Z) : M U unit :=
  st ← get_state_pcb p;
  succeeded ← (if decide (st = PS_SUSP_READY) then transition_susp_ready fuel p
               else mret false);
  _ ← decrement_active_instances p;
  when (negb succeeded)
    (modify (set_routines (fun r => set_workers (suspender r) (lock_worker (resumer r)) r))).

Definition wait_process_susp_ready : M U unit :=
  empty ← blocking_list_is_empty susp_ready;
  _ ← wait_once empty;
  empty ← blocking_list_is_empty susp_ready;
  r ← gets routines;
  when (negb empty && bool_decide (resumer r = TS_WAITING_PROCESS)) (set_resumer TS_RUNNING).

(** One round of [thread_resumer]. *)
Definition thread_resumer_step : M U bool :=
  r ← gets routines;
  match resumer r with
  | TS_RUNNING =>
      p ← get_process_susp_ready;
      _ ← (match p with Some p => resume_suspended_process p | None => mret tt end);
      mret true
  | TS_WAITING_PROCESS => _ ← wait_process_susp_ready; mret true
  | TS_BLOCKED =>
      _ ← wait interfere (fun q => negb (bool_decide (resumer (routines q) = TS_BLOCKED)));
      mret true
  | TS_FINISHING => mret false
  | TS_FINISHED => mret true
  end.

(** [terminate_thread_suspended] of both, then both are joined. *)
Definition terminate_threads_suspended : M U unit :=
  _ ← modify (set_routines (set_workers TS_FINISHING TS_FINISHING));
  modify (set_routines (set_workers TS_FINISHED TS_FINISHED)).

(** ** syscalls/memory.c *)

(** [int] compared with [uint32_t]. *)
Definition has_space (mem_alloc : t_syscall_memory) : M U bool :=
  space ← space_available_no_mutex fuel;
  mret (bool_decide (sm_size mem_alloc <= u32 space)).

(** [response_km_mem_alloc]; it calls itself after a compaction. *)
Fixpoint response_km_mem_alloc (n : nat) : M U bool :=
  match n with
  | O => lift (Undef OutOfFuel)
  | S n =>
      op_code ← receive_km_opcode fuel [OP_MEMORY_ALLOCATED; OP_SEGMENT_SIZE_EXCEEDED;
        OP_NOT_ENOUGH_MEMORY; OP_COMPACTION_NEEDED];
      match op_of_value op_code with
      | Some OP_MEMORY_ALLOCATED => _ ← km_skip_string; mret true
      | Some OP_SEGMENT_SIZE_EXCEEDED => _ ← km_skip_string; mret false
      | Some OP_NOT_ENOUGH_MEMORY => _ ← km_skip_string; mret false
      | Some OP_COMPACTION_NEEDED =>
          _ ← km_skip_string; _ ← routine_compaction; response_km_mem_alloc n
      | _ => mret true
      end
  end.

Definition allocate_memory (n : nat) (mem_alloc : t_syscall_memory) : M U bool :=
  space ← has_space mem_alloc;
  if negb space then mret false else
  comms ← km_send (send_buffer OP_CREATE_SEGMENT (syscall_memory_bytes mem_alloc));
  if negb comms then
    _ ← close_kernel_scheduler fuel SR_KERNEL_MEMORY_SEND_ERROR; mret false
  else response_km_mem_alloc n.

Definition response_km_mem_free : M U bool :=
  op ← receive_km_opcode fuel [OP_MEMORY_FREED];
  if decide (op = op_value OP_CODE_ERROR) then mret false
  else _ ← km_skip_string; mret true.

Definition free_memory (mem_free : t_syscall_memory) : M U bool :=
  comms ← km_send (send_buffer OP_DELETE_SEGMENT (syscall_memory_bytes mem_free));
  if negb comms then
    _ ← close_kernel_scheduler fuel SR_KERNEL_MEMORY_SEND_ERROR; mret false
  else
    comms ← response_km_mem_free;
    _ ← create_resumption_routine_thread; mret comms.
End routines.

(** ** What a transition leaves alone beside the lists *)

(** The kind of ready queue and the next pid. *)
Definition same_kind {U} (q q' : t_queues U) : Prop :=
  multilevel_queue (ready q') = multilevel_queue (ready q) /\ next_pid q' = next_pid q.

#[export] Instance same_kind_preorder {U} : PreOrder (same_kind (U := U)).
Proof. unfold same_kind. split; repeat intro; naive_solver congruence. Qed.

Section kind.
Context {U : Type} `{!Transport U}.
Abbreviation kept := (same_kind (U := U)).

Lemma kind_same_lists {A} (m : M U A) : keeps same_lists m -> keeps kept m.
Proof. intros Hm q a q' H. apply Hm in H as (_ & En & Er & _). split; [by rewrite Er|done]. Qed.

Lemma kind_get_pcb p : keeps kept (get_pcb (U := U) p).
Proof. intros q pcb q' H. by apply get_pcb_Ok in H as [-> _]. Qed.
Lemma kind_update_pcb p f : keeps kept (update_pcb (U := U) p f).
Proof. intros q r q' H. by apply update_pcb_Ok in H as [_ ->]. Qed.
#[local] Hint Extern 3 (keeps same_kind _) =>
  solve [apply kind_same_lists; auto with nocore keeps] : keeps.
#[local] Hint Resolve kind_get_pcb kind_update_pcb : keeps.

Lemma kind_manage_state p a b : keeps kept (manage_state_pcb (U := U) p a b).
Proof. unfold manage_state_pcb, get_state_pcb. keeps_tac. Qed.
Lemma kind_insert_pcb l p : keeps kept (insert_pcb_sorted (U := U) l p).
Proof. intros q r q' H. by apply insert_pcb_sorted_Ok in H as [-> _]. Qed.

Lemma to_ready_keeps_kind p prio0 r r' :
  to_ready p prio0 r = Ok r' -> multilevel_queue r' = multilevel_queue r.
Proof.
  unfold to_ready, alter_subqueue. intros H.
  case_decide; destruct (l_get _ _); by simplify_eq.
Qed.

Lemma kind_to_ready p : keeps kept (transition_to_ready (U := U) p).
Proof.
  intros q r q' H. apply to_ready_Ok in H as (r' & Ht & ->). split; [|done].
  by apply to_ready_keeps_kind in Ht.
Qed.
#[local] Hint Resolve kind_manage_state kind_insert_pcb kind_to_ready : keeps.

Lemma kind_block_susp_block fuel p : keeps kept (transition_block_susp_block (U := U) fuel p).
Proof.
  unfold transition_block_susp_block, get_state_pcb, transition_take_block,
    transition_to_susp_block. keeps_tac.
Qed.
Lemma kind_susp_ready fuel p : keeps kept (transition_susp_ready (U := U) fuel p).
Proof. unfold transition_susp_ready, get_state_pcb, transition_take_susp_ready. keeps_tac. Qed.
Lemma kind_unlock p : keeps kept (transition_unlock (U := U) p).
Proof.
  unfold transition_unlock, transition_block_ready, transition_susp_block_susp_ready,
    get_state_pcb, transition_take_block, transition_take_susp_block,
    transition_to_susp_ready, when. keeps_tac.
Qed.

End kind.

(** ** The routines keep the queues' invariant *)

(** Processes that no routine touches: those that run, and those that another
    thread is creating or ending. *)
Definition settled (st : t_process_state) : bool :=
  match st with PS_EXEC | PS_NEW | PS_EXIT => true | _ => false end.

(** The invariant is kept and those processes are left alone. *)
Record left_alone {U} (q q' : t_queues U) : Prop := {
  la_wf : sched_wf q';
  la_settled : forall p st, settled st = true -> state_of q p = Some st -> state_of q' p = Some st;
  la_kind : same_kind q q' }.

Definition run_kept {U} (q q' : t_queues U) : Prop := sched_wf q -> left_alone q q'.

#[export] Instance run_kept_preorder {U} : PreOrder (run_kept (U := U)).
Proof.
  split; [intros q Hwf; by constructor|]. intros q1 q2 q3 H12 H23 Hwf.
  destruct (H12 Hwf) as [H1 H2 H3]. destruct (H23 H1) as [H1' H2' H3'].
  constructor; [done|auto|by etrans].
Qed.

(** Waiting, the other threads do only that. *)
Definition rely_run {U} (interfere : t_queues U -> t_queues U) : Prop :=
  forall q, run_kept q (interfere q).

Lemma rr_rely {U} (interfere : t_queues U -> t_queues U) : rely_run interfere -> rely interfere.
Proof.
  intros Hi. split.
  - intros q Hwf. apply (Hi q Hwf).
  - intros q p st Hwf Hl. apply (la_settled _ _ (Hi q Hwf)). by destruct st.
Qed.

Lemma rr_spares {U} (interfere : t_queues U -> t_queues U) p :
  rely_run interfere -> spares interfere p (Some PS_EXEC).
Proof. intros Hi q Hwf. by apply (la_settled _ _ (Hi q Hwf)). Qed.

Lemma rely_run_id {U} : rely_run (fun q : t_queues U => q).
Proof. intros q. reflexivity. Qed.

Section kept.
Context {U : Type} `{!Transport U}.
Implicit Types (q : t_queues U).
Abbreviation kept := run_kept.

Lemma keeps_wf {A} (m : M U A) : keeps same_lists m -> keeps kept m.
Proof.
  intros H q a q' E Hwf. apply H in E. pose proof E as (E1 & E2 & E3 & _).
  constructor; [by eapply same_lists_wf| |by split; [rewrite E3|]].
  intros p st _. unfold state_of. by rewrite E1.
Qed.

(** Two states that show the same queues. *)
Lemma same_view_wf q q' :
  (forall st, pids_in q' st = pids_in q st) -> (forall p, state_of q' p = state_of q p) ->
  (forall p, prio q' p = prio q p) -> next_pid q' = next_pid q ->
  queues (ready q') = queues (ready q) ->
  multilevel_queue (ready q') = multilevel_queue (ready q) ->
  (ready_wf (ready q) -> ready_wf (ready q')) -> kept q q'.
Proof.
  intros Ep Es Epr En Eq Em Hr [H1 H2 H3 H4 H5]. apply Hr in H1.
  split; [|intros p st _; by rewrite Es|done].
  assert (forall p, alive q' p -> alive q p) as Ha.
  { intros p Hp. specialize (Es p). unfold state_of, alive in *.
    destruct (pcbs q' !! p); [|by destruct Hp]. destruct (pcbs q !! p); [by eexists|done]. }
  constructor; [done| | |intros p Hp; rewrite En; auto|by rewrite En].
  - destruct H2 as [Hn Hin]. split; intros; rewrite Ep; [done|]. by rewrite Es.
  - intros Hm. rewrite Em in Hm. destruct (H3 Hm) as [Hp1 Hp2]. split.
    + intros i p Hin. rewrite Epr. apply Hp1. unfold in_subqueue in *. by rewrite Eq in Hin.
    + intros p Hp Hn He. rewrite Epr. unfold queue_count. rewrite Eq. rewrite Es in Hn, He.
      apply Hp2; auto.
Qed.

Lemma keeps_update_instances p n :
  keeps kept (update_pcb (U := U) p (fun pcb => set_active_instances (n pcb) pcb)).
Proof.
  intros q r q' H. apply update_pcb_Ok in H as [_ ->].
  apply (same_view_wf q); try done.
  - intros x. rewrite state_of_alter. case_decide as E; [|done]. subst x.
    unfold state_of. by destruct (pcbs q !! p).
  - intros x. by apply prio_alter.
Qed.

Lemma keeps_set_ready f :
  (forall r : t_ready_queue, queues (f r) = queues r /\
     multilevel_queue (f r) = multilevel_queue r /\
     ready_process_count (f r) = ready_process_count r /\
     highest_priority (f r) = highest_priority r) ->
  keeps kept (modify (set_ready (U := U) f)).
Proof.
  intros Hf q r q' H. rewrite modify_M in H. simplify_eq.
  destruct (Hf (ready q)) as (E1 & E2 & E3 & E4).
  apply (same_view_wf q); try done.
  - intros []; try done. cbn. unfold ready_pids. by rewrite E1.
  - intros [R1 R2 R3]. constructor; cbn; unfold ready_pids;
      rewrite ?E1, ?E2, ?E3, ?E4; auto.
Qed.

Lemma keeps_lock_queue : keeps kept (lock_queue_ready (U := U)).
Proof. by apply keeps_set_ready. Qed.

Lemma keeps_unlock_queue : keeps kept (unlock_queue_ready (U := U)).
Proof. by apply keeps_set_ready. Qed.

Lemma keeps_set_new_process b : keeps kept (modify (set_block (U := U) (set_new_process b))).
Proof.
  intros q r q' H. rewrite modify_M in H. simplify_eq.
  by apply (same_view_wf q); try intros [].
Qed.

Lemma keeps_set_routines f : keeps kept (modify (set_routines (U := U) f)).
Proof. apply keeps_wf, keeps_modify. by intros q. Qed.

Lemma keeps_get_pcb p : keeps kept (get_pcb (U := U) p).
Proof. intros q pcb q' H. by apply get_pcb_Ok in H as [-> _]. Qed.

Lemma keeps_block_susp_block fuel p : keeps kept (transition_block_susp_block (U := U) fuel p).
Proof.
  intros q r q' H Hwf. pose proof (kind_block_susp_block _ _ _ _ _ H) as Hk.
  apply transition_block_susp_block_wf in H as [Hwf' [H|[Hp H]]]; [..|done];
    (split; [done| |done]); intros x st Hst Hx; [by rewrite H|].
  rewrite H. case_decide; [|done]. subst. rewrite Hx in Hp. by simplify_eq.
Qed.

Lemma keeps_susp_ready fuel p : keeps kept (transition_susp_ready (U := U) fuel p).
Proof.
  intros q r q' H Hwf. pose proof (kind_susp_ready _ _ _ _ _ H) as Hk.
  apply transition_susp_ready_wf in H as [Hwf' [[_ H]|(_ & Hp & H)]]; [..|done];
    (split; [done| |done]); intros x st Hst Hx; [by rewrite H|].
  rewrite H. case_decide; [|done]. subst. rewrite Hx in Hp. by simplify_eq.
Qed.

Lemma keeps_unlock p : keeps kept (transition_unlock (U := U) p).
Proof.
  intros q r q' H Hwf. pose proof (kind_unlock _ _ _ _ H) as Hk.
  apply transition_unlock_wf in H as [[Hwf' Hs]|[Hwf' Hs]]; [..|done];
    (split; [done| |done]); intros y st Hst Hy;
    (destruct Hs as [[Hp Hs]|[_ ->]]; [|done]); rewrite Hs;
    (case_decide; [|done]); subst; rewrite Hy in Hp; by simplify_eq.
Qed.

Lemma keeps_wait interfere cond : rely_run interfere -> keeps kept (wait (U := U) interfere cond).
Proof.
  intros Hr q r q' H. unfold wait in H. destruct (cond q); [by simplify_eq|].
  destruct (cond (interfere q)); [|done]. simplify_eq. apply Hr.
Qed.
End kept.

#[export] Hint Resolve keeps_lock_queue keeps_unlock_queue keeps_set_new_process
  keeps_set_routines keeps_get_pcb keeps_block_susp_block keeps_susp_ready keeps_unlock keeps_wait : keeps.
#[export] Hint Extern 3 (keeps run_kept _) =>
  solve [apply keeps_wf; auto with nocore keeps] : keeps.

Section wf.
Context {U : Type} `{!Transport U}.
Context (fuel : nat) (interfere : t_queues U -> t_queues U) (Hrely : rely_run interfere).
Implicit Types (q : t_queues U).
Abbreviation kept := run_kept.

Lemma keeps_increment_instances p : keeps kept (increment_active_instances (U := U) p).
Proof. apply keeps_update_instances. Qed.
Lemma keeps_decrement_instances p : keeps kept (decrement_active_instances (U := U) p).
Proof. apply keeps_update_instances. Qed.
#[local] Hint Resolve keeps_increment_instances keeps_decrement_instances : keeps.

Lemma keeps_wait_once b : keeps kept (wait_once interfere b).
Proof using Hrely.
  destruct b; [|apply keeps_ret; apply _]. intros q r q' H.
  unfold wait_once in H. cbn [when] in H. rewrite modify_M in H. simplify_eq. apply Hrely.
Qed.

Lemma keeps_as_routine body : keeps kept body -> keeps kept (as_routine interfere body).
Proof using Hrely.
  intros Hb. unfold as_routine, routine_enter, routine_leave. keeps_tac.
Qed.

Lemma keeps_first_in_memory l : keeps kept (first_in_memory (U := U) fuel l).
Proof. induction l; cbn [first_in_memory]; keeps_tac. Qed.
#[local] Hint Resolve keeps_wait_once keeps_first_in_memory : keeps.

Lemma keeps_thread_suspender_step : keeps kept (thread_suspender_step fuel interfere).
Proof using Hrely.
  unfold thread_suspender_step, get_process_blocked, run_suspend_process,
    wait_process_blocked, blocking_list_is_empty, set_suspender. keeps_tac.
Qed.

Lemma keeps_thread_resumer_step : keeps kept (thread_resumer_step fuel interfere).
Proof using Hrely.
  unfold thread_resumer_step, get_process_susp_ready, resume_suspended_process,
    wait_process_susp_ready, blocking_list_is_empty, set_resumer, get_state_pcb. keeps_tac.
Qed.

Lemma keeps_resumption_routine n : keeps kept (resumption_routine (U := U) fuel n).
Proof.
  induction n; cbn [resumption_routine]; [keeps_tac|].
  unfold remove_of_the_list, blocking_list_is_empty, is_compacting, get_state_pcb. keeps_tac.
Qed.

Lemma keeps_resumption_routine_thread n :
  keeps kept (resumption_routine_thread fuel interfere n).
Proof using Hrely.
  unfold resumption_routine_thread, decrement_thread_counter.
  apply keeps_bind; [apply _|keeps_tac|intros _].
  apply keeps_bind; [apply _| |intros _; keeps_tac]. apply keeps_as_routine.
  unfold lock_threads_suspended, unlock_threads_suspended, set_is_resuming.
  pose proof (keeps_resumption_routine n). keeps_tac.
Qed.

Lemma keeps_thread_unlock : keeps kept (thread_unlock_queue_ready interfere).
Proof using Hrely.
  unfold thread_unlock_queue_ready, wait_queue_exec_empty, is_compacting,
    decrement_thread_counter. keeps_tac.
Qed.

Lemma keeps_routine_compaction : keeps kept (routine_compaction fuel interfere).
Proof using Hrely.
  unfold routine_compaction, set_is_compacting.
  apply keeps_bind; [apply _|keeps_tac|]. intros []; [keeps_tac|]. apply keeps_as_routine.
  unfold lock_all, compaction, compaction_finished, lock_threads_suspended,
    wait_queue_exec_empty_with_syscalls, set_is_compacting,
    create_thread_unlock_queue_ready, increment_thread_counter. keeps_tac.
Qed.
#[local] Hint Resolve keeps_routine_compaction : keeps.

Lemma keeps_allocate_memory n a : keeps kept (allocate_memory fuel interfere n a).
Proof using Hrely.
  assert (keeps kept (response_km_mem_alloc fuel interfere n))
    by (induction n; cbn [response_km_mem_alloc]; keeps_tac).
  unfold allocate_memory, has_space. keeps_tac.
Qed.

Lemma keeps_free_memory a : keeps kept (free_memory (U := U) fuel a).
Proof. unfold free_memory, response_km_mem_free. keeps_tac. Qed.
End wf.

(** ** Two ways these go wrong *)

Section wrong.
Context {U : Type} `{!Transport U}.
Context (fuel : nat) (interfere : t_queues U -> t_queues U).
Implicit Types (q : t_queues U).

(** The [-1] of a failed request is compared as an unsigned number: every
    size fits. *)
Lemma failed_request_has_space mem_alloc q q' :
  0 <= sm_size mem_alloc <= UINT32_MAX ->
  space_available_no_mutex fuel q = Ok (-1, q') -> has_space fuel mem_alloc q = Ok (true, q').
Proof.
  intros Hn E. unfold has_space. rewrite bind_M, E, ret_M.
  rewrite bool_decide_true; [done|]. change (u32 (-1)) with UINT32_MAX. lia.
Qed.

(** A compaction that is asked for while the routines are ending does nothing,
    and is never marked as over. *)
Lemma ending_compaction_stays_active q :
  SchedState.terminate_routines (routines q) = true -> routine_active (routines q) = false ->
  compaction_active (routines q) = false ->
  exists q', routine_compaction fuel interfere q = Ok (tt, q') /\
    compaction_active (routines q') = true /\ same_lists q q'.
Proof.
  intros Ht Ha Hc. unfold routine_compaction, set_is_compacting. run_M. rewrite Hc.
  unfold as_routine, routine_enter, wait. run_M. cbn. rewrite Ha. cbn [negb]. run_M. cbn.
  rewrite Ht. cbn. unfold routine_leave. run_M. eexists. split; [done|].
  by split; [|repeat split].
Qed.
End wrong.
