(* ===== verification/MutexRun.v ===== *)
(** * MutexRun: what the mutexes do to the queues, whatever their table holds

    MutexWf.v asks the table to be well formed, which it stops being once a
    process ends while it holds a mutex.  Here nothing is asked of it: if
    locking or unlocking returns, then without multilevel queues the queues'
    invariant is kept and only the states of the processes involved change. *)

From Stdlib Require Import Strings.Byte Strings.String.
From S2P Require Import Prelude Bytes Msg Text SchedState Pcb ReadyQueue ProcessLists.
From S2P Require Import KmReply Queues QueuesWf Mutex.

Definition flat {U} (q : t_queues U) : Prop := multilevel_queue (ready q) = false.

(** Only priorities and the cached lowest one change. *)
Definition priced {U} (q q' : t_queues U) : Prop :=
  flat q -> ready q' = ready q /\ next_pid q' = next_pid q /\
  (forall st, pids_in q' st = pids_in q st) /\ (forall p, state_of q' p = state_of q p).

#[export] Instance priced_preorder {U} : PreOrder (priced (U := U)).
Proof.
  unfold priced, flat. split; [done|]. intros q1 q2 q3 H1 H2 Hf.
  destruct (H1 Hf) as (E1 & E2 & E3 & E4). destruct H2 as (F1 & F2 & F3 & F4); [congruence|].
  split_and!; [congruence..| |]; intros; by rewrite F3 || rewrite F4.
Qed.

Section priced.
Context {U : Type}.
Implicit Types (q : t_queues U) (ms : t_mutex_list).

Lemma priced_wf q q' : flat q -> priced q q' -> sched_wf q -> sched_wf q' /\ flat q'.
Proof.
  intros Hf H [H1 H2 H3 H4 H5]. destruct (H Hf) as (E1 & E2 & E3 & E4).
  unfold flat in *. rewrite E1. split; [|done].
  constructor; [by rewrite E1| |unfold placed; rewrite E1; congruence| |by rewrite E2].
  - destruct H2 as [Hn Hin]. split; intros; rewrite E3; [done|]. by rewrite E4.
  - intros p Hp. rewrite E2. apply H4. specialize (E4 p). unfold state_of, alive in *.
    destruct (pcbs q' !! p); [|by destruct Hp]. destruct (pcbs q !! p); [by eexists|done].
Qed.

Lemma keeps_priced_pcb p f :
  (forall pcb, state (f pcb) = state pcb) -> keeps priced (update_pcb (U := U) p f).
Proof.
  intros Hs q r q' H _. apply update_pcb_Ok in H as [_ ->].
  split_and!; [done..|by intros []|]. intros x. rewrite state_of_alter.
  case_decide as E; [|done]. subst x. unfold state_of.
  destruct (pcbs q !! p) as [pcb|]; cbn; [by rewrite Hs|done].
Qed.

Lemma keeps_get_pcb_same p R `{!PreOrder R} : keeps R (get_pcb (U := U) p).
Proof. intros q pcb q' H. by apply get_pcb_Ok in H as [-> _]. Qed.
#[local] Hint Resolve keeps_get_pcb_same keeps_priced_pcb : keeps.

Lemma keeps_insert_pcb l p : keeps priced (insert_pcb_sorted (U := U) l p).
Proof.
  induction l as [|x l IH]; cbn [insert_pcb_sorted]; [keeps_tac|].
  unfold get_priority_pcb. keeps_tac.
Qed.

Lemma keeps_insert_priority p prio : keeps priced (insert_priority (U := U) p prio).
Proof. by apply keeps_priced_pcb. Qed.

Lemma keeps_remove_priority p prio : keeps priced (remove_priority (U := U) p prio).
Proof.
  unfold remove_priority. keeps_tac.
Qed.

Lemma keeps_update_priority p : keeps priced (update_priority (U := U) p).
Proof.
  intros q r q' H Hf. unfold update_priority in H. run_M_in H.
  unfold flat in Hf. rewrite Hf in H. cbn [negb] in H. run_M_in H. by simplify_eq.
Qed.
#[local] Hint Resolve keeps_insert_pcb keeps_insert_priority keeps_remove_priority
  keeps_update_priority : keeps.

Lemma keeps_replace_priority propagate p old new ms :
  (forall x y ms, keeps priced (propagate x y ms)) ->
  keeps priced (replace_priority (U := U) propagate p old new ms).
Proof.
  intros Hp. unfold replace_priority. keeps_tac.
Qed.

Lemma keeps_propagate fuel held p new ms :
  keeps priced (propagate_priority_transitive (U := U) fuel held p new ms).
Proof.
  revert held p new ms. induction fuel as [|fuel IH]; intros;
    cbn [propagate_priority_transitive]; [keeps_tac|].
  unfold get_mutex_blocking. keeps_tac. by apply keeps_replace_priority.
Qed.

Lemma keeps_lowest l n : keeps priced (lowest_of (U := U) n l).
Proof.
  revert n. induction l as [|x l IH]; intros; cbn [lowest_of]; [keeps_tac|].
  unfold get_priority_pcb. keeps_tac.
Qed.

Lemma keeps_update_lowest : keeps priced (update_lowest_exec_priority (U := U)).
Proof.
  unfold update_lowest_exec_priority. apply keeps_bind; [apply _|keeps_tac|intros e].
  apply keeps_bind; [apply _|apply keeps_lowest|intros n].
  apply keeps_modify. intros q _. by split_and!.
Qed.
#[local] Hint Resolve keeps_update_lowest : keeps.

Lemma keeps_wait_priority fuel id m p prio ms :
  keeps priced (wait_with_priority (U := U) fuel id m p prio ms).
Proof.
  unfold wait_with_priority. keeps_tac. apply keeps_replace_priority. intros.
  apply keeps_propagate.
Qed.

Lemma keeps_set_blocking p m : keeps priced (set_mutex_blocking (U := U) p m).
Proof. by apply keeps_priced_pcb. Qed.
End priced.

Section run.
Context {U : Type} `{!Transport U}.
Implicit Types (q : t_queues U) (ms : t_mutex_list).

(** A transition keeps the kind of the ready queue. *)
Lemma exec_block_kind p q r q' :
  transition_exec_block p q = Ok (r, q') -> flat q -> flat q'.
Proof.
  intros H Hf. apply managed in H as [[_ H]|[_ ->]]; [|done].
  inv_M H as u q2 E2. apply take_exec_Ok in E2 as [n ->]. by apply to_block_Ok in H as ->.
Qed.

Lemma to_ready_kind p q r q' : transition_to_ready p q = Ok (r, q') -> flat q -> flat q'.
Proof.
  intros (r' & H & ->)%to_ready_Ok Hf. unfold flat in *. cbn. unfold to_ready in H.
  set (r1 := if decide _ then _ else ready q) in H.
  assert (multilevel_queue r1 = false) as E by (unfold r1; by case_decide).
  unfold alter_subqueue in H. destruct (l_get _ _); [|done]. simplify_eq. done.
Qed.

Lemma unlock_kind p q r q' : transition_unlock p q = Ok (r, q') -> flat q -> flat q'.
Proof.
  intros H Hf. unfold transition_unlock in H. inv_M H as st q1 E.
  apply get_state_Ok in E as [-> _]. case_decide.
  - apply managed in H as [[_ H]|[_ ->]]; [|done]. inv_M H as u q2 E2.
    apply (to_ready_kind _ _ _ _ H). unfold transition_take_block in E2. run_M_in E2.
    by apply update_pcb_Ok in E2 as [_ ->].
  - apply managed in H as [[_ H]|[_ ->]]; [|done]. inv_M H as u q2 E2.
    unfold transition_take_susp_block in E2. rewrite modify_M in E2. simplify_eq.
    unfold transition_to_susp_ready in H. run_M_in H.
    destruct (insert_pcb_sorted _ _ _) as [[[i l] q3]|] eqn:E3; [|done].
    apply insert_pcb_sorted_Ok in E3 as [-> _]. run_M_in H. by simplify_eq.
Qed.

Lemma lift_same {A} (x : res A) q a q' : lift x q = Ok (a, q') -> q' = q.
Proof. rewrite lift_M. destruct x; [|done]. by intros [= _ ->]. Qed.

(** What the caller learns from [list_mutex_lock]: it waits, or it goes on. *)
Definition locks (p : Z) (r : t_mutex_result) q q' : Prop :=
  sched_wf q' /\ flat q' /\
  match r with
  | MR_WAITING_MUTEX =>
      state_of q' p ≠ Some PS_EXEC /\ forall x, x ≠ p -> state_of q' x = state_of q x
  | _ => forall x, state_of q' x = state_of q x
  end.

Lemma list_mutex_lock_run fuel ms id p q r ms' q' :
  sched_wf q -> flat q -> list_mutex_lock fuel ms id p q = Ok (r, ms', q') ->
  locks p r q q'.
Proof.
  intros Hwf Hf H. unfold list_mutex_lock in H.
  destruct (ms !! id) as [m|]; [|rewrite ret_M in H; by simplify_eq].
  unfold mutex_lock in H. inv_M H as pr q1 E1. apply get_priority_Ok in E1 as (-> & _ & _).
  inv_M H as rm q2 E2. case_decide as Hm.
  - inv_M E2 as u q3 E3. run_M_in E2. simplify_eq. run_M_in H. simplify_eq.
    apply keeps_insert_priority in E3. destruct (priced_wf _ _ Hf E3 Hwf).
    split_and!; [done..|]. by destruct (E3 Hf) as (_ & _ & _ & ?).
  - inv_M E2 as ms2 q3 E3. inv_M E2 as u q4 E4. inv_M E2 as u2 q5 E5. run_M_in E2.
    simplify_eq. run_M_in H. simplify_eq.
    assert (priced q q4) as E.
    { transitivity q3; [|by eapply keeps_set_blocking]. destruct (priority_active m).
      - by eapply keeps_wait_priority.
      - rewrite ret_M in E3. by simplify_eq. }
    destruct (priced_wf _ _ Hf E Hwf) as [Hwf4 Hf4].
    destruct (E Hf) as (_ & _ & _ & Es). pose proof (exec_block_kind _ _ _ _ E5 Hf4).
    apply transition_exec_block_steps in E5 as [Hwf5 [[_ Hs]|[Hs ->]]]; [..|done];
      (split_and!; [done..| |]); try done; intros.
    + by rewrite Hs, decide_True.
    + by rewrite Hs, decide_False, Es.
Qed.

(** Unlocking moves nobody out of a CPU. *)
Definition unlocks q q' : Prop :=
  sched_wf q' /\ flat q' /\
  forall p, state_of q p = Some PS_EXEC -> state_of q' p = Some PS_EXEC.

Lemma unlocks_refl q : sched_wf q -> flat q -> unlocks q q.
Proof. by intros. Qed.

Lemma hand_over_run m q m' q' :
  sched_wf q -> flat q -> hand_over m q = Ok (m', q') -> unlocks q q'.
Proof.
  intros Hwf Hf H. unfold hand_over in H. inv_M H as o q1 E1.
  apply lift_same in E1 as ->.
  inv_M H as u q2 E2. inv_M H as n q3 E3. inv_M H as u2 q4 E4. run_M_in H. simplify_eq.
  assert (priced q q3) as E.
  { transitivity q2; [by eapply keeps_set_blocking|].
    destruct (priority_active m); [|rewrite ret_M in E3; by simplify_eq].
    inv_M E3 as x q5 E5. inv_M E3 as u3 q6 E6. run_M_in E3. simplify_eq.
    transitivity q5; [|by eapply keeps_insert_priority].
    case_decide; [rewrite ret_M in E5; by simplify_eq|].
    inv_M E5 as f q7 E7. apply lift_same in E7 as ->.
    by apply get_priority_Ok in E5 as [-> _]. }
  destruct (priced_wf _ _ Hf E Hwf) as [Hwf3 Hf3]. destruct (E Hf) as (_ & _ & _ & Es).
  pose proof (unlock_kind _ _ _ _ E4 Hf3).
  apply transition_unlock_wf in E4 as [[Hwf4 Hs]|[Hwf4 Hs]]; [..|done];
    (split_and!; [done..|]); intros p Hp; rewrite <- Es in Hp;
    (destruct Hs as [[Ho Hs]|[_ ->]]; [rewrite Hs; destruct (decide (p = o)); congruence|done]).
Qed.

Lemma list_mutex_unlock_run ms id p q r ms' q' :
  sched_wf q -> flat q -> list_mutex_unlock ms id p q = Ok (r, ms', q') ->
  unlocks q q' /\ (r = MR_MUTEX_NAME_NOT_FOUND \/ r = MR_PROCESS_HAS_NO_LOCKED_MUTEX \/
                   r = MR_MUTEX_UNLOCKED).
Proof.
  intros Hwf Hf H. unfold list_mutex_unlock in H.
  destruct (ms !! id) as [m|];
    [|rewrite ret_M in H; simplify_eq; split; [by apply unlocks_refl|auto]].
  unfold mutex_unlock in H.
  case_decide; [rewrite ret_M in H; simplify_eq; split; [by apply unlocks_refl|auto]|].
  inv_M H as b q1 E1. inv_M H as u q2 E2. inv_M H as m2 q3 E3. run_M_in H. simplify_eq.
  split; [|auto]. assert (priced q q2) as E.
  { transitivity q1.
    - destruct (priority_active m); [by eapply keeps_remove_priority|].
      rewrite ret_M in E1. by simplify_eq.
    - eapply (keeps_when priced); [|done]. apply keeps_update_lowest. }
  destruct (priced_wf _ _ Hf E Hwf) as [Hwf2 Hf2]. destruct (E Hf) as (_ & _ & _ & Es).
  assert (unlocks q q2) as Hsame by (split_and!; [done..|]; intros; by rewrite Es).
  destruct (decide (mutex_state m = 0)); [rewrite ret_M in E3; by simplify_eq|].
  destruct (decide (mutex_state m < 0)); [|rewrite ret_M in E3; by simplify_eq].
  apply hand_over_run in E3 as (Hwf3 & Hf3 & H3); [|done..]. split_and!; [done..|].
  intros x Hx. apply H3. by rewrite Es.
Qed.
End run.
