(* ===== verification/IoModule.v ===== *)
(** * IoModule: io/src/main.c, io/src/io/ioops.c, io/src/io/utils.c and
      utils/src/utils/io.h

    The IO module: it joins the scheduler, then serves one request at a time.
    The keyboard is the bytes still to be typed, the screen the texts shown.
    Sleeping and logging have no effect on the state. *)

From Stdlib Require Import Strings.Byte Strings.String.
From S2P Require Import Prelude Bytes Msg Text File Structs Peer StateM.

Inductive t_io_type := IO_STDIN | IO_STDOUT | IO_SLEEP.

#[export] Instance t_io_type_eq_dec : EqDecision t_io_type.
Proof. solve_decision. Defined.

Definition IO_TYPE_NAMES (t : t_io_type) : string :=
  match t with IO_STDIN => "STDIN" | IO_STDOUT => "STDOUT" | IO_SLEEP => "SLEEP" end.

(** The enumerator with this name. *)
Definition io_type_of (name : text) : option t_io_type :=
  if decide (name = txt (IO_TYPE_NAMES IO_STDIN)) then Some IO_STDIN
  else if decide (name = txt (IO_TYPE_NAMES IO_STDOUT)) then Some IO_STDOUT
  else if decide (name = txt (IO_TYPE_NAMES IO_SLEEP)) then Some IO_SLEEP
  else None.

(** [t_io]. *)
Record t_io_module (T : Type) := mk_io_module {
  iom_type : t_io_type;
  iom_socket : t_socket T;
  config : option t_properties;
  keyboard : text;
  screen : list text }.
Arguments mk_io_module {T} _ _ _ _ _.
Arguments iom_type {T} _.
Arguments iom_socket {T} _.
Arguments config {T} _.
Arguments keyboard {T} _.
Arguments screen {T} _.

Definition set_iom_socket {T} s (io : t_io_module T) : t_io_module T :=
  mk_io_module (iom_type io) s (config io) (keyboard io) (screen io).
Definition set_keyboard {T} k (io : t_io_module T) : t_io_module T :=
  mk_io_module (iom_type io) (iom_socket io) (config io) k (screen io).
Definition set_screen {T} l (io : t_io_module T) : t_io_module T :=
  mk_io_module (iom_type io) (iom_socket io) (config io) (keyboard io) l.

Section io.
Context {T : Type} `{!Transport T}.
(** [socket_create] of a client socket. *)
Context (open_client : option text -> option text -> t_socket T).

Abbreviation IO := (St (t_io_module T)).

Definition on_socket {A} (f : t_socket T -> res (A * t_socket T)) : IO A :=
  s ← gets iom_socket;
  '(a, s) ← lift (f s); _ ← modify (set_iom_socket s); mret a.

(** ** ioops.c *)

(** [buffer[bytes_to_read - 1] = '\0'] when the text does not fit. *)
Definition truncate_text (bytes_to_read : Z) (buffer : text) : text :=
  if decide (0 < bytes_to_read <= l_size buffer)
  then take (Z.to_nat (bytes_to_read - 1)) buffer else buffer.

Definition run_stdin : IO bool :=
  '(request, _) ← on_socket receive_buffer;
  request ← lift (deref request);
  bytes_to_read ← lift (read_u32 request 4);
  keys ← gets keyboard;
  '(buffer, keys) ← lift (file_read_line keys);
  _ ← modify (set_keyboard keys);
  match buffer with
  | None => mret false
  | Some buffer =>
      on_socket (send_string OP_STDIN_RESPONSE (truncate_text bytes_to_read buffer ++ [x00]))
  end.

Definition run_stdout : IO bool :=
  packet ← on_socket receive_packet;
  match l_get packet 1 with
  | None => mret false
  | Some buffer =>
      buffer ← lift (c_text buffer);
      _ ← modify (fun io => set_screen (screen io ++ [buffer]) io);
      on_socket (send_string OP_STDOUT_RESPONSE (lit "OK"))
  end.

Definition run_sleep : IO bool :=
  '(request, _) ← on_socket receive_buffer;
  request ← lift (deref request);
  _ ← lift (read_u32 request 4);
  on_socket (send_string OP_SLEEP_RESPONSE (lit "OK")).

(** ** utils.c *)

(** [None]: the arguments are not valid. *)
Definition parse_args (fs : file_system) (argv : list text) (keys : text)
    : res (option (t_io_module T)) :=
  match argv with
  | [_; config_path; io_type] =>
      config ← config_create fs config_path;
      Ok (match io_type_of io_type with
          | Some t => Some (mk_io_module t None config keys [])
          | None => None
          end)
  | _ => Ok None
  end.

(** [load_config]: the scheduler's address. *)
Definition load_config : IO (option text * option text) :=
  io ← gets id;
  config ← lift (deref (config io));
  mret (config_get_string_value config (txt "KERNEL_SCHEDULER_IP"),
        config_get_string_value config (txt "KERNEL_SCHEDULER_PORT")).

Definition connect_to_scheduler (ip port : option text) : IO bool :=
  match open_client ip port with
  | None => mret false
  | Some h =>
      _ ← modify (set_iom_socket (Some h));
      sent_ok ← on_socket (send_handshake MID_IO);
      if negb sent_ok then _ ← modify (set_iom_socket None); mret false else
      received_id ← on_socket receive_handshake;
      if decide (received_id ≠ MID_KERNEL_SCHEDULER)
      then _ ← modify (set_iom_socket None); mret false else
      io_type ← gets iom_type;
      sent_ok ← on_socket (send_string OP_IO_TYPE (lit (IO_TYPE_NAMES io_type)));
      if negb sent_ok then _ ← modify (set_iom_socket None); mret false else mret true
  end.

(** ** main.c *)

(** One round of the loop of [main]: whether to keep running. *)
Definition io_step : IO bool :=
  op_code ← on_socket receive_op_code;
  match op_of_value op_code with
  | Some OP_IO_STDIN_REQUEST => run_stdin
  | Some OP_IO_STDOUT_REQUEST => run_stdout
  | Some OP_IO_SLEEP_REQUEST => run_sleep
  | _ => mret false
  end.

Fixpoint io_loop (fuel : nat) : IO unit :=
  match fuel with
  | O => lift (Undef OutOfFuel)
  | S fuel =>
      keep_running ← io_step;
      if (keep_running : bool) then io_loop fuel else modify (set_iom_socket None)
  end.

(** [false] is [EXIT_FAILURE]. *)
Definition io_main (fs : file_system) (fuel : nat) (argv : list text) (keys : text) : res bool :=
  io ← parse_args fs argv keys;
  match io with
  | None => Ok false
  | Some io =>
      '(address, io) ← load_config io;
      '(ok, io) ← connect_to_scheduler address.1 address.2 io;
      if (ok : bool) then _ ← io_loop fuel io; Ok true else Ok false
  end.
End io.

(** One round of the IO module, at the other end of a socket. *)
#[export] Instance io_server : Server (t_io_module wire) := fun io s =>
  '(keep_running, io) ← io_step (set_iom_socket s io);
  Ok (keep_running, set_iom_socket None io, iom_socket io).

(** ** What the IO module answers *)

Section served.
Implicit Types (io : t_io_module wire).

(** The text that is sent fits in the bytes that were asked for, NUL included. *)
Lemma truncate_fits n buffer :
  0 < n -> l_size (truncate_text n buffer ++ [x00]) <= n.
Proof.
  intros Hn. unfold truncate_text, l_size. rewrite length_app. cbn [length].
  case_decide as Hd; [rewrite length_take; lia|]. unfold l_size in Hd. lia.
Qed.

Lemma truncate_prefix n buffer : truncate_text n buffer `prefix_of` buffer.
Proof. unfold truncate_text. case_decide; [by apply prefix_take|done]. Qed.

(** Calls on the socket, with the socket at hand. *)
Lemma on_socket_eq {T A} (io : t_io_module T) (f : t_socket T -> res (A * t_socket T)) :
  on_socket f io = match f (iom_socket io) with
                   | Ok (a, s) => Ok (a, set_iom_socket s io)
                   | Undef u => Undef u
                   end.
Proof.
  unfold on_socket. run_M. rewrite lift_M. destruct (f _) as [[a s]|]; [|done]. by run_M.
Qed.

(** One round, on a request that arrived alone. *)
Definition round_on io op payload :=
  io_step (set_iom_socket (Some (mk_wire (frame op payload) [] true)) io).

Definition answering io reply : t_io_module wire :=
  set_iom_socket (Some (mk_wire [] reply true)) io.

Lemma io_step_op io op payload :
  round_on io op payload
  = match op with
    | OP_IO_STDIN_REQUEST => run_stdin | OP_IO_STDOUT_REQUEST => run_stdout
    | OP_IO_SLEEP_REQUEST => run_sleep | _ => mret false end
      (set_iom_socket (Some (mk_wire (int_bytes (l_size payload) ++ payload) [] true)) io).
Proof.
  unfold round_on, io_step. rewrite bind_M, on_socket_eq. cbn [iom_socket set_iom_socket].
  rewrite <- (app_nil_r (frame _ _)), receive_op_code_frame, op_of_value_op_value.
  rewrite app_nil_r. by destruct op.
Qed.

Lemma io_sleeps io r :
  in_u32 (blocked_time_ms r) ->
  round_on io OP_IO_SLEEP_REQUEST (sleep_request_bytes r)
  = Ok (true, answering io (frame OP_SLEEP_RESPONSE (lit "OK"))).
Proof.
  intros Hr. rewrite io_step_op. unfold run_sleep. rewrite bind_M, on_socket_eq.
  cbn [iom_socket set_iom_socket]. rewrite <- (app_nil_r (sleep_request_bytes r)) at 2.
  rewrite receive_buffer_wire by (done || (unfold sendable, l_size; cbn; ints; lia)).
  run_M. rewrite lift_M. cbn [deref]. run_M. rewrite lift_M.
  rewrite (read_u32_at _ 4 (blocked_time_ms r)) by done.
  rewrite on_socket_eq. cbn [iom_socket set_iom_socket]. sends.
  by rewrite wire_send by apply serialize_packet_ne.
Qed.

Lemma io_types io r line rest :
  in_u32 (bytes_to_read r) -> x00 ∉ keyboard io -> strchr (keyboard io) x0a = Some (line, rest) ->
  round_on io OP_IO_STDIN_REQUEST (stdin_request_bytes r)
  = Ok (true, set_keyboard rest (answering io
      (frame OP_STDIN_RESPONSE (truncate_text (bytes_to_read r) line ++ [x00])))).
Proof.
  intros Hr Hz Hk. rewrite io_step_op. unfold run_stdin. rewrite bind_M, on_socket_eq.
  cbn [iom_socket set_iom_socket]. rewrite <- (app_nil_r (stdin_request_bytes r)) at 2.
  rewrite receive_buffer_wire by (done || (unfold sendable, l_size; cbn; ints; lia)).
  run_M. rewrite lift_M. cbn [deref]. run_M. rewrite lift_M.
  rewrite (read_u32_at _ 4 (bytes_to_read r)) by (reflexivity || done || (cbn; lia)). run_M.
  cbn [keyboard set_iom_socket]. unfold file_read_line.
  rewrite lift_M, read_line_loop_first;
    [|lia|unfold INITIAL_CAPACITY; cbn; lia|apply not_elem_of_nil|done].
  unfold first_line. rewrite Hk. run_M. rewrite on_socket_eq.
  cbn [iom_socket set_iom_socket set_keyboard].
  apply strchr_Some in Hk as [Hk _].
  assert (x00 ∉ line) as Hl by (intros Hin; apply Hz; rewrite Hk; apply elem_of_app; by left).
  assert (x00 ∉ truncate_text (bytes_to_read r) line) as Ht.
  { unfold truncate_text. case_decide; [|done]. intros Hin. apply Hl.
    apply elem_of_take in Hin as (i & Hi & _). by eapply list_elem_of_lookup_2. }
  unfold send_string, str_read. rewrite c_str_app by done. cbn [at_index mbind res_bind].
  by rewrite wire_send by apply serialize_packet_ne.
Qed.

Lemma c_text_written t rest : x00 ∉ t -> c_text (written (t ++ x00 :: rest)) = Ok t.
Proof.
  intros H. unfold c_text, written. rewrite defined_Some. cbn [mbind res_bind].
  unfold str_read. by rewrite c_str_app.
Qed.

(** A packet of a request and a text. *)
Lemma text_packet_elements (request shown : list byte) :
  request ≠ [] -> sendable (elements [request; shown ++ [x00]]) ->
  Forall (fun v => v ≠ [] /\ sendable v) [request; shown ++ [x00]].
Proof.
  intros Hne. apply elements_sendable. repeat constructor; [done|by destruct shown].
Qed.

Lemma io_shows io request shown :
  request ≠ [] -> x00 ∉ shown -> sendable (elements [request; shown ++ [x00]]) ->
  round_on io OP_IO_STDOUT_REQUEST (elements [request; shown ++ [x00]])
  = Ok (true, set_screen (screen io ++ [shown]) (answering io
      (frame OP_STDOUT_RESPONSE (lit "OK")))).
Proof.
  intros Hne Hz Hall. rewrite io_step_op. unfold run_stdout. rewrite bind_M, on_socket_eq.
  cbn [iom_socket set_iom_socket]. rewrite <- (app_nil_r (elements _)) at 2.
  rewrite receive_packet_wire by (done || by apply text_packet_elements).
  change (l_get (written <$> [request; shown ++ [x00]]) 1)
    with (Some (written (shown ++ [x00]))).
  cbv beta iota. rewrite bind_M, lift_M, c_text_written by done. run_M.
  rewrite on_socket_eq. cbn [iom_socket set_iom_socket set_screen screen]. sends.
  by rewrite wire_send by apply serialize_packet_ne.
Qed.
End served.
