(* ===== verification/IoConnection.v ===== *)
(** * IoConnection: kernel_scheduler/src/kernel_scheduler/connections/io.c

    The scheduler's side of the IO modules: the three slots, the requests that
    wait in each and the thread that serves them.  The state is the whole
    scheduler: its queues, its mutexes and its slots. *)

From Stdlib Require Import Strings.Byte Strings.String.
From S2P Require Import Prelude Bytes Msg Text Structs IoModule SchedState Pcb.
From S2P Require Import ProcessLists KmReply Queues Mutex.

(** [t_stdin], [t_stdout] and [t_sleep]: the process and its request, as it was
    received. *)
Record t_io_entry := mk_entry { e_pcb : Z; e_request : option buf }.

#[export] Instance t_io_entry_eq_dec : EqDecision t_io_entry.
Proof. solve_decision. Defined.

(** The fields [handle_new_io] writes.  [io_list] is [None] once freed, which is
    when the thread has ended. *)
Record t_io_fields := mk_io_fields {
  io_priority_active : bool;
  close_thread : bool;
  io_list : option (list t_io_entry) }.

(** [t_io]; [None]: the fields hold what [malloc] left in them. *)
Record t_io (V : Type) := mk_io { socket_io : t_socket V; io_fields : option t_io_fields }.
Arguments mk_io {V} _ _.
Arguments socket_io {V} _.
Arguments io_fields {V} _.

Record t_kernel (U V : Type) := mk_kernel {
  k_queues : t_queues U;
  mutex_list : t_mutex_list;
  k_io : list (t_io V) }.
Arguments mk_kernel {U V} _ _ _.
Arguments k_queues {U V} _.
Arguments mutex_list {U V} _.
Arguments k_io {U V} _.

Section updates.
Context {U V : Type}.
Implicit Types (k : t_kernel U V).

Definition set_queues q k : t_kernel U V := mk_kernel q (mutex_list k) (k_io k).
Definition set_mutexes ms k : t_kernel U V := mk_kernel (k_queues k) ms (k_io k).
Definition set_io f k : t_kernel U V := mk_kernel (k_queues k) (mutex_list k) (f (k_io k)).

Definition set_socket_io s (io : t_io V) : t_io V := mk_io s (io_fields io).
Definition set_fields f (io : t_io V) : t_io V := mk_io (socket_io io) f.
End updates.

Definition set_close_thread b (f : t_io_fields) : t_io_fields :=
  mk_io_fields (io_priority_active f) b (io_list f).
Definition set_io_list l (f : t_io_fields) : t_io_fields :=
  mk_io_fields (io_priority_active f) (close_thread f) l.

(** [create_io_structures]. *)
Definition create_io_structures {V} : list (t_io V) := replicate 3 (mk_io None None).

(** The slot of a type. *)
Definition slot (t : t_io_type) : nat :=
  match t with IO_STDIN => 0 | IO_STDOUT => 1 | IO_SLEEP => 2 end.

Definition request_size (t : t_io_type) : nat :=
  match t with IO_SLEEP => 8 | _ => 12 end.
Definition request_op (t : t_io_type) : t_op_code :=
  match t with
  | IO_STDIN => OP_IO_STDIN_REQUEST | IO_STDOUT => OP_IO_STDOUT_REQUEST
  | IO_SLEEP => OP_IO_SLEEP_REQUEST end.

Abbreviation sysM U V := (St (t_kernel U V)).

Section io.
Context {U V : Type} `{!Transport U, !Transport V}.
Context (fuel : nat).
Implicit Types (t : t_io_type).

(** ** Access to the state *)

Definition on_queues {A} (m : M U A) : sysM U V A := fun k =>
  match m (k_queues k) with
  | Ok (a, q) => Ok (a, set_queues q k) | Undef u => Undef u end.

Definition get_io t : sysM U V (t_io V) :=
  ios ← gets k_io; lift (at_index (ios !! slot t)).
Definition update_io t (f : t_io V -> t_io V) : sysM U V unit :=
  modify (set_io (alter f (slot t))).

Definition get_fields t : sysM U V t_io_fields :=
  io ← get_io t;
  lift (match io_fields io with Some f => Ok f | None => Undef Indeterminate end).
Definition update_fields t (f : t_io_fields -> t_io_fields) : sysM U V unit :=
  update_io t (fun io => set_fields (f <$> io_fields io) io).

(** Following [io->io_list]. *)
Definition get_io_list t : sysM U V (list t_io_entry) :=
  f ← get_fields t;
  lift (match io_list f with Some l => Ok l | None => Undef Dangling end).

Definition on_io {A} t (f : t_socket V -> res (A * t_socket V)) : sysM U V A :=
  io ← get_io t;
  '(a, s) ← lift (f (socket_io io)); _ ← update_io t (set_socket_io s); mret a.

(** The request's bytes, as they are copied into a message. *)
Definition request_bytes t (e : t_io_entry) : res (list byte) :=
  request ← deref (e_request e); read_bytes request 0 (request_size t).

(** ** Requests *)

(** [list_add_sorted] with [compare_priority_stdin], [_stdout] or [_sleep]. *)
Fixpoint insert_entry_sorted (l : list t_io_entry) (e : t_io_entry) : M U (list t_io_entry) :=
  match l with
  | [] => mret [e]
  | x :: r =>
      priority_e ← get_priority_pcb (e_pcb e);
      priority_x ← get_priority_pcb (e_pcb x);
      if decide (priority_e <= priority_x) then mret (e :: l)
      else r ← insert_entry_sorted r e; mret (x :: r)
  end.

Definition enqueue_io_request (request : option buf) t (p : Z) : sysM U V bool :=
  f ← get_fields t;
  if close_thread f then mret false else
  let entry := mk_entry p request in
  l ← get_io_list t;
  l ← (if io_priority_active f then on_queues (insert_entry_sorted l entry)
       else mret (l ++ [entry]));
  _ ← update_fields t (set_io_list (Some l)); mret true.

(** [free_request]: the process may go on. *)
Definition free_request (e : t_io_entry) : sysM U V unit :=
  on_queues (transition_unlock (e_pcb e)).

Definition finalize_io (e : t_io_entry) t : sysM U V unit :=
  l ← get_io_list t;
  if decide (e ∈ l) then
    _ ← update_fields t (set_io_list (Some (l_remove_first (fun x => bool_decide (x = e)) l)));
    free_request e
  else mret tt.

(** ** Serving one request *)

(** The reply of the IO module; [None] is a failure. *)
Definition communication_io_stdin (e : t_io_entry) : sysM U V (option buf) :=
  bytes ← lift (request_bytes IO_STDIN e);
  send ← on_io IO_STDIN (fun s => Ok (send_buffer OP_IO_STDIN_REQUEST bytes s));
  if negb send then mret None else
  cod_op ← on_io IO_STDIN receive_op_code;
  if decide (cod_op = op_value OP_CODE_ERROR) then mret None
  else on_io IO_STDIN receive_string.

Definition communication_io_sleep (e : t_io_entry) : sysM U V bool :=
  bytes ← lift (request_bytes IO_SLEEP e);
  send ← on_io IO_SLEEP (fun s => Ok (send_buffer OP_IO_SLEEP_REQUEST bytes s));
  if negb send then mret false else
  cod_op ← on_io IO_SLEEP receive_op_code;
  if decide (cod_op = op_value OP_CODE_ERROR) then mret false else
  response ← on_io IO_SLEEP receive_string;
  response ← lift (deref response);
  response ← lift (c_text response);
  mret (bool_decide (response = txt "OK")).

Definition io_sleep_f (e : t_io_entry) : sysM U V bool :=
  comms ← communication_io_sleep e;
  if negb comms then mret false else _ ← finalize_io e IO_SLEEP; mret true.

(** A request with a text: [send_stdin], [send_stdout]. *)
Definition request_packet t (e : t_io_entry) (buffer : buf) : res t_packet :=
  bytes ← request_bytes t e; content ← c_text buffer;
  packet_append_string (packet_append (create_packet (request_op t)) bytes) (content ++ [x00]).

Definition chat_km_stdin : M U bool :=
  op ← receive_km_opcode fuel [OP_STDIN_RESPONSE];
  if decide (op = op_value OP_CODE_ERROR) then mret false
  else _ ← km_skip_string; mret true.

Definition io_stdin_f (e : t_io_entry) : sysM U V bool :=
  buffer ← communication_io_stdin e;
  match buffer with
  | None => mret false
  | Some buffer =>
      packet ← lift (request_packet IO_STDIN e buffer);
      send ← on_queues (km_send (send_packet packet));
      if negb send then
        _ ← on_queues (close_kernel_scheduler fuel SR_KERNEL_MEMORY_SEND_ERROR); mret false
      else
        written ← on_queues chat_km_stdin;
        if negb written then mret false else _ ← finalize_io e IO_STDIN; mret true
  end.

(** What Kernel Memory read for a STDOUT, if nothing failed. *)
Definition fetch_km_stdout (e : t_io_entry) : M U (option buf) :=
  bytes ← lift (request_bytes IO_STDOUT e);
  send ← km_send (send_buffer OP_IO_STDOUT_REQUEST bytes);
  if negb send then
    _ ← close_kernel_scheduler fuel SR_KERNEL_MEMORY_SEND_ERROR; mret None
  else
    op ← receive_km_opcode fuel [OP_STDOUT_RESPONSE];
    if decide (op = op_value OP_CODE_ERROR) then mret None else
    buffer ← km_receive receive_string;
    match buffer with
    | None => _ ← close_kernel_scheduler fuel SR_KERNEL_MEMORY_CONNECTION_FAILURE; mret None
    | Some buffer => mret (Some buffer)
    end.

Definition io_stdout_f (e : t_io_entry) : sysM U V bool :=
  buffer ← on_queues (fetch_km_stdout e);
  match buffer with
  | None => mret false
  | Some buffer =>
      packet ← lift (request_packet IO_STDOUT e buffer);
      send ← on_io IO_STDOUT (fun s => Ok (send_packet packet s));
      if negb send then mret false else
      cod_op ← on_io IO_STDOUT receive_op_code;
      if decide (cod_op ≠ op_value OP_STDOUT_RESPONSE) then mret false else
      _ ← on_io IO_STDOUT receive_string;
      _ ← finalize_io e IO_STDOUT; mret true
  end.

(** [handle_stdin], [handle_stdout] and [handle_sleep]: the first request. *)
Definition handle_io t : sysM U V bool :=
  l ← get_io_list t;
  match l with
  | [] => mret false
  | e :: _ =>
      match t with
      | IO_STDIN => io_stdin_f e | IO_STDOUT => io_stdout_f e | IO_SLEEP => io_sleep_f e
      end
  end.

(** ** The thread of a slot *)

Fixpoint free_requests (l : list t_io_entry) : sysM U V unit :=
  match l with
  | [] => mret tt
  | e :: r => _ ← free_request e; free_requests r
  end.

Definition close_thread_io t : sysM U V unit :=
  _ ← update_fields t (set_close_thread true);
  l ← get_io_list t;
  _ ← free_requests l;
  update_fields t (set_io_list None).

(** One round of [io_thread]: whether to keep running.  It starts when there is
    something to do. *)
Definition io_thread_step t : sysM U V bool :=
  f ← get_fields t;
  if close_thread f then _ ← close_thread_io t; mret false else
  l ← get_io_list t;
  if decide (l = []) then lift (Undef Blocked) else
  ok ← handle_io t;
  if (ok : bool) then mret true else _ ← close_thread_io t; mret false.

(** ** Connections *)

Definition respond_handshake {T} `{!Transport T} (id : t_module_id) (s : t_socket T)
    : res (bool * t_socket T) := send_handshake id s.

Definition get_io_type (s : t_socket V) : res (option t_io_type * t_socket V) :=
  '(op, s) ← receive_op_code s;
  if decide (op ≠ op_value OP_IO_TYPE) then Ok (None, s) else
  '(buffer, s) ← receive_string s;
  buffer ← deref buffer; name ← c_text buffer;
  Ok (io_type_of name, s).

(** [thread_created]: whether [thrd_create] succeeded.  A refused socket is
    destroyed by the caller. *)
Definition handle_new_io (thread_created : bool) (s : t_socket V) (priority_active : bool)
    : sysM U V bool :=
  '(ok, s) ← lift (respond_handshake MID_KERNEL_SCHEDULER s);
  if negb ok then mret false else
  '(io_type, s) ← lift (get_io_type s);
  match io_type with
  | None => mret false
  | Some t =>
      io ← get_io t;
      match socket_io io with
      | Some _ => mret false
      | None =>
          let fields := Some (mk_io_fields priority_active false (Some [])) in
          if thread_created then _ ← update_io t (fun _ => mk_io s fields); mret true
          else _ ← update_io t (fun _ => mk_io None fields); mret false
      end
  end.

(** [close_io] of one slot: the thread is told to stop, and joined. *)
Definition close_io_slot t : sysM U V unit :=
  io ← get_io t;
  match socket_io io with
  | None => mret tt
  | Some _ =>
      _ ← update_fields t (set_close_thread true);
      _ ← update_io t (fun io => set_socket_io (socket_shutdown (socket_io io)) io);
      f ← get_fields t;
      _ ← (match io_list f with Some _ => close_thread_io t | None => mret tt end);
      update_io t (set_socket_io None)
  end.

Definition close_io : sysM U V unit :=
  _ ← close_io_slot IO_STDIN; _ ← close_io_slot IO_STDOUT; close_io_slot IO_SLEEP.
End io.
