(* ===== verification/CpuConnection.v ===== *)
(** * CpuConnection: kernel_scheduler/src/kernel_scheduler/connections/cpu.c

    The thread that serves one CPU: it hands the CPU a process, carries out what
    the CPU asks for and decides after every instruction whether the process
    goes on.  [interfere owner] is what the other threads do while this one
    waits, [owner] being the process its CPU runs. *)

From Stdlib Require Import Strings.Byte Strings.String.
From S2P Require Import Prelude Bytes Msg Text Structs IoModule SchedState Pcb.
From S2P Require Import ReadyQueue ProcessLists KmReply Queues Mutex Routines IoConnection.

Inductive t_preemption_reason :=
  | PR_NO_PREEMPTION | PR_QUANTUM_END | PR_HIGHER_PRIORITY_PROCESS | PR_COMPACTION
  | PR_PROCESS_END | PR_FIRST_CYCLE | PR_IO | PR_MUTEX_LOCKED | PR_NOT_ENOUGH_MEMORY
  | PR_SEGMENTATION_FAULT | PR_MUTEX_NAME_ALREADY_EXISTS | PR_MUTEX_NAME_NOT_FOUND
  | PR_PROCESS_HAS_NO_LOCKED_MUTEX.

#[export] Instance t_preemption_reason_eq_dec : EqDecision t_preemption_reason.
Proof. solve_decision. Defined.

Definition PREEMPTION_REASONS (r : t_preemption_reason) : string :=
  match r with
  | PR_NO_PREEMPTION => "no preemption occurred"
  | PR_QUANTUM_END => "preemption by quantum end"
  | PR_HIGHER_PRIORITY_PROCESS => "preemption by process priority"
  | PR_COMPACTION => "preemption by compaction"
  | PR_PROCESS_END => "process termination"
  | PR_FIRST_CYCLE => "first CPU cycle"
  | PR_IO => "IO operation"
  | PR_MUTEX_LOCKED => "mutex blocked"
  | PR_NOT_ENOUGH_MEMORY => "there is not enough memory for this instruction"
  | PR_SEGMENTATION_FAULT => "segmentation fault"
  | PR_MUTEX_NAME_ALREADY_EXISTS => "a mutex with that name already exists"
  | PR_MUTEX_NAME_NOT_FOUND => "no mutex with that name exists"
  | PR_PROCESS_HAS_NO_LOCKED_MUTEX => "this process cannot unlock this mutex"
  end.

(** [t_cpu_thread]; what it shares with the other threads is the [t_kernel]. *)
Record t_cpu_thread (W : Type) := mk_cpu_thread {
  socket_fd : t_socket W;
  cpu_id : list byte;
  cpu_pcb : option Z;
  keep_running : bool;
  counter : Z;
  preemption_reason : t_preemption_reason }.
Arguments mk_cpu_thread {W} _ _ _ _ _ _.
Arguments socket_fd {W} _.
Arguments cpu_id {W} _.
Arguments cpu_pcb {W} _.
Arguments keep_running {W} _.
Arguments counter {W} _.
Arguments preemption_reason {W} _.

Definition set_socket_fd {W} s (d : t_cpu_thread W) : t_cpu_thread W :=
  mk_cpu_thread s (cpu_id d) (cpu_pcb d) (keep_running d) (counter d) (preemption_reason d).
Definition set_cpu_pcb {W} p (d : t_cpu_thread W) : t_cpu_thread W :=
  mk_cpu_thread (socket_fd d) (cpu_id d) p (keep_running d) (counter d) (preemption_reason d).
Definition set_keep_running {W} b (d : t_cpu_thread W) : t_cpu_thread W :=
  mk_cpu_thread (socket_fd d) (cpu_id d) (cpu_pcb d) b (counter d) (preemption_reason d).
Definition set_counter {W} n (d : t_cpu_thread W) : t_cpu_thread W :=
  mk_cpu_thread (socket_fd d) (cpu_id d) (cpu_pcb d) (keep_running d) n (preemption_reason d).
Definition set_reason {W} r (d : t_cpu_thread W) : t_cpu_thread W :=
  mk_cpu_thread (socket_fd d) (cpu_id d) (cpu_pcb d) (keep_running d) (counter d) r.

(** [init_data_thread_cpu]. *)
Definition init_data_thread_cpu {W} (socket_cpu : t_socket W) (id : list byte)
    : t_cpu_thread W := mk_cpu_thread socket_cpu id None true 0 PR_FIRST_CYCLE.

(** The scheduler, and the data of this CPU's thread. *)
Record t_cpu_state (U V W : Type) := mk_cpu_state {
  kernel : t_kernel U V; thread : t_cpu_thread W }.
Arguments mk_cpu_state {U V W} _ _.
Arguments kernel {U V W} _.
Arguments thread {U V W} _.

Abbreviation cpuM U V W := (St (t_cpu_state U V W)).

Section thread.
Context {U V W : Type} `{!Transport U, !Transport V, !Transport W}.
Context (fuel : nat) (interfere : option Z -> t_queues U -> t_queues U).

Definition on_kernel {A} (m : sysM U V A) : cpuM U V W A := fun x =>
  match m (kernel x) with
  | Ok (a, k) => Ok (a, mk_cpu_state k (thread x)) | Undef u => Undef u end.
Definition in_queues {A} (m : M U A) : cpuM U V W A := on_kernel (on_queues m).
Definition update (f : t_cpu_thread W -> t_cpu_thread W) : cpuM U V W unit :=
  modify (fun x => mk_cpu_state (kernel x) (f (thread x))).
Definition on_fd {A} (f : t_socket W -> res (A * t_socket W)) : cpuM U V W A :=
  d ← gets thread;
  '(a, s) ← lift (f (socket_fd d)); _ ← update (set_socket_fd s); mret a.
Definition skip_string : cpuM U V W unit := _ ← on_fd receive_string; mret tt.

(** [data->pcb], dereferenced. *)
Definition data_pcb : cpuM U V W Z := d ← gets thread; lift (deref (cpu_pcb d)).

Definition no_preemption : cpuM U V W bool :=
  d ← gets thread; mret (bool_decide (preemption_reason d = PR_NO_PREEMPTION)).

(** ** The decisions after an instruction *)

Definition manage_queue_blocked : cpuM U V W unit :=
  running ← no_preemption;
  blocked ← in_queues is_queue_ready_blocked;
  when (running && blocked) (
    p ← data_pcb; _ ← in_queues (transition_exec_ready p); update (set_reason PR_COMPACTION)).

Definition manage_end_quantum : cpuM U V W unit :=
  running ← no_preemption;
  if negb running then mret tt else
  empty ← in_queues is_queue_ready_empty;
  if (empty : bool) then mret tt else
  p ← data_pcb;
  priority ← in_queues (get_priority_pcb p);
  algorithm ← in_queues (get_algorithm_ready_queue priority);
  if decide (algorithm ≠ SA_RR) then mret tt else
  d ← gets thread;
  ended ← in_queues (quantum_ended (counter d));
  when ended (_ ← in_queues (transition_exec_ready p); update (set_reason PR_QUANTUM_END)).

(** The priority the process [p] is preempted for, if any. *)
Definition preempting_priority (p : Z) : M U bool :=
  preempted_priority ← get_priority_pcb p;
  lowest ← is_lowest_priority_in_exec preempted_priority;
  if negb lowest then mret false else
  r ← gets ready; mret (negb (bool_decide (preempted_priority <= highest_priority r))).

Definition manage_preemption_priority : cpuM U V W unit :=
  d ← gets thread;
  e ← in_queues (gets exec);
  match cpu_pcb d with
  | None => mret tt
  | Some p =>
      if negb (bool_decide (preemption_reason d = PR_NO_PREEMPTION) && preemption e)
      then mret tt else
      preempts ← in_queues (preempting_priority p);
      if negb preempts then mret tt else
      new_pcb ← in_queues transition_take_ready_next;
      match new_pcb with
      | None => mret tt
      | Some new_pcb =>
          _ ← in_queues (transition_exec_ready p);
          _ ← in_queues (transition_ready_exec new_pcb);
          _ ← in_queues (transition_to_exec new_pcb);
          now ← in_queues (gets clock);
          update (fun d => set_counter now (set_cpu_pcb (Some new_pcb)
                             (set_reason PR_HIGHER_PRIORITY_PROCESS d)))
      end
  end.

(** ** Talking to the CPU *)

Definition send_preemption : cpuM U V W bool :=
  d ← gets thread;
  let r := preemption_reason d in
  on_fd (send_string (if decide (r = PR_NO_PREEMPTION) then OP_NO_INTERRUPT else OP_INTERRUPT)
           (lit (PREEMPTION_REASONS r))).

Definition manage_request_process : cpuM U V W unit :=
  running ← no_preemption;
  if (running : bool) then mret tt else
  now ← in_queues (gets clock);
  _ ← update (set_counter now);
  p ← in_queues (transition_take_ready_blocking (interfere None));
  _ ← update (set_cpu_pcb p);
  match p with
  | None => mret tt
  | Some p =>
      _ ← in_queues (transition_ready_exec p); in_queues (transition_to_exec p)
  end.

Definition send_code : cpuM U V W bool :=
  p ← data_pcb;
  _ ← in_queues (get_pcb p);
  on_fd (fun s => Ok (send_buffer OP_RESUME_PROCESS (int_bytes p) s)).

Definition send_pid : cpuM U V W bool :=
  running ← no_preemption;
  if (running : bool) then mret true else
  sent ← send_code;
  if negb sent then _ ← update (set_keep_running false); mret false
  else _ ← update (set_reason PR_NO_PREEMPTION); mret true.

(** ** System calls *)

(** The process ends, and the CPU will be told why. *)
Definition exit_process (reason : t_process_end_reason) (pr : t_preemption_reason)
    : cpuM U V W unit :=
  p ← data_pcb;
  _ ← in_queues (transition_exec_exit fuel (interfere None) p reason);
  update (set_reason pr).

Definition handle_cycle_cpu_ok : cpuM U V W unit := skip_string.

Definition handle_segmentation_fault : cpuM U V W unit :=
  _ ← skip_string; exit_process PER_SEGMENTATION_FAULT PR_SEGMENTATION_FAULT.

Definition receive_id_mutex : cpuM U V W text :=
  id_mutex ← on_fd receive_string;
  id_mutex ← lift (deref id_mutex); lift (c_text id_mutex).

Definition handle_syscall_mutex_create : cpuM U V W unit :=
  id_mutex ← receive_id_mutex;
  k ← gets kernel;
  let (r, ms) := create_and_add_mutex (mutex_list k) id_mutex true in
  _ ← on_kernel (modify (set_mutexes ms));
  match r with
  | MR_MUTEX_NAME_ALREADY_EXISTS =>
      exit_process PER_MUTEX_NAME_ALREADY_EXISTS PR_MUTEX_NAME_ALREADY_EXISTS
  | _ => mret tt
  end.

(** [list_mutex_lock] or [list_mutex_unlock], on the scheduler's table. *)
Definition on_mutexes (f : t_mutex_list -> text -> Z -> M U (t_mutex_result * t_mutex_list))
    : cpuM U V W t_mutex_result :=
  id_mutex ← receive_id_mutex;
  k ← gets kernel; p ← data_pcb;
  '(r, ms) ← in_queues (f (mutex_list k) id_mutex p);
  _ ← on_kernel (modify (set_mutexes ms)); mret r.

Definition handle_syscall_mutex_lock : cpuM U V W unit :=
  r ← on_mutexes (list_mutex_lock fuel);
  match r with
  | MR_MUTEX_NAME_NOT_FOUND => exit_process PER_MUTEX_NAME_NOT_FOUND PR_MUTEX_NAME_NOT_FOUND
  | MR_WAITING_MUTEX => update (set_reason PR_MUTEX_LOCKED)
  | _ => mret tt
  end.

Definition handle_syscall_mutex_unlock : cpuM U V W unit :=
  r ← on_mutexes list_mutex_unlock;
  match r with
  | MR_MUTEX_NAME_NOT_FOUND => exit_process PER_MUTEX_NAME_NOT_FOUND PR_MUTEX_NAME_NOT_FOUND
  | MR_PROCESS_HAS_NO_LOCKED_MUTEX =>
      exit_process PER_PROCESS_HAS_NO_LOCKED_MUTEX PR_PROCESS_HAS_NO_LOCKED_MUTEX
  | _ => mret tt
  end.

Definition receive_syscall_memory : cpuM U V W t_syscall_memory :=
  '(request, _) ← on_fd receive_buffer;
  request ← lift (deref request); lift (syscall_memory_of request).

Definition handle_syscall_memory_allocation : cpuM U V W unit :=
  request ← receive_syscall_memory;
  d ← gets thread;
  ok ← in_queues (allocate_memory fuel (interfere (cpu_pcb d)) fuel request);
  if (ok : bool) then mret tt else exit_process PER_NOT_ENOUGH_MEMORY PR_NOT_ENOUGH_MEMORY.

Definition handle_syscall_memory_free : cpuM U V W unit :=
  request ← receive_syscall_memory;
  ok ← in_queues (free_memory fuel request);
  when (negb ok) (update (set_keep_running false)).

(** [handle_syscall_io_sleep], [_stdout] and [_stdin]. *)
Definition handle_syscall_io (t : t_io_type) : cpuM U V W unit :=
  '(request, _) ← on_fd receive_buffer;
  _ ← update (set_reason PR_IO);
  p ← data_pcb;
  ok ← on_kernel (enqueue_io_request request t p);
  if negb ok then in_queues (transition_exec_exit fuel (interfere None) p PER_IO_FAILURE)
  else in_queues (transition_exec_block p).

Definition handle_syscall_start_process : cpuM U V W unit :=
  list ← on_fd receive_packet;
  priority ← lift (deref (l_get list 1)); priority ← lift (read_int priority 0);
  path ← lift (deref (l_get list 0)); path ← lift (defined path);
  d ← gets thread;
  in_queues (transition_new_ready fuel (interfere (cpu_pcb d)) path priority).

Definition handle_syscall_exit : cpuM U V W unit :=
  _ ← skip_string; exit_process PER_EXIT_INSTRUCTION PR_PROCESS_END.

Definition handle_invalid_syscall : cpuM U V W unit := update (set_keep_running false).

(** [syscall_handlers]. *)
Definition syscall_handlers (op : option t_op_code) : cpuM U V W unit :=
  match op with
  | Some OP_CPU_CYCLE_OK => handle_cycle_cpu_ok
  | Some OP_SEG_FAULT => handle_segmentation_fault
  | Some OP_SYSCALL_MUTEX_CREATE => handle_syscall_mutex_create
  | Some OP_SYSCALL_MUTEX_LOCK => handle_syscall_mutex_lock
  | Some OP_SYSCALL_MUTEX_UNLOCK => handle_syscall_mutex_unlock
  | Some OP_SYSCALL_MEM_ALLOC => handle_syscall_memory_allocation
  | Some OP_SYSCALL_MEM_FREE => handle_syscall_memory_free
  | Some OP_SYSCALL_SLEEP => handle_syscall_io IO_SLEEP
  | Some OP_SYSCALL_STDOUT => handle_syscall_io IO_STDOUT
  | Some OP_SYSCALL_STDIN => handle_syscall_io IO_STDIN
  | Some OP_SYSCALL_INIT_PROC => handle_syscall_start_process
  | Some OP_SYSCALL_EXIT => handle_syscall_exit
  | _ => handle_invalid_syscall
  end.

(** ** The loop *)

Definition is_syscall (op_code : Z) : bool :=
  bool_decide (op_value OP_SYSCALL_MUTEX_CREATE <= op_code <= op_value OP_SYSCALL_EXIT).

(** The CPU's request carried out, and what follows from it. *)
Definition serve_request (op_code : Z) : cpuM U V W unit :=
  _ ← when (is_syscall op_code) (in_queues increment_syscall_counter);
  _ ← syscall_handlers (op_of_value op_code);
  _ ← when (is_syscall op_code) (in_queues decrement_syscall_counter);
  _ ← manage_queue_blocked; _ ← manage_end_quantum; manage_preemption_priority.

(** The CPU is told the decision, and given the process that preempts. *)
Definition report_decision : cpuM U V W bool :=
  sent ← send_preemption;
  if negb sent then _ ← update (set_keep_running false); mret false else
  d ← gets thread;
  if decide (preemption_reason d = PR_HIGHER_PRIORITY_PROCESS) then send_pid else mret true.

(** One round of the loop: [false] is [break]. *)
Definition handle_cpu_client_step : cpuM U V W bool :=
  _ ← manage_request_process;
  d ← gets thread;
  match cpu_pcb d with
  | None => _ ← update (set_keep_running false); mret false
  | Some _ =>
      sent ← send_pid;
      if negb sent then mret false else
      op_code ← on_fd receive_op_code;
      _ ← serve_request op_code; report_decision
  end.

(** After the loop. *)
Definition close_client : cpuM U V W unit :=
  d ← gets thread;
  _ ← (match cpu_pcb d with
       | Some p => when (bool_decide (preemption_reason d = PR_HIGHER_PRIORITY_PROCESS))
                     (in_queues (transition_exec_ready p))
       | None => mret tt
       end);
  update (set_socket_fd None).

Fixpoint handle_cpu_client (n : nat) : cpuM U V W unit :=
  match n with
  | O => lift (Undef OutOfFuel)
  | S n =>
      d ← gets thread;
      if negb (keep_running d) then close_client else
      ok ← handle_cpu_client_step;
      if (ok : bool) then handle_cpu_client n else close_client
  end.

(** ** Connections *)

Definition get_id_cpu (s : t_socket W) : res (option text * t_socket W) :=
  '(op, s) ← receive_op_code s;
  if decide (op ≠ op_value OP_ID_CPU) then Ok (None, s) else
  '(id, s) ← receive_string s;
  match id with None => Ok (None, s) | Some id => id ← c_text id; Ok (Some id, s) end.

(** [handle_new_cpu]: the new thread's data, unless the connection is refused.
    [thread_created]: whether [thrd_create] succeeded. *)
Definition handle_new_cpu (thread_created : bool) (s : t_socket W)
    : res (option (t_cpu_thread W) * t_socket W) :=
  '(ok, s) ← respond_handshake MID_KERNEL_SCHEDULER s;
  if negb ok then Ok (None, s) else
  '(id, s) ← get_id_cpu s;
  match id with
  | None => Ok (None, s)
  | Some id =>
      Ok (if thread_created then Some (init_data_thread_cpu s id) else None, s)
  end.
End thread.
