(* ===== verification/OtherThreads.v ===== *)
(** * OtherThreads: what happens while a thread of the scheduler waits

    Where a thread of the scheduler waits, the model applies a function
    [interfere] to the queues.  Here is what that function may be: any number of
    rounds of the threads of the IO modules, of the workers, of the routines'
    threads and of the thread that watches the connection, in any order.  Each
    of them leaves alone the processes that run and those another thread is
    creating or ending.  The other CPUs make no round during the wait. *)

From Stdlib Require Import Strings.Byte Strings.String.
From S2P Require Import Prelude Bytes Msg Text Structs IoModule SchedState Pcb.
From S2P Require Import ReadyQueue ProcessLists KmReply Queues QueuesWf Mutex Routines.
From S2P Require Import IoConnection.

(** ** The threads of the IO modules *)

Definition io_kept {U V} (k k' : t_kernel U V) : Prop :=
  run_kept (k_queues k) (k_queues k').

#[export] Instance io_kept_preorder {U V} : PreOrder (io_kept (U := U) (V := V)).
Proof.
  unfold io_kept. split; [by intros k|]. intros k1 k2 k3 H1 H2. by etrans.
Qed.

Section io.
Context {U V : Type} `{!Transport U, !Transport V}.
Context (fuel : nat).
Abbreviation kept := (io_kept (U := U) (V := V)).

Lemma keeps_on_queues {A} (m : M U A) :
  keeps run_kept m -> keeps kept (on_queues (V := V) m).
Proof.
  intros Hm k a k' H. unfold on_queues in H. destruct (m _) as [[b q]|] eqn:E; [|done].
  simplify_eq. by apply Hm in E.
Qed.

#[local] Hint Extern 3 (keeps io_kept (on_queues _)) => (apply keeps_on_queues) : keeps.

Lemma keeps_fields t : keeps kept (get_fields (U := U) (V := V) t).
Proof. unfold get_fields, get_io. keeps_tac. Qed.
Lemma keeps_io_list t : keeps kept (get_io_list (U := U) (V := V) t).
Proof. pose proof (keeps_fields t). unfold get_io_list. keeps_tac. Qed.
Lemma keeps_update_fields t f : keeps kept (update_fields (U := U) (V := V) t f).
Proof. unfold update_fields, update_io. keeps_tac. Qed.
Lemma keeps_on_io {A} t (f : t_socket V -> res (A * t_socket V)) :
  keeps kept (on_io (U := U) t f).
Proof. unfold on_io, get_io, update_io. keeps_tac. Qed.
Lemma keeps_free_request e : keeps kept (free_request (U := U) (V := V) e).
Proof. unfold free_request. auto with keeps. Qed.
#[local] Hint Resolve keeps_fields keeps_io_list keeps_update_fields keeps_on_io
  keeps_free_request : keeps.

Lemma keeps_finalize e t : keeps kept (finalize_io (U := U) (V := V) e t).
Proof. unfold finalize_io. keeps_tac. Qed.
#[local] Hint Resolve keeps_finalize : keeps.

Lemma keeps_free_requests l : keeps kept (free_requests (U := U) (V := V) l).
Proof. induction l; cbn [free_requests]; keeps_tac. Qed.
#[local] Hint Resolve keeps_free_requests : keeps.

Lemma keeps_close_thread_io t : keeps kept (close_thread_io (U := U) (V := V) t).
Proof. unfold close_thread_io. keeps_tac. Qed.
#[local] Hint Resolve keeps_close_thread_io : keeps.

Lemma keeps_chat : keeps run_kept (chat_km_stdin (U := U) fuel).
Proof. unfold chat_km_stdin. keeps_tac. Qed.
Lemma keeps_fetch e : keeps run_kept (fetch_km_stdout (U := U) fuel e).
Proof. unfold fetch_km_stdout. keeps_tac. Qed.
#[local] Hint Resolve keeps_chat keeps_fetch : keeps.

Lemma keeps_io_thread t : keeps kept (io_thread_step (U := U) (V := V) fuel t).
Proof.
  unfold io_thread_step, handle_io, io_stdin_f, io_stdout_f, io_sleep_f,
    communication_io_stdin, communication_io_sleep. keeps_tac.
Qed.
End io.

(** ** The workers and the routines' threads *)

Section workers.
Context {U : Type} `{!Transport U}.
Context (fuel : nat).

(** Rounds of the worker threads, of the routines' threads, of the thread that
    watches the connection, and the server's order to stop. *)
Definition workers (i : t_queues U -> t_queues U) (n : nat) : list (M U unit) :=
  [ (_ ← thread_suspender_step fuel i; mret tt); (_ ← thread_resumer_step fuel i; mret tt);
    resumption_routine_thread fuel i n; thread_unlock_queue_ready i;
    (_ ← check_connection_kernel_memory fuel; mret tt); terminate_queue_ready ].

Lemma keeps_workers i n m : rely_run i -> m ∈ workers i n -> keeps run_kept m.
Proof.
  intros Hi Hm. pose proof (keeps_thread_suspender_step fuel i Hi).
  pose proof (keeps_thread_resumer_step fuel i Hi).
  unfold workers in Hm. rewrite !elem_of_cons in Hm.
  destruct Hm as [->|[->|[->|[->|[->|[->|Hm]]]]]].
  - keeps_tac.
  - keeps_tac.
  - by apply keeps_resumption_routine_thread.
  - by apply keeps_thread_unlock.
  - unfold check_connection_kernel_memory. keeps_tac.
  - by apply keeps_set_ready.
  - by apply elem_of_nil in Hm.
Qed.
End workers.

(** ** The wait *)

Section wait.
Context {U : Type} (V : Type) `{!Transport U, !Transport V}.
Context (fuel : nat).
Implicit Types (q : t_queues U).

(** A round of another thread, as the queues see it.  A round in which that
    thread waits in turn is one in which nothing happens meanwhile. *)
Inductive other_step q : t_queues U -> Prop :=
  | other_worker n m q' : m ∈ workers fuel id n -> m q = Ok (tt, q') -> other_step q q'
  | other_io (k : t_kernel U V) t b k' :
      k_queues k = q -> io_thread_step fuel t k = Ok (b, k') -> other_step q (k_queues k').

(** What the waits of a thread may be. *)
Definition waits (interfere : option Z -> t_queues U -> t_queues U) : Prop :=
  forall owner q, rtc other_step q (interfere owner q).

Lemma other_step_kept q q' : other_step q q' -> run_kept q q'.
Proof.
  intros [n m q1 Hm H|k t b k' <- H].
  - eapply keeps_workers, H; [apply rely_run_id|done].
  - exact (keeps_io_thread fuel t _ _ _ H).
Qed.

(** Every wait keeps the invariant and leaves the settled processes alone. *)
Definition rely_cpu (interfere : option Z -> t_queues U -> t_queues U) : Prop :=
  forall owner, rely_run (interfere owner).

Lemma waits_rely interfere : waits interfere -> rely_cpu interfere.
Proof.
  intros Hw owner q. specialize (Hw owner q).
  induction Hw as [q|q1 q2 q3 H _ IH]; [reflexivity|]. etrans; [by apply other_step_kept|done].
Qed.

Lemma waits_id : waits (fun _ q => q).
Proof. intros owner q. apply rtc_refl. Qed.
End wait.
