(* ===== verification/CpuThread.v ===== *)
(** * CpuThread: what the thread of a CPU keeps, and what it tells the CPU

    Lemmas and theorems about CpuConnection.v: whatever the CPU asks for, the
    queues' invariant is kept, and the CPU is told to go on exactly when its
    process still runs. *)

From Stdlib Require Import Strings.Byte Strings.String.
From S2P Require Import Prelude Bytes Msg Text Structs IoModule SchedState Pcb.
From S2P Require Import ReadyQueue ProcessLists KmReply Queues QueuesWf Mutex MutexRun.
From S2P Require Import Routines IoConnection CpuConnection OtherThreads.

(** With multilevel queues no mutex exists: see [priority_change_duplicates]. *)
Definition mutexes_allowed {U V} (k : t_kernel U V) : Prop :=
  multilevel_queue (ready (k_queues k)) = true -> mutex_list k = ∅.

Definition kernel_ok {U V} (k : t_kernel U V) : Prop :=
  sched_wf (k_queues k) /\ mutexes_allowed k.

Section thread.
Context {U V W : Type} `{!Transport U, !Transport V, !Transport W}.
(** The processes the other CPUs run. *)
Context (others : Z -> Prop).
Implicit Types (x : t_cpu_state U V W) (q : t_queues U) (k : t_kernel U V).

Abbreviation queues_of x := (k_queues (kernel x)).

(** ** Calls on the parts of the state *)

Lemma in_queues_Ok {A} (m : M U A) x a x' :
  in_queues m x = Ok (a, x') ->
  exists q', m (queues_of x) = Ok (a, q') /\
    x' = mk_cpu_state (set_queues q' (kernel x)) (thread x).
Proof.
  unfold in_queues, on_kernel, on_queues. destruct (m _) as [[b q]|]; [|done].
  intros [= <- <-]. by exists q.
Qed.

(** Reading, and what the thread does alone: the process and the decision stay. *)
Definition same_run x x' : Prop :=
  kernel x' = kernel x /\ cpu_pcb (thread x') = cpu_pcb (thread x) /\
  preemption_reason (thread x') = preemption_reason (thread x).

#[export] Instance same_run_preorder : PreOrder same_run.
Proof. unfold same_run. split; repeat intro; naive_solver congruence. Qed.

Lemma keeps_on_fd {A} (f : t_socket W -> res (A * t_socket W)) : keeps same_run (on_fd f).
Proof. unfold on_fd, update. keeps_tac. Qed.

Lemma keeps_data_pcb : keeps same_run (data_pcb (U := U) (V := V) (W := W)).
Proof. unfold data_pcb. keeps_tac. Qed.
#[local] Hint Resolve keeps_on_fd keeps_data_pcb : keeps.

Lemma keeps_skip_string : keeps same_run (skip_string (U := U) (V := V) (W := W)).
Proof. unfold skip_string. keeps_tac. Qed.
Lemma keeps_receive_id : keeps same_run (receive_id_mutex (U := U) (V := V) (W := W)).
Proof. unfold receive_id_mutex. keeps_tac. Qed.
Lemma keeps_receive_memory :
  keeps same_run (receive_syscall_memory (U := U) (V := V) (W := W)).
Proof. unfold receive_syscall_memory. keeps_tac. Qed.

Lemma data_pcb_Ok x p x' :
  data_pcb x = Ok (p, x') -> x' = x /\ cpu_pcb (thread x) = Some p.
Proof.
  unfold data_pcb. intros H. inv_M H as d x1 E. rewrite gets_M in E. simplify_eq.
  rewrite lift_M in H. destruct (cpu_pcb _); [|done]. by simplify_eq/=.
Qed.

(** ** The process of the CPU *)

(** The invariant, with the other CPUs running. *)
Definition wf_with q : Prop :=
  sched_wf q /\ forall y, others y -> state_of q y = Some PS_EXEC.

(** The CPU runs [p]. *)
Definition running (p : Z) x : Prop :=
  wf_with (queues_of x) /\ ~ others p /\ cpu_pcb (thread x) = Some p /\
  preemption_reason (thread x) = PR_NO_PREEMPTION /\
  state_of (queues_of x) p = Some PS_EXEC.

(** The decision agrees with the state of the process. *)
Definition handled (p : Z) x : Prop :=
  wf_with (queues_of x) /\ ~ others p /\ cpu_pcb (thread x) = Some p /\
  preemption_reason (thread x) ≠ PR_HIGHER_PRIORITY_PROCESS /\
  (preemption_reason (thread x) = PR_NO_PREEMPTION <->
   state_of (queues_of x) p = Some PS_EXEC).

(** After the thread's own decisions too: another process may have taken over. *)
Definition decided (p : Z) x : Prop :=
  match preemption_reason (thread x) with
  | PR_HIGHER_PRIORITY_PROCESS =>
      wf_with (queues_of x) /\ state_of (queues_of x) p = Some PS_READY /\
      exists p', p' ≠ p /\ ~ others p' /\ cpu_pcb (thread x) = Some p' /\
                 state_of (queues_of x) p' = Some PS_EXEC
  | _ => handled p x
  end.

Lemma running_handled p x : running p x -> handled p x.
Proof. intros (H1 & H0 & H2 & H3 & H4). split_and!; [done..|by rewrite H3|done]. Qed.

Lemma handled_running p x :
  handled p x -> preemption_reason (thread x) = PR_NO_PREEMPTION -> running p x.
Proof. intros (H1 & H0 & H2 & H3 & H4) E. split_and!; [done..|by apply H4]. Qed.

Lemma handled_decided p x : handled p x -> decided p x.
Proof. intros H. unfold decided. case_match; try done. by destruct H as (_ & _ & _ & [] & _). Qed.

Lemma decided_wf p x : decided p x -> wf_with (queues_of x).
Proof. unfold decided. destruct (preemption_reason _); by intros [? _]. Qed.

Lemma decided_pcb p x p' : decided p x -> cpu_pcb (thread x) = Some p' -> ~ others p'.
Proof.
  unfold decided. destruct (preemption_reason _);
    try (intros (_ & Hp & E & _) Hp'; congruence).
  intros (_ & _ & n & _ & Hn & E & _) Hp'. congruence.
Qed.

Lemma running_same p x x' : same_run x x' -> running p x -> running p x'.
Proof. intros (E1 & E2 & E3). unfold running. by rewrite E1, E2, E3. Qed.

Lemma handled_same p x x' : same_run x x' -> handled p x -> handled p x'.
Proof. intros (E1 & E2 & E3). unfold handled. by rewrite E1, E2, E3. Qed.

(** The other CPUs go on when nothing but [p] leaves its CPU. *)
Lemma wf_with_step p q q' :
  wf_with q -> ~ others p -> sched_wf q' ->
  (forall y, y ≠ p -> state_of q y = Some PS_EXEC -> state_of q' y = Some PS_EXEC) ->
  wf_with q'.
Proof.
  intros [_ Ho] Hp Hwf H. split; [done|]. intros y Hy. apply H; [|by apply Ho].
  by intros ->.
Qed.

(** A step of the queues that keeps the running processes. *)
Lemma running_kept {A} (m : M U A) p x a x' :
  keeps run_kept m -> in_queues m x = Ok (a, x') -> running p x -> running p x'.
Proof.
  intros Hm (q' & H & ->)%in_queues_Ok ([Hwf Ho] & Hnp & Hp & Hr & Hs).
  destruct (Hm _ _ _ H Hwf) as [Hwf' Hset _].
  split_and!; [|done..|by apply Hset]. split; [done|]. intros y Hy. by apply Hset, Ho.
Qed.

(** The process leaves the CPU, and the thread records why. *)
Lemma left_handled p x x1 r q' :
  wf_with q' -> ~ others p -> state_of q' p ≠ Some PS_EXEC -> cpu_pcb (thread x) = Some p ->
  r ≠ PR_NO_PREEMPTION -> r ≠ PR_HIGHER_PRIORITY_PROCESS ->
  queues_of x1 = q' -> thread x1 = set_reason r (thread x) -> handled p x1.
Proof.
  intros Hwf Hnp Hs Hp Hn Hh Eq Et. unfold handled. rewrite Eq, Et. cbn.
  split_and!; [done..|]. split; intros; done.
Qed.
End thread.
#[export] Hint Resolve keeps_on_fd keeps_data_pcb keeps_skip_string keeps_receive_id
  keeps_receive_memory : keeps.

(** ** A process takes over from another *)

Section preempt.
Context {U : Type} `{!Transport U}.
Implicit Types (q : t_queues U).

Lemma dispatch_exists q n q1 :
  sched_wf q -> transition_take_ready_next q = Ok (Some n, q1) ->
  exists lowest, dispatch_next q = Ok (Some n,
    set_exec (fun e => set_exec_list (fun l => l ++ [n]) (set_lowest_priority lowest e))
      (set_pcbs (alter (set_state PS_EXEC) n) q1)).
Proof.
  intros Hwf H. pose proof H as H0.
  apply take_next_Ok in H as [(? & _)|(p & i & f & r' & Ep & -> & Hin & _)]; [done| |done].
  simplify_eq. apply in_subqueue_pids, (proj2 (sw_lists _ Hwf) p PS_READY) in Hin as [_ Hp].
  unfold state_of in Hp. apply fmap_Some in Hp as (pcb & Hpcb & Hst).
  set (q1 := set_ready _ q) in *. assert (pcbs q1 !! p = Some pcb) as Hpcb1 by done.
  unfold dispatch_next. rewrite bind_M, H0.
  unfold transition_ready_exec, manage_state_pcb, get_state_pcb. run_M.
  rewrite (get_pcb_alive _ _ _ Hpcb1). run_M. rewrite decide_True by done. run_M.
  rewrite (update_pcb_alive _ _ _ _ Hpcb1). run_M. set (q2 := set_pcbs _ q1).
  unfold transition_to_exec. run_M. destruct (preemption (exec q2)); run_M.
  - rewrite get_priority_alive by (eexists; cbn; by rewrite lookup_alter_eq, Hpcb). run_M.
    by eexists.
  - by eexists.
Qed.

(** What [manage_preemption_priority] does: the next process is taken before
    the running one goes back to the ready queue. *)
Lemma take_over_ok q p n q1 u1 q2 u2 q3 u3 q4 :
  sched_wf q -> state_of q p = Some PS_EXEC ->
  transition_take_ready_next q = Ok (Some n, q1) -> transition_exec_ready p q1 = Ok (u1, q2) ->
  transition_ready_exec n q2 = Ok (u2, q3) -> transition_to_exec n q3 = Ok (u3, q4) ->
  n ≠ p /\ sched_wf q4 /\ state_of q n = Some PS_READY /\
  forall y, state_of q4 y = if decide (y = p) then Some PS_READY
                            else if decide (y = n) then Some PS_EXEC else state_of q y.
Proof.
  intros Hwf Hp E1 E2 E3 E4.
  destruct (dispatch_exists _ _ _ Hwf E1) as [lowest Ed].
  apply dispatch_next_wf in Ed as (Hwfa & Hn & Hsa); [|done].
  assert (n ≠ p) as Hnp by congruence.
  apply take_next_Ok in E1 as [(? & _)|(n0 & i & f & r' & En & -> & _)]; [done| |done].
  simplify_eq. apply managed in E2 as [[_ E2]|[Hx _]]; [|done].
  inv_M E2 as u q5 E5. apply take_exec_Ok in E5 as [k ->].
  apply to_ready_Ok in E2 as (r2 & Hr2 & ->).
  inv_M E3 as b q6 E6. run_M_in E3. simplify_eq.
  apply manage_state_Ok in E6 as [(_ & _ & ->)|(_ & Hx & _)].
  2: { destruct Hx. rewrite <- Hn. unfold state_of. cbn. by rewrite lookup_alter_ne. }
  apply to_exec_Ok in E4 as [k2 ->]. split; [done|].
  set (qa := set_exec _ _) in Hwfa, Hsa. set (q4 := set_exec _ _).
  assert (pcbs q4 = alter (set_state PS_READY) p (pcbs qa)) as Epcbs
    by (cbn; by rewrite alter_alter_ne).
  assert (steps qa p PS_EXEC PS_READY q4) as [Hwf4 [[Hpa Hs4]|[Hx _]]].
  - apply (steps_ready qa p PS_EXEC (set_ready (fun _ => r') q4) r2 (set_state PS_READY));
      try done.
    + by rewrite Hsa, decide_False.
    + rewrite <- Hr2. f_equal. unfold prio. cbn. by rewrite lookup_alter_ne.
    + cbn. rewrite app_comm_cons, remove_same_perm; [done|]. by apply (in_list q p PS_EXEC).
    + by intros [].
  - split_and!; [done..|]. intros y. by rewrite Hs4, Hsa.
  - destruct Hx. by rewrite Hsa, decide_False.
Qed.
End preempt.

Section handlers.
Context {U V W : Type} `{!Transport U, !Transport V, !Transport W}.
Context (others : Z -> Prop).
Context (fuel : nat) (interfere : option Z -> t_queues U -> t_queues U).
Context (Hrely : rely_cpu interfere).
Implicit Types (x : t_cpu_state U V W) (q : t_queues U) (k : t_kernel U V).

Abbreviation queues_of x := (k_queues (kernel x)).
Abbreviation wf_with := (wf_with others).
Abbreviation running := (running others).
Abbreviation handled := (handled others).
Abbreviation decided := (decided others).

Lemma exec_exit_left p reason q r q' :
  wf_with q -> ~ others p -> transition_exec_exit fuel (interfere None) p reason q = Ok (r, q') ->
  wf_with q' /\ state_of q' p ≠ Some PS_EXEC.
Proof using Hrely.
  intros [Hwf Ho] Hnp H. assert (forall y, others y -> state_of q' y = Some PS_EXEC) as Ho'.
  { intros y Hy. eapply exec_exit_others in H; [done| |done|by intros ->|by apply Ho].
    by apply rr_spares. }
  apply transition_exec_exit_wf in H as [Hwf' H]; [|by apply rr_rely|done]. split; [done|].
  destruct H as [[_ Hd]|[Hs ->]]; [|done]. intros Hs. destruct Hd. unfold state_of in Hs.
  apply fmap_Some in Hs as (pcb & E & _). by eexists.
Qed.

Lemma exit_process_ok p reason pr x u x' :
  pr ≠ PR_NO_PREEMPTION -> pr ≠ PR_HIGHER_PRIORITY_PROCESS -> running p x ->
  exit_process fuel interfere reason pr x = Ok (u, x') -> handled p x'.
Proof using Hrely.
  intros Hn Hh (Hwf & Hnp & Hp & _ & _) H. unfold exit_process in H. inv_M H as p0 x1 E1.
  apply data_pcb_Ok in E1 as [-> E1]. assert (p0 = p) as -> by congruence.
  inv_M H as u1 x2 E2. apply in_queues_Ok in E2 as (q' & E2 & ->).
  apply exec_exit_left in E2 as [Hwf' Hs]; [|done..].
  unfold update in H. rewrite modify_M in H. simplify_eq.
  by eapply (left_handled others p x _ pr).
Qed.

(** [exits H]: the call [H] ends the process. *)
Ltac exits H := eapply exit_process_ok; [| | |exact H]; [done..|].

(** What a handler starts from. *)
Definition ready_for (p : Z) x : Prop :=
  running p x /\ mutexes_allowed (kernel x) /\ next_pid (queues_of x) < INT_MAX.

Lemma ready_for_same p x x' : same_run x x' -> ready_for p x -> ready_for p x'.
Proof.
  intros H (H1 & H2 & H3). pose proof H as (E & _).
  split_and!; [by eapply running_same|by rewrite E..].
Qed.

Definition handler_ok (p : Z) (h : cpuM U V W unit) : Prop :=
  forall x u x', ready_for p x -> h x = Ok (u, x') -> handled p x'.

(** A handler starts by reading the message. *)
Lemma read_handler_ok {A} p (m : cpuM U V W A) (h : A -> cpuM U V W unit) :
  keeps same_run m -> (forall a, handler_ok p (h a)) -> handler_ok p (mbind h m).
Proof.
  intros Hm Hh x u x' Hx H. inv_M H as a x1 E. apply Hm in E.
  eapply Hh; [|done]. by eapply ready_for_same.
Qed.

Lemma ret_handler_ok p : handler_ok p (mret tt).
Proof. intros x u x' [Hx _] H. rewrite ret_M in H. simplify_eq. by apply running_handled. Qed.

Lemma keeps_handler_ok p h : keeps same_run h -> handler_ok p h.
Proof.
  intros Hh x u x' [Hx _] H. apply Hh in H. apply running_handled. by eapply running_same.
Qed.

Lemma exit_handler_ok p reason pr :
  pr ≠ PR_NO_PREEMPTION -> pr ≠ PR_HIGHER_PRIORITY_PROCESS ->
  handler_ok p (exit_process fuel interfere reason pr).
Proof using Hrely. intros Hn Hh x u x' [Hx _] H. by eapply exit_process_ok. Qed.

(** The same after a change of the mutexes. *)
Lemma set_mutexes_running p x ms :
  running p x -> running p (mk_cpu_state (set_mutexes ms (kernel x)) (thread x)).
Proof. done. Qed.

Lemma mutex_create_ok p : handler_ok p (handle_syscall_mutex_create fuel interfere).
Proof using Hrely.
  unfold handle_syscall_mutex_create. apply read_handler_ok; [auto with keeps|intros id].
  intros x u x' [Hx _] H. run_M_in H. destruct (create_and_add_mutex _ _ _) as [r ms].
  inv_M H as u1 x1 E. unfold on_kernel in E. rewrite modify_M in E. simplify_eq.
  apply (set_mutexes_running _ _ ms) in Hx.
  destruct r; try (rewrite ret_M in H; simplify_eq; by apply running_handled).
  by exits H.
Qed.

Lemma mutex_lock_step ms id p q r ms' q' :
  sched_wf q -> (multilevel_queue (ready q) = true -> ms = ∅) ->
  list_mutex_lock fuel ms id p q = Ok (r, ms', q') ->
  sched_wf q' /\ match r with
                 | MR_WAITING_MUTEX => state_of q' p ≠ Some PS_EXEC /\
                     forall y, y ≠ p -> state_of q' y = state_of q y
                 | _ => forall y, state_of q' y = state_of q y
                 end.
Proof.
  intros Hwf Hm H. destruct (multilevel_queue (ready q)) eqn:E.
  - rewrite (Hm eq_refl) in H. unfold list_mutex_lock in H. rewrite lookup_empty, ret_M in H.
    by simplify_eq.
  - apply list_mutex_lock_run in H as (? & _ & ?); [by split|done..].
Qed.

Lemma mutex_unlock_step ms id p q r ms' q' :
  sched_wf q -> (multilevel_queue (ready q) = true -> ms = ∅) ->
  list_mutex_unlock ms id p q = Ok (r, ms', q') ->
  sched_wf q' /\ forall y, state_of q y = Some PS_EXEC -> state_of q' y = Some PS_EXEC.
Proof.
  intros Hwf Hm H. destruct (multilevel_queue (ready q)) eqn:E.
  - rewrite (Hm eq_refl) in H. unfold list_mutex_unlock in H.
    rewrite lookup_empty, ret_M in H. by simplify_eq.
  - apply list_mutex_unlock_run in H as [(? & _ & ?) _]; [by split|done..].
Qed.

Lemma on_mutexes_Ok f x p r x' :
  cpu_pcb (thread x) = Some p -> on_mutexes f x = Ok (r, x') ->
  exists x1 id ms' q', same_run x x1 /\ f (mutex_list (kernel x)) id p (queues_of x)
    = Ok (r, ms', q') /\ queues_of x' = q' /\ thread x' = thread x1.
Proof.
  intros Hp H. unfold on_mutexes in H. inv_M H as id x1 E1. apply keeps_receive_id in E1.
  pose proof E1 as (Ek & Ep & _). run_M_in H.
  destruct (data_pcb x1) as [[p0 x2]|] eqn:E2; [|done]. apply data_pcb_Ok in E2 as [-> E2].
  assert (p0 = p) as -> by congruence.
  inv_M H as [r0 ms'] x3 E3. apply in_queues_Ok in E3 as (q' & E3 & ->).
  inv_M H as u x4 E4. unfold on_kernel in E4. rewrite modify_M in E4. run_M_in H. simplify_eq.
  rewrite Ek in E3. by exists x1, id, ms', q'.
Qed.

Lemma mutex_lock_ok p : handler_ok p (handle_syscall_mutex_lock fuel interfere).
Proof using Hrely.
  intros x u x' (([Hwf Ho] & Hnp & Hp & Hr & Hs) & Hm & _) H.
  unfold handle_syscall_mutex_lock in H.
  inv_M H as r x1 E. apply (on_mutexes_Ok _ _ p) in E as (x2 & id & ms' & q' & Es & E & Eq & Et);
    [|done]. destruct Es as (_ & Ep & Er).
  apply mutex_lock_step in E as [Hwf' E]; [|done..]. rewrite <- Eq in Hwf', E.
  assert ((forall y, state_of (queues_of x1) y = state_of (queues_of x) y) -> running p x1) as Hrun.
  { intros Hall. split_and!; [|congruence..|by rewrite Hall].
    split; [done|]. intros y Hy. rewrite Hall. by apply Ho. }
  destruct r; try (rewrite ret_M in H; simplify_eq; by apply running_handled, Hrun).
  - exits H. by apply Hrun.
  - unfold update in H. rewrite modify_M in H. simplify_eq.
    destruct E as [Hs' Ho']. 
    eapply (left_handled others p x1 _ PR_MUTEX_LOCKED (queues_of x1)); try done;
      [|congruence].
    eapply (wf_with_step _ p (queues_of x)); [by split|done..|].
    intros y Hy Hye. by rewrite Ho'.
Qed.

Lemma mutex_unlock_ok p : handler_ok p (handle_syscall_mutex_unlock fuel interfere).
Proof using Hrely.
  intros x u x' (([Hwf Ho] & Hnp & Hp & Hr & Hs) & Hm & _) H.
  unfold handle_syscall_mutex_unlock in H.
  inv_M H as r x1 E. apply (on_mutexes_Ok _ _ p) in E as (x2 & id & ms' & q' & Es & E & Eq & Et);
    [|done]. destruct Es as (_ & Ep & Er).
  apply mutex_unlock_step in E as [Hwf' E]; [|done..]. rewrite <- Eq in Hwf', E.
  assert (running p x1) as Hx1 
    by (split_and!; [split; [done|]; intros y Hy; apply E, Ho, Hy|congruence..|by apply E]).
  destruct r; try (rewrite ret_M in H; simplify_eq; by apply running_handled).
  all: by exits H.
Qed.

(** A step of the queues that keeps the process of the CPU. *)
Lemma queues_handler_ok {A} p (m : M U A) (h : A -> cpuM U V W unit) :
  keeps run_kept m ->
  (forall a x u x', running p x -> h a x = Ok (u, x') -> handled p x') ->
  handler_ok p (a ← in_queues m; h a).
Proof.
  intros Hm Hh x u x' [Hx _] H. inv_M H as a x1 E. eapply Hh; [|exact H].
  by eapply running_kept.
Qed.

Lemma memory_allocation_ok p : handler_ok p (handle_syscall_memory_allocation fuel interfere).
Proof using Hrely.
  unfold handle_syscall_memory_allocation. apply read_handler_ok; [auto with keeps|intros a].
  intros x u x' Hx H. run_M_in H. rewrite (proj1 (proj2 (proj2 (proj1 Hx)))) in H.
  eapply queues_handler_ok in H; [done| | |exact Hx].
  - by apply keeps_allocate_memory.
  - clear -Hrely. intros ok x u x' Hx H. destruct ok; [|by exits H].
    rewrite ret_M in H. simplify_eq. by apply running_handled.
Qed.

Lemma memory_free_ok p : handler_ok p (handle_syscall_memory_free (U := U) fuel).
Proof.
  unfold handle_syscall_memory_free. apply read_handler_ok; [auto with keeps|intros a].
  apply queues_handler_ok; [apply keeps_free_memory|]. intros ok x u x' Hx H.
  apply (keeps_when same_run) in H; [|unfold update; keeps_tac].
  apply running_handled. by eapply running_same.
Qed.

Lemma insert_entry_same l e q l' q' :
  insert_entry_sorted l e q = Ok (l', q') -> q' = q.
Proof.
  revert l' q'. induction l as [|y l IH]; intros l' q' H; cbn [insert_entry_sorted] in H.
  - rewrite ret_M in H. by simplify_eq.
  - inv_M H as a q1 E1. apply get_priority_Ok in E1 as (-> & _ & _).
    inv_M H as b q1 E2. apply get_priority_Ok in E2 as (-> & _ & _).
    case_decide; [rewrite ret_M in H; by simplify_eq|].
    inv_M H as r q1 E3. apply IH in E3 as ->. rewrite ret_M in H. by simplify_eq.
Qed.

(** Queueing a request moves no process. *)
Definition same_queues k k' : Prop := k_queues k' = k_queues k.

#[local] Instance same_queues_preorder : PreOrder same_queues.
Proof. unfold same_queues. split; repeat intro; congruence. Qed.

Lemma keeps_get_fields t : keeps same_queues (get_fields (U := U) (V := V) t).
Proof. unfold get_fields, get_io. keeps_tac. Qed.

Lemma keeps_enqueue request t p :
  keeps same_queues (enqueue_io_request (U := U) (V := V) request t p).
Proof.
  pose proof (keeps_get_fields t).
  assert (forall l e, keeps same_queues (on_queues (V := V) (insert_entry_sorted (U := U) l e)))
    as Hinsert.
  { intros l e k l' k' E0. unfold on_queues in E0. destruct (insert_entry_sorted _ _ _) as [[y q]|]
      eqn:E; [|done]. apply insert_entry_same in E as ->. by simplify_eq. }
  unfold enqueue_io_request, get_io_list, update_fields, update_io. keeps_tac.
Qed.

Lemma io_ok p t : handler_ok p (handle_syscall_io fuel interfere t).
Proof using Hrely.
  unfold handle_syscall_io. apply read_handler_ok; [auto with keeps|intros [request n]].
  intros x u x' ((Hwf & Hnp & Hp & Hr & Hs) & _) H. unfold update in H. run_M_in H.
  destruct (data_pcb _) as [[p0 x1]|] eqn:E; [|done]. apply data_pcb_Ok in E as [-> E].
  cbn [thread cpu_pcb set_reason] in E. assert (p0 = p) as -> by congruence.
  inv_M H as ok x2 E2. unfold on_kernel in E2. cbn [kernel thread] in E2.
  destruct (enqueue_io_request _ _ _ _) as [[ok2 k2]|] eqn:E3; [|done].
  apply keeps_enqueue in E3. unfold same_queues in E3. simplify_eq.
  assert (exists q', wf_with q' /\ state_of q' p ≠ Some PS_EXEC /\
    x' = mk_cpu_state (set_queues q' k2) (set_reason PR_IO (thread x))) as (q' & Hwf' & Hs' & ->).
  { destruct ok; cbn [negb] in H; apply in_queues_Ok in H as (q' & H & ->);
      cbn [kernel thread] in H |- *; rewrite E3 in H; exists q'.
    - apply transition_exec_block_steps in H as [Hwf' [[_ H]|[H ->]]]; [..|apply Hwf]; [|done].
      split_and!; [|by rewrite H, decide_True|done].
      eapply (wf_with_step _ p); [done..|]. intros y Hy ?. by rewrite H, decide_False.
    - by apply exec_exit_left in H as [? ?]. }
  by eapply (left_handled others p x _ PR_IO q').
Qed.

Lemma start_process_ok p : handler_ok p (handle_syscall_start_process fuel interfere).
Proof using Hrely.
  unfold handle_syscall_start_process. apply read_handler_ok; [auto with keeps|intros l].
  do 4 (apply read_handler_ok; [keeps_tac|intros ?]).
  intros x u x' (([Hwf Ho] & Hnp & Hp & Hr & Hs) & _ & Hn) H. run_M_in H.
  apply in_queues_Ok in H as (q' & H & ->). rewrite Hp in H.
  assert (forall z, z = p \/ others z -> state_of q' z = Some PS_EXEC) as Hz.
  { intros z Hz. assert (state_of (queues_of x) z = Some PS_EXEC) as Hzs
      by (destruct Hz as [->|]; [done|by apply Ho]).
    eapply new_ready_others in H; [exact H|by apply rr_spares|done|done| |done].
    intros ->. apply fmap_Some in Hzs as (pcb & E & _).
    assert (alive (queues_of x) (next_pid (queues_of x))) as Ha by (by eexists).
    apply (sw_pids _ Hwf) in Ha. lia. }
  apply running_handled. split_and!; [|done..|apply Hz; by left].
  split; [|intros y Hy; apply Hz; by right].
  eapply transition_new_ready_wf, H; [by apply rr_rely|done..].
Qed.

(** Every request: what the CPU asks for is carried out or refused, and the
    decision recorded agrees with the state of the process. *)
Lemma syscall_handlers_ok p op : handler_ok p (syscall_handlers fuel interfere op).
Proof using Hrely.
  assert (handler_ok p (handle_invalid_syscall (U := U) (V := V) (W := W))) as Hinv.
  { apply keeps_handler_ok. unfold handle_invalid_syscall, update. keeps_tac. }
  destruct op as [[]|]; try exact Hinv; cbn [syscall_handlers].
  - apply keeps_handler_ok, keeps_skip_string.
  - apply read_handler_ok; [auto with keeps|]. intros _. by apply exit_handler_ok.
  - apply mutex_create_ok.
  - apply mutex_lock_ok.
  - apply mutex_unlock_ok.
  - apply memory_allocation_ok.
  - apply memory_free_ok.
  - apply io_ok.
  - apply io_ok.
  - apply io_ok.
  - apply start_process_ok.
  - apply read_handler_ok; [auto with keeps|]. intros _. by apply exit_handler_ok.
Qed.

(** ** The decisions *)

Lemma handled_queues {A} (m : M U A) p x a x' :
  keeps same_lists m -> in_queues m x = Ok (a, x') -> handled p x -> handled p x'.
Proof.
  intros Hm (q' & H & ->)%in_queues_Ok ([Hwf Ho] & Hnp & Hp & Hr & Hs). apply Hm in H.
  assert (forall y, state_of q' y = state_of (queues_of x) y) as Es
    by (intros; unfold state_of; by destruct H as (-> & _)).
  split_and!; [|done..|]; cbn [kernel k_queues set_queues thread]; [|by rewrite Es].
  split; [by eapply same_lists_wf|]. intros. rewrite Es. by apply Ho.
Qed.

Lemma ready_for_queues {A} (m : M U A) p x a x' :
  keeps same_lists m -> in_queues m x = Ok (a, x') -> ready_for p x -> ready_for p x'.
Proof.
  intros Hm (q' & H & ->)%in_queues_Ok (([Hwf Ho] & Hnp & Hp & Hr & Hs) & Ha & Hn).
  apply Hm in H. pose proof (same_lists_wf _ _ H Hwf). destruct H as (E1 & E2 & E3 & _).
  unfold ready_for, CpuThread.running, CpuThread.wf_with, mutexes_allowed, state_of in *.
  cbn [kernel k_queues set_queues mutex_list thread]. rewrite E1, E2, E3. by split_and!.
Qed.

Lemma no_preemption_Ok x b x' :
  no_preemption x = Ok (b, x') ->
  x' = x /\ b = bool_decide (preemption_reason (thread x) = PR_NO_PREEMPTION).
Proof. unfold no_preemption. intros H. run_M_in H. by simplify_eq. Qed.

(** Sending the running process back to the ready queue. *)
Lemma preempted_ok p r x u1 x1 x' u :
  r ≠ PR_NO_PREEMPTION -> r ≠ PR_HIGHER_PRIORITY_PROCESS -> running p x ->
  in_queues (transition_exec_ready p) x = Ok (u1, x1) -> update (set_reason r) x1 = Ok (u, x') ->
  handled p x'.
Proof.
  intros Hn Hh (Hwf & Hnp & Hp & _ & Hs) (q' & H & ->)%in_queues_Ok Hu.
  unfold update in Hu. rewrite modify_M in Hu. simplify_eq.
  apply transition_exec_ready_steps in H as [Hwf' [[_ H]|[H ->]]]; [..|apply Hwf]; [|done].
  eapply (left_handled others p x _ r q'); try done; [|by rewrite H, decide_True].
  eapply (wf_with_step _ p); [done..|]. intros y Hy ?. by rewrite H, decide_False.
Qed.

Lemma in_queues_same {A} (m : M U A) x a x' :
  (forall q a q', m q = Ok (a, q') -> q' = q) -> in_queues m x = Ok (a, x') -> same_run x x'.
Proof. intros Hm (q' & H & ->)%in_queues_Ok. apply Hm in H as ->. by destruct x as [[]]. Qed.

Lemma queue_blocked_ok p x u x' :
  handled p x -> manage_queue_blocked x = Ok (u, x') -> handled p x'.
Proof.
  intros Hx H. unfold manage_queue_blocked in H. inv_M H as b x1 E1.
  apply no_preemption_Ok in E1 as [-> ->]. inv_M H as blocked x2 E2.
  apply in_queues_same in E2; [|unfold is_queue_ready_blocked;
    intros q0 a0 q1 E; rewrite gets_M in E; by simplify_eq].
  apply (handled_same _ _ _ _ E2) in Hx as Hx2. destruct E2 as (_ & _ & E2).
  rewrite <- E2 in H.
  case_bool_decide as Hr; cbn [andb when] in H; [|rewrite ret_M in H; by simplify_eq].
  destruct blocked; cbn [when] in H; [|rewrite ret_M in H; by simplify_eq].
  apply (handled_running others p) in Hr; [|done]. inv_M H as p0 x3 E3.
  apply data_pcb_Ok in E3 as [-> E3].
  assert (p0 = p) as -> by (destruct Hr as (_ & _ & ? & _); congruence).
  inv_M H as u1 x4 E4. by eapply (preempted_ok p PR_COMPACTION).
Qed.

Lemma get_algorithm_same priority q a q' :
  get_algorithm_ready_queue priority q = Ok (a, q') -> q' = q.
Proof.
  unfold get_algorithm_ready_queue. intros H. run_M_in H. rewrite lift_M in H.
  destruct (at_index _); [|done]. run_M_in H. by simplify_eq.
Qed.

Lemma end_quantum_ok p x u x' :
  handled p x -> manage_end_quantum x = Ok (u, x') -> handled p x'.
Proof.
  intros Hx H. unfold manage_end_quantum in H. inv_M H as b x1 E1.
  apply no_preemption_Ok in E1 as [-> ->].
  case_bool_decide as Hr; cbn [negb] in H; [|rewrite ret_M in H; by simplify_eq].
  apply (handled_running others p) in Hr; [|done].
  inv_M H as empty x2 E2. apply in_queues_same in E2; [|unfold is_queue_ready_empty;
    intros q0 a0 q1 E; rewrite gets_M in E; by simplify_eq].
  pose proof (running_same _ _ _ _ E2 Hr) as Hr2.
  destruct empty; [rewrite ret_M in H; simplify_eq; by apply running_handled|].
  inv_M H as p0 x3 E3. apply data_pcb_Ok in E3 as [-> E3].
  assert (p0 = p) as -> by (destruct Hr2 as (_ & _ & ? & _); congruence).
  inv_M H as pr x4 E4. apply in_queues_same in E4;
    [|intros q0 a0 q1 E; by apply get_priority_Ok in E as (-> & _)].
  inv_M H as alg x5 E5. apply in_queues_same in E5; [|apply get_algorithm_same].
  assert (running p x5) as Hr5 by (by eapply running_same, running_same).
  case_decide; [rewrite ret_M in H; simplify_eq; by apply running_handled|].
  inv_M H as d x6 E6. rewrite gets_M in E6. simplify_eq.
  inv_M H as ended x7 E7. apply in_queues_same in E7; [|unfold quantum_ended;
    intros q0 a0 q1 E; run_M_in E; by simplify_eq].
  pose proof (running_same _ _ _ _ E7 Hr5) as Hr7.
  destruct ended; cbn [when] in H; [|rewrite ret_M in H; simplify_eq; by apply running_handled].
  inv_M H as u1 x8 E8. by eapply (preempted_ok p PR_QUANTUM_END).
Qed.

Lemma preempting_same p q b q' : preempting_priority p q = Ok (b, q') -> q' = q.
Proof.
  unfold preempting_priority. intros H. inv_M H as pr q1 E1.
  apply get_priority_Ok in E1 as (-> & _). inv_M H as l q1 E1.
  unfold is_lowest_priority_in_exec in E1. run_M_in E1. simplify_eq.
  destruct (negb _); run_M_in H; by simplify_eq.
Qed.

Lemma preemption_priority_ok p x u x' :
  handled p x -> manage_preemption_priority x = Ok (u, x') -> decided p x'.
Proof.
  intros Hx H. unfold manage_preemption_priority in H. run_M_in H.
  destruct (in_queues (gets exec) x) as [[e x1]|] eqn:E1; [|done].
  apply in_queues_same in E1; [|intros q0 a0 q1 E; rewrite gets_M in E; by simplify_eq].
  apply (handled_same _ _ _ _ E1) in Hx as Hx1. destruct E1 as (_ & Ep & Er).
  pose proof Hx1 as (_ & _ & Hp & _). rewrite <- Ep, Hp, <- Er in H.
  case_bool_decide as Hr; cbn [negb andb] in H;
    [|rewrite ret_M in H; simplify_eq; by apply handled_decided].
  apply (handled_running others p) in Hr; [|done].
  destruct (preemption e); cbn [negb] in H;
    [|rewrite ret_M in H; simplify_eq; by apply handled_decided].
  inv_M H as b x2 E2. apply in_queues_same in E2; [|apply preempting_same].
  pose proof (running_same _ _ _ _ E2 Hr) as Hr2.
  destruct b; cbn [negb] in H; [|rewrite ret_M in H; simplify_eq;
    by apply handled_decided, running_handled].
  inv_M H as new x3 E3. apply in_queues_Ok in E3 as (q3 & E3 & ->).
  destruct Hr2 as (Hwf & Hnp & Hp2 & Hreason & Hs).
  destruct new as [n|]; cycle 1.
  { rewrite ret_M in H. simplify_eq.
    apply take_next_Ok in E3 as [(_ & -> & _)|(? & ? & ? & ? & ? & _)]; [|done|apply Hwf].
    by apply handled_decided, running_handled. }
  inv_M H as u1 x4 E4. apply in_queues_Ok in E4 as (q4 & E4 & ->).
  inv_M H as u2 x5 E5. apply in_queues_Ok in E5 as (q5 & E5 & ->).
  inv_M H as u3 x6 E6. apply in_queues_Ok in E6 as (q6 & E6 & ->).
  inv_M H as now x7 E7. apply in_queues_Ok in E7 as (q7 & E7 & ->).
  rewrite gets_M in E7. unfold update in H. rewrite modify_M in H. simplify_eq.
  cbn [kernel k_queues set_queues] in *.
  destruct (take_over_ok _ _ _ _ _ _ _ _ _ _ (proj1 Hwf) Hs E3 E4 E5 E6)
    as (Hne & Hwf' & Hn & Hall).
  assert (~ others n) as Hnn by (intros Hn'; apply (proj2 Hwf) in Hn'; congruence).
  unfold CpuThread.decided. cbn. split_and!.
  - eapply (wf_with_step _ p); [done..|]. intros y Hy ?. rewrite Hall, decide_False by done.
    by case_decide.
  - by rewrite Hall, decide_True.
  - exists n. split_and!; [done..|]. by rewrite Hall, decide_False, decide_True.
Qed.

(** Once a request is served, the decision agrees with what happened. *)
Lemma serve_request_ok p op x u x' :
  ready_for p x -> serve_request fuel interfere op x = Ok (u, x') -> decided p x'.
Proof using Hrely.
  intros Hx H. unfold serve_request in H.
  inv_M H as u1 x1 E1. assert (ready_for p x1) as Hx1.
  { destruct (is_syscall op); cbn [when] in E1; [|rewrite ret_M in E1; by simplify_eq].
    eapply ready_for_queues; [|done..]. unfold increment_syscall_counter. keeps_tac. }
  inv_M H as u2 x2 E2. apply syscall_handlers_ok with (p := p) in E2; [|done].
  inv_M H as u3 x3 E3. assert (handled p x3) as Hx3.
  { destruct (is_syscall op); cbn [when] in E3; [|rewrite ret_M in E3; by simplify_eq].
    eapply handled_queues; [|done..]. unfold decrement_syscall_counter. keeps_tac. }
  inv_M H as u4 x4 E4. apply (queue_blocked_ok p) in E4; [|done].
  inv_M H as u5 x5 E5. apply (end_quantum_ok p) in E5; [|done].
  by apply (preemption_priority_ok p) in H.
Qed.

(** ** A round of the loop *)

(** What a thread keeps from round to round: unless it was interrupted, its
    process runs, and nobody else runs it. *)
Definition thread_ok x : Prop :=
  wf_with (queues_of x) /\ preemption_reason (thread x) ≠ PR_HIGHER_PRIORITY_PROCESS /\
  (preemption_reason (thread x) = PR_NO_PREEMPTION ->
   exists p, cpu_pcb (thread x) = Some p /\ ~ others p /\
             state_of (queues_of x) p = Some PS_EXEC).

(** The scheduler can serve a request of a CPU. *)
Definition can_serve k : Prop := mutexes_allowed k /\ next_pid (k_queues k) < INT_MAX.

Lemma take_next_kind q r q' :
  sched_wf q -> transition_take_ready_next q = Ok (r, q') ->
  multilevel_queue (ready q') = multilevel_queue (ready q) /\ next_pid q' = next_pid q.
Proof.
  intros Hwf H. apply take_next_Ok in H as [(_ & -> & _)|(p & i & f & r' & _ & -> & _ & Ht & _)];
    [done| |done]. by destruct Ht as (_ & (_ & Em & _) & _).
Qed.

(** The wait for a process, whatever the others do meanwhile. *)
Lemma wait_ready_ok q u q' :
  wf_with q -> wait (interfere None) can_take_ready q = Ok (u, q') ->
  wf_with q' /\ same_kind q q'.
Proof using Hrely.
  intros [Hwf Ho] H. apply (keeps_wait (interfere None) can_take_ready (Hrely None)) in H.
  destruct (H Hwf) as [Hwf' Hset Hk]. split; [|done]. split; [done|]. intros y Hy. by apply Hset, Ho.
Qed.

(** The process taken is nobody else's. *)
Lemma taken_ok q p q1 u1 q2 u2 q3 :
  wf_with q -> transition_take_ready_next q = Ok (Some p, q1) ->
  transition_ready_exec p q1 = Ok (u1, q2) -> transition_to_exec p q2 = Ok (u2, q3) ->
  wf_with q3 /\ ~ others p /\ state_of q3 p = Some PS_EXEC /\
  multilevel_queue (ready q3) = multilevel_queue (ready q) /\ next_pid q3 = next_pid q.
Proof.
  intros [Hwf Ho] E1 E2 E3. assert (dispatch_next q = Ok (Some p, q3)) as Ed.
  { unfold dispatch_next. rewrite bind_M, E1, bind_M, E2, bind_M, E3. done. }
  apply take_next_kind in E1 as [Em En]; [|done].
  apply dispatch_next_wf in Ed as (Hwf3 & Hp & Hs); [|done].
  assert (~ others p) as Hnp by (intros Hp'; apply Ho in Hp'; congruence).
  unfold transition_ready_exec in E2. inv_M E2 as b q4 E4. run_M_in E2. simplify_eq.
  apply to_exec_Ok in E3 as [k ->].
  assert (ready q2 = ready q1 /\ next_pid q2 = next_pid q1) as [Er2 En2]
    by (by apply manage_state_Ok in E4 as [(_ & _ & ->)|(_ & _ & ->)]).
  split_and!; [|done|by rewrite Hs, decide_True|cbn; congruence..].
  split; [done|]. intros y Hy. rewrite Hs. case_decide; [done|by apply Ho].
Qed.

Lemma request_process_ok x u x' :
  thread_ok x -> can_serve (kernel x) -> manage_request_process interfere x = Ok (u, x') ->
  wf_with (queues_of x') /\
  forall p, cpu_pcb (thread x') = Some p ->
    ~ others p /\ state_of (queues_of x') p = Some PS_EXEC /\ can_serve (kernel x').
Proof using Hrely.
  intros (Hwf & _ & Hrun) [Ha Hn] H. unfold manage_request_process in H. inv_M H as b x1 E1.
  apply no_preemption_Ok in E1 as [-> ->]. case_bool_decide as Hr.
  { rewrite ret_M in H. simplify_eq. split; [done|]. intros p Hp.
    destruct (Hrun Hr) as (p' & Hp' & Hnp & Hs). by assert (p' = p) as -> by congruence. }
  inv_M H as now x2 E2. apply in_queues_same in E2;
    [|intros q0 a0 q1 E; rewrite gets_M in E; by simplify_eq].
  unfold update in H. run_M_in H. destruct E2 as (Ek & _).
  destruct (in_queues _ _) as [[p x3]|] eqn:E3; [|done].
  apply in_queues_Ok in E3 as (q3 & E3 & ->). cbn [kernel thread] in *. rewrite Ek in *.
  unfold transition_take_ready_blocking in E3. inv_M E3 as u4 q4 E4.
  apply wait_ready_ok in E4 as (Hwf4 & Em4 & En4); [|done].
  inv_M E3 as ended q5 E5. unfold queue_ready_terminated in E5. rewrite gets_M in E5.
  simplify_eq. run_M_in H. cbn [kernel thread] in H. destruct (terminate_queue _).
  { rewrite ret_M in E3. simplify_eq. rewrite ret_M in H. simplify_eq. by split. }
  destruct p as [p|]; cycle 1.
  { rewrite ret_M in H. simplify_eq. split; [|done].
    apply take_next_Ok in E3 as [(_ & -> & _)|(? & ? & ? & ? & ? & _)]; [done|done|apply Hwf4]. }
  inv_M H as u6 x6 E6. apply in_queues_Ok in E6 as (q6 & E6 & ->).
  apply in_queues_Ok in H as (q7 & E7 & ->). cbn [kernel thread k_queues set_queues] in *.
  destruct (taken_ok _ _ _ _ _ _ _ Hwf4 E3 E6 E7) as (Hwf7 & Hnp & Hs7 & Em7 & En7).
  split; [done|]. intros p0 [= <-]. split_and!; [done..|]. split.
  - unfold mutexes_allowed in *. cbn. rewrite Em7, Em4. apply Ha.
  - cbn. by rewrite En7, En4.
Qed.

Lemma send_pid_ok x b x' :
  send_pid x = Ok (b, x') ->
  kernel x' = kernel x /\ cpu_pcb (thread x') = cpu_pcb (thread x) /\
  (b = true -> preemption_reason (thread x') = PR_NO_PREEMPTION).
Proof.
  intros H. unfold send_pid in H. inv_M H as r x1 E1. apply no_preemption_Ok in E1 as [-> ->].
  case_bool_decide as Hr; [rewrite ret_M in H; by simplify_eq|].
  inv_M H as sent x2 E2. unfold send_code in E2. inv_M E2 as p x3 E3.
  apply data_pcb_Ok in E3 as [-> E3]. inv_M E2 as pcb x4 E4.
  apply in_queues_same in E4; [|intros q0 a0 q1 E; by apply get_pcb_Ok in E as [-> _]].
  apply keeps_on_fd in E2. assert (same_run x x2) as (Ek & Ep & _) by (by etrans).
  unfold update in H. destruct sent; cbn [negb] in H; run_M_in H; by simplify_eq.
Qed.

Lemma report_decision_ok p x b x' :
  decided p x -> report_decision x = Ok (b, x') ->
  wf_with (queues_of x') /\ cpu_pcb (thread x') = cpu_pcb (thread x) /\
  (b = true -> thread_ok x').
Proof.
  intros Hx H. unfold report_decision in H. inv_M H as sent x1 E1.
  assert (same_run x x1) as Hs.
  { refine ((_ : keeps same_run send_preemption) _ _ _ E1). unfold send_preemption. keeps_tac. }
  destruct Hs as (Ek & Ep & Er). pose proof (decided_wf _ _ _ Hx) as Hwf.
  destruct sent; cbn [negb] in H; cycle 1.
  { unfold update in H. run_M_in H. simplify_eq. cbn. by rewrite Ek. }
  run_M_in H. case_decide as Hh.
  - apply send_pid_ok in H as (Ek' & Ep' & Er'). rewrite Ek', Ek, Ep', Ep. split_and!; [done..|].
    intros Hb. unfold CpuThread.decided in Hx. rewrite <- Er, Hh in Hx.
    destruct Hx as (_ & _ & p' & _ & Hnp & Hp & Hst).
    split_and!; [by rewrite Ek', Ek|by rewrite Er'|].
    intros _. exists p'. rewrite Ek', Ek, Ep', Ep. done.
  - rewrite ret_M in H. simplify_eq. rewrite Ek. split_and!; [done..|]. intros _.
    split_and!; [by rewrite Ek|done|]. rewrite Er, Ep, Ek. intros Hr.
    unfold CpuThread.decided in Hx. rewrite Hr in Hx.
    apply (handled_running others p) in Hx as (_ & Hnp & Hp & _ & Hst); [|done].
    by exists p.
Qed.

(** A round keeps the queues' invariant and the other CPUs running; when the
    loop goes on the thread is as it should be. *)
Lemma cpu_round x b x' :
  thread_ok x -> can_serve (kernel x) ->
  handle_cpu_client_step fuel interfere x = Ok (b, x') ->
  wf_with (queues_of x') /\ (forall p, cpu_pcb (thread x') = Some p -> ~ others p) /\
  (b = true -> thread_ok x').
Proof using Hrely.
  intros Hx Hk H. unfold handle_cpu_client_step in H. inv_M H as u x1 E1.
  apply request_process_ok in E1 as [Hwf1 Hp1]; [|done..].
  run_M_in H. destruct (cpu_pcb (thread x1)) as [p|] eqn:Ep.
  - destruct (Hp1 p eq_refl) as (Hnp & Hs & Hk1).
    inv_M H as sent x2 E2. apply send_pid_ok in E2 as (Ek2 & Ep2 & Er2).
    destruct sent; cbn [negb] in H; cycle 1.
    { rewrite ret_M in H. simplify_eq. rewrite Ek2, Ep2, Ep. split_and!; [done| |done].
      by intros p' [= <-]. }
    inv_M H as op x3 E3. apply keeps_on_fd in E3.
    inv_M H as u4 x4 E4. apply (serve_request_ok p) in E4.
    + apply (report_decision_ok p) in H as (Hwf' & Ep' & Hok); [|done].
      split_and!; [done| |done]. rewrite Ep'. intros p'. by eapply decided_pcb.
    + eapply ready_for_same; [done|]. destruct Hk1 as [Ha Hn]. rewrite <- Ek2 in *.
      split_and!; [|done..]. split_and!; [done..|congruence|by apply Er2|done].
  - unfold update in H. run_M_in H. simplify_eq. cbn. by rewrite Ep.
Qed.
End handlers.

(** ** What the CPU is told *)

Section told.
Context {U V : Type} `{!Transport U, !Transport V}.
Context (others : Z -> Prop).
Context (fuel : nat) (interfere : option Z -> t_queues U -> t_queues U).
Context (Hrely : rely_cpu interfere).
Implicit Types (x : t_cpu_state U V wire).

Abbreviation queues_of x := (k_queues (kernel x)).

(** A decision without another process to run. *)
Definition verdict (r : t_preemption_reason) : list byte :=
  frame (if decide (r = PR_NO_PREEMPTION) then OP_NO_INTERRUPT else OP_INTERRUPT)
    (lit (PREEMPTION_REASONS r)).

Lemma send_preemption_wire x w :
  socket_fd (thread x) = Some w -> up w = true ->
  send_preemption x = Ok (true, mk_cpu_state (kernel x)
    (set_socket_fd (Some (mk_wire (rx w) (tx w ++ verdict (preemption_reason (thread x))) true))
       (thread x))).
Proof.
  intros Es Hup. destruct w as [r t up0]. cbn in Hup. subst up0.
  unfold send_preemption, on_fd, update. run_M. rewrite Es.
  rewrite send_string_lit by (by destruct (preemption_reason _)). rewrite lift_M.
  rewrite wire_send by apply serialize_packet_ne. by run_M.
Qed.

Lemma send_pid_wire x p w pcb :
  preemption_reason (thread x) ≠ PR_NO_PREEMPTION -> cpu_pcb (thread x) = Some p ->
  pcbs (queues_of x) !! p = Some pcb -> socket_fd (thread x) = Some w -> up w = true ->
  send_pid x = Ok (true, mk_cpu_state (set_queues (queues_of x) (kernel x))
    (set_reason PR_NO_PREEMPTION (set_socket_fd
      (Some (mk_wire (rx w) (tx w ++ frame OP_RESUME_PROCESS (int_bytes p)) true)) (thread x)))).
Proof.
  intros Hr Hp Hpcb Es Hup. destruct w as [r t up0]. cbn in Hup. subst up0.
  unfold send_pid, no_preemption. run_M. rewrite bool_decide_false by done.
  unfold send_code, data_pcb. run_M. rewrite Hp, lift_M. cbn [deref]. run_M.
  unfold in_queues, on_kernel, on_queues. rewrite (get_pcb_alive _ _ _ Hpcb).
  unfold on_fd, update. run_M. cbn [thread]. rewrite Es, lift_M. unfold send_buffer.
  rewrite wire_send by apply serialize_packet_ne. by run_M.
Qed.

Lemma report_decision_wire p x w :
  decided others p x -> socket_fd (thread x) = Some w -> up w = true ->
  exists x' msg, report_decision x = Ok (true, x') /\
    socket_fd (thread x') = Some (mk_wire (rx w) (tx w ++ msg) true) /\
    if decide (state_of (queues_of x) p = Some PS_EXEC)
    then msg = verdict PR_NO_PREEMPTION /\ cpu_pcb (thread x') = Some p
    else (exists r, r ≠ PR_NO_PREEMPTION /\ msg = verdict r) \/
         (exists p', p' ≠ p /\ cpu_pcb (thread x') = Some p' /\
            state_of (queues_of x') p' = Some PS_EXEC /\
            msg = verdict PR_HIGHER_PRIORITY_PROCESS ++ frame OP_RESUME_PROCESS (int_bytes p')).
Proof.
  intros Hx Es Hup. unfold report_decision. rewrite bind_M, (send_preemption_wire x w) by done.
  cbn [negb]. run_M. cbn [thread set_socket_fd preemption_reason].
  destruct (decide (preemption_reason (thread x) = PR_HIGHER_PRIORITY_PROCESS)) as [Hr|Hr].
  - unfold decided in Hx. rewrite Hr in Hx. destruct Hx as (_ & Hp & p' & Hne & _ & Hp' & Hs').
    pose proof Hs' as (pcb & Epcb & _)%fmap_Some.
    erewrite send_pid_wire; [|cbn; by rewrite Hr|done|done|done|done]. cbn. rewrite Hr.
    eexists _, _. split; [reflexivity|]. cbn. rewrite <- app_assoc. split; [reflexivity|].
    rewrite decide_False by congruence. right. exists p'. done.
  - rewrite ret_M. eexists _, _. split; [reflexivity|]. cbn. split; [reflexivity|].
    assert (handled others p x) as (_ & _ & Hp & _ & Hiff)
      by (unfold decided in Hx; by destruct (preemption_reason _)).
    case_decide as Hs.
    + apply Hiff in Hs. by rewrite Hs.
    + left. eexists. split; [|done]. intros E. by apply Hs, Hiff.
Qed.

(** after every instruction the CPU is told to go on exactly when its process
    still runs; otherwise it is interrupted with the reason, and after a
    preemption by priority it is given the process that runs instead. *)
Theorem cpu_goes_on_iff_running p op x u x1 w :
  ready_for others p x -> serve_request fuel interfere op x = Ok (u, x1) ->
  socket_fd (thread x1) = Some w -> up w = true ->
  exists x' msg, report_decision x1 = Ok (true, x') /\
    socket_fd (thread x') = Some (mk_wire (rx w) (tx w ++ msg) true) /\
    if decide (state_of (queues_of x1) p = Some PS_EXEC)
    then msg = verdict PR_NO_PREEMPTION /\ cpu_pcb (thread x') = Some p
    else (exists r, r ≠ PR_NO_PREEMPTION /\ msg = verdict r) \/
         (exists p', p' ≠ p /\ cpu_pcb (thread x') = Some p' /\
            state_of (queues_of x') p' = Some PS_EXEC /\
            msg = verdict PR_HIGHER_PRIORITY_PROCESS ++ frame OP_RESUME_PROCESS (int_bytes p')).
Proof using Hrely.
  intros Hx H Es Hup. apply (serve_request_ok others _ _ Hrely p) in H; [|done].
  by apply report_decision_wire.
Qed.
End told.

Lemma rely_cpu_id {U} : rely_cpu (fun _ (q : t_queues U) => q).
Proof. intros owner. apply rely_run_id. Qed.

(** Process 0 has just run an instruction. *)
Lemma demo_exec_wf : sched_wf demo_exec.
Proof.
  destruct demo_steps as (H1 & H2 & _).
  eapply sched_step_wf, H2; [apply rely_id|]. eapply sched_step_wf, H1; [apply rely_id|].
  apply init_queues_wf.
Qed.

Definition cycle_done : t_cpu_state wire wire wire :=
  mk_cpu_state (mk_kernel demo_exec ∅ create_io_structures)
    (mk_cpu_thread (Some (mk_wire (drop 4 (frame OP_CPU_CYCLE_OK (lit "OK"))) [] true))
       (lit "1") (Some 0) true 0 PR_NO_PREEMPTION).

Definition cycle_served : t_cpu_state wire wire wire :=
  match serve_request 5 (fun _ q => q) (op_value OP_CPU_CYCLE_OK) cycle_done with
  | Ok (_, x) => x | _ => cycle_done end.

Lemma cpu_goes_on_iff_running_witness :
  exists x' msg, report_decision cycle_served = Ok (true, x') /\
    socket_fd (thread x') = Some (mk_wire [] ([] ++ msg) true) /\
    if decide (state_of (k_queues (kernel cycle_served)) 0 = Some PS_EXEC)
    then msg = verdict PR_NO_PREEMPTION /\ cpu_pcb (thread x') = Some 0
    else (exists r, r ≠ PR_NO_PREEMPTION /\ msg = verdict r) \/
         (exists p', p' ≠ 0 /\ cpu_pcb (thread x') = Some p' /\
            state_of (k_queues (kernel x')) p' = Some PS_EXEC /\
            msg = verdict PR_HIGHER_PRIORITY_PROCESS ++ frame OP_RESUME_PROCESS (int_bytes p')).
Proof.
  apply (cpu_goes_on_iff_running (fun _ => False) 5 (fun _ q => q)
    rely_cpu_id 0 (op_value OP_CPU_CYCLE_OK) cycle_done tt
    cycle_served (mk_wire [] [] true)).
  - split; [|split; [done|vm_compute; reflexivity]].
    split_and!; [|tauto|reflexivity|reflexivity|vm_compute; reflexivity].
    split; [exact demo_exec_wf|by intros y []].
  - vm_compute. reflexivity.
  - vm_compute. reflexivity.
  - done.
Defined.
