(* ===== verification/IoService.v ===== *)
(** * IoService: the scheduler's IO threads and the IO modules together

    The thread of a slot (IoConnection.v) with the IO module (IoModule.v) at the
    other end of its socket: a request is carried out and its process goes on.
    And what happens when the request is done before its process is blocked, or
    when no module of that type ever connected. *)

From Stdlib Require Import Strings.Byte Strings.String.
From S2P Require Import Prelude Bytes Msg Text File Structs Peer IoModule SchedState Pcb.
From S2P Require Import ReadyQueue ProcessLists KmReply Queues QueuesWf Mutex MutexWf.
From S2P Require Import IoConnection.

Section slots.
Context {U V : Type} `{!Transport U, !Transport V}.
Context (fuel : nat).
Implicit Types (k : t_kernel U V) (r : t_io V) (q : t_queues U).

(** The scheduler with this slot. *)
Definition put (t : t_io_type) r k : t_kernel U V := set_io (insert (slot t) r) k.

Definition slots_ok k : Prop := length (k_io k) = 3%nat.

Lemma put_lookup t r k : slots_ok k -> k_io (put t r k) !! slot t = Some r.
Proof. intros H. cbn. apply list_lookup_insert_eq. rewrite H. by destruct t; cbn; lia. Qed.

Lemma put_alter t f r k :
  slots_ok k -> set_io (alter f (slot t)) (put t r k) = put t (f r) k.
Proof.
  intros H. unfold put, set_io. cbn. f_equal. apply list_eq. intros i.
  destruct (decide (i = slot t)) as [->|Hi].
  - rewrite list_lookup_alter_eq.
    rewrite !list_lookup_insert_eq by (rewrite H; destruct t; cbn; lia). done.
  - rewrite list_lookup_alter_ne by done. by rewrite !list_lookup_insert_ne by done.
Qed.

Lemma on_io_put {A} t (f : t_socket V -> res (A * t_socket V)) r k :
  slots_ok k ->
  on_io t f (put t r k) = match f (socket_io r) with
                          | Ok (a, s) => Ok (a, put t (set_socket_io s r) k)
                          | Undef u => Undef u
                          end.
Proof.
  intros H. unfold on_io, get_io, update_io. run_M. rewrite (put_lookup t r k H), lift_M.
  cbn [at_index]. run_M. rewrite lift_M. destruct (f _) as [[a s]|]; [|done]. run_M.
  by rewrite put_alter.
Qed.

Lemma get_fields_put t s f k :
  slots_ok k -> get_fields t (put t (mk_io s (Some f)) k) = Ok (f, put t (mk_io s (Some f)) k).
Proof.
  intros H. unfold get_fields, get_io. run_M. rewrite (put_lookup t _ k H), lift_M.
  cbn [at_index]. by run_M.
Qed.

Lemma get_io_list_put t s b c l k :
  slots_ok k -> get_io_list t (put t (mk_io s (Some (mk_io_fields b c (Some l)))) k)
  = Ok (l, put t (mk_io s (Some (mk_io_fields b c (Some l)))) k).
Proof. intros H. unfold get_io_list. run_M. by rewrite get_fields_put. Qed.

Lemma update_fields_put t g s f k :
  slots_ok k ->
  update_fields t g (put t (mk_io s (Some f)) k) = Ok (tt, put t (mk_io s (Some (g f))) k).
Proof. intros H. unfold update_fields, update_io. run_M. by rewrite put_alter. Qed.

Lemma on_queues_put {A} t (m : M U A) r k :
  on_queues m (put t r k) = match m (k_queues k) with
                            | Ok (a, q) => Ok (a, put t r (set_queues q k))
                            | Undef u => Undef u
                            end.
Proof. done. Qed.

Lemma set_queues_twice q q' k : set_queues q (set_queues q' k) = set_queues q k.
Proof. done. Qed.

Lemma set_queues_same k : set_queues (k_queues k) k = k.
Proof. by destruct k. Qed.

(** ** The process goes on *)

Definition waits_io q p : Prop :=
  state_of q p = Some PS_BLOCK \/ state_of q p = Some PS_SUSP_BLOCK.

(** [q'] is [q] with [p] no longer blocked. *)
Definition unblocked q p q' : Prop :=
  sched_wf q' /\ km_socket q' = km_socket q /\
  forall x, state_of q' x
    = if decide (x = p) then unblocked_state <$> state_of q x else state_of q x.

Lemma unlock_unblocks q p :
  sched_wf q -> waits_io q p ->
  exists q', transition_unlock p q = Ok (tt, q') /\ unblocked q p q'.
Proof.
  intros Hwf Hp. destruct (unlock_ok q p Hwf Hp) as (q' & f & E & Ep & _ & _ & Ek & Hs).
  exists q'. split; [done|]. split_and!; [by apply transition_unlock_wf in E as [[? _]|[? _]]|done|].
  intros x. unfold state_of at 1. rewrite Ep. case_decide as Hx.
  - subst. rewrite lookup_alter_eq. unfold state_of in *. destruct (pcbs q !! p) as [pcb|]; [|done].
    cbn in *. f_equal. by apply Hs.
  - by rewrite lookup_alter_ne.
Qed.

(** The first request is taken out of the list. *)
Lemma finalize_Ok t s b c e l q' k :
  slots_ok k -> transition_unlock (e_pcb e) (k_queues k) = Ok (tt, q') ->
  finalize_io e t (put t (mk_io s (Some (mk_io_fields b c (Some (e :: l))))) k)
  = Ok (tt, put t (mk_io s (Some (mk_io_fields b c (Some l)))) (set_queues q' k)).
Proof.
  intros H E. unfold finalize_io. run_M. rewrite get_io_list_put by done.
  rewrite decide_True by set_solver. run_M. rewrite update_fields_put by done.
  cbn [l_remove_first set_io_list io_priority_active close_thread].
  rewrite bool_decide_true by done. unfold free_request. by rewrite on_queues_put, E.
Qed.

(** Its process goes on. *)
Lemma finalize_first t s b c e l k :
  slots_ok k -> sched_wf (k_queues k) -> waits_io (k_queues k) (e_pcb e) ->
  exists q', finalize_io e t (put t (mk_io s (Some (mk_io_fields b c (Some (e :: l))))) k)
    = Ok (tt, put t (mk_io s (Some (mk_io_fields b c (Some l)))) (set_queues q' k)) /\
    unblocked (k_queues k) (e_pcb e) q'.
Proof.
  intros H Hwf Hp. destruct (unlock_unblocks _ _ Hwf Hp) as (q' & E & Hq). exists q'.
  split; [|done]. by apply finalize_Ok.
Qed.

(** There is nobody to wake up. *)
Lemma unlock_running q p : state_of q p = Some PS_EXEC -> transition_unlock p q = Ok (tt, q).
Proof.
  intros Hp. unfold transition_unlock. run_M.
  rewrite (proj2 (get_state_Ok p q PS_EXEC q)) by done. rewrite decide_False by done.
  unfold transition_susp_block_susp_ready, manage_state_pcb. run_M.
  rewrite (proj2 (get_state_Ok p q PS_EXEC q)) by done. rewrite decide_False by done. by run_M.
Qed.
End slots.

(** ** The conversation with the IO module *)

Section module.
Context {U : Type} `{!Transport U}.
Implicit Types (k : t_kernel U (peer (t_io_module wire))) (io : t_io_module wire).

(** The slot of a module that waits for a request. *)
Definition with_module io (b : bool) (l : list t_io_entry) : t_io (peer (t_io_module wire)) :=
  mk_io (Some (mk_peer io [] true)) (Some (mk_io_fields b false (Some l))).

(** The module in state [io] serves the request by this reply. *)
Definition answers io (op : t_op_code) payload io' (rop : t_op_code) reply : Prop :=
  round_on io op payload = Ok (true, answering io' (frame rop reply)).

Lemma ask t op payload io io' rop reply f k :
  slots_ok k -> iom_socket io' = None -> answers io op payload io' rop reply ->
  on_io t (fun s => Ok (send_buffer op payload s))
    (put t (mk_io (Some (mk_peer io [] true)) f) k)
  = Ok (true, put t (mk_io (Some (mk_peer io' (frame rop reply) true)) f) k).
Proof.
  intros H Hs E. rewrite on_io_put by done. cbn [socket_io]. unfold send_buffer, send_packet.
  fold (frame op payload).
  rewrite (peer_request io io' op payload (frame rop reply)); [done|].
  unfold serve, io_server. rewrite app_nil_r. unfold answers, round_on in E. rewrite E.
  destruct io'. cbn in Hs. by subst.
Qed.

Lemma ask_packet t op payload io io' rop reply f k :
  slots_ok k -> iom_socket io' = None -> answers io op payload io' rop reply ->
  on_io t (fun s => Ok (send_packet (mk_packet (op_value op) payload) s))
    (put t (mk_io (Some (mk_peer io [] true)) f) k)
  = Ok (true, put t (mk_io (Some (mk_peer io' (frame rop reply) true)) f) k).
Proof. apply ask. Qed.

Lemma hear t io rop reply f k :
  slots_ok k -> reply <> [] -> sendable reply ->
  exists h,
    on_io t receive_op_code (put t (mk_io (Some (mk_peer io (frame rop reply) true)) f) k)
    = Ok (op_value rop, put t (mk_io (Some h) f) k) /\
    on_io t receive_string (put t (mk_io (Some h) f) k)
    = Ok (Some (written reply), put t (mk_io (Some (mk_peer io [] true)) f) k).
Proof.
  intros H Hne Hs.
  destruct (receive_reply (mk_peer io (frame rop reply) true) rop reply) as (h & E1 & E2);
    [done..|].
  exists h. rewrite !on_io_put by done. cbn [socket_io]. rewrite E1. split; [done|].
  unfold receive_string. by rewrite E2.
Qed.
End module.

(** ** What the threads do with a request *)

Section threads.
Implicit Types (k : t_kernel wire (peer (t_io_module wire))) (io : t_io_module wire).

Lemma request_whole t e bs :
  e_request e = Some (written bs) -> length bs = request_size t -> request_bytes t e = Ok bs.
Proof.
  intros E H. unfold request_bytes, read_bytes. rewrite E. cbn [deref mbind res_bind].
  unfold written. rewrite decide_True by (rewrite length_fmap; lia). rewrite drop_0.
  rewrite take_ge by (rewrite length_fmap; lia). apply defined_Some.
Qed.

(** A round of the thread of a slot with a request. *)
Lemma thread_serves fuel t io b e l k :
  slots_ok k ->
  io_thread_step fuel t (put t (with_module io b (e :: l)) k)
  = match handle_io fuel t (put t (with_module io b (e :: l)) k) with
    | Ok (true, k') => Ok (true, k')
    | Ok (false, k') => (_ ← close_thread_io t; mret false) k'
    | Undef u => Undef u
    end.
Proof.
  intros H. unfold io_thread_step, with_module. rewrite bind_M, get_fields_put by done.
  cbn [close_thread]. rewrite bind_M, get_io_list_put by done.
  rewrite decide_False by done. rewrite bind_M.
  by destruct (handle_io _ _ _) as [[[] k']|].
Qed.

Lemma first_request fuel t io b e l k :
  slots_ok k ->
  handle_io fuel t (put t (with_module io b (e :: l)) k)
  = match t with
    | IO_STDIN => io_stdin_f fuel e | IO_STDOUT => io_stdout_f fuel e | IO_SLEEP => io_sleep_f e
    end (put t (with_module io b (e :: l)) k).
Proof. intros H. unfold handle_io, with_module. by rewrite bind_M, get_io_list_put. Qed.

(** Kernel Memory's answer, when it is the one that is waited for. *)
Lemma km_reply n op payload rest out (q : t_queues wire) :
  km_socket q = Some (mk_wire (frame op payload ++ rest) out true) ->
  payload <> [] -> sendable payload ->
  exists q2,
    receive_km_opcode (S n) [op] q = Ok (op_value op, q2) /\
    km_receive receive_string q2
    = Ok (Some (written payload), set_km_socket (Some (mk_wire rest out true)) q).
Proof.
  intros Eq Hne Hs. unfold receive_km_opcode. cbn [receive_km_opcode_loop].
  unfold km_receive. run_M. rewrite Eq, lift_M, receive_op_code_frame. run_M.
  cbn [is_expected existsb]. rewrite bool_decide_true by done. cbn [orb].
  eexists. split; [done|]. run_M. unfold receive_string.
  cbn [km_socket set_km_socket]. rewrite lift_M, receive_buffer_wire by done. by run_M.
Qed.

Lemma sched_wf_socket s (q : t_queues wire) : sched_wf q -> sched_wf (set_km_socket s q).
Proof. by apply same_lists_wf. Qed.

(** The message with a request and the text that goes with it. *)
Lemma request_packet_text t e bs shown :
  e_request e = Some (written bs) -> length bs = request_size t -> x00 ∉ shown ->
  request_packet t e (written (shown ++ [x00]))
  = Ok (mk_packet (op_value (request_op t)) (elements [bs; shown ++ [x00]])).
Proof.
  intros E H Hz. unfold request_packet. rewrite (request_whole _ _ _ E H).
  cbn [mbind res_bind]. rewrite c_text_written by done. cbn [mbind res_bind].
  unfold packet_append_string, str_read. rewrite c_str_app by done.
  cbn -[int_bytes]. by rewrite app_nil_r, <- app_assoc.
Qed.

Lemma line_no_nul (keys line rest : text) c :
  x00 ∉ keys -> strchr keys c = Some (line, rest) -> x00 ∉ line.
Proof.
  intros Hz [Hk _]%strchr_Some Hin. apply Hz. rewrite Hk. apply elem_of_app. by left.
Qed.

Lemma take_no_nul n (l : text) : x00 ∉ l -> x00 ∉ truncate_text n l.
Proof.
  intros Hl. unfold truncate_text. case_decide; [|done]. intros Hin. apply Hl.
  apply elem_of_take in Hin as (i & Hi & _). by eapply list_elem_of_lookup_2.
Qed.

(** One round with a SLEEP, whatever state the process is in. *)
Lemma sleep_round fuel io b e l r q' k :
  slots_ok k -> iom_socket io = None ->
  e_request e = Some (written (sleep_request_bytes r)) -> in_u32 (blocked_time_ms r) ->
  transition_unlock (e_pcb e) (k_queues k) = Ok (tt, q') ->
  io_thread_step fuel IO_SLEEP (put IO_SLEEP (with_module io b (e :: l)) k)
  = Ok (true, put IO_SLEEP (with_module io b l) (set_queues q' k)).
Proof.
  intros H Hio Hreq Hr E. rewrite thread_serves, first_request by done.
  unfold io_sleep_f, communication_io_sleep. run_M.
  rewrite lift_M, (request_whole _ _ _ Hreq) by done. run_M. unfold with_module at 1.
  rewrite (ask _ _ _ io io OP_SLEEP_RESPONSE (lit "OK")) by (done || by apply io_sleeps).
  cbn [negb]. run_M.
  destruct (hear (U := wire) IO_SLEEP io OP_SLEEP_RESPONSE (lit "OK")
    (Some (mk_io_fields b false (Some (e :: l)))) k) as (h & E1 & E2); [done..|].
  rewrite E1, decide_False by done. rewrite bind_M, E2. run_M.
  rewrite lift_M. cbn [deref]. run_M. rewrite lift_M.
  change (c_text (written (lit "OK"))) with (Ok (txt "OK")).
  run_M. rewrite bool_decide_true by done. cbn [negb]. run_M.
  by rewrite (finalize_Ok _ _ _ _ _ _ q').
Qed.

(** Kernel Memory is asked for the text of a STDOUT. *)
Lemma fetch_reads n e r shown rest out (q : t_queues wire) :
  e_request e = Some (written (stdout_request_bytes r)) ->
  km_socket q = Some (mk_wire (frame OP_STDOUT_RESPONSE (shown ++ [x00]) ++ rest) out true) ->
  sendable (shown ++ [x00]) ->
  fetch_km_stdout (S n) e q
  = Ok (Some (written (shown ++ [x00])), set_km_socket (Some (mk_wire rest
      (out ++ frame OP_IO_STDOUT_REQUEST (stdout_request_bytes r)) true)) q).
Proof.
  intros Hreq Hkm Hs. unfold fetch_km_stdout. run_M.
  rewrite lift_M, (request_whole _ _ _ Hreq) by done. unfold km_send. run_M. rewrite Hkm.
  unfold send_buffer. rewrite wire_send by apply serialize_packet_ne.
  fold (frame OP_IO_STDOUT_REQUEST (stdout_request_bytes r)). run_M.
  cbn [negb].
  destruct (km_reply n OP_STDOUT_RESPONSE (shown ++ [x00]) rest
    (out ++ frame OP_IO_STDOUT_REQUEST (stdout_request_bytes r))
    (set_km_socket (Some (mk_wire (frame OP_STDOUT_RESPONSE (shown ++ [x00]) ++ rest)
      (out ++ frame OP_IO_STDOUT_REQUEST (stdout_request_bytes r)) true)) q))
    as (q2 & Ew & Er); [done|by destruct shown|done|].
  rewrite bind_M, Ew, decide_False by done. rewrite bind_M, Er. by run_M.
Qed.

(** Kernel Memory is given the text of a STDIN. *)
Lemma chat_writes n e bs typed reply rest out (q : t_queues wire) :
  e_request e = Some (written bs) -> length bs = request_size IO_STDIN -> x00 ∉ typed ->
  km_socket q = Some (mk_wire (frame OP_STDIN_RESPONSE reply ++ rest) out true) ->
  reply <> [] -> sendable reply ->
  exists packet q1,
    request_packet IO_STDIN e (written (typed ++ [x00])) = Ok packet /\
    km_send (send_packet packet) q = Ok (true, q1) /\
    chat_km_stdin (S n) q1 = Ok (true, set_km_socket (Some (mk_wire rest
      (out ++ frame OP_IO_STDIN_REQUEST (elements [bs; typed ++ [x00]])) true)) q).
Proof.
  intros Hreq Hl Hz Hkm Hne Hs. do 2 eexists. split; [by apply request_packet_text|].
  unfold km_send. run_M. rewrite Hkm. unfold send_packet.
  rewrite wire_send by apply serialize_packet_ne. run_M. split; [done|].
  match goal with |- chat_km_stdin _ ?q = _ => set (q1 := q) end.
  destruct (km_reply n OP_STDIN_RESPONSE reply rest
    (out ++ frame OP_IO_STDIN_REQUEST (elements [bs; typed ++ [x00]])) q1)
    as (q2 & Ew & Er); [done..|].
  unfold chat_km_stdin, km_skip_string. rewrite bind_M, Ew, decide_False by done. run_M.
  rewrite Er. by run_M.
Qed.


(** A STDIN: the line that was typed, cut to the size the process asked for, is
    sent to Kernel Memory, and once that answers the process goes on. *)
Lemma stdin_served n io b e l r line keys reply rest out k :
  slots_ok k -> sched_wf (k_queues k) -> waits_io (k_queues k) (e_pcb e) ->
  iom_socket io = None ->
  e_request e = Some (written (stdin_request_bytes r)) -> in_u32 (bytes_to_read r) ->
  x00 ∉ keyboard io -> strchr (keyboard io) x0a = Some (line, keys) ->
  km_socket (k_queues k)
  = Some (mk_wire (frame OP_STDIN_RESPONSE reply ++ rest) out true) ->
  reply <> [] -> sendable reply ->
  let typed := truncate_text (bytes_to_read r) line in
  sendable (elements [stdin_request_bytes r; typed ++ [x00]]) ->
  typed `prefix_of` line /\ (0 < bytes_to_read r -> l_size (typed ++ [x00]) <= bytes_to_read r) /\
  exists q',
    io_thread_step (S n) IO_STDIN (put IO_STDIN (with_module io b (e :: l)) k)
    = Ok (true, put IO_STDIN (with_module (set_keyboard keys io) b l) (set_queues q' k)) /\
    unblocked (set_km_socket (Some (mk_wire rest
      (out ++ frame OP_IO_STDIN_REQUEST
                (elements [stdin_request_bytes r; typed ++ [x00]])) true)) (k_queues k))
      (e_pcb e) q'.
Proof.
  intros H Hwf Hp Hio Hreq Hr Hz Hk Hkm Hrne Hrs typed Hall.
  split; [apply truncate_prefix|]. split; [apply truncate_fits|].
  pose proof (text_packet_elements (stdin_request_bytes r) typed ltac:(done) Hall)
    as [_ [[Hne Hs] _]%Forall_cons]%Forall_cons.
  set (io1 := set_keyboard keys io). set (q1 := set_km_socket _ _).
  destruct (finalize_first IO_STDIN (Some (mk_peer io1 [] true)) b false e l
    (set_queues q1 k)) as (q' & E & Hq); [done|by apply sched_wf_socket|done|].
  exists q'. split; [|done]. rewrite thread_serves, first_request by done.
  unfold io_stdin_f, communication_io_stdin. run_M.
  rewrite lift_M, (request_whole _ _ _ Hreq) by done. run_M. unfold with_module at 1.
  rewrite (ask _ _ _ io io1 OP_STDIN_RESPONSE (typed ++ [x00]))
    by (done || exact (io_types io _ _ _ Hr Hz Hk)).
  cbn [negb]. run_M.
  destruct (hear (U := wire) IO_STDIN io1 OP_STDIN_RESPONSE (typed ++ [x00])
    (Some (mk_io_fields b false (Some (e :: l)))) k) as (h & E1 & E2); [done..|].
  rewrite E1, decide_False by done. rewrite E2. run_M.
  destruct (chat_writes n e (stdin_request_bytes r) typed reply rest out (k_queues k))
    as (packet & q2 & -> & E3 & E4); [done|done| |done..|].
  { by apply take_no_nul, (line_no_nul _ _ _ _ Hz Hk). }
  rewrite lift_M. run_M. rewrite on_queues_put, E3. cbn [negb]. run_M.

  rewrite on_queues_put. cbn [k_queues set_queues]. rewrite E4, set_queues_twice. cbn [negb]. run_M.
  match goal with |- context [set_queues ?q k] => change q with q1 end. by rewrite E.
Qed.

(** The loop of [io_thread], for [n] rounds. *)
Fixpoint io_rounds fuel t (n : nat) : sysM wire (peer (t_io_module wire)) bool :=
  match n with
  | O => mret true
  | S n =>
      keep_running ← io_thread_step fuel t;
      if (keep_running : bool) then io_rounds fuel t n else mret false
  end.

(** A request that a SLEEP module can serve, of a process that waits. *)
Definition sleeping (q : t_queues wire) (e : t_io_entry) : Prop :=
  waits_io q (e_pcb e) /\
  exists r, e_request e = Some (written (sleep_request_bytes r)) /\ in_u32 (blocked_time_ms r).

Lemma sleeping_others q q' p e :
  unblocked q p q' -> e_pcb e ≠ p -> sleeping q e -> sleeping q' e.
Proof.
  intros (_ & _ & Hs) Hne [Hw Hr]. split; [|done]. unfold waits_io.
  by rewrite !Hs, !decide_False.
Qed.

(** C14: Every process that waits for a SLEEP goes on: the thread needs one round
    for each request, and wakes up no other process. *)
Theorem sleeps_all_end fuel io b l k :
  slots_ok k -> sched_wf (k_queues k) -> iom_socket io = None ->
  Forall (sleeping (k_queues k)) l -> NoDup (e_pcb <$> l) ->
  exists q',
    io_rounds fuel IO_SLEEP (length l) (put IO_SLEEP (with_module io b l) k)
    = Ok (true, put IO_SLEEP (with_module io b []) (set_queues q' k)) /\
    sched_wf q' /\
    forall x, state_of q' x
      = if decide (x ∈ e_pcb <$> l) then unblocked_state <$> state_of (k_queues k) x
        else state_of (k_queues k) x.
Proof.
  intros H Hwf Hio Hall Hnd. revert k H Hwf Hall.
  induction l as [|e l IH]; intros k H Hwf Hall; cbn [length io_rounds].
  { exists (k_queues k). rewrite ret_M, set_queues_same. split_and!; [done..|].
    intros x. by rewrite decide_False by apply not_elem_of_nil. }
  apply Forall_cons in Hall as [[Hw (r & Hreq & Hr)] Hall].
  rewrite fmap_cons in Hnd. apply NoDup_cons in Hnd as [Hni Hnd].
  destruct (unlock_unblocks _ _ Hwf Hw) as (q1 & E & Hq).
  assert (Forall (sleeping q1) l) as Hall1.
  { rewrite Forall_forall in *. intros y Hy. eapply sleeping_others; [done| |by apply Hall].
    intros Heq. apply Hni. rewrite <- Heq. by apply list_elem_of_fmap_2. }
  destruct (IH Hnd (set_queues q1 k) H (proj1 Hq) Hall1) as (q' & E' & Hwf' & Hs).
  exists q'. run_M. rewrite (sleep_round _ _ _ _ _ r q1) by done. rewrite E'.
  split_and!; [done..|]. intros x. rewrite Hs. cbn [k_queues set_queues].
  destruct Hq as (_ & _ & Hq). rewrite Hq. rewrite fmap_cons.
  destruct (decide (x = e_pcb e)) as [->|Hne].
  - rewrite decide_False by done. by rewrite decide_True by apply list_elem_of_here.
  - destruct (decide (x ∈ e_pcb <$> l)) as [Hin|Hin].
    + by rewrite decide_True by by apply list_elem_of_further.
    + rewrite decide_False; [done|]. by apply not_elem_of_cons.
Qed.

Lemma enqueue_empty t request io b p k :
  slots_ok k ->
  enqueue_io_request request t p (put t (with_module io b []) k)
  = Ok (true, put t (with_module io b [mk_entry p request]) k).
Proof.
  intros H. unfold enqueue_io_request, with_module. rewrite bind_M, get_fields_put by done.
  cbn [close_thread]. rewrite bind_M, get_io_list_put by done. cbn [io_priority_active].
  set (x := put t _ k).
  assert (on_queues (mret [mk_entry p request]) x = Ok ([mk_entry p request], x)) as Eb.
  { unfold on_queues. rewrite ret_M. by rewrite set_queues_same. }
  rewrite bind_M. destruct b; cbn [insert_entry_sorted app]; rewrite ?Eb; run_M;
    subst x; by rewrite update_fields_put.
Qed.

(** C40: [handle_syscall_io] puts the request in the list and then blocks the
    process; the IO thread may serve the request in between.  It wakes up nobody,
    the process blocks, and no request is left that would ever wake it up. *)
Theorem io_wakeup_lost fuel io b p r k :
  slots_ok k -> sched_wf (k_queues k) -> state_of (k_queues k) p = Some PS_EXEC ->
  iom_socket io = None -> in_u32 (blocked_time_ms r) ->
  exists k1 k2 q,
    enqueue_io_request (Some (written (sleep_request_bytes r))) IO_SLEEP p
      (put IO_SLEEP (with_module io b []) k) = Ok (true, k1) /\
    io_thread_step fuel IO_SLEEP k1 = Ok (true, k2) /\
    on_queues (transition_exec_block p) k2
    = Ok (tt, put IO_SLEEP (with_module io b []) (set_queues q k)) /\
    state_of q p = Some PS_BLOCK.
Proof.
  intros H Hwf Hp Hio Hr. rewrite enqueue_empty by done.
  destruct (exec_block_ok _ _ Hwf Hp) as (q & f & E & _).
  pose proof (transition_exec_block_steps _ _ _ _ Hwf E) as [_ [[_ Hs]|[? _]]]; [|done].
  do 2 eexists. exists q. split; [done|]. split.
  { eapply (sleep_round _ _ _ _ _ r); [done..|]. by apply unlock_running. }
  split; [by rewrite on_queues_put; cbn [k_queues set_queues]; rewrite E|].
  by rewrite Hs, decide_True.
Qed.

(** A request for a type whose module never connected reads fields that were
    never written. *)
Theorem io_slot_uninitialised fuel request t p k :
  k_io k = create_io_structures ->
  enqueue_io_request request t p k = Undef Indeterminate /\
  io_thread_step fuel t k = Undef Indeterminate.
Proof.
  intros H. unfold enqueue_io_request, io_thread_step, get_fields, get_io. run_M.
  rewrite H. by destruct t.
Qed.
End threads.

(** ** Concrete runs *)

(** A process that waits in BLOCK, or runs, and Kernel Memory's next words. *)
Definition demo_kernel (q : t_queues wire) (answer : list byte)
    : t_kernel wire (peer (t_io_module wire)) :=
  mk_kernel (set_km_socket (Some (mk_wire (answer ++ []) [] true)) q) ∅ create_io_structures.

Definition demo_module (t : t_io_type) : t_io_module wire :=
  mk_io_module t None None (txt "hello" ++ x0a :: txt "more") [].

Lemma demo_block_wf answer : sched_wf (k_queues (demo_kernel demo_block answer)).
Proof.
  apply sched_wf_socket. eapply sched_step_wf, demo_steps; [apply rely_id|].
  eapply sched_step_wf, demo_steps; [apply rely_id|].
  eapply sched_step_wf, demo_steps; [apply rely_id|]. apply init_queues_wf.
Qed.

Lemma demo_running_wf answer : sched_wf (k_queues (demo_kernel demo_exec answer)).
Proof.
  apply sched_wf_socket. eapply sched_step_wf, demo_steps; [apply rely_id|].
  eapply sched_step_wf, demo_steps; [apply rely_id|]. apply init_queues_wf.
Qed.

Lemma sleeps_all_end_witness :
  let k := demo_kernel demo_block [] in
  let io := demo_module IO_SLEEP in
  exists q',
    io_rounds 5 IO_SLEEP 1 (put IO_SLEEP (with_module io true
      [mk_entry 0 (Some (written (sleep_request_bytes (mk_sleep_request 0 7))))]) k)
    = Ok (true, put IO_SLEEP (with_module io true []) (set_queues q' k)) /\
    sched_wf q' /\
    forall x, state_of q' x
      = if decide (x ∈ [0]) then unblocked_state <$> state_of (k_queues k) x
        else state_of (k_queues k) x.
Proof.
  intros k io. apply (sleeps_all_end 5 io true [mk_entry 0 _] k);
    [done|apply demo_block_wf|done| |apply NoDup_singleton].
  apply Forall_singleton. split; [left; vm_compute; reflexivity|].
  exists (mk_sleep_request 0 7). split; [done|]. ints; cbn; lia.
Defined.


Lemma io_wakeup_lost_witness :
  let k := demo_kernel demo_exec [] in
  let io := demo_module IO_SLEEP in
  exists k1 k2 q,
    enqueue_io_request (Some (written (sleep_request_bytes (mk_sleep_request 0 7)))) IO_SLEEP 0
      (put IO_SLEEP (with_module io true []) k) = Ok (true, k1) /\
    io_thread_step 5 IO_SLEEP k1 = Ok (true, k2) /\
    on_queues (transition_exec_block 0) k2
    = Ok (tt, put IO_SLEEP (with_module io true []) (set_queues q k)) /\
    state_of q 0 = Some PS_BLOCK.
Proof.
  intros k io. apply (io_wakeup_lost 5 io true 0 (mk_sleep_request 0 7) k);
    [done|apply demo_running_wf|vm_compute; reflexivity|done|ints; cbn; lia].
Defined.

Lemma io_slot_uninitialised_witness :
  let k := demo_kernel demo_exec [] in
  enqueue_io_request None IO_STDOUT 0 k = Undef Indeterminate /\
  io_thread_step 5 IO_STDOUT k = Undef Indeterminate.
Proof. intros k. by apply (io_slot_uninitialised 5 None IO_STDOUT 0 k). Defined.
