(* ===== verification/IoKm.v ===== *)
(** * IoKm: a STDIN from the keyboard to the memory sticks

    The IO module, the scheduler and Kernel Memory together: what IoService.v
    says of the first two meets what SchedulerListener.v says of the third. *)

From Stdlib Require Import Strings.Byte Strings.String.
From S2P Require Import Prelude Bytes Msg Text File Structs MainMemory Segments Peer MemoryStick.
From S2P Require Import Sticks SwapModule KmSwap SchedulerListener IoModule SchedState Pcb.
From S2P Require Import Queues QueuesWf IoConnection IoService.

Section stdin.
Context {T V : Type} `{!Transport T, !Transport V, !Stick T}.
Context (fs : file_system).
Implicit Types (d : t_scheduler_data T V wire).

(** C12: A STDIN that is first in line, when its IO module and Kernel Memory serve it:
    [typed], the line that was typed cut to one byte less than the process asked
    for, is what the scheduler sends (with a NUL, and not padded) and what Kernel
    Memory reads; Kernel Memory writes it, padded with zeros to the size asked
    for, where the address translates to, and no other byte of the sticks
    changes; its answer is the one the scheduler waits for; the request leaves
    the list and the process goes on.  The process asks for at least one byte at
    an address of one of its segments, the bytes lie within the sticks, and the
    keyboard gives a line without a NUL. *)
Theorem stdin_reaches_memory n io b e l r line keys rest out k d mems s rest' out' :
  slots_ok k -> sched_wf (k_queues k) -> waits_io (k_queues k) (e_pcb e) ->
  iom_socket io = None ->
  e_request e = Some (written (stdin_request_bytes r)) ->
  in_u32 (in_pid r) -> in_u32 (in_logical_address r) -> 0 < bytes_to_read r <= INT_MAX ->
  x00 ∉ keyboard io -> strchr (keyboard io) x0a = Some (line, keys) ->
  let typed := truncate_text (bytes_to_read r) line in
  let request := elements [stdin_request_bytes r; typed ++ [x00]] in
  sendable request ->
  let reply := lit "Memory written" in
  km_socket (k_queues k) = Some (mk_wire (frame OP_STDIN_RESPONSE reply ++ rest) out true) ->
  socket_scheduler d = Some (mk_wire (frame OP_IO_STDIN_REQUEST request ++ rest') out' true) ->
  sticks_ok (connected_sticks d) mems -> memory_wf (main_memory d) ->
  0 < max_segment_size (main_memory d) <= INT_MAX ->
  find_segment (main_memory d) (in_pid r)
    (in_logical_address r / max_segment_size (main_memory d)) = Some s ->
  let pa := seg_base s + in_logical_address r mod max_segment_size (main_memory d) in
  pa + bytes_to_read r <= l_size (concat mems) ->
  let padded := typed ++ replicate (Z.to_nat (bytes_to_read r) - length typed) x00 in
  typed `prefix_of` line /\ l_size typed < bytes_to_read r /\
  (exists q',
    io_thread_step (S n) IO_STDIN (put IO_STDIN (with_module io b (e :: l)) k)
    = Ok (true, put IO_STDIN (with_module (set_keyboard keys io) b l) (set_queues q' k)) /\
    unblocked (set_km_socket (Some (mk_wire rest (out ++ frame OP_IO_STDIN_REQUEST request) true))
      (k_queues k)) (e_pcb e) q') /\
  exists d' mems', listen_scheduler_step fs d = Ok (true, d') /\
    socket_scheduler d' = Some (mk_wire rest' (out' ++ frame OP_STDIN_RESPONSE reply) true) /\
    main_memory d' = main_memory d /\ sticks_ok (connected_sticks d') mems' /\
    concat mems' = overwrite (Z.to_nat pa) padded (concat mems).
Proof.
  intros H1 H2 H3 H4 H5 Hp Ha Hb Hz Hk typed request Hs reply Hkm Hd Hst Hwf Hm Hf pa Hpa padded.
  assert (x00 ∉ typed) as Hty by (by apply take_no_nul, (line_no_nul _ _ _ _ Hz Hk)).
  assert (l_size typed < bytes_to_read r) as Hl.
  { pose proof (truncate_fits (bytes_to_read r) line ltac:(lia)) as Hfit. fold typed in Hfit.
    unfold l_size in *. rewrite length_app in Hfit. cbn in Hfit. lia. }
  split; [apply truncate_prefix|]. split; [done|]. split.
  - assert (in_u32 (bytes_to_read r)) by (ints; lia).
    by destruct (stdin_served n io b e l r line keys reply rest out k) as (_ & _ & Hq).
  - assert (l_size typed < bytes_to_read r <= INT_MAX) by lia.
    destruct (stdin_written fs d mems r typed s rest' out')
      as (_ & _ & d' & mems' & E & Hst' & Em & Ek & Ec); [done..|].
    by exists d', mems'.
Qed.
End stdin.

(** Process 0, whose segment has eight bytes, asks for four at its address 4. *)
Definition typing : t_stdin_request := mk_stdin_request 0 4 4.
Definition typed_at : t_scheduler_data stick_peer (peer t_swap) wire :=
  mk_scheduler_data
    (Some (mk_wire (frame OP_IO_STDIN_REQUEST (elements
       [stdin_request_bytes typing; txt "hel" ++ [x00]])) [] true))
    [] [] two_sticks
    (mk_main_memory 0 16 8 [mk_segment 0 0 0 8] [mk_hole 8 8] 0) None.

Lemma typed_at_wf : memory_wf (main_memory typed_at).
Proof.
  constructor; cbn; [ints; lia| |].
  - exists [(0, 8); (8, 8)]. split; [by vm_compute|]. cbn. lia.
  - intros h1 h2 ->%list_elem_of_singleton ->%list_elem_of_singleton. done.
Qed.

Lemma stdin_reaches_memory_witness :
  let k := demo_kernel demo_block (frame OP_STDIN_RESPONSE (lit "Memory written")) in
  let io := demo_module IO_STDIN in
  (exists q', io_thread_step 5 IO_STDIN (put IO_STDIN (with_module io true
       [mk_entry 0 (Some (written (stdin_request_bytes typing)))]) k)
     = Ok (true, put IO_STDIN (with_module (set_keyboard (txt "more") io) true [])
                   (set_queues q' k))) /\
  exists d' mems', listen_scheduler_step (fun _ => None) typed_at = Ok (true, d') /\
    slice 4 4 (concat mems') = txt "hel" ++ [x00].
Proof.
  intros k io.
  destruct (stdin_reaches_memory (fun _ => None) 4 io true
    (mk_entry 0 (Some (written (stdin_request_bytes typing)))) [] typing (txt "hello") (txt "more")
    [] [] k typed_at [replicate 8 x00; replicate 8 x00] (mk_segment 0 0 0 8) [] [])
    as (_ & _ & (q' & E & _) & d' & mems' & E' & _ & _ & _ & Ec);
    [done|apply demo_block_wf|left; vm_compute; reflexivity|done|done|cbn; ints; lia
    |cbn; ints; lia|cbn; ints; lia|apply (bool_decide_eq_false_1 _); reflexivity|reflexivity
    |by vm_compute|reflexivity|reflexivity|apply two_sticks_ok|apply typed_at_wf|cbn; ints; lia
    |reflexivity|by vm_compute|].
  split; [by exists q'|]. exists d', mems'. split; [exact E'|]. rewrite Ec. by vm_compute.
Defined.
