(* ===== verification/SchedHeap.v ===== *)
(** * SchedHeap: what the scheduler allocates and frees

    kernel_scheduler/src/main.c, app/kernel_scheduler.c, connections/server.c
    and the constructors and destructors of the other files, over the heap of
    Heap.v.  What decides which operation happens is in the other files; here
    any sequence of operations is run.  Buffers that a function allocates and
    frees again are left out, and the configuration, the log and a socket are
    one address each. *)

From S2P Require Import Prelude Heap.

(** ** domain/pcb.c *)

Record o_pcb := mk_o_pcb { pc_self : loc; pc_priority_list : t_hlist loc }.

Definition create_pcb h : o_pcb * t_heap :=
  let (self, h) := malloc h in
  let (priority_list, h) := list_create h in
  let (aux, h) := malloc h in
  let (priority_list, h) := list_add priority_list aux h in
  (mk_o_pcb self priority_list, h).

Definition destroy_pcb (pcb : o_pcb) h : res t_heap :=
  h ← list_destroy_and_destroy_elements free (pc_priority_list pcb) h; free (pc_self pcb) h.

(** ** The lists of processes

    The first four are the executing, the blocked, the suspended blocked and the
    suspended ready ones; the others are the queues of the ready ones. *)

Abbreviation t_lists := (list (t_hlist o_pcb)).

Definition EXEC : nat := 0.
Definition BLOCK : nat := 1.
Definition SUSP_BLOCK : nat := 2.
Definition SUSP_READY : nat := 3.
Definition READY (level : nat) : nat := 4 + level.

(** A process is taken from a list; it is put in one. *)
Definition take_pcb (k i : nat) (ls : t_lists) h : res (option o_pcb * t_lists * t_heap) :=
  l ← at_index (ls !! k);
  '(pcb, l, h) ← list_remove l i h;
  Ok (pcb, <[k := l]> ls, h).
Definition put_pcb (k : nat) (pcb : o_pcb) (ls : t_lists) h : res (t_lists * t_heap) :=
  l ← at_index (ls !! k);
  let (l, h) := list_add l pcb h in Ok (<[k := l]> ls, h).

(** The transitions of queues.c and suspension.c. *)
Definition transition (k i k' : nat) (ls : t_lists) h : res (t_lists * t_heap) :=
  '(pcb, ls, h) ← take_pcb k i ls h;
  match pcb with Some pcb => put_pcb k' pcb ls h | None => Ok (ls, h) end.

(** [transition_to_exit] *)
Definition transition_exit (k i : nat) (ls : t_lists) h : res (t_lists * t_heap) :=
  '(pcb, ls, h) ← take_pcb k i ls h;
  match pcb with Some pcb => h ← destroy_pcb pcb h; Ok (ls, h) | None => Ok (ls, h) end.

(** [transition_new_ready]: Kernel Memory may not be told, and the priority may be
    invalid. *)
Definition transition_new_ready (notified valid : bool) (k : nat) (ls : t_lists) h
    : res (t_lists * t_heap) :=
  let (pcb, h) := create_pcb h in
  if notified && valid then put_pcb k pcb ls h
  else h ← destroy_pcb pcb h; Ok (ls, h).

(** Where a process is, in a list. *)
Definition index_of (p : loc) (l : t_hlist o_pcb) : option nat :=
  fst <$> list_find (fun x => pc_self x.2 = p) (hl_links l).

Section kernel.
(** The ready queue of a process; its priority is not in this file. *)
Context (level : loc -> nat).

(** [transition_unlock]; a process that is not blocked is left where it is. *)
Definition transition_unlock (p : loc) (ls : t_lists) h : res (t_lists * t_heap) :=
  match ls !! BLOCK ≫= index_of p, ls !! SUSP_BLOCK ≫= index_of p with
  | Some i, _ => transition BLOCK i (READY (level p)) ls h
  | None, Some i => transition SUSP_BLOCK i SUSP_READY ls h
  | None, None => Ok (ls, h)
  end.
Fixpoint clear_list (links : list (loc * o_pcb)) h : res t_heap :=
  match links with
  | [] => Ok h
  | (link, pcb) :: rest => h ← free link h; h ← destroy_pcb pcb h; clear_list rest h
  end.

(** [clear_queues]: the ready ones first, then the others in their order. *)
Definition clear_queues (ls : t_lists) h : res (t_lists * t_heap) :=
  h ← each (fun l => clear_list (hl_links l)) (drop 4 ls) h;
  h ← each (fun l => clear_list (hl_links l)) (take 4 ls) h;
  Ok ((fun l => mk_hlist (hl_self l) []) <$> ls, h).

(** ** syscalls/mutex.c, over collections/dictionary.c

    The processes that wait for a mutex are its list's elements; they are in one
    of the lists above too. *)

Record o_mutex := mk_o_mutex { mx_self : loc; mx_id : loc; mx_list : t_hlist loc }.

(** The elements of the hash table, with their keys. *)
Record o_dictionary := mk_o_dictionary {
  dc_self : loc; dc_elements : loc; dc_table : list (loc * loc * o_mutex) }.

Definition dictionary_create h : o_dictionary * t_heap :=
  let (self, h) := malloc h in
  let (elements, h) := malloc h in (mk_o_dictionary self elements [], h).

(** With a new key. *)
Definition dictionary_put (d : o_dictionary) (data : o_mutex) h : o_dictionary * t_heap :=
  let (element, h) := malloc h in
  let (key, h) := malloc h in
  (mk_o_dictionary (dc_self d) (dc_elements d) ((element, key, data) :: dc_table d), h).

Definition create_mutex h : o_mutex * t_heap :=
  let (self, h) := malloc h in
  let (id, h) := malloc h in
  let (list, h) := list_create h in (mk_o_mutex self id list, h).

(** The waiting processes go on; then the mutex goes. *)
Fixpoint wake_all (links : list (loc * loc)) (ls : t_lists) h : res (t_lists * t_heap) :=
  match links with
  | [] => Ok (ls, h)
  | (link, pcb) :: rest =>
      h ← free link h; '(ls, h) ← transition_unlock pcb ls h; wake_all rest ls h
  end.
Definition destroy_mutex (mutex : o_mutex) (ls : t_lists) h : res (t_lists * t_heap) :=
  '(ls, h) ← wake_all (hl_links (mx_list mutex)) ls h;
  h ← free (mx_id mutex) h;
  h ← list_destroy (mk_hlist (hl_self (mx_list mutex)) [] : t_hlist loc) h;
  h ← free (mx_self mutex) h; Ok (ls, h).

Fixpoint dictionary_clean (table : list (loc * loc * o_mutex)) (ls : t_lists) h
    : res (t_lists * t_heap) :=
  match table with
  | [] => Ok (ls, h)
  | (element, key, mutex) :: rest =>
      '(ls, h) ← destroy_mutex mutex ls h;
      h ← free key h; h ← free element h; dictionary_clean rest ls h
  end.
Definition dictionary_destroy_and_destroy_elements (d : o_dictionary) (ls : t_lists) h
    : res (t_lists * t_heap) :=
  '(ls, h) ← dictionary_clean (dc_table d) ls h;
  h ← free (dc_elements d) h; h ← free (dc_self d) h; Ok (ls, h).

(** A link at a position: [list_add_sorted], [list_add]. *)
Definition list_add_at {A} (i : nat) (l : t_hlist A) (x : A) h : t_hlist A * t_heap :=
  let (link, h) := malloc h in
  (mk_hlist (hl_self l) (take i (hl_links l) ++ (link, x) :: drop i (hl_links l)), h).

(** [insert_priority], [remove_priority_list] where the priority was found, and
    [replace_priority]. *)
Definition insert_priority (i : nat) (pcb : o_pcb) h : res (o_pcb * t_heap) :=
  let (aux, h) := malloc h in
  let (l, h) := list_add_at i (pc_priority_list pcb) aux h in Ok (mk_o_pcb (pc_self pcb) l, h).
Definition remove_priority (i : nat) (pcb : o_pcb) h : res (o_pcb * t_heap) :=
  '(l, h) ← list_remove_and_destroy_element (pc_priority_list pcb) i h;
  Ok (mk_o_pcb (pc_self pcb) l, h).
Definition replace_priority (i j : nat) (pcb : o_pcb) h : res (o_pcb * t_heap) :=
  let (aux, h) := malloc h in
  '(pcb, h) ← remove_priority i pcb h;
  let (l, h) := list_add_at j (pc_priority_list pcb) aux h in Ok (mk_o_pcb (pc_self pcb) l, h).

(** A process starts to wait; the first one is taken; one changes its place. *)
Definition mutex_wait (i : nat) (pcb : loc) (mutex : o_mutex) h : res (o_mutex * t_heap) :=
  let (l, h) := list_add_at i (mx_list mutex) pcb h in
  Ok (mk_o_mutex (mx_self mutex) (mx_id mutex) l, h).
Definition mutex_take (i : nat) (mutex : o_mutex) h : res (option loc * o_mutex * t_heap) :=
  '(pcb, l, h) ← list_remove (mx_list mutex) i h;
  Ok (pcb, mk_o_mutex (mx_self mutex) (mx_id mutex) l, h).
Definition mutex_move (i j : nat) (mutex : o_mutex) h : res (o_mutex * t_heap) :=
  '(pcb, mutex, h) ← mutex_take i mutex h;
  match pcb with Some pcb => mutex_wait j pcb mutex h | None => Ok (mutex, h) end.

(** ** connections/io.c *)

Record o_entry := mk_o_entry { en_self : loc; en_request : loc; en_pcb : loc }.

(** A slot [io[t]]: only [socket_io] is set, to NULL; it has a list, and its
    socket unless its thread could not be created; or its thread has closed the
    list. *)
Inductive o_io :=
  | IO_empty
  | IO_listed (socket_io : option loc) (self : loc) (io_list : t_hlist o_entry)
  | IO_closed (socket_io : loc).

Definition socket_io (io : o_io) : option loc :=
  match io with IO_empty => None | IO_listed s _ _ => s | IO_closed s => Some s end.

Definition transform_request (request pcb : loc) h : o_entry * t_heap :=
  let (self, h) := malloc h in (mk_o_entry self request pcb, h).

Definition free_request (e : o_entry) (ls : t_lists) h : res (t_lists * t_heap) :=
  h ← free (en_request e) h; h ← free (en_self e) h; transition_unlock (en_pcb e) ls h.

(** The request that the thread of the CPU received.  The caller does not free
    it when it is refused.  [close_thread] is read first, which nothing has set in
    a slot that no module has asked for. *)
Definition enqueue_io_request (pcb : loc) (io : o_io) h : res (o_io * t_heap) :=
  let (request, h) := malloc h in
  match io with
  | IO_empty => Undef Indeterminate
  | IO_closed _ => Ok (io, h)
  | IO_listed s self l =>
      let (entry, h) := transform_request request pcb h in
      let (l, h) := list_add l entry h in Ok (IO_listed s self l, h)
  end.

(** The thread of the slot: the first request was carried out. *)
Definition finalize_io (io : o_io) (ls : t_lists) h : res (o_io * t_lists * t_heap) :=
  match io with
  | IO_listed (Some s) self l =>
      '(e, l, h) ← list_remove l 0 h;
      let io := IO_listed (Some s) self l in
      match e with
      | Some e => '(ls, h) ← free_request e ls h; Ok (io, ls, h)
      | None => Ok (io, ls, h)
      end
  | _ => Ok (io, ls, h)
  end.

Fixpoint free_requests (links : list (loc * o_entry)) (ls : t_lists) h : res (t_lists * t_heap) :=
  match links with
  | [] => Ok (ls, h)
  | (link, e) :: rest =>
      h ← free link h; '(ls, h) ← free_request e ls h; free_requests rest ls h
  end.
(** The end of the thread. *)
Definition close_thread_io (io : o_io) (ls : t_lists) h : res (o_io * t_lists * t_heap) :=
  match io with
  | IO_listed (Some s) self l =>
      '(ls, h) ← free_requests (hl_links l) ls h;
      h ← free (hl_self l) h; h ← free self h;
      Ok (IO_closed s, ls, h)
  | _ => Ok (io, ls, h)
  end.

(** How far a connection gets: the handshake is refused, the thread cannot be
    created, or it runs. *)
Inductive t_joined := J_refused | J_no_thread | J_runs.

(** [handle_new_io] and, if it fails, what [server_listen] does. *)
Definition handle_new_io (j : t_joined) (io : o_io) h : res (o_io * t_heap) :=
  let (socket_fd, h) := malloc h in
  match j, socket_io io with
  | J_refused, _ | _, Some _ => h ← free socket_fd h; Ok (io, h)
  | J_no_thread, None =>
      let (self, h) := malloc h in
      let (l, h) := list_create h in
      h ← free socket_fd h; Ok (IO_listed None self l, h)
  | J_runs, None =>
      let (self, h) := malloc h in
      let (l, h) := list_create h in Ok (IO_listed (Some socket_fd) self l, h)
  end.

(** [close_io]: the threads close their lists, the sockets go. *)
Fixpoint close_ios (ios : list o_io) (ls : t_lists) h : res (t_lists * t_heap) :=
  match ios with
  | [] => Ok (ls, h)
  | io :: rest =>
      match socket_io io with
      | None => close_ios rest ls h
      | Some s =>
          '(_, ls, h) ← close_thread_io io ls h;
          h ← free s h; close_ios rest ls h
      end
  end.

(** ** connections/cpu.c *)

Record o_cpu := mk_o_cpu { cp_self : loc; cp_socket : loc; cp_id : loc }.

Definition handle_new_cpu (j : t_joined) (cpus : t_hlist o_cpu) h : res (t_hlist o_cpu * t_heap) :=
  let (socket_fd, h) := malloc h in
  match j with
  | J_refused => h ← free socket_fd h; Ok (cpus, h)
  | _ =>
      let (id, h) := malloc h in
      let (self, h) := malloc h in
      let (cpus', h) := list_add cpus (mk_o_cpu self socket_fd id) h in
      match j with
      | J_no_thread =>
          '(_, cpus, h) ← list_remove cpus' (length (hl_links cpus)) h;
          h ← free id h; h ← free self h; h ← free socket_fd h; Ok (cpus, h)
      | _ => Ok (cpus', h)
      end
  end.

Definition close_thread_cpu (i : nat) (cpus : t_hlist o_cpu) h : res (t_hlist o_cpu * t_heap) :=
  '(cpu, cpus, h) ← list_remove cpus i h;
  match cpu with
  | Some cpu =>
      h ← free (cp_socket cpu) h; h ← free (cp_id cpu) h; h ← free (cp_self cpu) h; Ok (cpus, h)
  | None => Ok (cpus, h)
  end.

(** [close_cpu]: every thread leaves; then the list goes. *)
Fixpoint close_cpus (n : nat) (cpus : t_hlist o_cpu) h : res (t_hlist o_cpu * t_heap) :=
  match n with
  | O => Ok (cpus, h)
  | S n => '(cpus, h) ← close_thread_cpu 0 cpus h; close_cpus n cpus h
  end.
Definition close_cpu (cpus : t_hlist o_cpu) h : res t_heap :=
  '(cpus, h) ← close_cpus (length (hl_links cpus)) cpus h; list_destroy cpus h.

(** ** scheduler/queues.c, suspension.c, counter.c, process_counter.c *)

Record o_worker := mk_o_worker { wk_self : loc; wk_data : loc }.

(** The structures beside the lists. *)
Record o_queues := mk_o_queues {
  qs_self : loc; qs_ready : loc;
  qs_process_counter : loc; qs_thread_counter : loc; qs_syscall_counter : loc;
  qs_suspension_data : loc; qs_suspender : o_worker; qs_resumer : o_worker }.

(** [queue_count] lists for the ready processes. *)
Fixpoint list_creates (n : nat) h : t_lists * t_heap :=
  match n with
  | O => ([], h)
  | S n => let (l, h) := list_create h in let (ls, h) := list_creates n h in (l :: ls, h)
  end.
Definition init_ready_queue (queue_count : nat) h : loc * t_lists * t_heap :=
  let (queues, h) := malloc h in
  let (ls, h) := list_creates queue_count h in (queues, ls, h).
Definition destroy_ready_queue (queues : loc) (ls : t_lists) h : res t_heap :=
  h ← each list_destroy ls h; free queues h.

(** [init_data_thread_suspender], [init_data_thread_resumer]. *)
Definition init_data_thread h : o_worker * t_heap :=
  let (self, h) := malloc h in
  let (data, h) := malloc h in (mk_o_worker self data, h).
(** [destroy_thread_suspender], [destroy_thread_resumer]. *)
Definition destroy_thread (w : o_worker) h : res t_heap :=
  h ← free (wk_data w) h; free (wk_self w) h.

Definition create_counter h : loc * t_heap := malloc h.
Definition init_counter_processes h : loc * t_heap := malloc h.

Definition init_queues (queue_count : nat) h : o_queues * t_lists * t_heap :=
  let (self, h) := malloc h in
  let '(ready, levels, h) := init_ready_queue queue_count h in
  let (others, h) := list_creates 4 h in
  let (process_counter, h) := init_counter_processes h in
  let (thread_counter, h) := create_counter h in
  let (syscall_counter, h) := create_counter h in
  let (suspension_data, h) := malloc h in
  let (suspender, h) := init_data_thread h in
  let (resumer, h) := init_data_thread h in
  (mk_o_queues self ready process_counter thread_counter syscall_counter suspension_data
     suspender resumer, others ++ levels, h).

Definition destroy_threads_suspended (q : o_queues) h : res t_heap :=
  h ← destroy_thread (qs_suspender q) h;
  h ← destroy_thread (qs_resumer q) h; free (qs_suspension_data q) h.

Definition destroy_counter (counter : loc) h : res t_heap := free counter h.
Definition destroy_counter_processes (counter : loc) h : res t_heap := free counter h.

(** Once no routine's thread and neither worker is left. *)
Definition destroy_queues (q : o_queues) (ls : t_lists) h : res t_heap :=
  h ← destroy_counter (qs_thread_counter q) h;
  h ← destroy_counter (qs_syscall_counter q) h;
  h ← destroy_threads_suspended q h;
  h ← destroy_ready_queue (qs_ready q) (drop 4 ls) h;
  h ← each list_destroy (take 4 ls) h;
  h ← destroy_counter_processes (qs_process_counter q) h;
  free (qs_self q) h.

(** ** app/kernel_scheduler.c *)

Record o_kernel_scheduler := mk_o_kernel_scheduler {
  ks_config : option (loc * t_hlist loc);   (** the file and its QUEUE_ALGORITHMS *)
  ks_logger : option loc;
  ks_socket_kernel_memory : option loc;
  ks_socket_server : option loc }.

(** What the system answers when the module starts: whether there is a
    configuration (with how many QUEUE_ALGORITHMS) and a log, whether Kernel
    Memory is there and whether it shakes hands, whether the port is free. *)
Record t_start := mk_start {
  st_algorithms : option nat; st_log : bool; st_kernel_memory : option bool; st_server : bool }.

Fixpoint add_algorithms (n : nat) (l : t_hlist loc) h : t_hlist loc * t_heap :=
  match n with
  | O => (l, h)
  | S n => let (l, h) := new_element l h in add_algorithms n l h
  end.
Definition start_config (algorithms : option nat) h : option (loc * t_hlist loc) * t_heap :=
  match algorithms with
  | None => (None, h)
  | Some n =>
      let (config, h) := malloc h in
      let (l, h) := list_create h in
      let (l, h) := add_algorithms n l h in (Some (config, l), h)
  end.
Definition close_config (c : loc * t_hlist loc) h : res t_heap :=
  h ← list_destroy_and_destroy_elements free c.2 h; free c.1 h.

Definition start_connection_kernel_memory (answer : option bool) h : res (option loc * t_heap) :=
  match answer with
  | None => Ok (None, h)
  | Some hand =>
      let (km_socket, h) := malloc h in
      if (hand : bool) then Ok (Some km_socket, h)
      else h ← free km_socket h; Ok (None, h)
  end.

(** [start_logger] and [create_socket_server] allocate one object, if they can. *)
Definition start_module (s : t_start) h : res (bool * o_kernel_scheduler * t_heap) :=
  let (config, h) := start_config (st_algorithms s) h in
  match config with None => Ok (false, mk_o_kernel_scheduler None None None None, h) | Some c =>
  let (logger, h) := malloc_if (st_log s) h in
  match logger with None => Ok (false, mk_o_kernel_scheduler (Some c) None None None, h) | Some l =>
  '(km, h) ← start_connection_kernel_memory (st_kernel_memory s) h;
  match km with
  | None => Ok (false, mk_o_kernel_scheduler (Some c) (Some l) None None, h)
  | Some k =>
      let (server, h) := malloc_if (st_server s) h in
      Ok (bool_decide (is_Some server), mk_o_kernel_scheduler (Some c) (Some l) (Some k) server, h)
  end end end.

Definition close_module_error (r : o_kernel_scheduler) h : res t_heap :=
  h ← if_not_null free (ks_socket_server r) h;
  h ← if_not_null free (ks_socket_kernel_memory r) h;
  h ← if_not_null free (ks_logger r) h;
  if_not_null close_config (ks_config r) h.

(** What the threads change. *)
Record o_running := mk_o_running {
  rn_lists : t_lists; rn_mutexes : o_dictionary;
  rn_ios : list o_io; rn_cpus : t_hlist o_cpu }.

(** What [init_scheduler_resources] allocates beside it. *)
Record o_resources := mk_o_resources {
  rs_connection_check : loc; rs_mutex_list : loc; rs_queues : o_queues }.

(** The thread's data, and its join. *)
Definition start_thread_check_connection_kernel_memory h : loc * t_heap := malloc h.
Definition destroy_thread_check_connection_kernel_memory (data : loc) h : res t_heap := free data h.

Definition init_scheduler_resources (queue_count : nat) h
    : o_resources * t_lists * o_dictionary * t_heap :=
  let (check, h) := start_thread_check_connection_kernel_memory h in
  let (mutex_list, h) := malloc h in
  let (mutexes, h) := dictionary_create h in
  let '(q, ls, h) := init_queues queue_count h in
  (mk_o_resources check mutex_list q, ls, mutexes, h).

Definition close_module (k : o_kernel_scheduler) (r : o_resources) (ls : t_lists)
    (mutexes : o_dictionary) h : res t_heap :=
  '(ls, h) ← dictionary_destroy_and_destroy_elements mutexes ls h;
  h ← free (rs_mutex_list r) h;
  '(ls, h) ← clear_queues ls h;
  h ← destroy_queues (rs_queues r) ls h;
  h ← destroy_thread_check_connection_kernel_memory (rs_connection_check r) h;
  h ← if_not_null free (ks_socket_kernel_memory k) h;
  h ← if_not_null free (ks_socket_server k) h;
  h ← if_not_null free (ks_logger k) h;
  if_not_null close_config (ks_config k) h.

(** ** What happens while the server listens *)

Inductive t_operation :=
  | O_stray | O_cpu (j : t_joined) | O_cpu_ends (i : nat)
  | O_io (j : t_joined) (t : nat) | O_io_ends (t : nat)
  | O_request (t : nat) (pcb : loc) | O_served (t : nat)
  | O_new_process (notified valid : bool) (n : nat)
  | O_transition (k i k' : nat) | O_exit (k i : nat)
  | O_mutex_create | O_mutex_wait (m i : nat) (pcb : loc) | O_mutex_hand_over (m : nat)
  | O_mutex_requeue (m i j : nat)
  | O_insert_priority (k i j : nat) | O_remove_priority (k i j : nat)
  | O_replace_priority (k i j j' : nat).

(** A function on one process; on one mutex. *)
Definition on_pcb (k i : nat) (f : o_pcb -> t_heap -> res (o_pcb * t_heap)) (ls : t_lists) h
    : res (t_lists * t_heap) :=
  match ls !! k with
  | None => Ok (ls, h)
  | Some l =>
      match hl_links l !! i with
      | None => Ok (ls, h)
      | Some (link, pcb) =>
          '(pcb, h) ← f pcb h;
          Ok (<[k := mk_hlist (hl_self l) (<[i := (link, pcb)]> (hl_links l))]> ls, h)
      end
  end.
Definition on_mutex (m : nat) (f : o_mutex -> t_heap -> res (o_mutex * t_heap))
    (d : o_dictionary) h : res (o_dictionary * t_heap) :=
  match dc_table d !! m with
  | None => Ok (d, h)
  | Some (element, key, mutex) =>
      '(mutex, h) ← f mutex h;
      Ok (mk_o_dictionary (dc_self d) (dc_elements d)
            (<[m := (element, key, mutex)]> (dc_table d)), h)
  end.

(** The parts of what is running. *)
Definition lists_op (f : t_lists -> t_heap -> res (t_lists * t_heap)) (r : o_running) h
    : res (o_running * t_heap) :=
  '(ls, h) ← f (rn_lists r) h;
  Ok (mk_o_running ls (rn_mutexes r) (rn_ios r) (rn_cpus r), h).
Definition mutexes_op (f : o_dictionary -> t_heap -> res (o_dictionary * t_heap)) (r : o_running) h
    : res (o_running * t_heap) :=
  '(d, h) ← f (rn_mutexes r) h;
  Ok (mk_o_running (rn_lists r) d (rn_ios r) (rn_cpus r), h).
Definition cpus_op (f : t_hlist o_cpu -> t_heap -> res (t_hlist o_cpu * t_heap)) (r : o_running) h
    : res (o_running * t_heap) :=
  '(c, h) ← f (rn_cpus r) h;
  Ok (mk_o_running (rn_lists r) (rn_mutexes r) (rn_ios r) c, h).
Definition io_op (t : nat)
    (f : o_io -> t_lists -> t_heap -> res (o_io * t_lists * t_heap)) (r : o_running) h
    : res (o_running * t_heap) :=
  match rn_ios r !! t with
  | None => Ok (r, h)
  | Some io =>
      '(io, ls, h) ← f io (rn_lists r) h;
      Ok (mk_o_running ls (rn_mutexes r) (<[t := io]> (rn_ios r)) (rn_cpus r), h)
  end.

Definition hand_over (m : nat) (r : o_running) h : res (o_running * t_heap) :=
  match dc_table (rn_mutexes r) !! m with
  | None => Ok (r, h)
  | Some (element, key, mutex) =>
      '(pcb, mutex, h) ← mutex_take 0 mutex h;
      let d := mk_o_dictionary (dc_self (rn_mutexes r)) (dc_elements (rn_mutexes r))
                 (<[m := (element, key, mutex)]> (dc_table (rn_mutexes r))) in
      '(ls, h) ← match pcb with
                 | Some pcb => transition_unlock pcb (rn_lists r) h
                 | None => Ok (rn_lists r, h)
                 end;
      Ok (mk_o_running ls d (rn_ios r) (rn_cpus r), h)
  end.

(** A request comes from a CPU whose process it is, so the slot is the one of
    [data->io]; [t] is below 3. *)
Definition operate (o : t_operation) (y : o_running * t_heap) : res (o_running * t_heap) :=
  let '(r, h) := y in
  match o with
  | O_stray => let (socket_fd, h) := malloc h in h ← free socket_fd h; Ok (r, h)
  | O_cpu j => cpus_op (handle_new_cpu j) r h
  | O_cpu_ends i => cpus_op (close_thread_cpu i) r h
  | O_io j t =>
      io_op t (fun io ls h => '(io, h) ← handle_new_io j io h; Ok (io, ls, h)) r h
  | O_io_ends t => io_op t close_thread_io r h
  | O_request t pcb =>
      io_op t (fun io ls h => '(io, h) ← enqueue_io_request pcb io h; Ok (io, ls, h)) r h
  | O_served t => io_op t finalize_io r h
  | O_new_process notified valid n => lists_op (transition_new_ready notified valid (READY n)) r h
  | O_transition k i k' => lists_op (transition k i k') r h
  | O_exit k i => lists_op (transition_exit k i) r h
  | O_mutex_create =>
      mutexes_op (fun d h => let (m, h) := create_mutex h in Ok (dictionary_put d m h)) r h
  | O_mutex_wait m i pcb => mutexes_op (on_mutex m (mutex_wait i pcb)) r h
  | O_mutex_hand_over m => hand_over m r h
  | O_mutex_requeue m i j => mutexes_op (on_mutex m (mutex_move i j)) r h
  | O_insert_priority k i j => lists_op (on_pcb k i (insert_priority j)) r h
  | O_remove_priority k i j => lists_op (on_pcb k i (remove_priority j)) r h
  | O_replace_priority k i j j' => lists_op (on_pcb k i (replace_priority j j')) r h
  end.

(** [server_listen] *)
Definition server_listen (operations : list t_operation) (ls : t_lists) (mutexes : o_dictionary) h
    : res (t_lists * o_dictionary * t_heap) :=
  let (io, h) := malloc h in
  let (cpus, h) := list_create h in
  '(r, h) ← each operate operations (mk_o_running ls mutexes [IO_empty; IO_empty; IO_empty] cpus, h);
  h ← close_cpu (rn_cpus r) h;
  '(ls, h) ← close_ios (rn_ios r) (rn_lists r) h;
  h ← free io h; Ok (ls, rn_mutexes r, h).

(** [multilevel]: whether SCHEDULING_ALGORITHM is the one with several queues. *)
Definition main (s : t_start) (multilevel : bool) (operations : list t_operation) h : res t_heap :=
  '(ok, k, h) ← start_module s h;
  if negb (ok : bool) then close_module_error k h else
  let queue_count := if multilevel then default 0%nat (st_algorithms s) else 1%nat in
  let '(r, ls, mutexes, h) := init_scheduler_resources queue_count h in
  '(ls, mutexes, h) ← server_listen operations ls mutexes h;
  close_module k r ls mutexes h.
End kernel.

(** ** Footprints *)

Definition fp_pcb (p : o_pcb) : list loc := pc_self p :: fp_hlist (fun x => [x]) (pc_priority_list p).
Definition fp_lists (ls : t_lists) : list loc := concat (fp_hlist fp_pcb <$> ls).
Definition fp_mutex (m : o_mutex) : list loc :=
  mx_self m :: mx_id m :: fp_hlist (fun _ => []) (mx_list m).
Definition fp_element (x : loc * loc * o_mutex) : list loc := x.1.1 :: x.1.2 :: fp_mutex x.2.
Definition fp_dictionary (d : o_dictionary) : list loc :=
  dc_self d :: dc_elements d :: concat (fp_element <$> dc_table d).
Definition fp_entry (e : o_entry) : list loc := [en_self e; en_request e].
(** What is reachable from a slot when the scheduler ends: not the list of one that
    has no socket. *)
Definition fp_io (io : o_io) : list loc :=
  match io with
  | IO_listed (Some s) self l => s :: self :: fp_hlist fp_entry l
  | IO_closed s => [s]
  | _ => []
  end.
Definition fp_ios (ios : list o_io) : list loc := concat (fp_io <$> ios).
Definition fp_cpu (c : o_cpu) : list loc := [cp_self c; cp_socket c; cp_id c].
Definition fp_running (r : o_running) : list loc :=
  fp_lists (rn_lists r) ++ fp_dictionary (rn_mutexes r) ++ fp_ios (rn_ios r)
  ++ fp_hlist fp_cpu (rn_cpus r).

#[local] Arguments fp_hlist : simpl never.
Create HintDb footprints.
#[local] Hint Unfold fp_pcb fp_mutex fp_element fp_dictionary fp_entry fp_io fp_cpu : footprints.

(** [H] owns the same, in another order. *)
Ltac shuffled H :=
  eapply own_perm; [|reflexivity|exact H]; autounfold with footprints; cbn; solve_Permutation.
Tactic Notation "shuffle" hyp(H) uconstr(O) :=
  let H' := fresh in rename H into H';
  match type of H' with own ?h0 _ ?h => assert (own h0 O h) as H by shuffled H' end; clear H'.

(** One element of a list of objects, and the others. *)
Lemma one_of {A} (fp : A -> list loc) l k x :
  l !! k = Some x -> concat (fp <$> l) ≡ₚ fp x ++ concat (fp <$> delete k l).
Proof. intros Hk. by rewrite (delete_Permutation l k x Hk) at 1. Qed.

Lemma own_one {A} (fp : A -> list loc) l k x h0 O h :
  l !! k = Some x -> own h0 (concat (fp <$> l) ++ O) h ->
  own h0 (fp x ++ concat (fp <$> delete k l) ++ O) h.
Proof. intros Hk. by rewrite (one_of fp l k x Hk), <- app_assoc. Qed.

Lemma own_other {A} (fp : A -> list loc) l k x x' h0 O h :
  l !! k = Some x -> own h0 (fp x' ++ concat (fp <$> delete k l) ++ O) h ->
  own h0 (concat (fp <$> <[k := x']> l) ++ O) h.
Proof.
  intros Hk H. pose proof (lookup_lt_Some _ _ _ Hk).
  rewrite (one_of fp (<[k := x']> l) k x') by by apply list_lookup_insert_eq.
  rewrite <- app_assoc, !delete_take_drop, take_insert_ge, drop_insert_lt by lia.
  by rewrite <- delete_take_drop.
Qed.

(** The same for an element of a [t_list]. *)
Lemma own_element {A} (fp : A -> list loc) l i link x h0 O h :
  hl_links l !! i = Some (link, x) -> own h0 (fp_hlist fp l ++ O) h ->
  exists R, own h0 (fp x ++ R) h /\
    forall x' h', own h0 (fp x' ++ R) h' ->
      own h0 (fp_hlist fp (mk_hlist (hl_self l) (<[i := (link, x')]> (hl_links l))) ++ O) h'.
Proof.
  intros Hi H. set (g := fun '(link, x) => link :: fp x).
  assert (own h0 (concat (g <$> hl_links l) ++ hl_self l :: O) h) as H' by (unfold fp_hlist in H; shuffled H).
  apply (own_one g _ _ _ _ _ _ Hi) in H'.
  exists (link :: concat (g <$> delete i (hl_links l)) ++ hl_self l :: O).
  split; [cbn in H'; shuffled H'|]. intros x' h' Hx.
  assert (own h0 (g (link, x') ++ concat (g <$> delete i (hl_links l)) ++ hl_self l :: O) h') as Hx'
    by (cbn; shuffled Hx).
  apply (own_other g _ _ _ _ _ _ _ Hi) in Hx'. unfold fp_hlist. cbn [hl_self hl_links]. fold g.
  shuffled Hx'.
Qed.

(** *** Processes *)

Lemma create_pcb_allocates : allocates create_pcb fp_pcb.
Proof.
  intros h0 O h H. unfold create_pcb. allocate H. allocate_list (fun x : loc => [x]) H. allocate H.
  apply (list_add_owns (fun x => [x])) in H. destruct (list_add _ _ _) as [l' h']. cbn in *.
  eapply own_perm; [|done|exact H]. unfold fp_pcb. cbn. solve_Permutation.
Qed.

Lemma destroy_pcb_releases p : releases (destroy_pcb p) (fp_pcb p).
Proof.
  unfold destroy_pcb. eapply releases_perm;
    [apply releases_bind; [apply list_of_frees_releases|apply free_releases]|].
  unfold fp_pcb. by rewrite <- Permutation_cons_append.
Qed.

(** A function on an object keeps what it owns owned. *)
Definition keeps {C} (fp : C -> list loc) (op : C -> t_heap -> res (C * t_heap)) : Prop :=
  forall c h0 O h, own h0 (fp c ++ O) h ->
  exists c' h', op c h = Ok (c', h') /\ own h0 (fp c' ++ O) h'.

Lemma list_add_at_owns {A} (fp : A -> list loc) i l x h0 O h :
  own h0 (fp x ++ fp_hlist fp l ++ O) h ->
  own h0 (fp_hlist fp (list_add_at i l x h).1 ++ O) (list_add_at i l x h).2.
Proof.
  intros H. unfold list_add_at. allocate H. cbn. eapply own_perm; [|done|exact H].
  unfold fp_hlist. cbn. rewrite <- Permutation_middle. cbn. rewrite (take_drop i) at 1.
  solve_Permutation.
Qed.

Lemma insert_priority_keeps i : keeps fp_pcb (insert_priority i).
Proof.
  intros p h0 O h H. unfold insert_priority. allocate H as l.
  shuffle H ([l] ++ fp_hlist (fun x => [x]) (pc_priority_list p) ++ pc_self p :: O).
  apply (list_add_at_owns (fun x => [x]) i) in H. destruct (list_add_at i _ _ _) as [l' h'].
  do 2 eexists. split; [done|]. shuffled H.
Qed.

Lemma remove_priority_keeps i : keeps fp_pcb (remove_priority i).
Proof.
  intros p h0 O h H. unfold remove_priority.
  shuffle H (fp_hlist (fun x => [x]) (pc_priority_list p) ++ pc_self p :: O).
  destruct (removed_element_owns _ i _ _ _ H) as (l' & h' & -> & H').
  do 2 eexists. split; [done|]. shuffled H'.
Qed.

Lemma replace_priority_keeps i j : keeps fp_pcb (replace_priority i j).
Proof.
  intros p h0 O h H. unfold replace_priority. allocate H as l.
  shuffle H (fp_pcb p ++ l :: O).
  destruct (remove_priority_keeps i _ _ _ _ H) as (p' & h' & -> & H'). cbn [mbind res_bind].
  shuffle H' ([l] ++ fp_hlist (fun x => [x]) (pc_priority_list p') ++ pc_self p' :: O).
  apply (list_add_at_owns (fun x => [x]) j) in H'. destruct (list_add_at j _ _ _) as [l' h2].
  do 2 eexists. split; [done|]. shuffled H'.
Qed.

(** *** The lists of processes *)

Lemma take_pcb_owns k i ls h0 O h :
  (k < length ls)%nat -> own h0 (fp_lists ls ++ O) h ->
  exists pcb ls' h', take_pcb k i ls h = Ok (pcb, ls', h') /\ length ls' = length ls /\
    own h0 (fp_option fp_pcb pcb ++ fp_lists ls' ++ O) h'.
Proof.
  intros Hk H. destruct (lookup_lt_is_Some_2 _ _ Hk) as [l Hl]. unfold take_pcb. rewrite Hl.
  cbn [at_index mbind res_bind]. destruct (hl_links l !! i) as [[link p]|] eqn:E.
  - apply (own_one _ _ _ _ _ _ _ Hl) in H.
    destruct (list_remove_owns _ _ _ _ _ _ _ _ E H) as (l' & h' & -> & _ & H').
    do 3 eexists. split; [done|]. split; [by rewrite length_insert|]. cbn [fp_option].
    shuffle H' (fp_hlist fp_pcb l' ++ concat (fp_hlist fp_pcb <$> delete k ls) ++ fp_pcb p ++ O).
    apply (own_other _ _ _ _ _ _ _ _ Hl) in H'. shuffled H'.
  - unfold list_remove. rewrite E. do 3 eexists. split; [done|].
    rewrite list_insert_id by done. by split.
Qed.

Lemma put_pcb_owns k pcb ls h0 O h :
  (k < length ls)%nat -> own h0 (fp_pcb pcb ++ fp_lists ls ++ O) h ->
  exists ls' h', put_pcb k pcb ls h = Ok (ls', h') /\ length ls' = length ls /\
    own h0 (fp_lists ls' ++ O) h'.
Proof.
  intros Hk H. destruct (lookup_lt_is_Some_2 _ _ Hk) as [l Hl]. unfold put_pcb. rewrite Hl.
  cbn [at_index mbind res_bind].
  assert (own h0 (concat (fp_hlist fp_pcb <$> ls) ++ fp_pcb pcb ++ O) h) as H' by shuffled H.
  apply (own_one _ _ _ _ _ _ _ Hl) in H'.
  shuffle H' (fp_pcb pcb ++ fp_hlist fp_pcb l ++ concat (fp_hlist fp_pcb <$> delete k ls) ++ O).
  apply (list_add_owns fp_pcb) in H'. destruct (list_add l pcb h) as [l' h']. cbn [fst snd] in H'.
  do 2 eexists. split; [done|]. split; [by rewrite length_insert|].
  by apply (own_other _ _ _ _ _ _ _ _ Hl) in H'.
Qed.

(** *** CPUs *)

Lemma close_thread_cpu_owns i cpus h0 O h :
  own h0 (fp_hlist fp_cpu cpus ++ O) h ->
  exists cpus' h', close_thread_cpu i cpus h = Ok (cpus', h') /\
    (hl_links cpus = [] \/ i <> 0%nat \/ hl_links cpus' = tail (hl_links cpus)) /\
    own h0 (fp_hlist fp_cpu cpus' ++ O) h'.
Proof.
  intros Hh. unfold close_thread_cpu. destruct (hl_links cpus !! i) as [[link c]|] eqn:E.
  - destruct (list_remove_owns _ _ _ _ _ _ _ _ E Hh) as (l' & h1 & -> & El & H1).
    cbn [mbind res_bind].
    shuffle H1 (cp_socket c :: cp_id c :: cp_self c :: fp_hlist fp_cpu l' ++ O).
    destruct (free_releases _ _ _ _ H1) as (h2 & -> & H2). cbn [mbind res_bind].
    destruct (free_releases _ _ _ _ H2) as (h3 & -> & H3). cbn [mbind res_bind].
    destruct (free_releases _ _ _ _ H3) as (h4 & -> & H4). exists l', h4. split_and!; [done| |done].
    rewrite El. destruct i; [|by auto]. destruct (hl_links cpus); [done|by auto].
  - unfold list_remove. rewrite E. exists cpus, h. split_and!; [done| |done].
    destruct i; [|by auto]. destruct (hl_links cpus); [by auto|done].
Qed.

Lemma close_cpus_owns n cpus h0 O h :
  n = length (hl_links cpus) -> own h0 (fp_hlist fp_cpu cpus ++ O) h ->
  exists cpus' h', close_cpus n cpus h = Ok (cpus', h') /\ hl_links cpus' = [] /\
    own h0 (fp_hlist fp_cpu cpus' ++ O) h'.
Proof.
  revert cpus h. induction n as [|n IH]; intros cpus h Hn Hh; cbn [close_cpus].
  - exists cpus, h. split_and!; [done| |done]. by apply nil_length_inv.
  - destruct (close_thread_cpu_owns 0 _ _ _ _ Hh) as (l' & h1 & -> & El & H1).
    cbn [mbind res_bind]. apply IH; [|done]. destruct El as [El|[El|El]]; [by rewrite El in Hn|done|].
    rewrite El. destruct (hl_links cpus); [done|]. by injection Hn.
Qed.

Lemma close_cpu_releases cpus : releases (close_cpu cpus) (fp_hlist fp_cpu cpus).
Proof.
  intros h0 O h Hh. unfold close_cpu.
  destruct (close_cpus_owns _ cpus _ _ _ eq_refl Hh) as (l' & h1 & -> & El & H1).
  cbn [mbind res_bind]. apply list_destroy_releases. unfold fp_hlist in H1. by rewrite El in *.
Qed.

Lemma handle_new_cpu_owns j cpus h0 O h :
  own h0 (fp_hlist fp_cpu cpus ++ O) h ->
  exists cpus' h', handle_new_cpu j cpus h = Ok (cpus', h') /\ own h0 (fp_hlist fp_cpu cpus' ++ O) h'.
Proof.
  intros Hh. unfold handle_new_cpu. allocate Hh as s. destruct j.
  - destruct (free_releases _ _ _ _ Hh) as (h2 & -> & H2). by exists cpus, h2.
  - allocate Hh as id. allocate Hh as self.
    shuffle Hh (fp_cpu (mk_o_cpu self s id) ++ fp_hlist fp_cpu cpus ++ O).
    destruct (list_add_then_remove _ _ _ _ _ _ Hh) as (l' & h1 & E & H1).
    destruct (list_add cpus _ _) as [l2 h2]. cbn [fst snd] in E. rewrite E. cbn [mbind res_bind].
    shuffle H1 (id :: self :: s :: fp_hlist fp_cpu l' ++ O).
    destruct (free_releases _ _ _ _ H1) as (h3 & -> & H3). cbn [mbind res_bind].
    destruct (free_releases _ _ _ _ H3) as (h4 & -> & H4). cbn [mbind res_bind].
    destruct (free_releases _ _ _ _ H4) as (h5 & -> & H5). by exists l', h5.
  - allocate Hh as id. allocate Hh as self.
    shuffle Hh (fp_cpu (mk_o_cpu self s id) ++ fp_hlist fp_cpu cpus ++ O).
    apply (list_add_owns fp_cpu) in Hh. destruct (list_add cpus _ _) as [l2 h2]. by do 2 eexists.
Qed.

(** *** Mutexes *)

Lemma mutex_wait_keeps i p : keeps fp_mutex (mutex_wait i p).
Proof.
  intros m h0 O h Hh. unfold mutex_wait.
  shuffle Hh ([] ++ fp_hlist (fun _ => []) (mx_list m) ++ mx_self m :: mx_id m :: O).
  apply (list_add_at_owns (fun _ => []) i _ p) in Hh.
  destruct (list_add_at i (mx_list m) p h) as [l' h']. do 2 eexists. split; [done|]. shuffled Hh.
Qed.

Lemma mutex_take_owns i m h0 O h :
  own h0 (fp_mutex m ++ O) h ->
  exists p m' h', mutex_take i m h = Ok (p, m', h') /\ own h0 (fp_mutex m' ++ O) h'.
Proof.
  intros Hh. unfold mutex_take. destruct (hl_links (mx_list m) !! i) as [[link p]|] eqn:E.
  - shuffle Hh (fp_hlist (fun _ => []) (mx_list m) ++ mx_self m :: mx_id m :: O).
    destruct (list_remove_owns _ _ _ _ _ _ _ _ E Hh) as (l' & h1 & -> & _ & H1).
    do 3 eexists. split; [done|]. cbn in H1. shuffled H1.
  - unfold list_remove. rewrite E. do 3 eexists. split; [done|]. by destruct m.
Qed.

Lemma mutex_move_keeps i j : keeps fp_mutex (mutex_move i j).
Proof.
  intros m h0 O h Hh. unfold mutex_move.
  destruct (mutex_take_owns i m _ _ _ Hh) as (p & m' & h1 & -> & H1). cbn [mbind res_bind].
  destruct p as [p|]; [by apply mutex_wait_keeps|by exists m', h1].
Qed.

(** A mutex of the table, and the table with another one in its place. *)
Lemma own_mutex d m element key mutex h0 O h :
  dc_table d !! m = Some (element, key, mutex) -> own h0 (fp_dictionary d ++ O) h ->
  exists R, own h0 (fp_mutex mutex ++ R ++ O) h /\
    forall mutex' O' h', own h0 (fp_mutex mutex' ++ R ++ O') h' ->
      own h0 (fp_dictionary (mk_o_dictionary (dc_self d) (dc_elements d)
        (<[m := (element, key, mutex')]> (dc_table d))) ++ O') h'.
Proof.
  intros Hm Hh.
  exists (element :: key :: dc_self d :: dc_elements d :: concat (fp_element <$> delete m (dc_table d))).
  assert (own h0 (concat (fp_element <$> dc_table d) ++ dc_self d :: dc_elements d :: O) h) as H
    by shuffled Hh.
  apply (own_one _ _ _ _ _ _ _ Hm) in H. split; [cbn in H; shuffled H|]. intros mutex' O' h' H'.
  assert (own h0 (fp_element (element, key, mutex') ++ concat (fp_element <$> delete m (dc_table d))
    ++ dc_self d :: dc_elements d :: O') h') as H2 by shuffled H'.
  apply (own_other _ _ _ _ _ _ _ _ Hm) in H2. shuffled H2.
Qed.

Lemma on_mutex_keeps m f : keeps fp_mutex f -> keeps fp_dictionary (on_mutex m f).
Proof.
  intros Hf d h0 O h Hh. unfold on_mutex.
  destruct (dc_table d !! m) as [[[element key] mutex]|] eqn:E; [|by exists d, h].
  destruct (own_mutex _ _ _ _ _ _ _ _ E Hh) as (R & HR & Hback).
  destruct (Hf _ _ _ _ HR) as (m' & h' & -> & H'). do 2 eexists. split; [done|]. by apply Hback.
Qed.

Lemma new_mutex_keeps :
  keeps fp_dictionary (fun d h => let (m, h) := create_mutex h in Ok (dictionary_put d m h)).
Proof.
  intros d h0 O h Hh. unfold create_mutex. allocate Hh as self. allocate Hh as id.
  allocate_list (fun _ : loc => @nil loc) Hh. unfold dictionary_put. allocate Hh as element.
  allocate Hh as key. do 2 eexists. split; [done|]. shuffled Hh.
Qed.

(** *** Slots *)

(** The state of a slot: what it is worth to a request. *)
Inductive t_slot := S_empty | S_orphan | S_running | S_closed.
Definition slot_of (io : o_io) : t_slot :=
  match io with
  | IO_empty => S_empty
  | IO_listed None _ _ => S_orphan
  | IO_listed (Some _) _ _ => S_running
  | IO_closed _ => S_closed
  end.

(** How many objects an operation on a slot loses, and the slot after it: the list
    of a thread that could not be created, the requests that are put in such a
    list (with the entry and its link), and the requests that are refused.
    [None]: [close_thread] is read and nothing has set it. *)
Definition io_joined (j : t_joined) (s : t_slot) : option (nat * t_slot) :=
  match j, s with
  | J_runs, (S_empty | S_orphan) => Some (0, S_running)
  | J_no_thread, (S_empty | S_orphan) => Some (2, S_orphan)
  | _, _ => Some (0, s)
  end%nat.
Definition io_ended (s : t_slot) : option (nat * t_slot) :=
  match s with S_running => Some (0, S_closed) | _ => Some (0, s) end%nat.
Definition io_requested (s : t_slot) : option (nat * t_slot) :=
  match s with
  | S_empty => None | S_orphan => Some (3, s) | S_running => Some (0, s) | S_closed => Some (1, s)
  end%nat.

(** [r] on a slot: what it is worth afterwards, and what is lost. *)
Definition slot_changes (out : option (nat * t_slot)) h0 (O : list loc) (N : nat)
    (r : res (o_io * t_lists * t_heap)) : Prop :=
  match out with
  | None => r = Undef Indeterminate
  | Some (n, s) =>
      exists io ls h L, r = Ok (io, ls, h) /\ slot_of io = s /\ length ls = N /\ length L = n /\
        own h0 (fp_io io ++ fp_lists ls ++ L ++ O) h
  end.

Lemma slot_changed io ls h (L : list loc) n s h0 O N r :
  r = Ok (io, ls, h) -> slot_of io = s -> length ls = N -> length L = n ->
  own h0 (fp_io io ++ fp_lists ls ++ L ++ O) h -> slot_changes (Some (n, s)) h0 O N r.
Proof. intros. by exists io, ls, h, L. Qed.

Lemma enqueue_changes pcb io ls h0 O h :
  own h0 (fp_io io ++ fp_lists ls ++ O) h ->
  slot_changes (io_requested (slot_of io)) h0 O (length ls)
    ('(io, h) ← enqueue_io_request pcb io h; Ok (io, ls, h)).
Proof.
  intros Hh. unfold enqueue_io_request, transform_request. allocate Hh as request.
  destruct io as [|[s|] self l|s]; cbn [slot_of io_requested]; [done|allocate Hh as entry..|].
  - shuffle Hh (fp_entry (mk_o_entry entry request pcb) ++ fp_hlist fp_entry l
      ++ s :: self :: fp_lists ls ++ O).
    apply (list_add_owns fp_entry) in Hh. destruct (list_add l _ _) as [l' h']. cbn [fst snd] in Hh.
    apply (slot_changed (IO_listed (Some s) self l') ls h' []); [done..|]. shuffled Hh.
  - unfold list_add. allocate Hh as link.
    eapply (slot_changed (IO_listed None self _) ls _ [link; entry; request]);
      [reflexivity|done..|]. shuffled Hh.
  - eapply (slot_changed (IO_closed s) ls _ [request]); [reflexivity|done..|]. shuffled Hh.
Qed.

Lemma handle_new_io_changes j io ls h0 O h :
  own h0 (fp_io io ++ fp_lists ls ++ O) h ->
  slot_changes (io_joined j (slot_of io)) h0 O (length ls)
    ('(io, h) ← handle_new_io j io h; Ok (io, ls, h)).
Proof.
  intros Hh. assert (slot_changes (Some (0%nat, slot_of io)) h0 O (length ls)
    ('(io, h) ← (let (socket_fd, h) := malloc h in h ← free socket_fd h; Ok (io, h)); Ok (io, ls, h))) as Hr.
  { destruct (turned_away _ _ _ Hh) as (h' & E & Hh'). rewrite malloc_eq, E.
    by apply (slot_changed io ls h' []). }
  unfold handle_new_io. destruct j; [by destruct io as [|[]|]| |];
    (destruct (socket_io io) as [s|] eqn:Es; [by destruct io as [|[]|]|]);
    assert (fp_io io = []) as Ef by (by destruct io as [|[]|]);
    assert (slot_of io = S_empty \/ slot_of io = S_orphan) as Hs
      by (destruct io as [|[]|]; auto; done);
    clear Hr; rewrite Ef in Hh; cbn [app] in Hh; allocate Hh as s; allocate Hh as self;
    unfold list_create; allocate Hh as header.
  - replace (io_joined J_no_thread (slot_of io)) with (Some (2%nat, S_orphan))
      by (by destruct Hs as [-> | ->]).
    shuffle Hh (s :: [header; self] ++ fp_lists ls ++ O).
    destruct (free_releases _ _ _ _ Hh) as (h' & E & Hh'). cbn [mbind res_bind]. rewrite E.
    eapply (slot_changed (IO_listed None self _) ls _ [header; self]); [reflexivity|done..|].
    shuffled Hh'.
  - replace (io_joined J_runs (slot_of io)) with (Some (0%nat, S_running))
      by (by destruct Hs as [-> | ->]).
    eapply (slot_changed (IO_listed (Some s) self _) ls _ []); [reflexivity|done..|].
    unfold fp_io, fp_hlist. shuffled Hh.
Qed.

Section owns.
Context (level : loc -> nat) (N : nat).
Context (Hlevel : forall p, (READY (level p) < N)%nat) (HN : (4 <= N)%nat).

(** A function on the lists that frees what is at [fp] too. *)
Definition consumes (fp : list loc) (op : t_lists -> t_heap -> res (t_lists * t_heap)) : Prop :=
  forall ls h0 O h, length ls = N -> own h0 (fp ++ fp_lists ls ++ O) h ->
  exists ls' h', op ls h = Ok (ls', h') /\ length ls' = N /\ own h0 (fp_lists ls' ++ O) h'.

Lemma consumes_perm op fp fp' : consumes fp op -> fp ≡ₚ fp' -> consumes fp' op.
Proof. intros H E ls h0 O h HL Hh. apply H; [done|]. by rewrite E. Qed.

Lemma consumes_nothing : consumes [] (fun ls h => Ok (ls, h)).
Proof. intros ls h0 O h HL Hh. by exists ls, h. Qed.

Lemma consumes_after op fp1 k fp2 :
  releases op fp1 -> consumes fp2 k -> consumes (fp1 ++ fp2) (fun ls h => h ← op h; k ls h).
Proof.
  intros H1 H2 ls h0 O h HL Hh. rewrite <- app_assoc in Hh.
  destruct (H1 _ _ _ Hh) as (h1 & -> & Hh1). exact (H2 _ _ _ _ HL Hh1).
Qed.

Lemma consumes_then k1 fp1 k2 fp2 :
  consumes fp1 k1 -> consumes fp2 k2 ->
  consumes (fp1 ++ fp2) (fun ls h => '(ls, h) ← k1 ls h; k2 ls h).
Proof.
  intros H1 H2 ls h0 O h HL Hh.
  assert (own h0 (fp1 ++ fp_lists ls ++ fp2 ++ O) h) as Hh' by shuffled Hh.
  destruct (H1 _ _ _ _ HL Hh') as (ls1 & h1 & -> & HL1 & Hh1). cbn [mbind res_bind].
  apply H2; [done|]. shuffled Hh1.
Qed.

Lemma consumes_end op fp : releases op fp -> consumes fp (fun ls h => h ← op h; Ok (ls, h)).
Proof.
  intros H. eapply consumes_perm; [apply (consumes_after _ _ _ _ H consumes_nothing)|].
  by rewrite app_nil_r.
Qed.

Lemma transition_consumes k i k' : (k < N)%nat -> (k' < N)%nat -> consumes [] (transition k i k').
Proof.
  intros Hk Hk' ls h0 O h HL Hh. unfold transition.
  destruct (take_pcb_owns k i ls h0 O h) as (pcb & ls1 & h1 & -> & HL1 & Hh1); [lia|done|].
  cbn [mbind res_bind]. destruct pcb as [pcb|]; [|exists ls1, h1; split_and!; [done|lia|done]].
  destruct (put_pcb_owns k' pcb ls1 h0 O h1) as (ls2 & h2 & -> & HL2 & Hh2); [lia|done|].
  exists ls2, h2. split_and!; [done|lia|done].
Qed.

Lemma exit_consumes k i : (k < N)%nat -> consumes [] (transition_exit k i).
Proof.
  intros Hk ls h0 O h HL Hh. unfold transition_exit.
  destruct (take_pcb_owns k i ls h0 O h) as (pcb & ls1 & h1 & -> & HL1 & Hh1); [lia|done|].
  cbn [mbind res_bind]. destruct pcb as [pcb|]; [|exists ls1, h1; split_and!; [done|lia|done]].
  destruct (destroy_pcb_releases pcb _ _ _ Hh1) as (h2 & -> & Hh2).
  exists ls1, h2. split_and!; [done|lia|done].
Qed.

Lemma new_ready_consumes notified valid k :
  (notified && valid = true -> (k < N)%nat) -> consumes [] (transition_new_ready notified valid k).
Proof.
  intros Hk ls h0 O h HL Hh. unfold transition_new_ready.
  apply create_pcb_allocates in Hh. destruct (create_pcb h) as [pcb h1]. cbn [fst snd] in Hh.
  destruct (notified && valid).
  - destruct (put_pcb_owns k pcb ls h0 O h1) as (ls2 & h2 & -> & HL2 & Hh2).
    { rewrite HL. by apply Hk. } { done. }
    exists ls2, h2. split_and!; [done|lia|done].
  - destruct (destroy_pcb_releases pcb _ _ _ Hh) as (h2 & -> & Hh2). by exists ls, h2.
Qed.

Lemma unlock_consumes p : consumes [] (transition_unlock level p).
Proof.
  intros ls h0 O h HL Hh. unfold transition_unlock.
  destruct (ls !! BLOCK ≫= index_of p) as [i|].
  - apply transition_consumes; [unfold BLOCK; lia|apply Hlevel|done|done].
  - destruct (ls !! SUSP_BLOCK ≫= index_of p) as [i|]; [|by apply consumes_nothing].
    apply transition_consumes; [unfold SUSP_BLOCK; lia|unfold SUSP_READY; lia|done|done].
Qed.

Lemma on_pcb_consumes k i f : keeps fp_pcb f -> consumes [] (on_pcb k i f).
Proof.
  intros Hf ls h0 O h HL Hh. unfold on_pcb.
  destruct (ls !! k) as [l|] eqn:E; [|by exists ls, h].
  destruct (hl_links l !! i) as [[link pcb]|] eqn:Ei; [|by exists ls, h].
  apply (own_one _ _ _ _ _ _ _ E) in Hh.
  destruct (own_element _ _ _ _ _ _ _ _ Ei Hh) as (R & HR & Hback).
  destruct (Hf _ _ _ _ HR) as (pcb' & h' & -> & H'). cbn [mbind res_bind].
  do 2 eexists. split; [done|]. split; [by rewrite length_insert|].
  apply (own_other _ _ _ _ _ _ _ _ E). by apply Hback.
Qed.

(** *** The end of a mutex, of a request *)

Lemma wake_all_consumes links : consumes (links.*1) (wake_all level links).
Proof.
  induction links as [|[link p] links IH]; [apply consumes_nothing|].
  change (consumes ([link] ++ [] ++ links.*1) (fun ls h =>
    h ← free link h; '(ls, h) ← transition_unlock level p ls h; wake_all level links ls h)).
  apply consumes_after; [apply free_releases|]. by apply consumes_then; [apply unlock_consumes|].
Qed.

Lemma destroy_mutex_consumes m : consumes (fp_mutex m) (destroy_mutex level m).
Proof.
  unfold destroy_mutex. eapply consumes_perm.
  - eapply consumes_then; [apply wake_all_consumes|].
    eapply (consumes_after _ [mx_id m]); [apply free_releases|].
    eapply (consumes_after _ [hl_self (mx_list m)]);
      [apply (list_destroy_releases (mk_hlist _ []))|].
    eapply (consumes_end (free (mx_self m))), free_releases.
  - unfold fp_mutex, fp_hlist. rewrite <- (list_fmap_id (hl_links (mx_list m))) at 2.
    replace (concat _) with ((hl_links (mx_list m)).*1).
    + solve_Permutation.
    + rewrite list_fmap_id. induction (hl_links (mx_list m)) as [|[] L IH]; [done|]. cbn. by f_equal.
Qed.

Lemma dictionary_clean_consumes table :
  consumes (concat (fp_element <$> table)) (dictionary_clean level table).
Proof.
  induction table as [|[[element key] m] table IH]; [apply consumes_nothing|].
  cbn [dictionary_clean]. eapply consumes_perm.
  - eapply consumes_then; [apply destroy_mutex_consumes|].
    eapply (consumes_after _ [key]); [apply free_releases|].
    eapply (consumes_after _ [element]); [apply free_releases|exact IH].
  - unfold fp_element at 2. cbn. solve_Permutation.
Qed.

Lemma dictionary_destroy_consumes d :
  consumes (fp_dictionary d) (dictionary_destroy_and_destroy_elements level d).
Proof.
  unfold dictionary_destroy_and_destroy_elements. eapply consumes_perm.
  - eapply consumes_then; [apply dictionary_clean_consumes|].
    eapply (consumes_after _ [dc_elements d]); [apply free_releases|].
    eapply (consumes_end (free (dc_self d))), free_releases.
  - unfold fp_dictionary. solve_Permutation.
Qed.

Lemma free_request_consumes e : consumes (fp_entry e) (free_request level e).
Proof.
  unfold free_request. eapply consumes_perm.
  - eapply (consumes_after _ [en_request e]); [apply free_releases|].
    eapply (consumes_after _ [en_self e]); [apply free_releases|apply unlock_consumes].
  - unfold fp_entry. solve_Permutation.
Qed.

Lemma free_requests_consumes links :
  consumes (concat ((fun '(link, e) => link :: fp_entry e) <$> links)) (free_requests level links).
Proof.
  induction links as [|[link e] links IH]; [apply consumes_nothing|].
  cbn [free_requests]. eapply (consumes_after _ [link]); [apply free_releases|].
  apply consumes_then; [apply free_request_consumes|exact IH].
Qed.

(** *** IO requests *)

(** The end of a thread: what it leaves is its socket. *)
Lemma close_thread_io_keeps s self l ls h0 O h :
  length ls = N -> own h0 (fp_io (IO_listed (Some s) self l) ++ fp_lists ls ++ O) h ->
  exists ls' h', close_thread_io level (IO_listed (Some s) self l) ls h = Ok (IO_closed s, ls', h') /\
    length ls' = N /\ own h0 (s :: fp_lists ls' ++ O) h'.
Proof.
  intros HL Hh. unfold close_thread_io.
  assert (own h0 (concat ((fun '(link, e) => link :: fp_entry e) <$> hl_links l) ++ fp_lists ls
    ++ hl_self l :: self :: s :: O) h) as H.
  { cbn in Hh. unfold fp_hlist in Hh. shuffled Hh. }
  destruct (free_requests_consumes _ _ _ _ _ HL H) as (ls' & h1 & -> & HL' & H1).
  cbn [mbind res_bind]. shuffle H1 ([hl_self l] ++ self :: s :: fp_lists ls' ++ O).
  destruct (free_releases _ _ _ _ H1) as (h2 & -> & H2). cbn [mbind res_bind].
  destruct (free_releases self _ _ _ H2) as (h3 & -> & H3). by exists ls', h3.
Qed.

Lemma close_thread_io_changes io ls h0 O h :
  length ls = N -> own h0 (fp_io io ++ fp_lists ls ++ O) h ->
  slot_changes (io_ended (slot_of io)) h0 O N (close_thread_io level io ls h).
Proof.
  intros HL Hh. destruct io as [|[s|] self l|s]; [by apply (slot_changed _ _ _ [] _ _ _ _ _ _ eq_refl)
    | |by apply (slot_changed _ _ _ [] _ _ _ _ _ _ eq_refl)..].
  destruct (close_thread_io_keeps s self l ls _ _ _ HL Hh) as (ls' & h' & -> & HL' & H').
  by apply (slot_changed (IO_closed s) ls' h' []).
Qed.

Lemma finalize_io_changes io ls h0 O h :
  length ls = N -> own h0 (fp_io io ++ fp_lists ls ++ O) h ->
  slot_changes (Some (0%nat, slot_of io)) h0 O N (finalize_io level io ls h).
Proof.
  intros HL Hh. destruct io as [|[s|] self l|s]; [by apply (slot_changed _ _ _ [] _ _ _ _ _ _ eq_refl)
    | |by apply (slot_changed _ _ _ [] _ _ _ _ _ _ eq_refl)..].
  unfold finalize_io. destruct (hl_links l !! 0%nat) as [[link e]|] eqn:E.
  - shuffle Hh (fp_hlist fp_entry l ++ s :: self :: fp_lists ls ++ O).
    destruct (list_remove_owns _ _ _ _ _ _ _ _ E Hh) as (l' & h1 & -> & _ & H1).
    cbn [mbind res_bind].
    shuffle H1 (fp_entry e ++ fp_lists ls ++ s :: self :: fp_hlist fp_entry l' ++ O).
    destruct (free_request_consumes _ _ _ _ _ HL H1) as (ls' & h2 & -> & HL' & H2).
    cbn [mbind res_bind].
    apply (slot_changed (IO_listed (Some s) self l') ls' h2 []); [done..|]. shuffled H2.
  - unfold list_remove. rewrite E. by apply (slot_changed (IO_listed (Some s) self l) ls h []).
Qed.

End owns.

(** ** The operations *)

(** The lists an operation names are lists of the scheduler: the four and its
    queues of ready processes. *)
Definition names_lists (N : nat) (o : t_operation) : bool :=
  match o with
  | O_new_process true true n => bool_decide (READY n < N)%nat
  | O_transition k _ k' => bool_decide (k < N /\ k' < N)%nat
  | O_exit k _ => bool_decide (k < N)%nat
  | _ => true
  end.

(** What an operation makes of the slot it is on. *)
Definition slot_after (o : t_operation) : option (nat * (t_slot -> option (nat * t_slot))) :=
  match o with
  | O_io j t => Some (t, io_joined j)
  | O_io_ends t => Some (t, io_ended)
  | O_request t _ => Some (t, io_requested)
  | _ => None
  end.

(** How many objects an operation loses, and the slots after it; [None] when it
    reads what was never set. *)
Definition lost_by (c : list t_slot) (o : t_operation) : option (nat * list t_slot) :=
  match slot_after o with
  | None => Some (0%nat, c)
  | Some (t, after) =>
      match c !! t with
      | None => Some (0%nat, c)
      | Some s => '(n, s) ← after s; Some (n, <[t := s]> c)
      end
  end.

Fixpoint lost (c : list t_slot) (operations : list t_operation) : option nat :=
  match operations with
  | [] => Some 0%nat
  | o :: os => '(n, c) ← lost_by c o; m ← lost c os; Some (n + m)%nat
  end.

Section operations.
Context (level : loc -> nat) (N : nat).
Context (Hlevel : forall p, (READY (level p) < N)%nat) (HN : (4 <= N)%nat).

Definition at_work (h0 : t_heap) (O : list loc) (c : list t_slot)
    (y : o_running * t_heap) : Prop :=
  own h0 (fp_running y.1 ++ O) y.2 /\ length (rn_lists y.1) = N /\ slot_of <$> rn_ios y.1 = c.

(** What an operation leads to: data at work and some objects that were lost. *)
Definition leads_to (out : option (nat * list t_slot)) h0 (O : list loc)
    (r : res (o_running * t_heap)) : Prop :=
  match out with
  | None => r = Undef Indeterminate
  | Some (n, c) => exists y L, r = Ok y /\ length L = n /\ at_work h0 (L ++ O) c y
  end.

Definition works (o : t_operation) : Prop :=
  forall h0 O c y, names_lists N o = true -> at_work h0 O c y ->
  leads_to (lost_by c o) h0 O (operate level o y).

Lemma nothing_lost h0 (O : list loc) c y r :
  r = Ok y -> at_work h0 O c y -> leads_to (Some (0%nat, c)) h0 O r.
Proof. intros. by exists y, []. Qed.

Ltac open_work y Hn H HL Hs :=
  intros h0 O c y Hn (H & HL & Hs); destruct y as [[ls d ios cpus] h];
  cbn [fst snd rn_lists rn_mutexes rn_ios rn_cpus operate] in *;
  unfold fp_running in H; cbn [rn_lists rn_mutexes rn_ios rn_cpus] in H.

Lemma lists_works f o :
  slot_after o = None ->
  (forall r h, operate level o (r, h) = lists_op f r h) ->
  (names_lists N o = true -> consumes N [] f) -> works o.
Proof.
  intros Hp Ho Hf. open_work y Hn H HL Hs. unfold lost_by.
  rewrite Hp, Ho. unfold lists_op. cbn [rn_lists rn_mutexes rn_ios rn_cpus].
  rewrite <- app_assoc in H.
  destruct (Hf Hn ls h0 _ h HL H) as (ls' & h' & -> & HL' & H').
  eapply nothing_lost; [done|]. split_and!; [|done|done]. unfold fp_running. cbn. by rewrite <- app_assoc.
Qed.

Lemma mutexes_works f o :
  slot_after o = None ->
  (forall r h, operate level o (r, h) = mutexes_op f r h) ->
  keeps fp_dictionary f -> works o.
Proof.
  intros Hp Ho Hf. open_work y Hn H HL Hs. unfold lost_by.
  rewrite Hp, Ho. unfold mutexes_op. cbn [rn_lists rn_mutexes rn_ios rn_cpus].
  assert (own h0 (fp_dictionary d ++ fp_lists ls ++ fp_ios ios ++ fp_hlist fp_cpu cpus ++ O) h)
    as H1 by (eapply own_perm; [|reflexivity|exact H]; solve_Permutation).
  destruct (Hf _ _ _ _ H1) as (d' & h' & -> & H'). eapply nothing_lost; [done|].
  split_and!; [|done|done]. eapply own_perm; [|reflexivity|exact H'].
  unfold fp_running. cbn [fst snd rn_lists rn_mutexes rn_ios rn_cpus]. solve_Permutation.
Qed.

Lemma cpus_works f o :
  slot_after o = None ->
  (forall r h, operate level o (r, h) = cpus_op f r h) ->
  keeps (fp_hlist fp_cpu) f -> works o.
Proof.
  intros Hp Ho Hf. open_work y Hn H HL Hs. unfold lost_by.
  rewrite Hp, Ho. unfold cpus_op. cbn [rn_lists rn_mutexes rn_ios rn_cpus].
  assert (own h0 (fp_hlist fp_cpu cpus ++ fp_lists ls ++ fp_dictionary d ++ fp_ios ios ++ O) h)
    as H1 by (eapply own_perm; [|reflexivity|exact H]; solve_Permutation).
  destruct (Hf _ _ _ _ H1) as (d' & h' & -> & H'). eapply nothing_lost; [done|].
  split_and!; [|done|done]. eapply own_perm; [|reflexivity|exact H'].
  unfold fp_running. cbn [fst snd rn_lists rn_mutexes rn_ios rn_cpus]. solve_Permutation.
Qed.

(** [f] on the slot [t], if there is one. *)
Lemma io_op_leads f t after h0 O c r h :
  (forall io ls O h, length ls = N -> own h0 (fp_io io ++ fp_lists ls ++ O) h ->
     slot_changes (after (slot_of io)) h0 O N (f io ls h)) ->
  at_work h0 O c (r, h) ->
  leads_to (match c !! t with
            | None => Some (0%nat, c)
            | Some s => '(n, s) ← after s; Some (n, <[t := s]> c)
            end) h0 O (io_op t f r h).
Proof.
  intros Hf (H & HL & <-). destruct r as [ls d ios cpus]. unfold io_op.
  cbn [fst snd rn_lists rn_mutexes rn_ios rn_cpus] in *. rewrite list_lookup_fmap.
  destruct (ios !! t) as [io|] eqn:E; cbn [fmap option_fmap option_map];
    [|by eapply nothing_lost; [done|]].
  unfold fp_running in H. cbn [rn_lists rn_mutexes rn_ios rn_cpus] in H.
  assert (own h0 (fp_ios ios ++ fp_lists ls ++ fp_dictionary d ++ fp_hlist fp_cpu cpus ++ O) h)
    as H1 by (eapply own_perm; [|reflexivity|exact H]; solve_Permutation).
  apply (own_one _ _ _ _ _ _ _ E) in H1.
  eapply own_perm in H1; [|symmetry; apply Permutation_app_head, Permutation_app_swap_app|done].
  pose proof (Hf io ls _ _ HL H1) as Hc. destruct (after (slot_of io)) as [[n s]|];
    cbn [mbind option_bind slot_changes leads_to] in *; [|by rewrite Hc].
  destruct Hc as (io' & ls' & h' & L & -> & Hs' & HL' & Hn & H').
  cbn [mbind res_bind]. do 2 eexists. split; [done|]. split; [exact Hn|].
  split_and!; [|done|cbn; by rewrite list_fmap_insert, Hs'].
  assert (own h0 (fp_io io' ++ concat (fp_io <$> delete t ios) ++ fp_lists ls' ++ L
    ++ fp_dictionary d ++ fp_hlist fp_cpu cpus ++ O) h') as H2
    by (eapply own_perm; [|reflexivity|exact H']; solve_Permutation).
  apply (own_other _ _ _ _ _ _ _ _ E) in H2. eapply own_perm; [|reflexivity|exact H2].
  unfold fp_running, fp_ios. cbn [fst snd rn_lists rn_mutexes rn_ios rn_cpus]. solve_Permutation.
Qed.

Lemma stray_works : works O_stray.
Proof.
  open_work y Hn H HL Hs. destruct (turned_away _ _ _ H) as (h' & E & H').
  rewrite malloc_eq, E. by eapply nothing_lost.
Qed.

Lemma io_joins j t : works (O_io j t).
Proof.
  intros h0 O c [r h] _ H. apply io_op_leads; [|done]. intros io ls O' h' <- Hh.
  by apply handle_new_io_changes.
Qed.

Lemma io_ends_works t : works (O_io_ends t).
Proof.
  intros h0 O c [r h] _ H. apply io_op_leads; [|done]. intros io ls O' h' HL Hh.
  by apply close_thread_io_changes.
Qed.

Lemma request_works t p : works (O_request t p).
Proof.
  intros h0 O c [r h] _ H. apply io_op_leads; [|done]. intros io ls O' h' <- Hh.
  by apply enqueue_changes.
Qed.

Lemma served_works t : works (O_served t).
Proof.
  intros h0 O c [r h] _ H.
  assert (lost_by c (O_served t) = match c !! t with
    | None => Some (0%nat, c) | Some s => '(n, s) ← Some (0%nat, s); Some (n, <[t := s]> c) end) as ->.
  { cbn. destruct (c !! t) eqn:E; [|done]. cbn. by rewrite list_insert_id. }
  apply io_op_leads; [|done]. intros io ls O' h' HL Hh. by apply finalize_io_changes.
Qed.

Lemma hand_over_works m : works (O_mutex_hand_over m).
Proof.
  open_work y Hn H HL Hs. unfold hand_over.
  cbn [rn_lists rn_mutexes rn_ios rn_cpus].
  destruct (dc_table d !! m) as [[[element key] mutex]|] eqn:E; [|by eapply nothing_lost].
  assert (own h0 (fp_dictionary d ++ fp_lists ls ++ fp_ios ios ++ fp_hlist fp_cpu cpus ++ O) h)
    as H1 by (eapply own_perm; [|reflexivity|exact H]; solve_Permutation).
  destruct (own_mutex _ _ _ _ _ _ _ _ E H1) as (R & HR & Hback).
  destruct (mutex_take_owns 0 _ _ _ _ HR) as (p & m' & h1 & -> & H2). cbn [mbind res_bind].
  apply Hback in H2.
  set (d' := mk_o_dictionary _ _ _) in *.
  eapply own_perm in H2; [|symmetry; apply Permutation_app_swap_app|done].
  assert (exists ls' h2, match p with Some p => transition_unlock level p ls h1 | None => Ok (ls, h1) end
      = Ok (ls', h2) /\ length ls' = N /\
      own h0 (fp_lists ls' ++ fp_dictionary d' ++ fp_ios ios ++ fp_hlist fp_cpu cpus ++ O) h2)
    as (ls' & h2 & -> & HL' & H').
  { destruct p as [p|]; [by apply (unlock_consumes level N Hlevel HN)|by exists ls, h1]. }
  cbn [mbind res_bind]. eapply nothing_lost; [done|]. split_and!; [|done|done].
  eapply own_perm; [|reflexivity|exact H'].
  unfold fp_running. cbn [fst snd rn_lists rn_mutexes rn_ios rn_cpus]. solve_Permutation.
Qed.

Lemma every_request_works o : works o.
Proof.
  destruct o as [|j|i|j t|t|t p|t|b v n|k i k'|k i| |m i p|m|m i j|k i j|k i j|k i j j'].
  - apply stray_works.
  - apply (cpus_works (handle_new_cpu j)); [done..|]. intros ? ? ? ?. apply handle_new_cpu_owns.
  - apply (cpus_works (close_thread_cpu i)); [done..|]. intros c h0 O h H.
    destruct (close_thread_cpu_owns i _ _ _ _ H) as (c' & h' & ? & _ & ?). by exists c', h'.
  - apply io_joins.
  - apply io_ends_works.
  - apply request_works.
  - apply served_works.
  - eapply lists_works; [done..|]. intros Hn. apply (new_ready_consumes N HN). intros Hb.
    destruct b, v; try done. by apply bool_decide_eq_true in Hn.
  - eapply lists_works; [done..|]. intros [??]%bool_decide_eq_true. by apply (transition_consumes N HN).
  - eapply lists_works; [done..|]. intros ?%bool_decide_eq_true. by apply (exit_consumes N HN).
  - eapply mutexes_works; [done..|]. apply new_mutex_keeps.
  - eapply mutexes_works; [done..|]. apply on_mutex_keeps, mutex_wait_keeps.
  - apply hand_over_works.
  - eapply mutexes_works; [done..|]. apply on_mutex_keeps, mutex_move_keeps.
  - eapply lists_works; [done..|]. intros _. apply on_pcb_consumes, insert_priority_keeps.
  - eapply lists_works; [done..|]. intros _. apply on_pcb_consumes, remove_priority_keeps.
  - eapply lists_works; [done..|]. intros _. apply on_pcb_consumes, replace_priority_keeps.
Qed.

Lemma requests_work ops h0 O c y :
  forallb (names_lists N) ops = true -> at_work h0 O c y ->
  match lost c ops with
  | None => each (operate level) ops y = Undef Indeterminate
  | Some n => exists c' y' L, each (operate level) ops y = Ok y' /\ length L = n /\
      at_work h0 (L ++ O) c' y'
  end.
Proof.
  revert O c y. induction ops as [|o ops IH]; intros O c y Hf H; [by exists c, y, []|].
  cbn [lost each forallb] in *. apply andb_true_iff in Hf as [Ho Hf].
  pose proof (every_request_works o _ _ _ _ Ho H) as Hw.
  destruct (lost_by c o) as [[n c1]|]; cbn [mbind option_bind leads_to] in *; [|by rewrite Hw].
  destruct Hw as (y1 & L1 & -> & HL1 & H1). cbn [mbind res_bind].
  specialize (IH _ _ _ Hf H1). destruct (lost c1 ops) as [m|]; cbn [mbind option_bind]; [|done].
  destruct IH as (c2 & y2 & L2 & -> & HL2 & H2). exists c2, y2, (L2 ++ L1).
  split; [done|]. split; [rewrite length_app; lia|]. by rewrite <- app_assoc.
Qed.

(** ** The end *)

Lemma close_ios_consumes ios : consumes N (fp_ios ios) (close_ios level ios).
Proof.
  induction ios as [|io ios IH]; [apply consumes_nothing|].
  intros ls h0 O h HL Hh. cbn [close_ios]. unfold fp_ios in Hh. cbn [fmap list_fmap concat] in Hh.
  fold (fp_ios ios) in Hh. rewrite <- app_assoc in Hh.
  destruct io as [|[s|] self l|s]; cbn [socket_io]; [by apply IH| |by apply IH|].
  - assert (own h0 (fp_io (IO_listed (Some s) self l) ++ fp_lists ls ++ fp_ios ios ++ O) h) as H
      by (eapply own_perm; [|reflexivity|exact Hh]; solve_Permutation).
    destruct (close_thread_io_keeps level N Hlevel HN s self l ls _ _ _ HL H)
      as (ls' & h1 & -> & HL' & H1).
    cbn [mbind res_bind]. destruct (free_releases _ _ _ _ H1) as (h2 & -> & H2).
    cbn [mbind res_bind]. apply IH; [done|]. eapply own_perm; [|reflexivity|exact H2].
    solve_Permutation.
  - cbn [close_thread_io mbind res_bind]. destruct (free_releases _ _ _ _ Hh) as (h1 & -> & H1).
    by apply IH.
Qed.

(** [server_listen] keeps the lists and the mutexes, and besides only what was
    lost is left. *)
Lemma server_listen_owns ops ls d h0 O h :
  forallb (names_lists N) ops = true -> length ls = N ->
  own h0 (fp_lists ls ++ fp_dictionary d ++ O) h ->
  match lost [S_empty; S_empty; S_empty] ops with
  | None => server_listen level ops ls d h = Undef Indeterminate
  | Some n => exists ls' d' h' L, server_listen level ops ls d h = Ok (ls', d', h') /\
      length ls' = N /\ length L = n /\ own h0 (fp_lists ls' ++ fp_dictionary d' ++ O ++ L) h'
  end.
Proof.
  intros Hf HL H. unfold server_listen. allocate H as io. allocate_list fp_cpu H.
  match goal with |- context [(mk_o_running ls d _ ?c, ?h1)] =>
    pose proof (requests_work ops h0 (io :: O) [S_empty; S_empty; S_empty]
      (mk_o_running ls d [IO_empty; IO_empty; IO_empty] c, h1) Hf) as Hw end.
  destruct (lost _ ops) as [n|]; (lapply Hw; [clear Hw; intros Hw|]);
    [|split_and!; [|done|done]; unfold fp_running; cbn; shuffled H
     |by rewrite Hw|split_and!; [|done|done]; unfold fp_running; cbn; shuffled H].
  destruct Hw as (c' & [r h2] & L & -> & Hn & H2 & HL2 & _).
  cbn [mbind res_bind fst snd] in *. unfold fp_running in H2.
  assert (own h0 (fp_hlist fp_cpu (rn_cpus r) ++ fp_ios (rn_ios r) ++ fp_lists (rn_lists r)
    ++ fp_dictionary (rn_mutexes r) ++ io :: O ++ L) h2) as H3
    by (eapply own_perm; [|reflexivity|exact H2]; solve_Permutation).
  destruct (close_cpu_releases _ _ _ _ H3) as (h3 & -> & H4). cbn [mbind res_bind].
  destruct (close_ios_consumes _ _ _ _ _ HL2 H4) as (ls' & h4 & -> & HL' & H5).
  cbn [mbind res_bind].
  assert (own h0 (io :: fp_lists ls' ++ fp_dictionary (rn_mutexes r) ++ O ++ L) h4) as H6
    by (eapply own_perm; [|reflexivity|exact H5]; solve_Permutation).
  destruct (free_releases _ _ _ _ H6) as (h5 & -> & H7). cbn [mbind res_bind].
  by exists ls', (rn_mutexes r), h5, L.
Qed.
End operations.

(** ** The start and the end *)

Definition fp_worker (w : o_worker) : list loc := [wk_self w; wk_data w].
Definition fp_queues (q : o_queues) : list loc :=
  [qs_self q; qs_ready q; qs_process_counter q; qs_thread_counter q; qs_syscall_counter q;
   qs_suspension_data q] ++ fp_worker (qs_suspender q) ++ fp_worker (qs_resumer q).

Lemma list_creates_owns n h0 O h :
  own h0 O h ->
  own h0 (fp_lists (list_creates n h).1 ++ O) (list_creates n h).2 /\
  length (list_creates n h).1 = n.
Proof.
  revert O h. induction n as [|n IH]; intros O h H; [done|]. cbn [list_creates].
  allocate_list fp_pcb H. destruct (IH _ _ H) as [H1 E]. destruct (list_creates n _) as [ls h'].
  cbn [fst snd] in *. split; [|cbn; by rewrite E]. eapply own_perm; [|reflexivity|exact H1].
  unfold fp_lists. cbn [fmap list_fmap concat]. solve_Permutation.
Qed.

Lemma init_queues_owns n h0 O h :
  own h0 O h ->
  let '(q, ls, h) := init_queues n h in
  own h0 (fp_queues q ++ fp_lists ls ++ O) h /\ length ls = (4 + n)%nat.
Proof.
  intros H. unfold init_queues, init_ready_queue. allocate H as self. allocate H as ready.
  match type of H with own _ _ ?h1 =>
    destruct (list_creates_owns n _ _ _ H) as [H1 E1]; destruct (list_creates n h1) as [ls1 h2] end.
  cbn [fst snd] in H1, E1.
  destruct (list_creates_owns 4 _ _ _ H1) as [H2 E2]. destruct (list_creates 4 h2) as [ls2 h3].
  cbn [fst snd] in H2, E2. clear H H1. unfold init_data_thread, create_counter, init_counter_processes.
  do 8 allocate H2. split; [|rewrite length_app; lia].
  eapply own_perm; [|reflexivity|exact H2]. unfold fp_queues, fp_lists. cbn.
  rewrite fmap_app, concat_app. solve_Permutation.
Qed.

(** A list with its processes: its links and the processes, or its header. *)
Definition fp_links (l : t_hlist o_pcb) : list loc :=
  concat ((fun '(link, pcb) => link :: fp_pcb pcb) <$> hl_links l).
Definition emptied (l : t_hlist o_pcb) : t_hlist o_pcb := mk_hlist (hl_self l) [].

Lemma clear_list_releases l : releases (clear_list (hl_links l)) (fp_links l).
Proof.
  unfold fp_links. induction (hl_links l) as [|[link pcb] links IH]; [apply releases_nothing|].
  cbn [clear_list]. apply (releases_bind (free link) _ [link]); [apply free_releases|].
  apply releases_bind; [apply destroy_pcb_releases|exact IH].
Qed.

Lemma fp_lists_split ls :
  fp_lists ls ≡ₚ concat (fp_links <$> ls) ++ fp_lists (emptied <$> ls).
Proof.
  induction ls as [|l ls IH]; [done|]. unfold fp_lists in *. cbn [fmap list_fmap concat].
  rewrite IH. unfold fp_hlist at 1 3. unfold fp_links at 2. cbn [emptied hl_self hl_links fmap list_fmap concat].
  solve_Permutation.
Qed.

Lemma clear_queues_owns ls h0 O h :
  own h0 (fp_lists ls ++ O) h ->
  exists h', clear_queues ls h = Ok (emptied <$> ls, h') /\ own h0 (fp_lists (emptied <$> ls) ++ O) h'.
Proof.
  intros H. rewrite fp_lists_split, <- app_assoc in H.
  rewrite <- (take_drop 4 ls) in H at 1. rewrite fmap_app, concat_app in H.
  assert (own h0 (concat (fp_links <$> drop 4 ls) ++ concat (fp_links <$> take 4 ls)
    ++ fp_lists (emptied <$> ls) ++ O) h) as H1
    by (eapply own_perm; [|reflexivity|exact H]; solve_Permutation).
  unfold clear_queues.
  destruct (releases_each (fun l => clear_list (hl_links l)) fp_links (drop 4 ls)) with (2 := H1)
    as (h1 & -> & H2); [intros; apply clear_list_releases|]. cbn [mbind res_bind].
  destruct (releases_each (fun l => clear_list (hl_links l)) fp_links (take 4 ls)) with (2 := H2)
    as (h2 & -> & H3); [intros; apply clear_list_releases|]. cbn [mbind res_bind]. by exists h2.
Qed.

Lemma destroy_lists_releases ls : releases (each list_destroy (emptied <$> ls)) (fp_lists (emptied <$> ls)).
Proof.
  apply releases_each. intros l (l' & -> & _)%list_elem_of_fmap.
  apply (list_destroy_releases (emptied l')).
Qed.

Lemma destroy_thread_releases w : releases (destroy_thread w) (fp_worker w).
Proof.
  eapply releases_perm; [apply free_then_releases, free_releases|]. unfold fp_worker.
  solve_Permutation.
Qed.

Lemma destroy_queues_releases q ls :
  releases (destroy_queues q (emptied <$> ls)) (fp_queues q ++ fp_lists (emptied <$> ls)).
Proof.
  unfold destroy_queues, destroy_threads_suspended, destroy_ready_queue, destroy_counter,
    destroy_counter_processes. eapply releases_perm.
  - apply free_then_releases, free_then_releases.
    apply releases_bind; [apply releases_bind; [apply destroy_thread_releases|]|].
    { apply releases_bind; [apply destroy_thread_releases|apply free_releases]. }
    apply releases_bind; [apply releases_bind; [|apply free_releases]|].
    { rewrite <- fmap_drop. apply destroy_lists_releases. }
    apply releases_bind; [rewrite <- fmap_take; apply destroy_lists_releases|].
    apply free_then_releases, free_releases.
  - rewrite <- (take_drop 4 ls) at 3. unfold fp_queues, fp_lists.
    rewrite !fmap_app, concat_app. cbn. solve_Permutation.
Qed.

(** [clear_queues], then [destroy_queues]. *)
Lemma queues_release q ls :
  releases (fun h => '(ls, h) ← clear_queues ls h; destroy_queues q ls h) (fp_queues q ++ fp_lists ls).
Proof.
  intros h0 O h H.
  assert (own h0 (fp_lists ls ++ fp_queues q ++ O) h) as H1
    by (eapply own_perm; [|reflexivity|exact H]; solve_Permutation).
  destruct (clear_queues_owns _ _ _ _ H1) as (h1 & -> & H2). cbn [mbind res_bind].
  apply destroy_queues_releases. eapply own_perm; [|reflexivity|exact H2]. solve_Permutation.
Qed.

Definition fp_config (c : loc * t_hlist loc) : list loc := c.1 :: fp_hlist (fun x => [x]) c.2.

Lemma add_algorithms_owns n l h0 O h :
  own h0 (fp_hlist (fun x => [x]) l ++ O) h ->
  own h0 (fp_hlist (fun x => [x]) (add_algorithms n l h).1 ++ O) (add_algorithms n l h).2.
Proof.
  revert l h. induction n as [|n IH]; intros l h H; [done|]. cbn [add_algorithms].
  apply new_element_owns in H. destruct (new_element l h) as [l' h']. by apply IH.
Qed.

Lemma start_config_owns n h0 O h :
  own h0 O h ->
  own h0 (fp_option fp_config (start_config n h).1 ++ O) (start_config n h).2 /\
  (is_Some (start_config n h).1 <-> is_Some n).
Proof.
  intros H. destruct n as [n|]; cbn [start_config]; [|by split; [|split; intros []]].
  allocate H as config. allocate_list (fun x : loc => [x]) H. apply (add_algorithms_owns n) in H.
  destruct (add_algorithms n _ _) as [l' h']. split; [|by split; eexists].
  cbn [fst snd] in *. eapply own_perm; [|reflexivity|exact H]. unfold fp_config. cbn. solve_Permutation.
Qed.

Lemma close_config_releases c : releases (close_config c) (fp_config c).
Proof.
  eapply releases_perm; [apply releases_bind; [apply list_of_frees_releases|apply free_releases]|].
  unfold fp_config. by rewrite <- Permutation_cons_append.
Qed.

Definition fp_module (k : o_kernel_scheduler) : list loc :=
  fp_option fp_address (ks_socket_server k) ++ fp_option fp_address (ks_socket_kernel_memory k)
  ++ fp_option fp_address (ks_logger k) ++ fp_option fp_config (ks_config k).

Lemma close_module_error_releases k : releases (close_module_error k) (fp_module k).
Proof.
  unfold close_module_error, fp_module.
  repeat apply releases_bind; apply if_not_null_releases; intros;
    first [apply free_releases|apply close_config_releases].
Qed.

Lemma start_connection_owns answer h0 O h :
  own h0 O h ->
  exists k h', start_connection_kernel_memory answer h = Ok (k, h') /\
    own h0 (fp_option fp_address k ++ O) h' /\ (is_Some k <-> answer = Some true).
Proof.
  intros H. destruct answer as [[]|]; cbn [start_connection_kernel_memory].
  - allocate H as l. do 2 eexists. by split_and!.
  - destruct (turned_away _ _ _ H) as (h' & E & H'). rewrite malloc_eq, E. do 2 eexists.
    split_and!; [done..|]. by split; [intros []|].
  - do 2 eexists. split_and!; [done..|]. by split; [intros []|].
Qed.

(** Everything is there. *)
Definition starts (s : t_start) : bool :=
  bool_decide (is_Some (st_algorithms s)) && st_log s
  && bool_decide (st_kernel_memory s = Some true) && st_server s.

Lemma malloc_if_is b h : bool_decide (is_Some (malloc_if b h).1) = b.
Proof. destruct b; [|done]. cbn. by destruct (malloc h). Qed.

Lemma start_module_owns s h0 O h :
  own h0 O h ->
  exists k h', start_module s h = Ok (starts s, k, h') /\ own h0 (fp_module k ++ O) h'.
Proof.
  intros H. unfold start_module, starts.
  destruct (start_config_owns (st_algorithms s) _ _ _ H) as [H1 E].
  rewrite <- (bool_decide_ext _ _ E).
  destruct (start_config _ h) as [[c|] h1]; cbn [fst snd] in H1; [|by do 2 eexists].
  rewrite (bool_decide_eq_true_2 (is_Some (Some c))) by by eexists.
  pose proof (malloc_if_owns (st_log s) _ _ _ H1) as H2. pose proof (malloc_if_is (st_log s) h1) as E2.
  destruct (malloc_if _ h1) as [[l|] h2]; cbn [fst snd] in H2, E2; rewrite <- E2;
    [|by do 2 eexists].
  rewrite (bool_decide_eq_true_2 (is_Some (Some l))) by by eexists.
  destruct (start_connection_owns (st_kernel_memory s) _ _ _ H2) as (k & h3 & E3 & H3 & Hk).
  rewrite E3. cbn [mbind res_bind]. rewrite <- (bool_decide_ext _ _ Hk).
  destruct k as [k|]; [|by do 2 eexists].
  rewrite (bool_decide_eq_true_2 (is_Some (Some k))) by by eexists.
  pose proof (malloc_if_owns (st_server s) _ _ _ H3) as H4. pose proof (malloc_if_is (st_server s) h3) as E4.
  destruct (malloc_if _ h3) as [server h4]; cbn [fst snd] in H4, E4. rewrite <- E4. do 2 eexists.
  split; [done|]. eapply own_perm; [|reflexivity|exact H4].
  unfold fp_module. cbn. solve_Permutation.
Qed.

Definition fp_resources (r : o_resources) : list loc :=
  rs_connection_check r :: rs_mutex_list r :: fp_queues (rs_queues r).

Lemma init_resources_owns n h0 O h :
  own h0 O h ->
  let '(r, ls, d, h) := init_scheduler_resources n h in
  own h0 (fp_lists ls ++ fp_dictionary d ++ fp_resources r ++ O) h /\ length ls = (4 + n)%nat.
Proof.
  intros H. unfold init_scheduler_resources, start_thread_check_connection_kernel_memory, dictionary_create. do 4 allocate H.
  match type of H with own _ _ ?h1 => pose proof (init_queues_owns n _ _ _ H) as H1;
    destruct (init_queues n h1) as [[q ls] h2] end.
  destruct H1 as [H1 HL]. split; [|done]. eapply own_perm; [|reflexivity|exact H1].
  unfold fp_resources. autounfold with footprints. cbn. solve_Permutation.
Qed.

Lemma close_module_owns level N k r ls d h0 O h :
  (forall p, (READY (level p) < N)%nat) -> (4 <= N)%nat -> length ls = N ->
  own h0 (fp_lists ls ++ fp_dictionary d ++ fp_resources r ++ fp_module k ++ O) h ->
  exists h', close_module level k r ls d h = Ok h' /\ own h0 O h'.
Proof.
  intros Hlevel HN HL H.
  unfold close_module, destroy_thread_check_connection_kernel_memory.
  eapply own_perm in H; [|symmetry; apply Permutation_app_swap_app|reflexivity].
  destruct (dictionary_destroy_consumes level N Hlevel HN d _ _ _ _ HL H) as (ls' & h1 & -> & _ & H1).
  cbn [mbind res_bind]. assert (own h0 (rs_mutex_list r :: (fp_queues (rs_queues r) ++ fp_lists ls')
    ++ rs_connection_check r :: fp_module k ++ O) h1) as H2
    by (eapply own_perm; [|reflexivity|exact H1]; unfold fp_resources; solve_Permutation).
  destruct (free_releases _ _ _ _ H2) as (h2 & -> & H3). cbn [mbind res_bind].
  destruct (queues_release _ _ _ _ _ H3) as (h3 & E & H4).
  apply res_bind_Ok in E as ([ls2 h2'] & -> & E). cbn [mbind res_bind]. rewrite E.
  cbn [mbind res_bind]. destruct (free_releases _ _ _ _ H4) as (h4 & -> & H5).
  cbn [mbind res_bind].
  assert (releases (fun h => h ← if_not_null free (ks_socket_kernel_memory k) h;
    h ← if_not_null free (ks_socket_server k) h; h ← if_not_null free (ks_logger k) h;
    if_not_null close_config (ks_config k) h) (fp_module k)) as HR; [|exact (HR _ _ _ H5)].
  eapply releases_perm.
  - repeat (apply releases_bind; [apply (if_not_null_releases _ fp_address); intros; apply free_releases|]).
    apply (if_not_null_releases _ fp_config), close_config_releases.
  - unfold fp_module. solve_Permutation.
Qed.

(** ** What is claimed *)

(** The queues of the ready processes. *)
Definition levels (s : t_start) (multilevel : bool) : nat :=
  if multilevel then default 0%nat (st_algorithms s) else 1%nat.


Definition demo_start : t_start := mk_start (Some 2%nat) true (Some true) true.
(** A module that works, one that fails and is asked again, and one without a
    thread, which another replaces. *)
Definition demo_ops : list t_operation :=
  [O_new_process true true 0; O_cpu J_runs; O_io J_runs 1; O_transition 4 0 EXEC; O_mutex_create;
   O_request 1 20; O_transition 0 0 BLOCK; O_served 1; O_io J_refused 1; O_cpu J_no_thread;
   O_new_process true true 1; O_insert_priority 4 0 1; O_mutex_wait 0 0 40; O_request 1 20;
   O_io_ends 1; O_request 1 40; O_io J_no_thread 2; O_request 2 40; O_io J_runs 2; O_request 2 40].


(** Two of the leaks.  When the thread of an IO module cannot be created, its list
    is left; and a request that is refused because its module has failed is left. *)
Lemma io_thread_failure_leaks :
  main (fun _ => 0%nat) demo_start true [O_io J_no_thread 1] ∅ <> Ok ∅.
Proof. vm_compute. discriminate. Qed.

Lemma refused_request_leaks :
  main (fun _ => 0%nat) demo_start true [O_io J_runs 1; O_io_ends 1; O_request 1 20] ∅ <> Ok ∅.
Proof. vm_compute. discriminate. Qed.
