(* ===== verification/SchedServer.v ===== *)
(** * SchedServer: kernel_scheduler/src/main.c, app/kernel_scheduler.c,
      connections/server.c and the start of connections/kernel_memory.c

    The whole scheduler: its configuration, its start, the server that takes in
    CPUs and IO modules, and its end.  [A] is what the accepted sockets are
    made of, [U] the connection to Kernel Memory. *)

From Stdlib Require Import Strings.Byte Strings.String.
From S2P Require Import Prelude Bytes Msg Text File Structs IoModule SchedState Pcb.
From S2P Require Import ReadyQueue ProcessLists KmReply Queues Mutex Routines.
From S2P Require Import IoConnection CpuConnection.

(** ** Configuration *)

Definition SCHEDULING_ALGORITHMS (alg : t_scheduling_algorithm) : string :=
  match alg with SA_FIFO => "FIFO" | SA_RR => "RR" | SA_MULTILEVEL_QUEUES => "MULTILEVEL" end.

(** [t_config_vars]; an algorithm of a queue that no name matched is left as
    [malloc] gave it: [None]. *)
Record t_config_vars := mk_config_vars {
  scheduling_algorithm : t_scheduling_algorithm;
  multilevel_algorithms : list (option t_scheduling_algorithm);
  rr_quantum : Z;
  preemption_var : bool;
  suspension_timeout_var : Z;
  server_port : option text;
  kernel_memory_ip : option text;
  kernel_memory_port : option text }.

(** The loop over [SCHEDULING_ALGORITHMS]; [resources] starts zeroed. *)
Definition algorithm_named (name : text) : t_scheduling_algorithm :=
  if decide (name = txt (SCHEDULING_ALGORITHMS SA_FIFO)) then SA_FIFO
  else if decide (name = txt (SCHEDULING_ALGORITHMS SA_RR)) then SA_RR
  else if decide (name = txt (SCHEDULING_ALGORITHMS SA_MULTILEVEL_QUEUES))
  then SA_MULTILEVEL_QUEUES else SA_FIFO.

Definition queue_algorithm_named (name : text) : option t_scheduling_algorithm :=
  if decide (name = txt (SCHEDULING_ALGORITHMS SA_FIFO)) then Some SA_FIFO
  else if decide (name = txt (SCHEDULING_ALGORITHMS SA_RR)) then Some SA_RR
  else None.

(** [start_config]; [None]: there is no file. *)
Definition start_config (fs : file_system) (config_path : text) : res (option t_config_vars) :=
  config ← config_create fs config_path;
  match config with
  | None => Ok None
  | Some config =>
      alg ← deref (config_get_string_value config (txt "SCHEDULING_ALGORITHM"));
      array ← config_get_array_value config (txt "QUEUE_ALGORITHMS");
      quantum ← config_get_int_value config (txt "RR_QUANTUM");
      preempt ← deref (config_get_string_value config (txt "QUEUE_PREEMPTION"));
      timeout ← config_get_int_value config (txt "SUSPENSION_TIMEOUT");
      Ok (Some (mk_config_vars (algorithm_named alg) (queue_algorithm_named <$> array) quantum
        (bool_decide (preempt = txt "TRUE")) timeout
        (config_get_string_value config (txt "KERNEL_SCHEDULER_PORT"))
        (config_get_string_value config (txt "KERNEL_MEMORY_IP"))
        (config_get_string_value config (txt "KERNEL_MEMORY_PORT"))))
  end.

(** The algorithms [init_ready_queue] reads from the list. *)
Definition read_algorithms (vars : t_config_vars) : res (list t_scheduling_algorithm) :=
  match scheduling_algorithm vars with
  | SA_MULTILEVEL_QUEUES =>
      match mapM id (multilevel_algorithms vars) with
      | Some l => Ok l | None => Undef Indeterminate end
  | _ => Ok []
  end.

(** ** The scheduler's state: what the threads share, and its CPU threads *)

Record t_scheduler (U A : Type) := mk_scheduler {
  sys_kernel : t_kernel U A; sys_cpus : list (t_cpu_thread A) }.
Arguments mk_scheduler {U A} _ _.
Arguments sys_kernel {U A} _.
Arguments sys_cpus {U A} _.

Section server.
Context {U A : Type} `{!Transport U, !Transport A}.
Context (fuel : nat) (interfere : option Z -> t_queues U -> t_queues U).
Context (others_run : t_scheduler U A -> t_scheduler U A).
Implicit Types (y : t_scheduler U A).

(** ** connections/kernel_memory.c *)

Definition handshake_kernel_memory (s : t_socket U) : res (bool * t_socket U) :=
  '(sent, s) ← send_handshake MID_KERNEL_SCHEDULER s;
  if negb sent then Ok (false, s) else
  '(id, s) ← receive_handshake s;
  Ok (bool_decide (id = MID_KERNEL_MEMORY), s).

(** [start_connection_kernel_memory]; [open_km] is [socket_create]. *)
Definition start_connection_kernel_memory (open_km : option text -> option text -> t_socket U)
    (ip port : option text) : res (t_socket U) :=
  match open_km ip port with
  | None => Ok None
  | Some h =>
      '(ok, s) ← handshake_kernel_memory (Some h);
      Ok (if (ok : bool) then s else socket_close s)
  end.

(** ** app/kernel_scheduler.c *)

(** [start_module] and [init_scheduler_resources]; [server_open] is whether the
    server socket could be created.  [None]: the module fails to start. *)
Definition start_module (fs : file_system) (open_km : option text -> option text -> t_socket U)
    (server_open : option text -> bool) (config_path : text) : res (option (t_scheduler U A)) :=
  vars ← start_config fs config_path;
  match vars with
  | None => Ok None
  | Some vars =>
      km ← start_connection_kernel_memory open_km (kernel_memory_ip vars)
             (kernel_memory_port vars);
      match km with
      | None => Ok None
      | Some h =>
          if negb (server_open (server_port vars)) then Ok None else
          algs ← read_algorithms vars;
          Ok (Some (mk_scheduler
            (mk_kernel (init_queues (scheduling_algorithm vars) algs (rr_quantum vars)
               (preemption_var vars) (Some h) (suspension_timeout_var vars))
               init_list_mutex create_io_structures) []))
      end
  end.

Abbreviation sys := (St (t_scheduler U A)).

Definition in_kernel {B} (m : sysM U A B) : sys B := fun y =>
  match m (sys_kernel y) with
  | Ok (b, k) => Ok (b, mk_scheduler k (sys_cpus y)) | Undef u => Undef u end.

(** [destroy_queues]: the routines end and the worker threads are joined. *)
Definition destroy_queues : M U unit :=
  _ ← terminate_routines;
  _ ← wait (interfere None) (fun q => bool_decide (thread_counter (routines q) = 0));
  terminate_threads_suspended.

Definition close_module : sys unit :=
  y ← gets id;
  _ ← in_kernel (on_queues (destroy_list_mutex (mutex_list (sys_kernel y))));
  _ ← in_kernel (on_queues (clear_queues fuel (interfere None) fuel));
  in_kernel (on_queues destroy_queues).

(** ** connections/server.c *)

(** An accepted connection: whether it was taken in. *)
Definition accept_client (thread_created : bool) (s : t_socket A) : sys bool :=
  '(module_id, s) ← lift (receive_handshake s);
  match module_id with
  | MID_CPU =>
      '(d, _) ← lift (handle_new_cpu thread_created s);
      match d with
      | Some d => _ ← modify (fun y => mk_scheduler (sys_kernel y) (sys_cpus y ++ [d]));
                  mret true
      | None => mret false
      end
  | MID_IO => in_kernel (handle_new_io thread_created s false)
  | _ => mret false
  end.

(** One thread of a CPU runs to its end, and leaves the list. *)
Definition finish_cpu (d : t_cpu_thread A) : sys unit := fun y =>
  match handle_cpu_client fuel interfere fuel (mk_cpu_state (sys_kernel y) d) with
  | Ok (_, x) => Ok (tt, mk_scheduler (kernel x) (sys_cpus y)) | Undef u => Undef u end.

Fixpoint finish_cpus (l : list (t_cpu_thread A)) : sys unit :=
  match l with
  | [] => mret tt
  | d :: r => _ ← finish_cpu (set_socket_fd (socket_shutdown (socket_fd d)) d); finish_cpus r
  end.

(** [close_cpu] waits until every thread of a CPU has left the list. *)
Definition close_cpu : sys unit :=
  _ ← in_kernel (on_queues terminate_queue_ready);
  y ← gets id;
  _ ← modify (fun y => mk_scheduler (sys_kernel y) []);
  finish_cpus (sys_cpus y).

Definition close_thread_listen : sys unit := _ ← close_cpu; in_kernel close_io.

(** The connections that arrive before the server is shut down, each with
    whether its thread can be created; [others_run] is what the other threads do
    until one arrives. *)
Fixpoint accept_loop (l : list (bool * t_socket A)) : sys unit :=
  _ ← modify others_run;
  match l with
  | [] => mret tt
  | (created, s) :: r => _ ← accept_client created s; accept_loop r
  end.

Definition server_listen (initial_process_path : list byte) (l : list (bool * t_socket A))
    : sys unit :=
  _ ← in_kernel (on_queues (transition_new_ready fuel (interfere None) initial_process_path 0));
  _ ← accept_loop l;
  close_thread_listen.

(** [main]: [false] is [EXIT_FAILURE]. *)
Definition main (fs : file_system) (open_km : option text -> option text -> t_socket U)
    (server_open : option text -> bool) (argv : list text) (l : list (bool * t_socket A))
    : res bool :=
  match argv with
  | [_; config_path; initial_process_path] =>
      y ← start_module fs open_km server_open config_path;
      match y with
      | None => Ok false
      | Some y =>
          '(_, y) ← server_listen (initial_process_path ++ [x00]) l y;
          _ ← close_module y; Ok true
      end
  | _ => Ok false
  end.
End server.
