(* ===== verification/SchedSystem.v ===== *)
(** * SchedSystem: the scheduler's threads together

    The threads of the CPUs and of the IO modules, the suspender, the resumer,
    the routines they start and the server interleave round by round.  In every
    state they reach within the limits of [within_limits] the queues are well
    formed and no two CPUs run the same process. *)

From Stdlib Require Import Strings.Byte Strings.String.
From S2P Require Import Prelude Bytes Msg Text Structs IoModule SchedState Pcb.
From S2P Require Import ReadyQueue ProcessLists KmReply Queues QueuesWf Mutex Routines.
From S2P Require Import IoConnection CpuConnection OtherThreads CpuThread SchedServer.

(** ** The system *)

(** The process a CPU's thread runs, between two rounds. *)
Definition runs {A} (d : t_cpu_thread A) : option Z :=
  if decide (preemption_reason d = PR_NO_PREEMPTION) then cpu_pcb d else None.

Definition running_pids {A} (l : list (t_cpu_thread A)) : list Z := omap runs l.

Lemma running_pids_middle {A} (l1 l2 : list (t_cpu_thread A)) d :
  running_pids (l1 ++ d :: l2) ≡ₚ option_list (runs d) ++ running_pids (l1 ++ l2).
Proof.
  unfold running_pids. rewrite !omap_app. cbn [omap list_omap].
  destruct (runs d); cbn [option_list app]; [by rewrite <- Permutation_middle|done].
Qed.

Section system.
Context {U A : Type} `{!Transport U, !Transport A}.
Context (fuel : nat).
Implicit Types (y : t_scheduler U A) (q : t_queues U).

Abbreviation sys_queues y := (k_queues (sys_kernel y)).

(** One thread makes one round, then the others go on.  [interfere] is what
    happens where it waits. *)
Inductive system_step y : t_scheduler U A -> Prop :=
  | sys_cpu l1 d l2 interfere x :
      sys_cpus y = l1 ++ d :: l2 -> keep_running d = true -> waits A fuel interfere ->
      handle_cpu_client_step fuel interfere (mk_cpu_state (sys_kernel y) d) = Ok (true, x) ->
      system_step y (mk_scheduler (kernel x) (l1 ++ thread x :: l2))
  | sys_cpu_break l1 d l2 interfere x x' :
      sys_cpus y = l1 ++ d :: l2 -> keep_running d = true -> waits A fuel interfere ->
      handle_cpu_client_step fuel interfere (mk_cpu_state (sys_kernel y) d) = Ok (false, x) ->
      close_client x = Ok (tt, x') -> system_step y (mk_scheduler (kernel x') (l1 ++ l2))
  | sys_cpu_end l1 d l2 x' :
      sys_cpus y = l1 ++ d :: l2 -> keep_running d = false ->
      close_client (mk_cpu_state (sys_kernel y) d) = Ok (tt, x') ->
      system_step y (mk_scheduler (kernel x') (l1 ++ l2))
  | sys_io t b k :
      io_thread_step fuel t (sys_kernel y) = Ok (b, k) ->
      system_step y (mk_scheduler k (sys_cpus y))
  | sys_worker interfere n m q :
      waits A fuel interfere -> m ∈ workers fuel (interfere None) n ->
      m (sys_queues y) = Ok (tt, q) ->
      system_step y (mk_scheduler (set_queues q (sys_kernel y)) (sys_cpus y))
  | sys_new interfere path q :
      waits A fuel interfere ->
      transition_new_ready fuel (interfere None) path 0 (sys_queues y) = Ok (tt, q) ->
      system_step y (mk_scheduler (set_queues q (sys_kernel y)) (sys_cpus y))
  | sys_accept created s b y' : accept_client created s y = Ok (b, y') -> system_step y y'.

(** What the program does not check.  A mutex of a process in a multilevel queue
    may put the process in two queues ([priority_change_duplicates]); a list
    counts its elements in an [int]. *)
Definition within_limits y : Prop :=
  mutexes_allowed (sys_kernel y) /\ next_pid (sys_queues y) < INT_MAX.

(** ** Its invariant *)

(** Every process a CPU runs is in execution, and no two CPUs run the same. *)
Record system_ok y : Prop := {
  so_wf : sched_wf (sys_queues y);
  so_given : Forall (fun d => preemption_reason d ≠ PR_HIGHER_PRIORITY_PROCESS /\
               (preemption_reason d = PR_NO_PREEMPTION -> is_Some (cpu_pcb d))) (sys_cpus y);
  so_alone : NoDup (running_pids (sys_cpus y));
  so_run : forall p, p ∈ running_pids (sys_cpus y) -> state_of (sys_queues y) p = Some PS_EXEC }.

Lemma system_thread_ok y l1 d l2 :
  system_ok y -> sys_cpus y = l1 ++ d :: l2 ->
  thread_ok (fun p => p ∈ running_pids (l1 ++ l2)) (mk_cpu_state (sys_kernel y) d).
Proof.
  intros [H1 H3 H4 H5] E. rewrite E in *. apply Forall_app in H3 as [_ H3].
  apply Forall_cons in H3 as [[Hh H3] _]. rewrite running_pids_middle in H4.
  setoid_rewrite running_pids_middle in H5. split_and!; cbn; [|done|].
  - split; [done|]. intros p Hp. apply H5. apply elem_of_app. by right.
  - intros Hr. destruct (H3 Hr) as [p Hp]. exists p.
    assert (runs d = Some p) as Ed by (unfold runs; by rewrite decide_True).
    rewrite Ed in *. cbn [option_list app] in *. apply NoDup_cons in H4 as [H4 _].
    split_and!; [done..|]. apply H5. by left.
Qed.

(** The threads that are left when one is taken out. *)
Lemma system_ok_without k l1 l2 d y :
  system_ok y -> sys_cpus y = l1 ++ d :: l2 ->
  wf_with (fun p => p ∈ running_pids (l1 ++ l2)) (k_queues k) ->
  system_ok (mk_scheduler k (l1 ++ l2)).
Proof.
  intros [H1 H3 H4 H5] E [Hwf Ho]. rewrite E in *.
  rewrite Forall_app, Forall_cons in H3. rewrite running_pids_middle in H4.
  apply NoDup_app in H4 as (_ & _ & H4). constructor; cbn; try done.
  apply Forall_app. tauto.
Qed.

(** One thread's round, the others as they were. *)
Lemma system_ok_round x l1 l2 d y :
  system_ok y -> sys_cpus y = l1 ++ d :: l2 ->
  thread_ok (fun p => p ∈ running_pids (l1 ++ l2)) x ->
  system_ok (mk_scheduler (kernel x) (l1 ++ thread x :: l2)).
Proof.
  intros Hy E (Hwf & Hh & Hr). pose proof Hwf as [Hwf1 Ho].
  destruct (system_ok_without _ _ _ _ _ Hy E Hwf) as [_ H3 H4 _].
  cbn [sys_cpus] in H3, H4. constructor; cbn [sys_cpus sys_kernel]; [done| | |].
  - rewrite Forall_app in H3. rewrite Forall_app, Forall_cons.
    split_and!; [apply H3|done| |apply H3]. intros E'. destruct (Hr E') as (p & -> & _). by eexists.
  - rewrite running_pids_middle. unfold runs at 1. case_decide as E'; [|done].
    destruct (Hr E') as (p & -> & Hn & _). by constructor.
  - intros p. rewrite running_pids_middle, elem_of_app. intros [Hp|Hp]; [|by apply Ho].
    unfold runs in Hp. case_decide as E'; [|by apply elem_of_nil in Hp].
    destruct (Hr E') as (p' & Ep & _ & Hs). rewrite Ep in Hp.
    apply list_elem_of_singleton in Hp. by subst.
Qed.

(** A step of the queues that keeps every process a CPU runs. *)
Lemma system_ok_queues k y :
  system_ok y -> run_kept (sys_queues y) (k_queues k) -> system_ok (mk_scheduler k (sys_cpus y)).
Proof.
  intros [H1 H3 H4 H5] Hq. destruct (Hq H1) as [Hwf Hset _].
  constructor; cbn; try done. intros p Hp. by apply Hset, H5.
Qed.

Lemma close_client_ok others x u x' :
  wf_with others (k_queues (kernel x)) -> (forall p, cpu_pcb (thread x) = Some p ->
    preemption_reason (thread x) = PR_HIGHER_PRIORITY_PROCESS -> ~ others p) ->
  close_client (U := U) (V := A) (W := A) x = Ok (u, x') ->
  wf_with others (k_queues (kernel x')).
Proof.
  intros Hwf Hn H. unfold close_client in H. run_M_in H.
  destruct (cpu_pcb (thread x)) as [p|] eqn:Ep; cycle 1.
  { unfold update in H. run_M_in H. by simplify_eq. }
  case_bool_decide as Hr; cbn [when] in H; [|unfold update in H; run_M_in H; by simplify_eq].
  destruct (in_queues _ _) as [[u1 x1]|] eqn:E; [|done].
  apply in_queues_Ok in E as (q & E & ->). unfold update in H. rewrite modify_M in H.
  simplify_eq. cbn.
  apply transition_exec_ready_steps in E as [Hwf' [[_ Hs]|[_ ->]]]; [..|apply Hwf]; [|done].
  eapply (wf_with_step _ p); [done|by apply Hn|done|]. intros z Hz ?.
  by rewrite Hs, decide_False.
Qed.

(** Taking in an IO module. *)
Definition same_shared (k k' : t_kernel U A) : Prop := k_queues k' = k_queues k.

#[local] Instance same_shared_preorder : PreOrder same_shared.
Proof. unfold same_shared. split; repeat intro; naive_solver congruence. Qed.

Lemma keeps_new_io created s b :
  keeps same_shared (handle_new_io (U := U) (V := A) created s b).
Proof. unfold handle_new_io, get_io, update_io. keeps_tac. Qed.

Lemma accept_client_ok created s y b y' :
  system_ok y -> accept_client created s y = Ok (b, y') -> system_ok y'.
Proof.
  intros Hy H. unfold accept_client in H. inv_M H as [id s1] y1 E.
  rewrite lift_M in E. destruct (receive_handshake s) as [[id0 s0]|]; [|done]. simplify_eq.
  destruct id; try (rewrite ret_M in H; by simplify_eq).
  - inv_M H as [d s2] y2 E. rewrite lift_M in E.
    destruct (handle_new_cpu created s1) as [[d0 s3]|] eqn:En; [|done]. simplify_eq.
    destruct d as [d|]; [|rewrite ret_M in H; by simplify_eq]. run_M_in H. simplify_eq.
    assert (preemption_reason d = PR_FIRST_CYCLE) as Ed.
    { unfold handle_new_cpu in En. inv_bind En as r1 E1. destruct r1 as [ok s4].
      destruct (negb ok); [by simplify_eq|]. inv_bind En as r2 E2. destruct r2 as [[id|] s5];
        [|by simplify_eq]. destruct created; by simplify_eq. }
    destruct Hy as [H1 H3 H4 H5].
    assert (running_pids (sys_cpus y2 ++ [d]) = running_pids (sys_cpus y2)) as Er.
    { unfold running_pids. rewrite omap_app. cbn. unfold runs. rewrite Ed.
      by rewrite decide_False, app_nil_r. }
    constructor; cbn [sys_cpus sys_kernel]; rewrite ?Er; try done.
    apply Forall_app. split; [done|]. constructor; [|done]. by rewrite Ed.
  - unfold in_kernel in H. destruct (handle_new_io _ _ _ _) as [[b0 k]|] eqn:E; [|done].
    simplify_eq. apply keeps_new_io in E. apply system_ok_queues; [done|]. by rewrite E.
Qed.

Lemma system_step_ok y y' : system_ok y -> within_limits y -> system_step y y' -> system_ok y'.
Proof.
  intros Hy Hl [l1 d l2 i x E Hk Hi H|l1 d l2 i x x' E Hk Hi H Hc
    |l1 d l2 x' E Hk Hc|t b k H|i n m q Hi Hin H|i path q Hi H|created s b y1 H].
  - apply waits_rely in Hi. eapply (cpu_round _ _ _ Hi) in H as (_ & _ & H);
      [|by apply (system_thread_ok y)|done].
    eapply system_ok_round; eauto.
  - apply waits_rely in Hi. eapply (cpu_round _ _ _ Hi) in H as (Hwf & Hp & _);
      [|by apply (system_thread_ok y)|done].
    eapply close_client_ok in Hc; [|done|intros p Hx _; by apply Hp].
    by eapply system_ok_without.
  - destruct (system_thread_ok _ _ _ _ Hy E) as (Hwf & Hh & _).
    eapply close_client_ok in Hc; [|done|intros p _ Hx; done].
    by eapply system_ok_without.
  - apply system_ok_queues; [done|]. by eapply keeps_io_thread.
  - apply system_ok_queues; [done|]. apply waits_rely in Hi. eapply keeps_workers, H; [apply Hi|done].
  - apply waits_rely in Hi. destruct Hl as [_ Hn]. destruct Hy as [H1 H3 H4 H5].
    constructor; cbn; try done.
    + eapply transition_new_ready_wf, H; [by apply rr_rely|done..].
    + intros p Hp. eapply new_ready_others in H; [exact H|by apply rr_spares|done|done| |by apply H5].
      intros ->. apply H5, fmap_Some in Hp as (pcb & E & _).
      assert (alive (sys_queues y) (next_pid (sys_queues y))) as Ha by (by eexists).
      apply (sw_pids _ H1) in Ha. lia.
  - by eapply accept_client_ok.
Qed.

(** The scheduler as it starts. *)
Definition started alg ml quantum preemption km timeout : t_scheduler U A :=
  mk_scheduler (mk_kernel (init_queues alg ml quantum preemption km timeout)
    init_list_mutex create_io_structures) [].

(** C1: in every state that the scheduler's threads reach, each live process is
    exactly once in the list of its state and in no other, a ready process is
    in the queue of its priority, the ready queue's count and cached best
    priority are exact, every process a CPU was told to run is in execution, and
    no two CPUs run the same process.  The threads take their rounds in any
    order, and where one waits any rounds of the IO modules', workers' and
    routines' threads happen, but none of another CPU.  No round starts in a
    state in which a mutex exists beside a multilevel ready queue, or after
    2^31 - 1 processes: the program does not check either, and with the first a
    change of priority can put a process in two queues
    ([priority_change_duplicates]). *)
Theorem scheduler_invariant alg ml quantum preemption km timeout y :
  rtc (fun y y' => within_limits y /\ system_step y y')
    (started alg ml quantum preemption km timeout) y ->
  system_ok y.
Proof.
  intros H. assert (system_ok (started alg ml quantum preemption km timeout)) as Hy.
  { constructor; try done; [apply init_queues_wf|constructor|].
    intros p Hp. by apply elem_of_nil in Hp. }
  induction H as [|y1 y2 y3 [Hl H12] _ IH]; [done|]. apply IH. by eapply system_step_ok.
Qed.
End system.

(** ** A run *)

(** Kernel Memory starts the process; a CPU joins, takes it and runs one
    instruction. *)
Definition boot : t_scheduler wire wire :=
  started SA_RR [] 100 false (Some (mk_wire (frame OP_PROCESS_STARTED (lit "ok")) [] true)) 1000.

Definition boot_queues : t_queues wire :=
  after (transition_new_ready 5 (fun q => q) (lit "a.prc") 0) (k_queues (sys_kernel boot)).

Definition boot_new : t_scheduler wire wire :=
  mk_scheduler (set_queues boot_queues (sys_kernel boot)) (sys_cpus boot).

Definition cpu_connection : t_socket wire :=
  Some (mk_wire (frame OP_HANDSHAKE (lit "cpu") ++ frame OP_ID_CPU (lit "1")
                 ++ frame OP_CPU_CYCLE_OK (lit "OK")) [] true).

Definition boot_cpu : t_scheduler wire wire :=
  match accept_client true cpu_connection boot_new with Ok (_, y) => y | _ => boot end.

Definition boot_thread : t_cpu_thread wire :=
  default (init_data_thread_cpu None []) (head (sys_cpus boot_cpu)).

Definition boot_state : t_cpu_state wire wire wire :=
  match handle_cpu_client_step 5 (fun _ q => q)
          (mk_cpu_state (sys_kernel boot_cpu) boot_thread) with
  | Ok (_, x) => x | _ => mk_cpu_state (sys_kernel boot_cpu) boot_thread end.

Definition boot_round : t_scheduler wire wire :=
  mk_scheduler (kernel boot_state) ([] ++ thread boot_state :: []).

(** No mutex is there, and few processes. *)
Ltac limits := split; [intros Hm; vm_compute in Hm; discriminate Hm|vm_compute; reflexivity].

Lemma boot_steps : rtc (fun y y' => within_limits y /\ system_step 5 y y') boot boot_round.
Proof.
  apply (rtc_l _ _ boot_new); [split; [limits|]|apply (rtc_l _ _ boot_cpu);
    [split; [limits|]|apply rtc_once; split; [limits|]]].
  - apply (sys_new 5 boot (fun _ q => q) (lit "a.prc") boot_queues);
      [apply waits_id|vm_compute; reflexivity].
  - apply (sys_accept 5 boot_new true cpu_connection true boot_cpu). vm_compute. reflexivity.
  - apply (sys_cpu 5 boot_cpu [] boot_thread [] (fun _ q => q) boot_state);
      [vm_compute; reflexivity|vm_compute; reflexivity|apply waits_id|vm_compute; reflexivity].
Qed.

Lemma scheduler_invariant_witness :
  running_pids (sys_cpus boot_round) = [0] /\ system_ok boot_round.
Proof.
  split; [vm_compute; reflexivity|].
  apply (scheduler_invariant 5 SA_RR [] 100 false
    (Some (mk_wire (frame OP_PROCESS_STARTED (lit "ok")) [] true)) 1000).
  exact boot_steps.
Defined.
