(* ===== verification/SchedKm.v ===== *)
(** * SchedKm: the scheduler connected to Kernel Memory

    The scheduler's requests (KmReply.v, Queues.v, Routines.v) with Kernel
    Memory's loop (SchedulerListener.v) at the other end of the socket: memory
    system calls, and the life of a process in both.  A request that needs a
    compaction is a longer conversation: SchedCompact.v. *)

From Stdlib Require Import Strings.Byte Strings.String.
From S2P Require Import Prelude Bytes Msg Text File Structs MainMemory Compaction Holes.
From S2P Require Import Segments Peer MemoryStick Sticks SwapModule KmSwap KmProcess.
From S2P Require Import SchedulerListener.
From S2P Require Import SchedState Pcb ReadyQueue ProcessLists KmReply Queues QueuesWf Routines.

Section joined.
Context {T V : Type} `{!Transport T, !Transport V}.
Context (fs : file_system).

Abbreviation km := (t_scheduler_data T V wire).

(** One round of Kernel Memory's loop, on the socket the request came on. *)
#[local] Instance scheduler_server : Server km := fun d s =>
  '(connection_alive, d) ← listen_scheduler_step fs (set_sched s d);
  Ok (connection_alive, set_sched None d, socket_scheduler d).

Implicit Types (q : t_queues (peer km)) (d : km).

(** The scheduler is connected to an idle Kernel Memory in state [d]. *)
Definition with_km d q : t_queues (peer km) := set_km_socket (Some (mk_peer d [] true)) q.
Definition idle_km d : Prop := socket_scheduler d = None.

(** Kernel Memory in state [d] serves the request by this reply. *)
Definition serves d (op : t_op_code) payload d' (replies : list byte) : Prop :=
  listen_scheduler_step fs (set_sched (Some (mk_wire (frame op payload) [] true)) d)
  = Ok (true, set_sched (Some (mk_wire [] replies true)) d') /\ idle_km d'.

Lemma km_request d op payload d' replies q :
  serves d op payload d' replies ->
  km_send (send_buffer op payload) (with_km d q)
  = Ok (true, set_km_socket (Some (mk_peer d' replies true)) q).
Proof.
  intros [E Hd']. unfold km_send. run_M. unfold send_buffer. fold (frame op payload).
  cbn [with_km set_km_socket km_socket]. rewrite (peer_request d d' op payload replies); [done|].
  unfold serve, scheduler_server. rewrite app_nil_r, E. destruct d'. unfold idle_km in Hd'.
  cbn in Hd'. by subst.
Qed.

(** The reply, when it is one of those that are waited for. *)
Lemma km_replies n d rop reply expected q :
  reply ≠ [] -> sendable reply -> is_expected (op_value rop) expected = true ->
  exists q1,
    receive_km_opcode (S n) expected (set_km_socket (Some (mk_peer d (frame rop reply) true)) q)
    = Ok (op_value rop, q1) /\
    km_receive (fun s => '(b, n, s) ← receive_buffer s; Ok (b, n, s)) q1
    = Ok (Some (written reply), l_size reply, with_km d q) /\
    km_skip_string q1 = Ok (tt, with_km d q).
Proof.
  intros Hne Hs He.
  destruct (receive_reply (mk_peer d (frame rop reply) true) rop reply) as (k2 & E1 & E2);
    [done..|].
  exists (set_km_socket (Some k2) q). split; [|split].
  - unfold receive_km_opcode. cbn [receive_km_opcode_loop]. unfold km_receive. run_M.
    cbn [set_km_socket km_socket]. rewrite E1, lift_M. run_M. by rewrite He.
  - unfold km_receive. run_M. cbn [set_km_socket km_socket]. rewrite E2. cbn [mbind res_bind].
    rewrite lift_M. by run_M.
  - unfold km_skip_string, km_receive. run_M. cbn [set_km_socket km_socket].
    unfold receive_string. rewrite E2. cbn [mbind res_bind]. rewrite lift_M. by run_M.
Qed.

(** ** Kernel Memory's answers *)

(** A request that has been read up to its operation code. *)
Definition asked payload d : km :=
  set_sched (Some (mk_wire (int_bytes (l_size payload) ++ payload) [] true)) d.

Lemma step_handler op payload d :
  listen_scheduler_step fs (set_sched (Some (mk_wire (frame op payload) [] true)) d)
  = match op with
    | OP_NEW_PROCESS => handle_new_process fs
    | OP_CREATE_SEGMENT => handle_create_segment
    | OP_DELETE_SEGMENT => handle_delete_segment
    | OP_IO_STDIN_REQUEST => handle_stdin_request
    | OP_IO_STDOUT_REQUEST => handle_stdout_request
    | OP_END_PROCESS => handle_end_process
    | OP_REQUEST_FREE_MEMORY => handle_request_free_memory
    | OP_REQUEST_PROCESS_SIZE => handle_request_process_size
    | OP_SUSPEND_PROCESS => handle_suspend_process
    | OP_RESUME_SUSPENDED_PROCESS => handle_resume_suspended_process
    | OP_KERNEL_MEMORY_RUNNING => handle_kernel_memory_running
    | _ => fun d => Ok (false, d)
    end (asked payload d).
Proof.
  unfold listen_scheduler_step. cbn [socket_scheduler set_sched].
  rewrite <- (app_nil_r (frame _ _)), receive_op_code_frame. cbn [mbind res_bind].
  rewrite op_of_value_op_value, app_nil_r. by destruct op.
Qed.

Lemma asked_buffer payload d :
  payload ≠ [] -> sendable payload ->
  receive_buffer (socket_scheduler (asked payload d))
  = Ok (Some (written payload), l_size payload, Some (mk_wire [] [] true)).
Proof.
  intros Hne Hs. cbn [asked set_sched socket_scheduler].
  rewrite <- (app_nil_r payload) at 2. by rewrite receive_buffer_wire.
Qed.

Lemma answer_wire op str d t :
  bool_decide (x00 ∈ list_byte_of_string str) = false ->
  answer op (lit str) (set_sched (Some (mk_wire [] t true)) d)
  = Ok (set_sched (Some (mk_wire [] (t ++ frame op (lit str)) true)) d).
Proof.
  intros Hstr. unfold answer. cbn [socket_scheduler set_sched].
  rewrite send_string_lit by done. cbn [mbind res_bind].
  by rewrite wire_send by apply serialize_packet_ne.
Qed.

Lemma serves_free_memory d :
  idle_km d ->
  serves d OP_REQUEST_FREE_MEMORY (lit "Requesting the available space") d
    (frame OP_FREE_MEMORY (int_bytes (compute_free_space (holes (main_memory d))))).
Proof.
  intros Hd. split; [|done]. rewrite step_handler. unfold handle_request_free_memory.
  unfold receive_string. rewrite asked_buffer by done. cbn [mbind res_bind].
  unfold send_buffer. by rewrite wire_send by apply serialize_packet_ne.
Qed.

(** MEM_ALLOC that needs no compaction. *)
Lemma serves_create_segment r d m' op str :
  idle_km d -> in_u32 (sm_pid r) -> in_u32 (sm_segment_id r) -> in_u32 (sm_size r) ->
  in_u32 (max_segment_size (main_memory d)) ->
  (if decide (max_segment_size (main_memory d) < sm_size r) then
     m' = main_memory d /\ op = OP_SEGMENT_SIZE_EXCEEDED /\
     str = "Requested size is larger than the max segment size"%string
   else
     create_segment (sm_segment_id r) (sm_pid r) (s32 (sm_size r)) (main_memory d)
       (Some (mk_wire [] [] true)) = Ok (m', Some (mk_wire [] (frame op (lit str)) true))) ->
  serves d OP_CREATE_SEGMENT (syscall_memory_bytes r) (set_memory m' d) (frame op (lit str)).
Proof.
  intros Hd H1 H2 H3 Hmax Hm. split; [|done].
  rewrite step_handler. unfold handle_create_segment.
  rewrite asked_buffer by (done || (unfold sendable, l_size; cbn; ints; lia)).
  cbn [mbind res_bind deref]. unfold written.
  rewrite syscall_memory_roundtrip by done. cbn [mbind res_bind].
  change (main_memory (set_sched _ _)) with (main_memory d).
  unfold in_u32 in Hmax. rewrite u32_id by lia.
  change (set_sched (Some (mk_wire [] [] true)) (asked _ d))
    with (set_sched (Some (mk_wire [] [] true)) d).
  case_decide.
  - destruct Hm as (-> & -> & ->). rewrite answer_wire by done. by destruct d.
  - cbn [set_sched socket_scheduler]. rewrite Hm. by destruct d.
Qed.

Lemma serves_delete_segment r d m' :
  idle_km d -> in_u32 (sm_pid r) -> in_u32 (sm_segment_id r) -> in_u32 (sm_size r) ->
  remove_segment (sm_segment_id r) (sm_pid r) (main_memory d) = Ok m' ->
  serves d OP_DELETE_SEGMENT (syscall_memory_bytes r) (set_memory m' d)
    (frame OP_MEMORY_FREED (lit "Memory freed")).
Proof.
  intros Hd H1 H2 H3 Hm. split; [|done]. rewrite step_handler. unfold handle_delete_segment.
  rewrite asked_buffer by (done || (unfold sendable, l_size; cbn; ints; lia)).
  cbn [mbind res_bind deref]. unfold written.
  rewrite syscall_memory_roundtrip by done. cbn [mbind res_bind].
  change (main_memory (asked _ d)) with (main_memory d). rewrite Hm. cbn [mbind res_bind].
  change (set_memory m' (set_sched (Some (mk_wire [] [] true)) (asked _ d)))
    with (set_sched (Some (mk_wire [] [] true)) (set_memory m' d)).
  by rewrite answer_wire.
Qed.

(** ** The memory system calls *)

(** The [int] of a reply. *)
Lemma int_reply n d op z q :
  op ≠ OP_CODE_ERROR ->
  receive_int_reply (S n) op (set_km_socket (Some (mk_peer d (frame op (int_bytes z)) true)) q)
  = Ok (s32 z, with_km d q).
Proof.
  intros Hop. unfold receive_int_reply.
  destruct (km_replies n d op (int_bytes z) [op] q) as (q1 & E1 & E2 & _); [done|done| |].
  { cbn. by rewrite bool_decide_true. }
  rewrite bind_M, E1, decide_False by by intros ?%op_value_inj.
  rewrite bind_M, E2, lift_M. cbn [deref mbind res_bind].
  unfold read_int, read_bytes, written. rewrite decide_True by (cbn; lia).
  rewrite drop_0, take_ge by (cbn; lia). rewrite defined_Some. cbn [mbind res_bind].
  by rewrite bytes_int_int_bytes.
Qed.

(** The free space, asked for. *)
Lemma space_is_free n d q :
  idle_km d -> memory_wf (main_memory d) ->
  space_available_no_mutex (S n) (with_km d q) = Ok (free_bytes (main_memory d), with_km d q).
Proof.
  intros Hd Hwf. pose proof (free_bytes_bounds _ Hwf). pose proof (wf_total _ Hwf).
  unfold space_available_no_mutex, receive_space. rewrite bind_M, km_send_string_lit by done.
  rewrite (km_request _ _ _ _ _ _ (serves_free_memory d Hd)), int_reply by done.
  rewrite compute_free_space_spec by done. by rewrite s32_id by (ints; lia).
Qed.

Lemma set_memory_same d : set_memory (main_memory d) d = d.
Proof. by destruct d. Qed.

(** The replies that end a MEM_ALLOC. *)
Lemma response_alloc interfere n d op str q :
  op = OP_MEMORY_ALLOCATED \/ op = OP_SEGMENT_SIZE_EXCEEDED \/ op = OP_NOT_ENOUGH_MEMORY ->
  sendable (lit str) ->
  response_km_mem_alloc (S n) interfere (S n)
    (set_km_socket (Some (mk_peer d (frame op (lit str)) true)) q)
  = Ok (bool_decide (op = OP_MEMORY_ALLOCATED), with_km d q).
Proof.
  intros Hop Hs. cbn [response_km_mem_alloc].
  destruct (km_replies n d op (lit str) [OP_MEMORY_ALLOCATED; OP_SEGMENT_SIZE_EXCEEDED;
    OP_NOT_ENOUGH_MEMORY; OP_COMPACTION_NEEDED] q) as (q1 & E1 & _ & E3);
    [unfold lit; by destruct (list_byte_of_string str)|done|by destruct Hop as [->|[->| ->]]|].
  rewrite bind_M, E1, op_of_value_op_value.
  destruct Hop as [->|[->| ->]]; by rewrite bind_M, E3.
Qed.

(** C17: MEM_ALLOC, when no compaction is needed: the answer of the system call is
    whether the segment fits, and Kernel Memory's tables have it exactly then. *)
Theorem allocate_memory_refines interfere n r d q :
  idle_km d -> mem_inv (main_memory d) ->
  in_u32 (sm_pid r) -> in_u32 (sm_segment_id r) -> 0 < sm_size r <= INT_MAX ->
  (sm_size r <= free_bytes (main_memory d) -> fits (main_memory d) (sm_size r)) ->
  exists ok m',
    allocate_memory (S n) interfere (S n) r (with_km d q) = Ok (ok, with_km (set_memory m' d) q) /\
    memory_wf m' /\
    if decide (sm_size r <= max_segment_size (main_memory d) /\
               sm_size r <= free_bytes (main_memory d))
    then ok = true /\
         contents m' = contents (main_memory d) ++ [(sm_segment_id r, sm_pid r, sm_size r)] /\
         free_bytes m' = free_bytes (main_memory d) - sm_size r
    else ok = false /\ m' = main_memory d.
Proof.
  intros Hd (Hwf & Hst & Hmax) Hp Hi Hs Hfit. pose proof (free_bytes_bounds _ Hwf) as Hfree.
  pose proof (wf_total _ Hwf) as Ht.
  unfold allocate_memory, has_space. rewrite bind_M, bind_M, space_is_free by done. run_M.
  rewrite u32_id by (ints; lia).
  destruct (decide (sm_size r <= free_bytes (main_memory d))) as [Hle|Hle]; cycle 1.
  { rewrite bool_decide_false by done. cbn [negb]. exists false, (main_memory d).
    rewrite ret_M, set_memory_same. case_decide; [naive_solver|done]. }
  rewrite bool_decide_true by done. cbn [negb]. specialize (Hfit Hle).
  destruct (decide (sm_size r <= max_segment_size (main_memory d))) as [Hm|Hm].
  - destruct (create_segment_fits (sm_segment_id r) (sm_pid r) (sm_size r) (main_memory d)
      (Some (mk_wire [] [] true)) Hwf Hst ltac:(lia) Hfit) as (st & h & _ & Hh & Hhs & _ & E).
    rewrite wire_send in E by apply serialize_packet_ne.
    pose proof (serves_create_segment r d
      (Holes.placed (main_memory d) h (sm_size r) (sm_pid r) (sm_segment_id r)) OP_MEMORY_ALLOCATED "Memory allocated" Hd Hp Hi
      ltac:(ints; lia) ltac:(ints; lia)) as Hserve.
    rewrite decide_False, s32_id in Hserve by (ints; lia).
    exists true. eexists. rewrite bind_M, (km_request _ _ _ _ _ _ (Hserve E)). cbn [negb].
    rewrite response_alloc by (auto || done). split; [done|].
    split; [apply take_and_place_wf; done || lia|].
    case_decide; [split_and!; [done|..]|naive_solver].
    + apply contents_placed.
    + apply placed_free; done || lia.
  - pose proof (serves_create_segment r d (main_memory d) OP_SEGMENT_SIZE_EXCEEDED
      "Requested size is larger than the max segment size" Hd Hp Hi
      ltac:(ints; lia) ltac:(ints; lia)) as Hserve.
    rewrite decide_True in Hserve by lia.
    exists false, (main_memory d).
    rewrite bind_M, (km_request _ _ _ _ _ _ (Hserve ltac:(done))). cbn [negb].
    rewrite response_alloc by (auto || done). case_decide; [naive_solver|done].
Qed.

(** The resumption routine is started; nothing else changes. *)
Lemma create_resumption_Ok q :
  exists q', create_resumption_routine_thread q = Ok (tt, q') /\ same_lists q q' /\
    km_socket q' = km_socket q /\ active_process_count q' = active_process_count q.
Proof.
  unfold create_resumption_routine_thread, is_compacting, set_is_resuming,
    increment_thread_counter. run_M.
  destruct (compaction_active _); [by exists q|]. run_M.
  destruct (resume_active _); run_M; eexists; by repeat split.
Qed.

(** MEM_FREE always succeeds: the segment is gone, its bytes are free, and
    nothing but the routines' flags changes in the scheduler. *)
Theorem free_memory_refines n r d q :
  idle_km d -> memory_wf (main_memory d) ->
  in_u32 (sm_pid r) -> in_u32 (sm_segment_id r) -> in_u32 (sm_size r) ->
  exists m' q',
    free_memory (S n) r (with_km d q) = Ok (true, q') /\
    same_lists q q' /\ km_socket q' = Some (mk_peer (set_memory m' d) [] true) /\
    memory_wf m' /\
    match l_find (is_segment (sm_segment_id r) (sm_pid r)) (segments (main_memory d)) with
    | Some s =>
        segments m' = l_remove_first (is_segment (sm_segment_id r) (sm_pid r))
                        (segments (main_memory d)) /\
        free_bytes m' = free_bytes (main_memory d) + seg_size s
    | None => m' = main_memory d
    end.
Proof.
  intros Hd Hwf Hp Hi Hs.
  assert (exists m', remove_segment (sm_segment_id r) (sm_pid r) (main_memory d) = Ok m' /\
    memory_wf m' /\
    match l_find (is_segment (sm_segment_id r) (sm_pid r)) (segments (main_memory d)) with
    | Some s =>
        segments m' = l_remove_first (is_segment (sm_segment_id r) (sm_pid r))
                        (segments (main_memory d)) /\
        free_bytes m' = free_bytes (main_memory d) + seg_size s
    | None => m' = main_memory d
    end) as (m' & E & Hwf' & Hm').
  { destruct (l_find _ _) as [s|] eqn:E.
    - destruct (remove_segment_found _ _ _ s Hwf E) as (m' & ? & ? & ? & ? & ?). by exists m'.
    - exists (main_memory d). by rewrite remove_segment_absent. }
  exists m'. unfold free_memory.
  rewrite bind_M, (km_request _ _ _ _ _ _ (serves_delete_segment r d m' Hd Hp Hi Hs E)).
  cbn [negb]. unfold response_km_mem_free.
  destruct (km_replies n (set_memory m' d) OP_MEMORY_FREED (lit "Memory freed")
    [OP_MEMORY_FREED] q) as (q1 & E1 & _ & E3); [done..|].
  rewrite bind_M, bind_M, E1, decide_False by done. rewrite bind_M, E3. run_M.
  destruct (create_resumption_Ok (with_km (set_memory m' d) q)) as (q' & E4 & Hl & Hk & _).
  exists q'. by rewrite E4.
Qed.

(** ** The life of a process *)

(** The script of a new process: [path] is its NUL-terminated name. *)
Definition script_of d (path : text) (pid : Z) : option t_process :=
  init_process fs pid path (scripts_basepath d).

Lemma serves_new_process d path pid :
  idle_km d -> x00 ∉ path -> in_u32 pid ->
  sendable (elements [path ++ [x00]; int_bytes pid]) ->
  serves d OP_NEW_PROCESS (elements [path ++ [x00]; int_bytes pid])
    (set_processes (processes d ++ [script_of d path pid]) d)
    (frame OP_PROCESS_STARTED (lit "Process created")).
Proof.
  intros Hd Hz Hp Hs. split; [|done]. rewrite step_handler. unfold handle_new_process.
  cbn [asked set_sched socket_scheduler].
  rewrite <- (app_nil_r (elements _)) at 2. rewrite receive_packet_wire; [|..|done]; cycle 1.
  { apply elements_sendable; [|done]. repeat constructor; [by destruct path|done]. }
  cbn [mbind res_bind].
  change (l_get (written <$> [path ++ [x00]; int_bytes pid]) 0)
    with (Some (written (path ++ [x00]))).
  change (l_get (written <$> [path ++ [x00]; int_bytes pid]) 1)
    with (Some (written (int_bytes pid))).
  cbn [mbind res_bind deref]. rewrite (read_u32_at _ 0 pid) by done. cbn [mbind res_bind].
  unfold written. rewrite defined_Some. cbn [mbind res_bind].
  unfold str_read. rewrite c_str_app by done. cbn [at_index mbind res_bind].
  unfold asked. fold (script_of d path pid).
  change (set_processes ?l (set_sched ?s (set_sched _ d)))
    with (set_sched s (set_processes l d)).
  by rewrite answer_wire.
Qed.

(** The scheduler tells Kernel Memory about a new process. *)
Lemma notify_new_tells n d path pid q :
  idle_km d -> x00 ∉ path -> in_u32 pid ->
  sendable (elements [path ++ [x00]; int_bytes pid]) ->
  notify_new_process (S n) (path ++ [x00]) pid (with_km d q)
  = Ok (true, with_km (set_processes (processes d ++ [script_of d path pid]) d) q).
Proof.
  intros Hd Hz Hp Hs. unfold notify_new_process, packet_append_string, str_read.
  rewrite c_str_app by done. cbn [at_index mbind res_bind].
  rewrite bind_M, lift_M.
  set (p := packet_append _ _).
  assert (send_packet p = send_buffer (T := peer km) OP_NEW_PROCESS
    (elements [path ++ [x00]; int_bytes pid])) as ->.
  { unfold p, send_packet, send_buffer, packet_append, create_packet, elements.
    cbn [op_code stream fmap list_fmap concat app]. by rewrite app_nil_r. }
  rewrite bind_M, (km_request _ _ _ _ _ _ (serves_new_process d path pid Hd Hz Hp Hs)).
  cbn [negb].
  destruct (km_replies n (set_processes (processes d ++ [script_of d path pid]) d)
    OP_PROCESS_STARTED (lit "Process created") [OP_PROCESS_STARTED] q)
    as (q1 & E1 & _ & E3); [done..|].
  by rewrite bind_M, E1, decide_True, bind_M, E3 by done.
Qed.

(** The priority is one of the ready queue's. *)
Definition valid_priority (prio0 : Z) q : Prop :=
  multilevel_queue (ready q) = true -> 0 <= prio0 < queue_count (ready q).

(** A process that is NEW, and whose priority is valid, becomes READY. *)
Lemma new_becomes_ready fuel interfere pid pcb q :
  pcbs q !! pid = Some pcb -> ready_wf (ready q) -> l_size (ready_pids (ready q)) < INT_MAX ->
  valid_priority (priority pcb) q ->
  exists r',
    (valid ← check_priority_valid pid;
     if negb valid then transition_to_exit fuel interfere pid PER_INVALID_PRIORITY
     else _ ← update_pcb pid (set_state PS_READY); transition_to_ready pid) q
    = Ok (tt, set_ready (fun _ => r') (set_pcbs (alter (set_state PS_READY) pid) q)).
Proof.
  intros Hpcb Hwf Hfew Hprio.
  assert (check_priority_valid pid q = Ok (true, q)) as Ev.
  { unfold check_priority_valid. run_M. destruct (multilevel_queue (ready q)) eqn:Hm; [|done].
    cbn [negb]. unfold get_priority_pcb. run_M. rewrite (get_pcb_alive _ _ _ Hpcb). run_M.
    rewrite bool_decide_true; [done|]. by apply Hprio. }
  rewrite bind_M, Ev. cbn [negb]. rewrite bind_M, (update_pcb_alive _ _ _ _ Hpcb).
  unfold transition_to_ready, get_priority_pcb. run_M.
  set (q1 := set_pcbs _ q).
  assert (pcbs q1 !! pid = Some (set_state PS_READY pcb)) as Hpcb1
    by (cbn; by rewrite lookup_alter_eq, Hpcb).
  rewrite (get_pcb_alive _ _ _ Hpcb1). run_M. unfold with_ready. run_M.
  change (ready q1) with (ready q).
  destruct (to_ready_spec (ready q) pid (priority pcb)) as (r' & E & _); [done..|].
  exists r'. change (priority (set_state PS_READY pcb)) with (priority pcb).
  rewrite lift_M, E. by run_M.
Qed.

(** [transition_take_new]: the process is known in both. *)
Lemma take_new_created interfere n d path content prio0 q :
  idle_km d -> x00 ∉ path -> sendable (elements [path ++ [x00]; int_bytes (next_pid q)]) ->
  fs (scripts_basepath d ++ txt "/" ++ path) = Some content -> in_u32 (next_pid q) ->
  transition_take_new (S n) interfere (path ++ [x00]) prio0 (with_km d q)
  = Ok (Some (next_pid q), with_km
      (set_processes (processes d ++
         [Some (mk_process (next_pid q) path (file_lines content) zero_registers)]) d)
      (set_process_count (fun n => s32 (n + 1))
        (set_pcbs (insert (next_pid q) (mk_pcb prio0 [prio0] 0 PS_NEW 0 None))
          (set_next_pid (u32 (next_pid q + 1)) q)))).
Proof.
  intros Hd Hz Hs Hf Hp. unfold transition_take_new, create_pcb, increment_process_count. run_M.
  change (next_pid (with_km d q)) with (next_pid q).
  match goal with |- context [notify_new_process _ _ _ ?x] => set (x0 := x) end.
  set (q1 := set_process_count _ _) at 1.
  change x0 with (with_km d q1). rewrite notify_new_tells by done.
  run_M. unfold script_of, init_process. by rewrite Hf.
Qed.

(** C15: A new process is registered in Kernel Memory with the script's lines and
    zero registers, and is READY in the scheduler; no other process changes. *)
Theorem process_created interfere n d path content prio0 q :
  rely interfere ->
  idle_km d -> x00 ∉ path -> sendable (elements [path ++ [x00]; int_bytes (next_pid q)]) ->
  fs (scripts_basepath d ++ txt "/" ++ path) = Some content ->
  sched_wf q -> next_pid q < INT_MAX -> valid_priority prio0 q ->
  let pid := next_pid q in
  let process := mk_process pid path (file_lines content) zero_registers in
  exists q',
    transition_new_ready (S n) interfere (path ++ [x00]) prio0 (with_km d q) = Ok (tt, q') /\
    km_socket q' = Some (mk_peer (set_processes (processes d ++ [Some process]) d) [] true) /\
    sched_wf q' /\ state_of q' pid = Some PS_READY /\
    forall x, x ≠ pid -> state_of q' x = state_of q x.
Proof.
  intros Hr Hd Hz Hs Hf Hwf Hlt Hprio pid process.
  pose proof (sw_few _ Hwf) as Hfew. assert (in_u32 (next_pid q)) as Hpid by (ints; lia).
  pose proof (take_new_created interfere n d path content prio0 q Hd Hz Hs Hf Hpid) as E1.
  match type of E1 with _ = Ok (_, ?x) => set (q1 := x) in E1 end.
  destruct (new_becomes_ready (S n) interfere pid (mk_pcb prio0 [prio0] 0 PS_NEW 0 None) q1)
    as (r' & E2); [apply lookup_insert_eq|apply Hwf| |done|].
  { pose proof (pids_below q PS_READY Hwf). cbn in *. lia. }
  match type of E2 with _ = Ok (_, ?x) => set (q' := x) in E2 end.
  assert (transition_new_ready (S n) interfere (path ++ [x00]) prio0 (with_km d q) = Ok (tt, q'))
    as E by (unfold transition_new_ready; by rewrite bind_M, E1).
  exists q'. split_and!; [done..| | |].
  - refine (transition_new_ready_wf (S n) interfere _ prio0 (with_km d q) tt q' Hr _ Hlt E).
    by apply (same_lists_wf q).
  - unfold state_of. cbn. by rewrite lookup_alter_eq, lookup_insert_eq.
  - intros x Hx. unfold state_of. cbn.
    by rewrite lookup_alter_ne, lookup_insert_ne by (unfold pid in *; congruence).
Qed.

(** ** A process ends *)

Lemma find_process_pid l pid process : find_process l pid = Ok (Some process) -> p_pid process = pid.
Proof.
  induction l as [|[y|] l IH]; [done| |done]. cbn. case_decide; [|done]. by intros [= <-].
Qed.

Lemma asked_pid pid d :
  in_u32 pid ->
  receive_pid (asked (int_bytes pid) d) = Ok (pid, set_sched (Some (mk_wire [] [] true)) d).
Proof.
  intros Hp. unfold receive_pid. rewrite asked_buffer by apply int_bytes_element.
  cbn [mbind res_bind deref]. by rewrite (read_u32_at _ 0 pid) by done.
Qed.

Lemma serves_process_size pid process d :
  idle_km d -> in_u32 pid -> find_process (processes d) pid = Ok (Some process) ->
  serves d OP_REQUEST_PROCESS_SIZE (int_bytes pid) d
    (frame OP_PROCESS_SIZE (int_bytes (compute_process_size pid (main_memory d)))).
Proof.
  intros Hd Hp Hf. split; [|done]. rewrite step_handler. unfold handle_request_process_size.
  rewrite asked_pid by done. cbn [mbind res_bind].
  change (processes (set_sched _ d)) with (processes d). rewrite Hf.
  cbn [mbind res_bind]. rewrite (find_process_pid _ _ _ Hf).
  cbn [set_sched socket_scheduler main_memory].
  unfold send_buffer. by rewrite wire_send by apply serialize_packet_ne.
Qed.

(** OP_END_PROCESS is not answered. *)
Lemma serves_end_process pid process d m' :
  idle_km d -> in_u32 pid -> find_process (processes d) pid = Ok (Some process) ->
  remove_process_segments (base.filter (fun s => seg_pid s = pid) (segments (main_memory d)))
    pid (main_memory d) = Ok m' ->
  serves d OP_END_PROCESS (int_bytes pid)
    (set_memory m' (set_processes (remove_process pid (processes d)) d)) [].
Proof.
  intros Hd Hp Hf Hm. split; [|done]. rewrite step_handler. unfold handle_end_process.
  rewrite asked_pid by done. cbn [mbind res_bind].
  change (processes (set_sched _ d)) with (processes d).
  change (main_memory (set_sched _ d)) with (main_memory d). rewrite Hf.
  cbn [mbind res_bind]. rewrite (find_process_pid _ _ _ Hf). unfold filter_process_segments.
  rewrite u32_id by (unfold in_u32 in Hp; lia). by rewrite Hm.
Qed.

(** The size of a process, asked for. *)
Lemma size_is_told n pid process d q :
  idle_km d -> in_u32 pid -> find_process (processes d) pid = Ok (Some process) ->
  process_size (S n) pid (with_km d q)
  = Ok (s32 (compute_process_size pid (main_memory d)), with_km d q).
Proof.
  intros Hd Hp Hf. unfold process_size, process_size_no_mutex, receive_size.
  rewrite bind_M, (km_request _ _ _ _ _ _ (serves_process_size _ _ _ Hd Hp Hf)).
  by rewrite (int_reply n d OP_PROCESS_SIZE).
Qed.

(** C16: A process both modules know that ends while others remain, no thread holding
    an instance of it, for any reason but INVALID_PRIORITY (where nobody tells
    Kernel Memory: [invalid_priority_leaks]) and SYSTEM_SHUTDOWN: if Kernel Memory
    is between two requests, it forgets the process and gets back every byte the
    process had, no other segment changes, and the process is gone from the
    scheduler. *)
Theorem process_ended interfere n d q pid pcb process reason :
  idle_km d -> memory_wf (main_memory d) -> in_u32 pid ->
  pcbs q !! pid = Some pcb -> active_instances pcb = 0 ->
  find_process (processes d) pid = Ok (Some process) -> active_process_count q ≠ 1 ->
  reason ≠ PER_SYSTEM_SHUTDOWN -> reason ≠ PER_INVALID_PRIORITY ->
  let its := base.filter (fun s => seg_pid s = pid) (segments (main_memory d)) in
  exists m' q',
    transition_to_exit (S n) interfere pid reason (with_km d q) = Ok (tt, q') /\
    pcbs q' = delete pid (pcbs q) /\
    km_socket q' = Some (mk_peer
      (set_memory m' (set_processes (remove_process pid (processes d)) d)) [] true) /\
    memory_wf m' /\
    segments m' = base.filter (fun s => seg_pid s ≠ pid) (segments (main_memory d)) /\
    free_bytes m' = free_bytes (main_memory d) + sum_with seg_size its.
Proof.
  intros Hd Hwf Hp Hpcb Hact Hf Hcount Hr1 Hr2 its.
  destruct (remove_all_segments pid (main_memory d) Hwf) as (m' & E & Hwf' & Hs & Hfree).
  set (d' := set_memory m' (set_processes (remove_process pid (processes d)) d)).
  set (size := s32 (compute_process_size pid (main_memory d))).
  assert (exists q1, when (bool_decide (0 < size)) create_resumption_routine_thread (with_km d' q)
    = Ok (tt, q1) /\ same_lists q q1 /\ km_socket q1 = Some (mk_peer d' [] true) /\
    active_process_count q1 = active_process_count q) as (q1 & E1 & Hl & Hk & Hc).
  { destruct (bool_decide _); cbn [when]; [|by exists (with_km d' q)].
    by apply create_resumption_Ok. }
  exists m', (set_process_count (fun n => s32 (n - 1)) (set_pcbs (delete pid) q1)).
  destruct Hl as (Hpcbs & _). split_and!; [|cbn; by rewrite Hpcbs|done..].
  unfold transition_to_exit, wait_zero_active_instances, wait. run_M.
  rewrite (get_pcb_alive pid (with_km d q) pcb Hpcb). run_M.
  assert (no_active_instances pid (with_km d q) = true) as ->
    by (unfold no_active_instances; cbn; rewrite Hpcb; by apply bool_decide_true).
  rewrite decide_True by done. run_M. rewrite (size_is_told _ _ _ _ _ Hd Hp Hf).
  unfold notify_terminate_process. run_M.
  rewrite (km_request _ _ _ _ _ _ (serves_end_process _ _ _ _ Hd Hp Hf E)). run_M.
  cbn [andb]. fold size d'. change (set_km_socket _ q) with (with_km d' q). rewrite E1.
  unfold destroy_pcb, decrement_process_count. run_M.
  rewrite (get_pcb_alive pid q1 pcb) by by rewrite Hpcbs. run_M.
  cbn [active_process_count set_pcbs]. rewrite Hc, bool_decide_false by done. by run_M.
Qed.

(** A new process with a priority past the last level is destroyed at once, but
    nobody tells Kernel Memory: it stays registered there for ever. *)
Theorem invalid_priority_leaks interfere n d path content prio0 q :
  idle_km d -> x00 ∉ path -> sendable (elements [path ++ [x00]; int_bytes (next_pid q)]) ->
  fs (scripts_basepath d ++ txt "/" ++ path) = Some content ->
  sched_wf q -> 0 < active_process_count q < INT_MAX ->
  multilevel_queue (ready q) = true -> queue_count (ready q) <= prio0 ->
  let pid := next_pid q in
  let process := mk_process pid path (file_lines content) zero_registers in
  exists q',
    transition_new_ready (S n) interfere (path ++ [x00]) prio0 (with_km d q) = Ok (tt, q') /\
    pcbs q' = pcbs q /\
    km_socket q' = Some (mk_peer (set_processes (processes d ++ [Some process]) d) [] true).
Proof.
  intros Hd Hz Hs Hf Hwf Hcount Hm Hprio pid process.
  pose proof (sw_few _ Hwf) as Hfew. assert (in_u32 (next_pid q)) as Hpid by (ints; lia).
  pose proof (take_new_created interfere n d path content prio0 q Hd Hz Hs Hf Hpid) as E1.
  match type of E1 with _ = Ok (_, ?x) => set (q1 := x) in E1 end.
  set (pcb := mk_pcb prio0 [prio0] 0 PS_NEW 0 None).
  assert (pcbs q1 !! next_pid q = Some pcb) as Hpcb by apply lookup_insert_eq.
  eexists. unfold transition_new_ready. rewrite bind_M, E1. cbv beta iota.
  assert (check_priority_valid (next_pid q) q1 = Ok (false, q1)) as Ev.
  { unfold check_priority_valid. run_M. change (multilevel_queue (ready q1))
      with (multilevel_queue (ready q)). rewrite Hm. cbn [negb].
    unfold get_priority_pcb. run_M. rewrite (get_pcb_alive _ _ _ Hpcb). run_M.
    rewrite bool_decide_false; [done|]. cbn. lia. }
  rewrite bind_M, Ev. cbn [negb]. unfold transition_to_exit, wait_zero_active_instances, wait.
  run_M. rewrite (get_pcb_alive _ _ _ Hpcb). run_M.
  assert (no_active_instances (next_pid q) q1 = true) as ->
    by (unfold no_active_instances; by rewrite Hpcb).
  rewrite decide_False by tauto. run_M. unfold destroy_pcb, decrement_process_count. run_M.
  rewrite (get_pcb_alive _ _ _ Hpcb). run_M.
  change (active_process_count (set_pcbs _ q1)) with (s32 (active_process_count q + 1)).
  rewrite bool_decide_false by (rewrite s32_id by (ints; lia); lia). run_M.
  split; [done|]. split; [|done].
  assert (pcbs q !! pid = None) as Hnone.
  { apply eq_None_not_Some. intros Ha. pose proof (sw_pids _ Hwf pid Ha). subst pid. lia. }
  cbn. by rewrite delete_insert_id.
Qed.
End joined.

(** ** Concrete runs *)

Section demo.

(** One script, and a Kernel Memory that knows process 0. *)
Definition demo_fs : file_system := fun path =>
  if decide (path = txt "scripts/a.prc") then Some (txt "NOOP" ++ x0a :: txt "EXIT") else None.

Definition demo_process : t_process :=
  mk_process 0 (txt "a.prc") [txt "NOOP"; txt "EXIT"] zero_registers.

Definition demo_km : t_scheduler_data wire wire wire :=
  mk_scheduler_data None [Some demo_process] (txt "scripts") []
    (mk_main_memory 0 100 64 [mk_segment 0 0 0 30; mk_segment 0 2 50 30]
       [mk_hole 30 20; mk_hole 80 20] 0) None.

#[local] Instance demo_server : Server (t_scheduler_data wire wire wire) :=
  scheduler_server demo_fs.

(** Process 0 runs. *)
Definition demo_pcb : t_pcb := mk_pcb 1 [1] 0 PS_EXEC 0 None.
Definition demo_sched : t_queues (peer (t_scheduler_data wire wire wire)) :=
  set_process_count (fun _ => 2) (set_next_pid 2 (set_pcbs (fun _ => {[0 := demo_pcb]})
    (init_queues SA_MULTILEVEL_QUEUES [SA_RR; SA_FIFO] 10 true None 1000))).
Definition fresh_sched : t_queues (peer (t_scheduler_data wire wire wire)) :=
  set_process_count (fun _ => 2) (init_queues SA_MULTILEVEL_QUEUES [SA_RR; SA_FIFO] 10 true None 1000).

Lemma demo_memory_wf : memory_wf (main_memory demo_km).
Proof.
  constructor; cbn.
  - ints. lia.
  - exists [(0, 30); (30, 20); (50, 30); (80, 20)]. split.
    + unfold extents. cbn. unfold seg_extent, hole_extent. cbn. solve_Permutation.
    + cbn. repeat split; lia.
  - intros h1 h2. rewrite !elem_of_cons. intros. set_unfold.
    repeat match goal with H : _ \/ _ |- _ => destruct H end; subst; cbn; (lia || done).
Qed.

Lemma fresh_sched_wf : sched_wf fresh_sched.
Proof. apply (same_lists_wf (init_queues SA_MULTILEVEL_QUEUES [SA_RR; SA_FIFO] 10 true None 1000));
  [done|apply init_queues_wf]. Qed.

Lemma allocate_memory_refines_witness :
  let r := mk_syscall_memory 0 1 15 in
  exists ok m',
    allocate_memory 5 id 5 r (with_km demo_km demo_sched)
    = Ok (ok, with_km (set_memory m' demo_km) demo_sched) /\
    memory_wf m' /\
    if decide (sm_size r <= max_segment_size (main_memory demo_km) /\
               sm_size r <= free_bytes (main_memory demo_km))
    then ok = true /\
         contents m' = contents (main_memory demo_km) ++ [(sm_segment_id r, sm_pid r, sm_size r)] /\
         free_bytes m' = free_bytes (main_memory demo_km) - sm_size r
    else ok = false /\ m' = main_memory demo_km.
Proof.
  intros r. pose proof (allocate_memory_refines demo_fs id 4 r demo_km demo_sched) as H.
  apply H; clear H.
  all: try (unfold r; ints; cbn; lia).
  - reflexivity.
  - split; [exact demo_memory_wf|]. split; [by eexists|ints; cbn; lia].
  - intros _. exists (mk_hole 30 20). split; [by left|cbn; lia].
Defined.

Lemma free_memory_refines_witness :
  let r := mk_syscall_memory 0 0 0 in
  exists m' q',
    free_memory 5 r (with_km demo_km demo_sched) = Ok (true, q') /\
    same_lists demo_sched q' /\ km_socket q' = Some (mk_peer (set_memory m' demo_km) [] true) /\
    memory_wf m' /\
    match l_find (is_segment (sm_segment_id r) (sm_pid r)) (segments (main_memory demo_km)) with
    | Some s =>
        segments m' = l_remove_first (is_segment (sm_segment_id r) (sm_pid r))
                        (segments (main_memory demo_km)) /\
        free_bytes m' = free_bytes (main_memory demo_km) + seg_size s
    | None => m' = main_memory demo_km
    end.
Proof.
  intros r. pose proof (free_memory_refines demo_fs 4 r demo_km demo_sched) as H;
    apply H; clear H;
    [done|exact demo_memory_wf|ints; cbn; lia|ints; cbn; lia|ints; cbn; lia].
Defined.

Lemma process_created_witness :
  let process := mk_process 0 (txt "a.prc") (file_lines (txt "NOOP" ++ x0a :: txt "EXIT"))
    zero_registers in
  exists q',
    transition_new_ready 5 id (txt "a.prc" ++ [x00]) 1 (with_km demo_km fresh_sched) = Ok (tt, q') /\
    km_socket q' = Some (mk_peer (set_processes ([Some demo_process; Some process]) demo_km) [] true)
    /\ sched_wf q' /\ state_of q' 0 = Some PS_READY /\
    forall x, x ≠ 0 -> state_of q' x = state_of fresh_sched x.
Proof.
  intros process.
  pose proof (process_created demo_fs id 4 demo_km (txt "a.prc")
    (txt "NOOP" ++ x0a :: txt "EXIT") 1 fresh_sched) as H;
    apply H; clear H;
    [apply rely_id|done| |done|vm_compute; reflexivity|exact fresh_sched_wf|done
    |by intros _; vm_compute].
  apply (bool_decide_unpack _). vm_compute. exact I.
Defined.

Lemma process_ended_witness :
  let its := base.filter (fun s => seg_pid s = 0) (segments (main_memory demo_km)) in
  exists m' q',
    transition_to_exit 5 id 0 PER_EXIT_INSTRUCTION (with_km demo_km demo_sched) = Ok (tt, q') /\
    pcbs q' = delete 0 (pcbs demo_sched) /\
    km_socket q' = Some (mk_peer
      (set_memory m' (set_processes (remove_process 0 [Some demo_process]) demo_km)) [] true) /\
    memory_wf m' /\
    segments m' = base.filter (fun s => seg_pid s ≠ 0) (segments (main_memory demo_km)) /\
    free_bytes m' = free_bytes (main_memory demo_km) + sum_with seg_size its.
Proof.
  intros its.
  pose proof (process_ended demo_fs id 4 demo_km demo_sched 0 demo_pcb demo_process
    PER_EXIT_INSTRUCTION) as H;
    apply H; clear H;
    [done|exact demo_memory_wf|ints; lia|reflexivity|done|reflexivity|done|done|done].
Defined.

Lemma invalid_priority_leaks_witness :
  let process := mk_process 0 (txt "a.prc") (file_lines (txt "NOOP" ++ x0a :: txt "EXIT"))
    zero_registers in
  exists q',
    transition_new_ready 5 id (txt "a.prc" ++ [x00]) 7 (with_km demo_km fresh_sched) = Ok (tt, q') /\
    pcbs q' = pcbs fresh_sched /\
    km_socket q' = Some (mk_peer (set_processes [Some demo_process; Some process] demo_km) [] true).
Proof.
  intros process.
  pose proof (invalid_priority_leaks demo_fs id 4 demo_km (txt "a.prc")
    (txt "NOOP" ++ x0a :: txt "EXIT") 7 fresh_sched) as H;
    apply H; clear H;
    [done| |done|vm_compute; reflexivity|exact fresh_sched_wf|cbn; ints; lia|done|by vm_compute].
  apply (bool_decide_unpack _). vm_compute. exact I.
Defined.
End demo.
