(* ===== verification/SchedCompact.v ===== *)
(** * SchedCompact: a MEM_ALLOC that needs a compaction

    The longest conversation between the scheduler and Kernel Memory: the free
    space is asked for, the segment requested, the compaction announced,
    allowed, done, and the segment confirmed.  Both ends run on wires, each on
    what the other one sends. *)

From Stdlib Require Import Strings.Byte Strings.String.
From S2P Require Import Prelude Bytes Msg Text File Structs MainMemory Compaction Holes.
From S2P Require Import Segments Peer MemoryStick Sticks SwapModule KmSwap KmProcess.
From S2P Require Import SchedulerListener.
From S2P Require Import SchedState Pcb ReadyQueue ProcessLists KmReply Queues QueuesWf Routines.
From S2P Require Import SchedKm.

(** What the other threads do while this one waits, holding the mutex of the
    socket: they leave the conversation alone, the running routine ends, no CPU
    starts to run a process, and nobody shuts the routines down. *)
Record cooperative {U} (interfere : t_queues U -> t_queues U) : Prop := {
  co_socket q : km_socket (interfere q) = km_socket q;
  co_running q : SchedState.terminate_routines (routines (interfere q))
                 = SchedState.terminate_routines (routines q);
  co_routine q : routine_active (routines (interfere q)) = false;
  co_exec q : exec_only_syscalls q = true -> exec_only_syscalls (interfere q) = true }.

Section scheduler.
Context (interfere : t_queues wire -> t_queues wire) (n : nat).
Context (Hco : cooperative interfere).
Implicit Types (q : t_queues wire) (rest out : list byte).

(** The scheduler, with [rest] to read and [out] sent. *)
Definition at_km rest out q : t_queues wire := set_km_socket (Some (mk_wire rest out true)) q.

Lemma say op payload rest out q :
  km_send (send_buffer op payload) (at_km rest out q)
  = Ok (true, at_km rest (out ++ frame op payload) q).
Proof.
  unfold km_send. run_M. unfold send_buffer. cbn [km_socket at_km set_km_socket].
  rewrite wire_send by apply serialize_packet_ne. by run_M.
Qed.

(** An expected answer with a text. *)
Lemma hear_text op str expected rest out q :
  is_expected (op_value op) expected = true -> sendable (lit str) ->
  exists q1, receive_km_opcode (S n) expected (at_km (frame op (lit str) ++ rest) out q)
      = Ok (op_value op, q1) /\
    km_skip_string q1 = Ok (tt, at_km rest out q).
Proof.
  intros He Hs. eexists. split.
  - unfold receive_km_opcode. cbn [receive_km_opcode_loop]. unfold km_receive. run_M.
    cbn [km_socket at_km set_km_socket]. rewrite lift_M, receive_op_code_frame. run_M.
    by rewrite He.
  - unfold km_skip_string, km_receive. run_M. unfold receive_string.
    cbn [km_socket set_km_socket]. rewrite lift_M, receive_buffer_wire;
      [by run_M|unfold lit; by destruct (list_byte_of_string str)|done].
Qed.

(** The answer to a question about sizes. *)
Lemma hear_int op z rest out q :
  op ≠ OP_CODE_ERROR ->
  receive_int_reply (S n) op (at_km (frame op (int_bytes z) ++ rest) out q)
  = Ok (s32 z, at_km rest out q).
Proof.
  intros Hop. unfold receive_int_reply, receive_km_opcode. cbn [receive_km_opcode_loop].
  unfold km_receive. run_M. cbn [km_socket at_km set_km_socket].
  rewrite lift_M, receive_op_code_frame. run_M. cbn [is_expected existsb].
  rewrite bool_decide_true by done. cbn [orb]. run_M.
  rewrite decide_False by by intros ?%op_value_inj. run_M. cbn [km_socket set_km_socket].
  rewrite receive_buffer_wire by done. cbn [mbind res_bind]. rewrite lift_M. run_M.
  rewrite lift_M. cbn [deref mbind res_bind]. unfold read_int, read_bytes. rewrite decide_True by (cbn; lia).
  rewrite drop_0, take_ge by (cbn; lia). rewrite defined_Some. cbn [mbind res_bind].
  by rewrite bytes_int_int_bytes.
Qed.

(** A wait ends, and the conversation is where it was. *)
Lemma wait_cooperative cond q :
  cond (interfere q) = true ->
  exists q', wait interfere cond q = Ok (tt, q') /\ km_socket q' = km_socket q /\
    SchedState.terminate_routines (routines q') = SchedState.terminate_routines (routines q) /\
    (exec_only_syscalls q = true -> exec_only_syscalls q' = true).
Proof.
  intros Hc. unfold wait. destruct (cond q); [by exists q|]. rewrite Hc.
  exists (interfere q). split; [done|]. split_and!; apply Hco.
Qed.

(** The routine allows the compaction and hears that it is done. *)
Lemma routine_compacts rest out q :
  km_socket q = Some (mk_wire (frame OP_COMPACTION_DONE (lit "Compaction finished") ++ rest)
                        out true) ->
  compaction_active (routines q) = false ->
  SchedState.terminate_routines (routines q) = false -> exec_only_syscalls q = true ->
  exists q', routine_compaction (S n) interfere q = Ok (tt, q') /\
    km_socket q' = Some (mk_wire rest (out ++ frame OP_CAN_COMPACT (lit "Start compaction")) true).
Proof.
  intros Hk Hc Ht Hx. unfold routine_compaction, set_is_compacting. run_M. rewrite Hc.
  unfold as_routine, routine_enter. set (q1 := set_routines _ q). run_M.
  destruct (wait_cooperative (fun q => negb (routine_active (routines q))) q1)
    as (q2 & E2 & K2 & T2 & X2); [by rewrite (co_routine _ Hco)|].
  rewrite E2. run_M.
  assert (SchedState.terminate_routines (routines (set_routines (set_routine_active true) q2))
    = false) as -> by (cbn; by rewrite T2).
  cbn [negb when]. unfold lock_all, lock_queue_ready, lock_threads_suspended. run_M.
  unfold wait_queue_exec_empty_with_syscalls. run_M.
  match goal with |- context [exec_only_syscalls ?x] =>
    assert (exec_only_syscalls x = true) as -> by exact (X2 Hx) end.
  run_M. match goal with |- context [compaction (S n) ?x] => set (q4 := x) end.
  assert (km_socket q4 = km_socket q2) as K4 by done. clearbody q4.
  assert (q4 = at_km (frame OP_COMPACTION_DONE (lit "Compaction finished") ++ rest) out q4) as ->.
  { unfold at_km. rewrite <- Hk. change (km_socket q) with (km_socket q1). rewrite <- K2.
    rewrite <- K4. by destruct q4. }
  unfold compaction. rewrite bind_M, km_send_string_lit, say by done. cbn [negb].
  unfold compaction_finished.
  destruct (hear_text OP_COMPACTION_DONE "Compaction finished" [OP_COMPACTION_DONE] rest
    (out ++ frame OP_CAN_COMPACT (lit "Start compaction")) q4) as (q5 & E5 & E6); [done..|].
  run_M. rewrite E5. rewrite decide_False by done. run_M. rewrite E6. run_M.
  unfold create_thread_unlock_queue_ready, increment_thread_counter, routine_leave,
    create_resumption_routine_thread, is_compacting, set_is_resuming. run_M.
  match goal with |- context [if compaction_active ?r then _ else _] =>
    change (compaction_active r) with false end.
  run_M. match goal with |- context [if resume_active ?r then _ else _] =>
    destruct (resume_active r) end; run_M; by eexists.
Qed.

(** MEM_ALLOC hears that a compaction is needed, and then that it succeeded. *)
Lemma alloc_compacts k r free out q :
  0 < sm_size r <= free -> free <= INT_MAX ->
  compaction_active (routines q) = false ->
  SchedState.terminate_routines (routines q) = false -> exec_only_syscalls q = true ->
  exists q',
    allocate_memory (S n) interfere (S (S k)) r
      (at_km (frame OP_FREE_MEMORY (int_bytes free)
        ++ frame OP_COMPACTION_NEEDED (lit "Memory needs to be compacted")
        ++ frame OP_COMPACTION_DONE (lit "Compaction finished")
        ++ frame OP_MEMORY_ALLOCATED (lit "Memory allocated")) out q) = Ok (true, q') /\
    km_socket q' = Some (mk_wire [] (out
      ++ frame OP_REQUEST_FREE_MEMORY (lit "Requesting the available space")
      ++ frame OP_CREATE_SEGMENT (syscall_memory_bytes r)
      ++ frame OP_CAN_COMPACT (lit "Start compaction")) true).
Proof.
  intros Hs Hf Hc Ht Hx. unfold allocate_memory, has_space, space_available_no_mutex, receive_space.
  rewrite bind_M, bind_M, bind_M, km_send_string_lit, say, hear_int by done. run_M.
  rewrite s32_id, u32_id, bool_decide_true by (ints; lia). cbn [negb].
  rewrite bind_M, say. cbn [negb response_km_mem_alloc]. run_M.
  match goal with |- context [at_km ?a ?b q] =>
    destruct (hear_text OP_COMPACTION_NEEDED "Memory needs to be compacted"
      [OP_MEMORY_ALLOCATED; OP_SEGMENT_SIZE_EXCEEDED; OP_NOT_ENOUGH_MEMORY;
       OP_COMPACTION_NEEDED]
      (frame OP_COMPACTION_DONE (lit "Compaction finished")
       ++ frame OP_MEMORY_ALLOCATED (lit "Memory allocated")) b q)
      as (q1 & E1 & E2); [done..|] end.
  rewrite E1, op_of_value_op_value. run_M. rewrite E2.
  match goal with |- context [at_km ?a ?b q] =>
    destruct (routine_compacts (frame OP_MEMORY_ALLOCATED (lit "Memory allocated")) b
      (at_km a b q)) as (q2 & E3 & K); [done..|] end.
  rewrite bind_M, E3.
  match type of K with _ = Some (mk_wire _ ?t _) =>
    assert (q2 = at_km (frame OP_MEMORY_ALLOCATED (lit "Memory allocated") ++ []) t q2) as ->
      by (unfold at_km; rewrite app_nil_r, <- K; by destruct q2);
    destruct (hear_text OP_MEMORY_ALLOCATED "Memory allocated"
      [OP_MEMORY_ALLOCATED; OP_SEGMENT_SIZE_EXCEEDED; OP_NOT_ENOUGH_MEMORY;
       OP_COMPACTION_NEEDED] [] t q2) as (q3 & E4 & E5); [done..|] end.
  rewrite bind_M, E4, op_of_value_op_value, bind_M, E5.
  eexists. split; [done|]. cbn. by rewrite <- !app_assoc.
Qed.
End scheduler.

(** ** Kernel Memory's side *)

Section kernel_memory.
Context {T V : Type} `{!Transport T, !Transport V}.
Context (fs : file_system).
Implicit Types (d : t_scheduler_data T V wire) (rest out : list byte).

Definition at_sched rest out d : t_scheduler_data T V wire :=
  set_sched (Some (mk_wire rest out true)) d.

(** It tells the free space, and goes on with what follows. *)
Lemma km_tells_free_space rest out d :
  memory_wf (main_memory d) ->
  listen_scheduler_step fs (at_sched
    (frame OP_REQUEST_FREE_MEMORY (lit "Requesting the available space") ++ rest) out d)
  = Ok (true, at_sched rest
      (out ++ frame OP_FREE_MEMORY (int_bytes (free_bytes (main_memory d)))) d).
Proof.
  intros Hwf. unfold listen_scheduler_step, at_sched. cbn [set_sched socket_scheduler].
  rewrite receive_op_code_frame. cbn [mbind res_bind]. rewrite op_of_value_op_value.
  unfold handle_request_free_memory, receive_string. cbn [set_sched socket_scheduler].
  rewrite receive_buffer_wire by done. cbn [mbind res_bind set_sched main_memory].
  rewrite compute_free_space_spec by done. unfold send_buffer.
  by rewrite wire_send by apply serialize_packet_ne.
Qed.

(** It compacts for the segment, between announcing and confirming it. *)
Lemma km_compacts r out d :
  mem_inv (main_memory d) -> in_u32 (sm_pid r) -> in_u32 (sm_segment_id r) ->
  0 < sm_size r <= max_segment_size (main_memory d) ->
  sm_size r <= free_bytes (main_memory d) -> ~ fits (main_memory d) (sm_size r) ->
  listen_scheduler_step fs (at_sched
    (frame OP_CREATE_SEGMENT (syscall_memory_bytes r)
     ++ frame OP_CAN_COMPACT (lit "Start compaction")) out d)
  = Ok (true, at_sched [] (out
      ++ frame OP_COMPACTION_NEEDED (lit "Memory needs to be compacted")
      ++ frame OP_COMPACTION_DONE (lit "Compaction finished")
      ++ frame OP_MEMORY_ALLOCATED (lit "Memory allocated"))
      (set_memory (compact_placed (main_memory d) (sm_size r) (sm_pid r) (sm_segment_id r)) d)).
Proof.
  intros (Hwf & Hst & Hmax) Hp Hi Hs Hf Hno.
  unfold listen_scheduler_step, at_sched. cbn [set_sched socket_scheduler].
  rewrite receive_op_code_frame. cbn [mbind res_bind]. rewrite op_of_value_op_value.
  unfold handle_create_segment. cbn [set_sched socket_scheduler].
  rewrite receive_buffer_wire by (done || (unfold sendable, l_size; cbn; ints; lia)).
  cbn [mbind res_bind deref]. unfold written.
  rewrite syscall_memory_roundtrip by (done || (ints; lia)).
  cbn [mbind res_bind set_sched main_memory socket_scheduler].
  rewrite u32_id, decide_False, s32_id by (ints; lia).
  rewrite (create_segment_compacting _ _ _ _ _ (lit "Start compaction") []); [done|done..|].
  by rewrite <- (app_nil_r (frame OP_CAN_COMPACT _)).
Qed.
End kernel_memory.

(** ** The two together *)


(** ** An instance *)

(** The routine that runs ends. *)
Definition routine_ends (q : t_queues wire) : t_queues wire :=
  set_routines (set_routine_active false) q.

Lemma routine_ends_cooperative : cooperative routine_ends.
Proof. by constructor. Qed.

(** Process 0, on the only CPU, asks for 35 bytes out of two holes of 20, while
    a routine runs. *)
Definition alloc_sched : t_queues wire :=
  set_exec (fun e => mk_execute_list [0] (lowest_priority e) (quantum e) (preemption e))
    (set_routines (fun r => set_syscall_counter 1 (set_routine_active true r))
      (init_queues SA_FIFO [SA_FIFO] 10 true None 1000)).

Lemma demo_unfit : ~ fits (main_memory demo_km) 35.
Proof.
  intros (h & Hh & Hle). cbn in Hh. rewrite !elem_of_cons in Hh.
  destruct Hh as [->|[->|H]]; [cbn in Hle; lia..|by apply elem_of_nil in H].
Qed.

