(* ===== verification/Fueled.v ===== *)
(** * Fueled: functions without loops never run out of fuel

    [fueled r]: whatever [r] is, it is not the model's [OutOfFuel].  The tactic
    of the same name closes such goals for the functions of msg.c. *)

From S2P Require Import Prelude Bytes Msg Structs.

Definition fueled {A} (r : res A) : Prop := r ≠ Undef OutOfFuel.

Create HintDb fueled.

Lemma fueled_Ok {A} (a : A) : fueled (Ok a).
Proof. done. Qed.

Lemma fueled_bind {A B} (r : res A) (f : A -> res B) :
  fueled r -> (forall a, fueled (f a)) -> fueled (mbind f r).
Proof. unfold fueled. destruct r; cbn; naive_solver. Qed.

Lemma fueled_decide {A P} `{!Decision P} (r1 r2 : res A) :
  fueled r1 -> fueled r2 -> fueled (if decide P then r1 else r2).
Proof. by case_decide. Qed.

Lemma fueled_deref {A} (p : option A) : fueled (deref p).
Proof. by destruct p. Qed.

Lemma fueled_at_index {A} (p : option A) : fueled (at_index p).
Proof. by destruct p. Qed.

Lemma fueled_defined b : fueled (defined b).
Proof. intros H. by apply defined_not_fuel in H. Qed.

#[export] Hint Resolve fueled_Ok fueled_deref fueled_at_index fueled_defined : fueled.
#[export] Hint Extern 1 (fueled (Undef _)) => done : fueled.

Ltac fueled :=
  repeat first [solve [eauto with fueled] | apply fueled_bind; [|intros]
               | apply fueled_decide | case_match].

Lemma fueled_read_u32 b off : fueled (read_u32 b off).
Proof. unfold read_u32, read_bytes. fueled. Qed.
#[export] Hint Resolve fueled_read_u32 : fueled.

Section fueled_transport.
Context {T : Type} `{!Transport T}.
Implicit Types (s : t_socket T).

Lemma fueled_receive_op_code s : fueled (receive_op_code s).
Proof. unfold receive_op_code. fueled. Qed.

Lemma fueled_receive_buffer s : fueled (receive_buffer s).
Proof. unfold receive_buffer. fueled. Qed.
#[local] Hint Resolve fueled_receive_buffer fueled_receive_op_code : fueled.

Lemma fueled_receive_string s : fueled (receive_string s).
Proof. unfold receive_string. fueled. Qed.

Lemma fueled_send_string op m s : fueled (send_string op m s).
Proof. unfold send_string, str_read. fueled. Qed.
#[local] Hint Resolve fueled_receive_string fueled_send_string : fueled.

Lemma fueled_receive_handshake s : fueled (receive_handshake s).
Proof. unfold receive_handshake, handshake_msg_to_module_id, str_read. fueled. Qed.

Lemma fueled_send_handshake i s : fueled (send_handshake i s).
Proof. unfold send_handshake. fueled. Qed.
End fueled_transport.
#[export] Hint Resolve fueled_receive_op_code fueled_receive_buffer fueled_receive_string
  fueled_send_string fueled_receive_handshake fueled_send_handshake : fueled.

