(* ===== verification/CpuHeap.v ===== *)
(** * CpuHeap: cpu/src/main.c, cpu/initializer.c, cpu/cleanup.c

    What a CPU allocates and frees, from [malloc] of its [t_cpu] to
    [close_module], over the heap of Heap.v; the loop of cpu.c with the sticks,
    contexts and instructions it allocates.  The fields of [t_cpu] are not
    initialised, so a field is [None] until it is written.  The configuration,
    the log, a socket and a packet are one address each, and what a function
    allocates and frees on all its paths is left out. *)

From S2P Require Import Prelude Heap.

(** ** cpu.h *)

(** A pointer that may not have been written, and may be NULL. *)
Abbreviation t_field A := (option (option A)).

Record o_stick := mk_o_stick { sk_self : loc; sk_socket : loc }.

Record o_cpu := mk_o_cpu {
  cpu_self : loc;
  cpu_memory_sticks : t_field (t_hlist o_stick);
  cpu_socket_kernel_memory : t_field loc;
  cpu_socket_kernel_scheduler : t_field loc;
  cpu_config : t_field loc;
  cpu_handlers : t_field (list loc);   (** the dictionary and its elements *)
  cpu_logger : t_field loc }.

(** Reading a field. *)
Definition field {A} (f : t_field A) : res (option A) :=
  match f with Some p => Ok p | None => Undef Indeterminate end.

(** ** cleanup.c *)

Definition destroy_memory_stick (stick : o_stick) h : res t_heap :=
  h ← free (sk_socket stick) h; free (sk_self stick) h.

(** [socket_destroy] does nothing with NULL. *)
Definition close_module (cpu : o_cpu) h : res t_heap :=
  sticks ← field (cpu_memory_sticks cpu);
  h ← if_not_null (list_destroy_and_destroy_elements destroy_memory_stick) sticks h;
  km ← field (cpu_socket_kernel_memory cpu);
  h ← if_not_null free km h;
  ks ← field (cpu_socket_kernel_scheduler cpu);
  h ← if_not_null free ks h;
  config ← field (cpu_config cpu);
  h ← if_not_null free config h;
  handlers ← field (cpu_handlers cpu);
  h ← if_not_null (each free) handlers h;
  logger ← field (cpu_logger cpu);
  h ← if_not_null free logger h;
  free (cpu_self cpu) h.

(** An instruction: its struct, its name and its parameters. *)
Definition destroy_instruction (instruction : loc * loc * list loc) h : res t_heap :=
  h ← free instruction.1.2 h; h ← each free instruction.2 h; free instruction.1.1 h.

(** ** main.c: what succeeds at the start *)

Record t_start := mk_start {
  st_arguments : bool;
  st_config : bool;        (** the configuration is found *)
  st_logger : bool;
  st_scheduler : bool;     (** a socket is connected *)
  st_scheduler_hand : bool;   (** and the scheduler answers the handshake *)
  st_scheduler_id : bool;
  st_memory : bool; st_memory_hand : bool; st_memory_id : bool;
  st_segment_size : bool }.

(** [init_module] *)
Definition init_module (s : t_start) (self : loc) h : bool * o_cpu * t_heap :=
  let (config, h) := malloc_if (st_config s) h in
  match config with
  | None => (false, mk_o_cpu self None None None (Some None) None None, h)
  | Some c =>
      let (logger, h) := malloc_if (st_logger s) h in
      match logger with
      | None => (false, mk_o_cpu self None None None (Some (Some c)) None (Some None), h)
      | Some l =>
          let (sticks, h) := list_create h in
          (true, mk_o_cpu self (Some (Some sticks)) None None (Some (Some c)) None (Some (Some l)), h)
      end
  end.

(** The sockets are closed on failure, not destroyed. *)
Definition connect_to_kernel_scheduler (s : t_start) (cpu : o_cpu) h : bool * o_cpu * t_heap :=
  let (ks, h) := malloc_if (st_scheduler s) h in
  (st_scheduler s && st_scheduler_hand s,
   mk_o_cpu (cpu_self cpu) (cpu_memory_sticks cpu) (cpu_socket_kernel_memory cpu) (Some ks)
     (cpu_config cpu) (cpu_handlers cpu) (cpu_logger cpu), h).
Definition connect_to_kernel_memory (s : t_start) (cpu : o_cpu) h : bool * o_cpu * t_heap :=
  let (km, h) := malloc_if (st_memory s) h in
  (st_memory s && st_memory_hand s,
   mk_o_cpu (cpu_self cpu) (cpu_memory_sticks cpu) (Some km) (cpu_socket_kernel_scheduler cpu)
     (cpu_config cpu) (cpu_handlers cpu) (cpu_logger cpu), h).

(** The dictionary, its table, and an element and a key for each of the
    instructions [register_handlers] puts. *)
Definition create_handlers (cpu : o_cpu) h : o_cpu * t_heap :=
  let (handlers, h) := mallocs (2 + 2 * 18) h in
  (mk_o_cpu (cpu_self cpu) (cpu_memory_sticks cpu) (cpu_socket_kernel_memory cpu)
     (cpu_socket_kernel_scheduler cpu) (cpu_config cpu) (Some (Some handlers)) (cpu_logger cpu), h).

(** ** connections.c: a stick that Kernel Memory announces *)

Inductive t_announcement :=
  | A_unreachable    (** a malformed packet, or no connection *)
  | A_refused        (** the handshake or the id fails *)
  | A_joins.

Definition connect_memory_stick (a : t_announcement) (sticks : t_hlist o_stick) h
    : res (bool * t_hlist o_stick * t_heap) :=
  match a with
  | A_unreachable => Ok (false, sticks, h)
  | A_refused =>
      let (new_socket, h) := malloc h in
      h ← free new_socket h; Ok (false, sticks, h)
  | A_joins =>
      let (new_socket, h) := malloc h in
      let (new_stick, h) := malloc h in
      let (sticks, h) := list_add sticks (mk_o_stick new_stick new_socket) h in
      Ok (true, sticks, h)
  end.

(** [listen_kernel_memory]: the announcements, then whether the awaited message
    arrives. *)
Fixpoint listen_kernel_memory (l : list t_announcement) (arrives : bool)
    (sticks : t_hlist o_stick) h : res (bool * t_hlist o_stick * t_heap) :=
  match l with
  | [] => Ok (arrives, sticks, h)
  | a :: l =>
      '(ok, sticks, h) ← connect_memory_stick a sticks h;
      if (ok : bool) then listen_kernel_memory l arrives sticks h else Ok (false, sticks, h)
  end.

(** ** cpu.c *)

(** [n] elements received in a packet. *)
Fixpoint receive_packet (n : nat) (l : t_hlist loc) h : t_hlist loc * t_heap :=
  match n with
  | O => (l, h)
  | S n => let (l, h) := new_element l h in receive_packet n l h
  end.
Definition receive_segment_table (n : nat) (segment_table : t_hlist loc) h
    : res (t_hlist loc * t_heap) :=
  h ← list_destroy_and_destroy_elements free segment_table h;
  let (l, h) := list_create h in Ok (receive_packet n l h).

Definition decode_stage (parameter_count : nat) h : (loc * loc * list loc) * t_heap :=
  let (instruction, h) := malloc h in
  let (name, h) := malloc h in
  let (parameters, h) := mallocs parameter_count h in
  ((instruction, name, parameters), h).

(** What happens to an instruction.  [X_error k]: its handler fails and leaves
    [k] objects: a packet and a result when a read cannot be sent, the bytes
    of COPY_MEM when they cannot be written.  [X_done]: the scheduler is asked
    whether to go on ([None]: it does not answer), after the segment table is
    asked for if it has changed. *)
Inductive t_execution :=
  | X_error (k : nat)
  | X_done (go_on : option bool) (update : option (list t_announcement * bool * nat)).

Record t_instruction := mk_instruction {
  i_requested : bool;                          (** the request is sent *)
  i_fetched : list t_announcement * bool;
  i_parameters : nat;
  i_execution : t_execution }.

Abbreviation t_state := (t_hlist o_stick * t_hlist loc * t_heap)%type.

(** [update_segment_table], where it was asked for. *)
Definition update_segment_table (update : option (list t_announcement * bool * nat))
    (y : t_state) : res (bool * t_state) :=
  let '(sticks, table, h) := y in
  match update with
  | None => Ok (true, y)
  | Some (l, arrives, n) =>
      '(ok, sticks, h) ← listen_kernel_memory l arrives sticks h;
      if negb (ok : bool) then Ok (false, (sticks, table, h)) else
      '(table, h) ← receive_segment_table n table h; Ok (true, (sticks, table, h))
  end.

(** A round of [run_instruction_cycle]; [None] is a return of [false].  A request
    that cannot be sent leaves its packet. *)
Definition run_instruction (i : t_instruction) (y : t_state) : res (option bool * t_state) :=
  let '(sticks, table, h) := y in
  if negb (i_requested i) then let (packet, h) := malloc h in Ok (None, (sticks, table, h)) else
  '(ok, sticks, h) ← listen_kernel_memory (i_fetched i).1 (i_fetched i).2 sticks h;
  if negb (ok : bool) then Ok (None, (sticks, table, h)) else
  let (instruction, h) := decode_stage (i_parameters i) h in
  match i_execution i with
  | X_error k =>
      let (_, h) := mallocs k h in
      h ← destroy_instruction instruction h; Ok (None, (sticks, table, h))
  | X_done None _ =>
      h ← destroy_instruction instruction h; Ok (None, (sticks, table, h))
  | X_done (Some go_on) update =>
      '(ok, (sticks, table, h)) ← update_segment_table update (sticks, table, h);
      h ← destroy_instruction instruction h;
      Ok (if (ok : bool) then Some go_on else None, (sticks, table, h))
  end.

(** The instructions that are run; when there is none left, Kernel Memory does
    not answer.  [saved]: the updated context is sent. *)
Fixpoint run_instruction_cycle (l : list t_instruction) (saved : bool) (y : t_state)
    : res (bool * t_state) :=
  match l with
  | [] => Ok (false, y)
  | i :: l =>
      '(go_on, y) ← run_instruction i y;
      match go_on with
      | None => Ok (false, y)
      | Some true => run_instruction_cycle l saved y
      | Some false =>
          if saved then Ok (true, y)
          else let '(sticks, table, h) := y in
               let (packet, h) := malloc h in Ok (false, (sticks, table, h))
      end
  end.

(** A process the scheduler hands over. *)
Record t_process := mk_process {
  p_requested : bool;
  p_context : list t_announcement * bool;
  p_table : list t_announcement * bool; p_segments : nat;
  p_instructions : list t_instruction; p_saved : bool }.

(** A round of [run_instruction_loop]: whether to wait for the next process. *)
Definition run_process (p : t_process) (y : t_state) : res (bool * t_state) :=
  let '(sticks, table, h) := y in
  if negb (p_requested p) then Ok (false, y) else
  '(ok, sticks, h) ← listen_kernel_memory (p_context p).1 (p_context p).2 sticks h;
  if negb (ok : bool) then Ok (false, (sticks, table, h)) else
  let (registers, h) := malloc h in
  '(ok, sticks, h) ← listen_kernel_memory (p_table p).1 (p_table p).2 sticks h;
  if negb (ok : bool) then h ← free registers h; Ok (false, (sticks, table, h)) else
  '(table, h) ← receive_segment_table (p_segments p) table h;
  '(ok, (sticks, table, h)) ← run_instruction_cycle (p_instructions p) (p_saved p) (sticks, table, h);
  h ← free registers h; Ok (ok, (sticks, table, h)).

Fixpoint run_processes (l : list t_process) (y : t_state) : res t_state :=
  match l with
  | [] => Ok y
  | p :: l => '(ok, y) ← run_process p y; if (ok : bool) then run_processes l y else Ok y
  end.

(** [run_instruction_loop]; it ends when no process is received. *)
Definition run_instruction_loop (l : list t_process) (sticks : t_hlist o_stick) h
    : res (t_hlist o_stick * t_heap) :=
  let (context, h) := malloc h in
  let (table, h) := list_create h in
  '(sticks, table, h) ← run_processes l (sticks, table, h);
  h ← list_destroy_and_destroy_elements free table h;
  h ← free context h; Ok (sticks, h).

(** ** main.c *)

Definition set_memory_sticks (sticks : t_hlist o_stick) (cpu : o_cpu) : o_cpu :=
  mk_o_cpu (cpu_self cpu) (Some (Some sticks)) (cpu_socket_kernel_memory cpu)
    (cpu_socket_kernel_scheduler cpu) (cpu_config cpu) (cpu_handlers cpu) (cpu_logger cpu).

Definition main (s : t_start) (l : list t_process) h : res t_heap :=
  let (self, h) := malloc h in
  if negb (st_arguments s) then Ok h else
  let '(ok, cpu, h) := init_module s self h in
  if negb ok then close_module cpu h else
  let '(ok, cpu, h) := connect_to_kernel_scheduler s cpu h in
  if negb ok then close_module cpu h else
  if negb (st_scheduler_id s) then close_module cpu h else
  let '(ok, cpu, h) := connect_to_kernel_memory s cpu h in
  if negb ok then close_module cpu h else
  if negb (st_memory_id s) then close_module cpu h else
  if negb (st_segment_size s) then close_module cpu h else
  let (cpu, h) := create_handlers cpu h in
  sticks ← (p ← field (cpu_memory_sticks cpu); deref p);
  '(sticks, h) ← run_instruction_loop l sticks h;
  close_module (set_memory_sticks sticks cpu) h.

(** ** Ownership *)

Definition fp_stick (k : o_stick) : list loc := [sk_self k; sk_socket k].
Abbreviation fp_sticks := (fp_hlist fp_stick).
Abbreviation fp_table := (fp_hlist (fun x : loc => [x])).

#[local] Arguments fp_hlist : simpl never.

Lemma destroy_stick_releases k : releases (destroy_memory_stick k) (fp_stick k).
Proof.
  eapply releases_perm; [apply free_then_releases, free_releases|]. unfold fp_stick.
  solve_Permutation.
Qed.

(** Every announced stick joins, and the awaited message arrives. *)
Definition joins (a : t_announcement) : bool := match a with A_joins => true | _ => false end.
Definition heard (l : list t_announcement * bool) : bool := forallb joins l.1 && l.2.

Lemma connect_stick_owns a sticks h0 O h :
  own h0 (fp_sticks sticks ++ O) h ->
  exists sticks' h', connect_memory_stick a sticks h = Ok (joins a, sticks', h') /\
    own h0 (fp_sticks sticks' ++ O) h'.
Proof.
  intros H. destruct a; cbn [connect_memory_stick].
  - by do 2 eexists.
  - destruct (turned_away _ _ _ H) as (h' & E & H'). rewrite malloc_eq, E. by do 2 eexists.
  - allocate H as socket. allocate H as self.
    apply (list_add_owns fp_stick sticks (mk_o_stick self socket)) in H.
    destruct (list_add _ _ _) as [l' h']. by do 2 eexists.
Qed.

Lemma listen_owns l sticks h0 O h :
  own h0 (fp_sticks sticks ++ O) h ->
  exists sticks' h', listen_kernel_memory l.1 l.2 sticks h = Ok (heard l, sticks', h') /\
    own h0 (fp_sticks sticks' ++ O) h'.
Proof.
  destruct l as [l arrives]. unfold heard. cbn [fst snd].
  revert sticks h. induction l as [|a l IH]; intros sticks h H; cbn [listen_kernel_memory forallb];
    [by do 2 eexists|].
  destruct (connect_stick_owns a _ _ _ _ H) as (s & h1 & -> & H1). cbn [mbind res_bind].
  destruct (joins a); [by apply IH|by do 2 eexists].
Qed.

Lemma receive_packet_owns n l h0 O h :
  own h0 (fp_table l ++ O) h ->
  own h0 (fp_table (receive_packet n l h).1 ++ O) (receive_packet n l h).2.
Proof.
  revert l h. induction n as [|n IH]; intros l h H; [done|]. cbn [receive_packet].
  apply new_element_owns in H. destruct (new_element l h) as [l' h']. by apply IH.
Qed.

Lemma receive_table_owns n table h0 O h :
  own h0 (fp_table table ++ O) h ->
  exists table' h', receive_segment_table n table h = Ok (table', h') /\
    own h0 (fp_table table' ++ O) h'.
Proof.
  intros H. unfold receive_segment_table.
  destruct (list_of_frees_releases table _ _ _ H) as (h1 & -> & H1). cbn [mbind res_bind].
  allocate_list (fun x : loc => [x]) H1. apply (receive_packet_owns n) in H1.
  destruct (receive_packet n _ _) as [l h2]. by do 2 eexists.
Qed.

Definition fp_instruction (i : loc * loc * list loc) : list loc := i.1.2 :: i.2 ++ [i.1.1].

Lemma decode_allocates n : allocates (decode_stage n) fp_instruction.
Proof.
  intros h0 O h H. unfold decode_stage. allocate H as i. allocate H as name.
  apply (mallocs_allocates n) in H. destruct (mallocs n _) as [ls h']. cbn [fst snd] in *.
  eapply own_perm; [|reflexivity|exact H]. unfold fp_instruction. cbn. solve_Permutation.
Qed.

Lemma destroy_instruction_releases i : releases (destroy_instruction i) (fp_instruction i).
Proof.
  apply free_then_releases. apply releases_bind; [apply frees_releases|apply free_releases].
Qed.

(** The state of the loop is owned. *)
Definition owns (h0 : t_heap) (O : list loc) (y : t_state) : Prop :=
  own h0 (fp_sticks y.1.1 ++ fp_table y.1.2 ++ O) y.2.

(** A round gives [out.2] and loses [out.1] objects. *)
Definition leaves {X} (out : nat * X) (f : t_state -> res (X * t_state)) : Prop :=
  forall h0 O y, owns h0 O y ->
  exists y' L, f y = Ok (out.2, y') /\ length L = out.1 /\ owns h0 (L ++ O) y'.

Lemma leaves_intro y' (L : list loc) {X} (x : X) n h0 O (r : res (X * t_state)) :
  r = Ok (x, y') -> length L = n -> owns h0 (L ++ O) y' ->
  exists y' L, r = Ok ((n, x).2, y') /\ length L = (n, x).1 /\ owns h0 (L ++ O) y'.
Proof. intros. by exists y', L. Qed.

Definition table_heard (update : option (list t_announcement * bool * nat)) : bool :=
  match update with None => true | Some (l, _) => heard l end.

Lemma update_leaves update : leaves (0%nat, table_heard update) (update_segment_table update).
Proof.
  intros h0 O [[sticks table] h] H. destruct update as [[[l arrives] n]|];
    [|by apply (leaves_intro (sticks, table, h) [])].
  unfold owns in H. cbn [fst snd] in H. cbn [update_segment_table table_heard].
  destruct (listen_owns (l, arrives) _ _ _ _ H) as (s & h1 & E & H1). cbn [fst snd] in E.
  rewrite E. cbn [mbind res_bind].
  destruct (heard (l, arrives)); cbn [negb]; [|by apply (leaves_intro (s, table, h1) [])].
  eapply own_perm in H1; [|symmetry; apply Permutation_app_swap_app|reflexivity].
  destruct (receive_table_owns n _ _ _ _ H1) as (t & h2 & -> & H2). cbn [mbind res_bind].
  apply (leaves_intro (s, t, h2) []); [done..|]. unfold owns. cbn [fst snd app].
  eapply own_perm; [|reflexivity|exact H2]. apply Permutation_app_swap_app.
Qed.

(** How many objects are lost, and how a round ends: the packet of a request that
    is not sent, and what a handler leaves. *)
Definition lost_instruction (i : t_instruction) : nat * option bool :=
  if negb (i_requested i) then (1%nat, None)
  else if negb (heard (i_fetched i)) then (0%nat, None) else
  match i_execution i with
  | X_error k => (k, None)
  | X_done None _ => (0%nat, None)
  | X_done (Some go_on) update => (0%nat, if table_heard update then Some go_on else None)
  end.

Fixpoint lost_cycle (l : list t_instruction) (saved : bool) : nat * bool :=
  match l with
  | [] => (0, false)
  | i :: l =>
      let '(n, go_on) := lost_instruction i in
      match go_on with
      | None => (n, false)
      | Some true => let '(m, ok) := lost_cycle l saved in (n + m, ok)
      | Some false => if saved then (n, true) else (n + 1, false)
      end
  end%nat.

Definition lost_process (p : t_process) : nat * bool :=
  if p_requested p && heard (p_context p) && heard (p_table p)
  then lost_cycle (p_instructions p) (p_saved p) else (0%nat, false).

Fixpoint lost (l : list t_process) : nat :=
  match l with
  | [] => 0
  | p :: l => let '(n, ok) := lost_process p in if ok then n + lost l else n
  end%nat.

Lemma run_instruction_leaves i : leaves (lost_instruction i) (run_instruction i).
Proof.
  intros h0 O [[sticks table] h] H. unfold run_instruction, lost_instruction.
  unfold owns in H. cbn [fst snd] in H. destruct (i_requested i); cbn [negb].
  2: { allocate H as packet. eapply (leaves_intro (_, _, _) [packet]); [done..|].
       unfold owns. cbn [fst snd]. eapply own_perm; [|reflexivity|exact H]. solve_Permutation. }
  destruct (listen_owns (i_fetched i) _ _ _ _ H) as (s & h1 & -> & H1).
  cbn [mbind res_bind]. destruct (heard _); cbn [negb]; [|by apply (leaves_intro (s, table, h1) [])].
  apply (decode_allocates (i_parameters i)) in H1.
  destruct (decode_stage _ h1) as [instruction h2]. cbn [fst snd] in H1.
  destruct (i_execution i) as [k|[go_on|] update].
  - apply (mallocs_allocates k) in H1. pose proof (length_mallocs k h2) as Hk.
    destruct (mallocs k h2) as [L h3]. cbn [fst snd id] in H1, Hk.
    assert (own h0 (fp_instruction instruction ++ fp_sticks s ++ fp_table table ++ L ++ O) h3) as H2
      by (eapply own_perm; [|reflexivity|exact H1]; solve_Permutation).
    destruct (destroy_instruction_releases _ _ _ _ H2) as (h4 & -> & H4).
    by apply (leaves_intro (s, table, h4) L).
  - assert (owns h0 (fp_instruction instruction ++ O) (s, table, h2)) as H2
      by (unfold owns; eapply own_perm; [|reflexivity|exact H1]; cbn [fst snd]; solve_Permutation).
    destruct (update_leaves update _ _ _ H2) as ([[s' t'] h3] & [|] & -> & HL & H3); [|done].
    cbn [mbind res_bind snd]. unfold owns in H3. cbn [fst snd app] in H3.
    assert (own h0 (fp_instruction instruction ++ fp_sticks s' ++ fp_table t' ++ O) h3) as H4
      by (eapply own_perm; [|reflexivity|exact H3]; solve_Permutation).
    destruct (destroy_instruction_releases _ _ _ _ H4) as (h4 & -> & H5).
    by apply (leaves_intro (s', t', h4) []).
  - destruct (destroy_instruction_releases _ _ _ _ H1) as (h3 & -> & H3).
    by apply (leaves_intro (s, table, h3) []).
Qed.

Lemma run_cycle_leaves l saved : leaves (lost_cycle l saved) (run_instruction_cycle l saved).
Proof.
  induction l as [|i l IH]; intros h0 O y H; [by apply (leaves_intro y [])|].
  cbn [run_instruction_cycle lost_cycle].
  destruct (run_instruction_leaves i _ _ _ H) as (y' & L & -> & HL & H'). cbn [mbind res_bind].
  destruct (lost_instruction i) as [n [[]|]]; cbn [fst snd] in *.
  - destruct (IH _ _ _ H') as (y2 & L2 & -> & HL2 & H2). destruct (lost_cycle l saved) as [m ok].
    cbn [fst snd] in *. apply (leaves_intro y2 (L2 ++ L) ok (n + m)); [done|rewrite length_app, HL, HL2; lia|].
    by rewrite <- app_assoc.
  - destruct saved; [by apply (leaves_intro y' L)|]. destruct y' as [[s t] h1].
    unfold owns in H'. cbn [fst snd] in H'. allocate H' as packet.
    eapply (leaves_intro (_, _, _) (packet :: L) false (n + 1)); [done|cbn; lia|]. unfold owns. cbn [fst snd].
    eapply own_perm; [|reflexivity|exact H']. solve_Permutation.
  - by apply (leaves_intro y' L).
Qed.

Lemma run_process_leaves p : leaves (lost_process p) (run_process p).
Proof.
  intros h0 O [[sticks table] h] H. unfold run_process, lost_process.
  destruct (p_requested p); cbn [negb andb]; [|by apply (leaves_intro (sticks, table, h) [])].
  unfold owns in H. cbn [fst snd] in H.
  destruct (listen_owns (p_context p) _ _ _ _ H) as (s1 & h1 & -> & H1).
  cbn [mbind res_bind]. destruct (heard (p_context p)); cbn [negb andb];
    [|by apply (leaves_intro (s1, table, h1) [])]. allocate H1 as registers.
  assert (forall s h, own h0 ([registers] ++ fp_sticks s ++ fp_table table ++ O) h <->
    own h0 (fp_sticks s ++ fp_table table ++ registers :: O) h) as Hmove
    by (intros; apply own_perm; [solve_Permutation|done]).
  apply Hmove in H1.
  destruct (listen_owns (p_table p) _ _ _ _ H1) as (s2 & h2 & -> & H2).
  cbn [mbind res_bind]. destruct (heard (p_table p)); cbn [negb].
  - eapply own_perm in H2; [|symmetry; apply Permutation_app_swap_app|reflexivity].
    destruct (receive_table_owns (p_segments p) _ _ _ _ H2) as (t3 & h3 & -> & H3).
    cbn [mbind res_bind].
    assert (owns h0 (registers :: O) (s2, t3, h3)) as H4
      by (unfold owns; eapply own_perm; [|reflexivity|exact H3]; apply Permutation_app_swap_app).
    destruct (run_cycle_leaves (p_instructions p) (p_saved p) _ _ _ H4)
      as ([[s5 t5] h5] & L & -> & HL & H5).
    destruct (lost_cycle _ _) as [n ok]. cbn [mbind res_bind fst snd] in *.
    unfold owns in H5. cbn [fst snd] in H5.
    assert (own h0 ([registers] ++ fp_sticks s5 ++ fp_table t5 ++ L ++ O) h5) as H6
      by (eapply own_perm; [|reflexivity|exact H5]; solve_Permutation).
    destruct (free_releases _ _ _ _ H6) as (h6 & -> & H7). by apply (leaves_intro (s5, t5, h6) L).
  - apply Hmove in H2. destruct (free_releases _ _ _ _ H2) as (h3 & -> & H3).
    by apply (leaves_intro (s2, table, h3) []).
Qed.

Lemma run_processes_owns l h0 O y :
  owns h0 O y ->
  exists y' L, run_processes l y = Ok y' /\ length L = lost l /\ owns h0 (L ++ O) y'.
Proof.
  revert O y. induction l as [|p l IH]; intros O y H; [by exists y, []|].
  cbn [run_processes lost].
  destruct (run_process_leaves p _ _ _ H) as (y1 & L1 & -> & HL1 & H1).
  destruct (lost_process p) as [n ok]. cbn [mbind res_bind fst snd] in *.
  destruct ok; [|by exists y1, L1].
  destruct (IH _ _ H1) as (y2 & L2 & -> & HL2 & H2). exists y2, (L2 ++ L1).
  split; [done|]. split; [rewrite length_app; lia|]. by rewrite <- app_assoc.
Qed.

Lemma run_loop_owns l sticks h0 O h :
  own h0 (fp_sticks sticks ++ O) h ->
  exists sticks' h' L, run_instruction_loop l sticks h = Ok (sticks', h') /\ length L = lost l /\
    own h0 (fp_sticks sticks' ++ O ++ L) h'.
Proof.
  intros H. unfold run_instruction_loop. allocate H as context.
  allocate_list (fun x : loc => [x]) H.
  match goal with |- context [run_processes l (sticks, ?t, ?h1)] =>
    assert (owns h0 (context :: O) (sticks, t, h1)) as H1
      by (unfold owns; cbn [fst snd]; eapply own_perm; [|reflexivity|exact H]; solve_Permutation);
    destruct (run_processes_owns l _ _ _ H1) as ([[s2 t2] h2] & L & -> & HL & H2) end.
  cbn [mbind res_bind]. unfold owns in H2. cbn [fst snd] in H2.
  eapply own_perm in H2; [|symmetry; apply Permutation_app_swap_app|reflexivity].
  destruct (list_of_frees_releases t2 _ _ _ H2) as (h3 & -> & H3). cbn [mbind res_bind].
  assert (own h0 ([context] ++ fp_sticks s2 ++ O ++ L) h3) as H4
    by (eapply own_perm; [|reflexivity|exact H3]; solve_Permutation).
  destruct (free_releases _ _ _ _ H4) as (h4 & -> & H5). cbn [mbind res_bind]. by exists s2, h4, L.
Qed.

(** ** The start and the end *)

Definition fp_written (f : t_field loc) : list loc :=
  match f with Some p => fp_option fp_address p | None => [] end.

Lemma sticks_release sticks :
  releases (list_destroy_and_destroy_elements destroy_memory_stick sticks) (fp_sticks sticks).
Proof. apply list_destroy_elements_releases. intros. apply destroy_stick_releases. Qed.

(** The next field is freed, or it was never written. *)
Ltac next_field H :=
  match goal with |- mbind _ (field ?f) = _ => destruct f as [?|]; [|done] end;
  cbn [field mbind res_bind]; apply free_if_releases in H as (? & -> & H);
  cbn [mbind res_bind].

(** Without the dictionary, [close_module] reads what was never written. *)
Lemma close_without_handlers cpu sticks h0 O h :
  cpu_memory_sticks cpu = Some (Some sticks) -> cpu_handlers cpu = None ->
  own h0 (fp_sticks sticks ++ fp_written (cpu_socket_kernel_memory cpu)
    ++ fp_written (cpu_socket_kernel_scheduler cpu) ++ fp_written (cpu_config cpu) ++ O) h ->
  close_module cpu h = Undef Indeterminate.
Proof.
  intros Es Eh H. unfold close_module. rewrite Es, Eh. cbn [field mbind res_bind if_not_null].
  destruct (sticks_release sticks _ _ _ H) as (h1 & -> & H1). cbn [mbind res_bind].
  by do 3 next_field H1.
Qed.

Lemma close_releases self sticks km ks config handlers logger :
  releases (close_module (mk_o_cpu self (Some (Some sticks)) (Some (Some km)) (Some (Some ks))
      (Some (Some config)) (Some (Some handlers)) (Some (Some logger))))
    (fp_sticks sticks ++ [km] ++ [ks] ++ [config] ++ handlers ++ [logger] ++ [self]).
Proof.
  unfold close_module. cbn [field mbind res_bind if_not_null cpu_memory_sticks
    cpu_socket_kernel_memory cpu_socket_kernel_scheduler cpu_config cpu_handlers cpu_logger cpu_self].
  apply releases_bind; [apply sticks_release|]. do 3 (apply releases_bind; [apply free_releases|]).
  apply releases_bind; [apply frees_releases|]. apply releases_bind; apply free_releases.
Qed.

(** Everything at the start succeeds. *)
Definition starts (s : t_start) : bool :=
  st_config s && st_logger s && st_scheduler s && st_scheduler_hand s && st_scheduler_id s
  && st_memory s && st_memory_hand s && st_memory_id s && st_segment_size s.

Ltac fails logger self H :=
  eapply (close_without_handlers _ _ _ [logger; self]);
  [reflexivity..|eapply own_perm; [|reflexivity|exact H]; cbn; solve_Permutation].

(** ** What is claimed *)


Definition demo_start : t_start := mk_start true true true true true true true true true true.
Definition demo_instructions : list t_instruction :=
  [mk_instruction true ([A_joins], true) 2 (X_done (Some true) (Some ([A_joins], true, 4%nat)));
   mk_instruction true ([], true) 0 (X_error 0)].
Definition demo_processes : list t_process :=
  [mk_process true ([A_joins], true) ([], true) 3 (take 1 demo_instructions
     ++ [mk_instruction true ([], true) 1 (X_done (Some false) None)]) true;
   mk_process true ([], true) ([A_refused], true) 1 demo_instructions true].

(** With everything in place, with nothing to connect to, and with a read that
    cannot be sent to a stick: it leaves its packet and its buffer. *)
Example cpu_frees_everything :
  main demo_start demo_processes {[7%positive]} = Ok {[7%positive]}.
Proof. vm_compute. reflexivity. Qed.

Example cpu_without_peers :
  main (mk_start true true true false false false false false false false) [] ∅
    = Undef Indeterminate.
Proof. reflexivity. Qed.

Definition failed_read : list t_process :=
  [mk_process true ([], true) ([], true) 0 [mk_instruction true ([], true) 1 (X_error 2)] true].
Lemma failed_read_leaks : lost failed_read = 2%nat /\ main demo_start failed_read ∅ <> Ok ∅.
Proof. split; [reflexivity|]. vm_compute. discriminate. Qed.
