(* ===== verification/StickHeap.v ===== *)
(** * StickHeap: memory_stick/src (main.c, memory_stick/memory_stick.c, cpu.c)

    What a memory stick allocates and frees, over the heap of Heap.v: its start,
    which may fail at any step, the CPUs that connect and leave, its end.  The
    configuration, the log and a socket are one address each; the packets of
    requests are left out where they are freed on every path. *)

From S2P Require Import Prelude Heap.

(** ** memory_stick.h, cpu.h *)

(** [t_ms], which starts as zeroes. *)
Record o_ms := mk_o_ms {
  ms_config : option loc; ms_logger : option loc; ms_socket_km : option loc;
  ms_socket_server_cpu : option loc; ms_memory : option loc; ms_memory_mutex : option loc }.

(** [t_cpu_thread]; the listening thread's data and its list. *)
Record o_cpu_thread := mk_o_cpu_thread { ct_self : loc; ct_socket_cpu : loc }.
Record o_listen := mk_o_listen { ln_self : loc; ln_socket_list : t_hlist o_cpu_thread }.

(** ** memory_stick.c, kernel_memory.c *)

(** What succeeds at the start; [st_km]: there is a connection to Kernel Memory,
    and its handshake goes well. *)
Record t_start := mk_start {
  st_config : bool; st_logger : bool; st_km : option bool; st_server : bool;
  st_port : bool; st_thread : bool }.

Definition connect_to_kernel_memory (answer : option bool) h : res (option loc * t_heap) :=
  match answer with
  | None => Ok (None, h)
  | Some hand =>
      let (socket_km, h) := malloc h in
      if (hand : bool) then Ok (Some socket_km, h)
      else h ← free socket_km h; Ok (None, h)
  end.

(** [start_cpu_server]: the data of the thread is left if it is not created. *)
Definition start_cpu_server (created : bool) h : option o_listen * t_heap :=
  let (listen_thread, h) := malloc h in
  if created then
    let (socket_list, h) := list_create h in (Some (mk_o_listen listen_thread socket_list), h)
  else (None, h).

Definition init_module (s : t_start) h : res (option o_listen * o_ms * t_heap) :=
  let (config, h) := malloc_if (st_config s) h in
  match config with None => Ok (None, mk_o_ms None None None None None None, h) | Some _ =>
  let (logger, h) := malloc_if (st_logger s) h in
  match logger with None => Ok (None, mk_o_ms config None None None None None, h) | Some _ =>
  '(km, h) ← connect_to_kernel_memory (st_km s) h;
  match km with None => Ok (None, mk_o_ms config logger None None None None, h) | Some _ =>
  let (server, h) := malloc_if (st_server s) h in
  match server with None => Ok (None, mk_o_ms config logger km None None None, h) | Some _ =>
  if negb (st_port s) then Ok (None, mk_o_ms config logger km server None None, h) else
  let (memory, h) := malloc h in
  let (mutex, h) := malloc h in
  let (listen, h) := start_cpu_server (st_thread s) h in
  Ok (listen, mk_o_ms config logger km server (Some memory) (Some mutex), h)
  end end end end.

Definition close_module_on_error (ms : o_ms) h : res t_heap :=
  h ← if_not_null free (ms_socket_server_cpu ms) h;
  h ← if_not_null free (ms_socket_km ms) h;
  h ← if_not_null free (ms_logger ms) h;
  h ← if_not_null free (ms_config ms) h;
  h ← if_not_null free (ms_memory ms) h;
  if_not_null free (ms_memory_mutex ms) h.

(** ** cpu.c *)

(** What happens while the stick runs: a CPU is refused, its thread cannot be
    created, or it runs; the thread of a CPU ends; a CPU sends a read that does
    not have two elements, which leaves the packet. *)
Inductive t_event :=
  | E_refused | E_no_thread | E_joins | E_leaves (i : nat) | E_bad_read (elements : nat).

Definition handle_new_cpu (created : bool) (socket_cpu : loc) (l : t_hlist o_cpu_thread) h
    : res (bool * t_hlist o_cpu_thread * t_heap) :=
  let (cpu_thread, h) := malloc h in
  let (l', h) := list_add l (mk_o_cpu_thread cpu_thread socket_cpu) h in
  if created then Ok (true, l', h) else
  '(_, l, h) ← list_remove l' (length (hl_links l)) h;
  h ← free cpu_thread h; Ok (false, l, h).

Definition close_cpu_thread (i : nat) (l : t_hlist o_cpu_thread) h
    : res (t_hlist o_cpu_thread * t_heap) :=
  '(cpu_thread, l, h) ← list_remove l i h;
  match cpu_thread with
  | Some t => h ← free (ct_socket_cpu t) h; h ← free (ct_self t) h; Ok (l, h)
  | None => Ok (l, h)
  end.

Definition event (e : t_event) (y : t_hlist o_cpu_thread * t_heap)
    : res (t_hlist o_cpu_thread * t_heap) :=
  let '(l, h) := y in
  match e with
  | E_refused => let (socket_cpu, h) := malloc h in h ← free socket_cpu h; Ok (l, h)
  | E_no_thread | E_joins =>
      let (socket_cpu, h) := malloc h in
      '(ok, l, h) ← handle_new_cpu (match e with E_joins => true | _ => false end) socket_cpu l h;
      if (ok : bool) then Ok (l, h) else h ← free socket_cpu h; Ok (l, h)
  | E_leaves i => close_cpu_thread i l h
  | E_bad_read n =>
      if decide (n = 2)%nat then Ok (l, h)
      else let (_, h) := mallocs (1 + 2 * n) h in Ok (l, h)
  end.

(** Every thread leaves. *)
Fixpoint all_leave (n : nat) (l : t_hlist o_cpu_thread) h : res (t_hlist o_cpu_thread * t_heap) :=
  match n with
  | O => Ok (l, h)
  | S n => '(l, h) ← close_cpu_thread 0 l h; all_leave n l h
  end.
Definition close_listen_thread (listen : loc) (l : t_hlist o_cpu_thread) h : res t_heap :=
  '(l, h) ← all_leave (length (hl_links l)) l h;
  h ← list_destroy l h; free listen h.

(** The server's thread is joined after its socket was shut down. *)
Definition close_module (ms : o_ms) (listen : loc) (l : t_hlist o_cpu_thread) h : res t_heap :=
  h ← close_listen_thread listen l h;
  h ← if_not_null free (ms_socket_km ms) h;
  h ← if_not_null free (ms_socket_server_cpu ms) h;
  logger ← deref (ms_logger ms); h ← free logger h;
  config ← deref (ms_config ms); h ← free config h;
  h ← if_not_null free (ms_memory ms) h;
  if_not_null free (ms_memory_mutex ms) h.

Definition main (s : t_start) (events : list t_event) h : res t_heap :=
  '(listen, ms, h) ← init_module s h;
  match listen with
  | None => close_module_on_error ms h
  | Some ln =>
      '(l, h) ← each event events (ln_socket_list ln, h);
      close_module ms (ln_self ln) l h
  end.

(** ** Ownership *)

Definition fp_thread (t : o_cpu_thread) : list loc := [ct_self t; ct_socket_cpu t].

Abbreviation fp_threads := (fp_hlist fp_thread).
#[local] Arguments fp_hlist : simpl never.

Definition fp_ms (ms : o_ms) : list loc :=
  fp_option fp_address (ms_socket_server_cpu ms) ++ fp_option fp_address (ms_socket_km ms)
  ++ fp_option fp_address (ms_logger ms) ++ fp_option fp_address (ms_config ms)
  ++ fp_option fp_address (ms_memory ms) ++ fp_option fp_address (ms_memory_mutex ms).

Lemma close_on_error_releases ms : releases (close_module_on_error ms) (fp_ms ms).
Proof.
  unfold close_module_on_error, fp_ms. repeat apply releases_bind; apply free_if_releases.
Qed.

Lemma connect_owns answer h0 O h :
  own h0 O h -> exists k h', connect_to_kernel_memory answer h = Ok (k, h') /\
    own h0 (fp_option fp_address k ++ O) h'.
Proof.
  intros H. destruct answer as [[]|]; cbn [connect_to_kernel_memory]; [| |by do 2 eexists].
  - allocate H as l. by do 2 eexists.
  - destruct (turned_away _ _ _ H) as (h' & E & H'). rewrite malloc_eq, E. by do 2 eexists.
Qed.

Definition fp_listen (l : o_listen) : list loc := ln_self l :: fp_threads (ln_socket_list l).

(** Whatever fails, what was allocated is in the stick; the server's thread is
    the last thing that can. *)
Lemma init_module_owns s h0 O h :
  st_thread s = true -> own h0 O h ->
  exists listen ms h', init_module s h = Ok (listen, ms, h') /\
    own h0 (fp_option fp_listen listen ++ fp_ms ms ++ O) h' /\
    (is_Some listen -> is_Some (ms_logger ms) /\ is_Some (ms_config ms)).
Proof.
  intros Ht H. unfold init_module.
  apply (malloc_if_owns (st_config s)) in H.
  destruct (malloc_if _ h) as [[config|] h1]; cbn [fst snd] in H;
    [|do 3 eexists; split_and!; [done|done|by intros []]].
  apply (malloc_if_owns (st_logger s)) in H.
  destruct (malloc_if _ h1) as [[logger|] h2]; cbn [fst snd] in H;
    [|do 3 eexists; split_and!; [done| |by intros []]].
  2:{ unfold fp_ms. cbn in *. eapply own_perm; [|reflexivity|exact H]. solve_Permutation. }
  destruct (connect_owns (st_km s) _ _ _ H) as (km & h3 & -> & H3). cbn [mbind res_bind].
  destruct km as [km|]; [|do 3 eexists; split_and!; [done| |by intros []]].
  2:{ unfold fp_ms. cbn in *. eapply own_perm; [|reflexivity|exact H3]. solve_Permutation. }
  apply (malloc_if_owns (st_server s)) in H3.
  destruct (malloc_if _ h3) as [[server|] h4]; cbn [fst snd] in H3;
    [|do 3 eexists; split_and!; [done| |by intros []]].
  2:{ unfold fp_ms. cbn in *. eapply own_perm; [|reflexivity|exact H3]. solve_Permutation. }
  destruct (st_port s); cbn [negb]; [|do 3 eexists; split_and!; [done| |by intros []]].
  2:{ unfold fp_ms. cbn in *. eapply own_perm; [|reflexivity|exact H3]. solve_Permutation. }
  allocate H3 as memory. allocate H3 as mutex. unfold start_cpu_server. rewrite Ht.
  allocate H3 as listen. allocate_list fp_thread H3. do 3 eexists. split; [done|].
  split; [|by split; eexists]. eapply own_perm; [|reflexivity|exact H3].
  unfold fp_ms, fp_listen. cbn. solve_Permutation.
Qed.

Lemma close_thread_owns i l h0 O h :
  own h0 (fp_threads l ++ O) h ->
  exists l' h', close_cpu_thread i l h = Ok (l', h') /\
    (hl_links l = [] \/ i <> 0%nat \/ hl_links l' = tail (hl_links l)) /\
    own h0 (fp_threads l' ++ O) h'.
Proof.
  intros H. unfold close_cpu_thread. destruct (hl_links l !! i) as [[link t]|] eqn:E.
  - destruct (list_remove_owns _ _ _ _ _ _ _ _ E H) as (l' & h1 & -> & El & H1).
    cbn [mbind res_bind].
    assert (own h0 (ct_socket_cpu t :: ct_self t :: fp_threads l' ++ O) h1) as H2
      by (eapply own_perm; [|reflexivity|exact H1]; cbn; solve_Permutation).
    destruct (free_releases _ _ _ _ H2) as (h2 & -> & H3). cbn [mbind res_bind].
    destruct (free_releases _ _ _ _ H3) as (h3 & -> & H4). exists l', h3. split_and!; [done| |done].
    rewrite El. destruct i; [|by auto]. destruct (hl_links l); [done|by auto].
  - unfold list_remove. rewrite E. exists l, h. split_and!; [done| |done].
    destruct i; [|by auto]. destruct (hl_links l); [by auto|done].
Qed.

Lemma all_leave_owns n l h0 O h :
  n = length (hl_links l) -> own h0 (fp_threads l ++ O) h ->
  exists l' h', all_leave n l h = Ok (l', h') /\ hl_links l' = [] /\ own h0 (fp_threads l' ++ O) h'.
Proof.
  revert l h. induction n as [|n IH]; intros l h Hn H; cbn [all_leave].
  - exists l, h. split_and!; [done| |done]. by apply nil_length_inv.
  - destruct (close_thread_owns 0 _ _ _ _ H) as (l' & h1 & -> & El & H1). cbn [mbind res_bind].
    apply IH; [|done]. destruct El as [El|[El|El]]; [by rewrite El in Hn|done|].
    rewrite El. destruct (hl_links l); [done|]. by injection Hn.
Qed.

Lemma close_listen_releases listen l :
  releases (close_listen_thread listen l) (fp_listen (mk_o_listen listen l)).
Proof.
  intros h0 O h H. unfold close_listen_thread.
  assert (own h0 (fp_threads l ++ listen :: O) h) as H0
    by (eapply own_perm; [|reflexivity|exact H]; unfold fp_listen; cbn; solve_Permutation).
  destruct (all_leave_owns _ l _ _ _ eq_refl H0) as (l' & h1 & -> & El & H1). cbn [mbind res_bind].
  assert (own h0 ((hl_self l' :: (hl_links l').*1) ++ listen :: O) h1) as H2
    by (unfold fp_hlist in H1; by rewrite El in *).
  destruct (list_destroy_releases l' _ _ _ H2) as (h2 & -> & H3). cbn [mbind res_bind].
  by apply free_releases.
Qed.

Definition tidy (e : t_event) : bool :=
  match e with E_bad_read n => bool_decide (n = 2%nat) | _ => true end.

Lemma joins_owns created socket l h0 O h :
  own h0 (socket :: fp_threads l ++ O) h ->
  exists ok l' h', handle_new_cpu created socket l h = Ok (ok, l', h') /\
    own h0 ((if (ok : bool) then [] else [socket]) ++ fp_threads l' ++ O) h'.
Proof.
  intros H. unfold handle_new_cpu. allocate H as self. cbn [app] in H.
  match type of H with own _ _ ?h1 =>
    change (own h0 (fp_thread (mk_o_cpu_thread self socket) ++ fp_threads l ++ O) h1) in H end.
  destruct created.
  - apply (list_add_owns fp_thread) in H. destruct (list_add l _ _) as [l' h']. by do 3 eexists.
  - destruct (list_add_then_remove _ _ _ _ _ _ H) as (l' & h1 & E & H1).
    destruct (list_add l _ _) as [l2 h2]. cbn [fst snd] in E. rewrite E. cbn [mbind res_bind].
    destruct (free_releases self _ _ _ H1) as (h3 & -> & H3). by do 3 eexists.
Qed.

Lemma event_owns e l h0 O h :
  tidy e = true -> own h0 (fp_threads l ++ O) h ->
  exists l' h', event e (l, h) = Ok (l', h') /\ own h0 (fp_threads l' ++ O) h'.
Proof.
  intros He H. destruct e as [| | |i|n]; cbn [event].
  - destruct (turned_away _ _ _ H) as (h' & E & H'). rewrite malloc_eq, E. by do 2 eexists.
  - allocate H as socket. destruct (joins_owns false _ _ _ _ _ H) as (ok & l' & h1 & -> & H1).
    cbn [mbind res_bind]. destruct ok; [by do 2 eexists|].
    destruct (free_releases _ _ _ _ H1) as (h2 & -> & H2). by do 2 eexists.
  - allocate H as socket. destruct (joins_owns true _ _ _ _ _ H) as (ok & l' & h1 & -> & H1).
    cbn [mbind res_bind]. destruct ok; [by do 2 eexists|].
    destruct (free_releases _ _ _ _ H1) as (h2 & -> & H2). by do 2 eexists.
  - destruct (close_thread_owns i _ _ _ _ H) as (l' & h' & -> & _ & H'). by do 2 eexists.
  - cbn in He. apply bool_decide_eq_true in He. rewrite decide_True by done. by do 2 eexists.
Qed.

Lemma events_own events l h0 O h :
  forallb tidy events = true -> own h0 (fp_threads l ++ O) h ->
  exists l' h', each event events (l, h) = Ok (l', h') /\ own h0 (fp_threads l' ++ O) h'.
Proof.
  revert l h. induction events as [|e events IH]; intros l h He H; [by do 2 eexists|].
  cbn [forallb each] in *. apply andb_true_iff in He as [He Hes].
  destruct (event_owns e _ _ _ _ He H) as (l' & h' & -> & H'). cbn [mbind res_bind]. by apply IH.
Qed.

Lemma close_module_releases ms listen l :
  is_Some (ms_logger ms) -> is_Some (ms_config ms) ->
  releases (close_module ms listen l) (fp_listen (mk_o_listen listen l) ++ fp_ms ms).
Proof.
  intros [logger El] [config Ec]. unfold close_module. rewrite El, Ec. cbn [deref mbind res_bind].
  eapply releases_perm.
  - apply releases_bind; [apply close_listen_releases|].
    do 2 (apply releases_bind; [apply free_if_releases|]).
    do 2 (apply releases_bind; [apply free_releases|]).
    apply releases_bind; apply free_if_releases.
  - unfold fp_ms. rewrite El, Ec. cbn [fp_option]. unfold fp_address at 3 4. solve_Permutation.
Qed.

(** ** What is claimed *)

(** Wherever its start fails, and whatever CPUs connect and leave before its end, a
    memory stick frees every object it allocated, exactly once, provided the
    thread of its server can be created and no CPU sends a malformed read. *)
Theorem stick_frees_everything s events h0 :
  st_thread s = true -> forallb tidy events = true -> main s events h0 = Ok h0.
Proof.
  intros Ht He. unfold main.
  assert (own h0 [] h0) as H by (split_and!; [constructor|set_solver|set_solver]).
  destruct (init_module_owns s _ _ _ Ht H) as (listen & ms & h1 & -> & H1 & Hs).
  cbn [mbind res_bind].
  assert (forall h, own h0 [] h -> h = h0) as Hend by (intros h (_ & _ & ->); set_solver).
  destruct listen as [[self l]|]; cbn [fp_option ln_self ln_socket_list] in *.
  - assert (own h0 (fp_threads l ++ self :: fp_ms ms ++ []) h1) as H2
      by (eapply own_perm; [|reflexivity|exact H1]; unfold fp_listen; cbn; solve_Permutation).
    destruct (events_own _ _ _ _ _ He H2) as (l' & h2 & -> & H3). cbn [mbind res_bind].
    assert (own h0 ((fp_listen (mk_o_listen self l') ++ fp_ms ms) ++ []) h2) as H4
      by (eapply own_perm; [|reflexivity|exact H3]; unfold fp_listen; cbn; solve_Permutation).
    destruct (Hs ltac:(by eexists)) as [Hl Hc].
    destruct (close_module_releases ms self l' Hl Hc _ _ _ H4) as (h3 & -> & H5). f_equal. by apply Hend.
  - destruct (close_on_error_releases ms _ _ _ H1) as (h2 & -> & H2). f_equal. by apply Hend.
Qed.

Lemma stick_frees_everything_witness :
  main (mk_start true true (Some true) true true true)
    [E_joins; E_refused; E_no_thread; E_joins; E_leaves 0; E_joins] {[7%positive]}
    = Ok {[7%positive]} /\
  main (mk_start true true (Some true) true false true) [] ∅ = Ok ∅.
Proof.
  split; (rewrite stick_frees_everything; [reflexivity|reflexivity|reflexivity]).
Defined.

(** A read with a missing element leaves its packet; so does the thread of the
    server its data, when it cannot be created. *)
Lemma malformed_read_leaks :
  main (mk_start true true (Some true) true true true) [E_joins; E_bad_read 1] ∅ <> Ok ∅.
Proof. vm_compute. discriminate. Qed.

Lemma server_thread_failure_leaks :
  main (mk_start true true (Some true) true true false) [] ∅ <> Ok ∅.
Proof. vm_compute. discriminate. Qed.
