(* ===== verification/CpuState.v ===== *)
(** * CpuState: cpu/src/cpu/registers.c, cpu.h, handlers.h and what the CPU's
      functions share

    The CPU's state: its sockets, the sticks it is connected to and the context
    of the process it runs; its register file. *)

From Stdlib Require Import Strings.Byte Strings.String.
From S2P Require Import Prelude Bytes Msg Text Structs.
From S2P Require Export StateM.

(** ** registers.c *)

Definition get_register (r : t_registers) (register_name : text) : Z :=
  if decide (register_name = txt "PC") then PC r else
  if decide (register_name = txt "AX") then AX r else
  if decide (register_name = txt "BX") then BX r else
  if decide (register_name = txt "CX") then CX r else
  if decide (register_name = txt "DX") then DX r else
  if decide (register_name = txt "EAX") then EAX r else
  if decide (register_name = txt "EBX") then EBX r else
  if decide (register_name = txt "ECX") then ECX r else
  if decide (register_name = txt "EDX") then EDX r else
  if decide (register_name = txt "SI") then SI r else
  if decide (register_name = txt "DI") then DI r else 0.

Definition set_PC v (r : t_registers) : t_registers :=
  mk_registers (AX r) (BX r) (CX r) (DX r) v (EAX r) (EBX r) (ECX r) (EDX r) (SI r) (DI r).

Definition set_register (r : t_registers) (register_name : text) (value : Z)
    : t_registers :=
  let '(mk_registers ax bx cx dx pc eax ebx ecx edx si di) := r in
  if decide (register_name = txt "PC")
  then mk_registers ax bx cx dx value eax ebx ecx edx si di else
  if decide (register_name = txt "AX")
  then mk_registers (u8 value) bx cx dx pc eax ebx ecx edx si di else
  if decide (register_name = txt "BX")
  then mk_registers ax (u8 value) cx dx pc eax ebx ecx edx si di else
  if decide (register_name = txt "CX")
  then mk_registers ax bx (u8 value) dx pc eax ebx ecx edx si di else
  if decide (register_name = txt "DX")
  then mk_registers ax bx cx (u8 value) pc eax ebx ecx edx si di else
  if decide (register_name = txt "EAX")
  then mk_registers ax bx cx dx pc value ebx ecx edx si di else
  if decide (register_name = txt "EBX")
  then mk_registers ax bx cx dx pc eax value ecx edx si di else
  if decide (register_name = txt "ECX")
  then mk_registers ax bx cx dx pc eax ebx value edx si di else
  if decide (register_name = txt "EDX")
  then mk_registers ax bx cx dx pc eax ebx ecx value si di else
  if decide (register_name = txt "SI")
  then mk_registers ax bx cx dx pc eax ebx ecx edx value di else
  if decide (register_name = txt "DI")
  then mk_registers ax bx cx dx pc eax ebx ecx edx si value else r.

(** ** cpu.h *)

Record t_memory_stick_info (T : Type) := mk_memory_stick_info {
  socket_ms : t_socket T;
  ms_size : Z;
  ms_offset : Z }.
Arguments mk_memory_stick_info {T} _ _ _.
Arguments socket_ms {T} _.
Arguments ms_size {T} _.
Arguments ms_offset {T} _.

(** [parameters] are those written, at most three. *)
Record t_instruction := mk_instruction { name : text; parameters : list text }.

Inductive t_extended_bool := EB_FALSE | EB_TRUE | EB_ERROR | EB_NO_TABLE.

#[export] Instance t_extended_bool_eq_dec : EqDecision t_extended_bool.
Proof. solve_decision. Defined.

(** The context: the entries of [segment_table] are buffers as received. *)
Record t_context := mk_context {
  registers : t_registers;
  segment_table : list buf;
  segment_changed : bool }.

(** [t_cpu] and the context it runs; [K], [U] and [T] are the transports to
    Kernel Memory, to the scheduler and to the sticks. *)
Record t_cpu (K U T : Type) := mk_cpu {
  cpu_id : text;
  socket_kernel_memory : t_socket K;
  socket_kernel_scheduler : t_socket U;
  cpu_max_segment_size : Z;
  memory_sticks : list (t_memory_stick_info T);
  context : t_context }.
Arguments mk_cpu {K U T} _ _ _ _ _ _.
Arguments cpu_id {K U T} _.
Arguments socket_kernel_memory {K U T} _.
Arguments socket_kernel_scheduler {K U T} _.
Arguments cpu_max_segment_size {K U T} _.
Arguments memory_sticks {K U T} _.
Arguments context {K U T} _.

Section state.
Context {K U T : Type}.
Implicit Types (c : t_cpu K U T).

Definition set_km s c : t_cpu K U T :=
  mk_cpu (cpu_id c) s (socket_kernel_scheduler c) (cpu_max_segment_size c)
    (memory_sticks c) (context c).
Definition set_ks s c : t_cpu K U T :=
  mk_cpu (cpu_id c) (socket_kernel_memory c) s (cpu_max_segment_size c)
    (memory_sticks c) (context c).
Definition set_max_segment_size n c : t_cpu K U T :=
  mk_cpu (cpu_id c) (socket_kernel_memory c) (socket_kernel_scheduler c) n
    (memory_sticks c) (context c).
Definition set_sticks f c : t_cpu K U T :=
  mk_cpu (cpu_id c) (socket_kernel_memory c) (socket_kernel_scheduler c)
    (cpu_max_segment_size c) (f (memory_sticks c)) (context c).
Definition set_context f c : t_cpu K U T :=
  mk_cpu (cpu_id c) (socket_kernel_memory c) (socket_kernel_scheduler c)
    (cpu_max_segment_size c) (memory_sticks c) (f (context c)).

Definition set_registers f (x : t_context) : t_context :=
  mk_context (f (registers x)) (segment_table x) (segment_changed x).
Definition set_segment_table l (x : t_context) : t_context :=
  mk_context (registers x) l (segment_changed x).
Definition set_segment_changed b (x : t_context) : t_context :=
  mk_context (registers x) (segment_table x) b.

(** ** Using a socket *)

Abbreviation C := (St (t_cpu K U T)).

Definition on_km {A} (f : t_socket K -> res (A * t_socket K)) : C A :=
  s ← gets socket_kernel_memory;
  '(a, s) ← lift (f s); _ ← modify (set_km s); mret a.

Definition on_ks {A} (f : t_socket U -> res (A * t_socket U)) : C A :=
  s ← gets socket_kernel_scheduler;
  '(a, s) ← lift (f s); _ ← modify (set_ks s); mret a.

Definition set_stick_socket (i : nat) s : list (t_memory_stick_info T) ->
    list (t_memory_stick_info T) :=
  alter (fun x => mk_memory_stick_info s (ms_size x) (ms_offset x)) i.

(** The socket of the stick at index [i] of the list. *)
Definition on_stick {A} (i : nat) (f : t_socket T -> res (A * t_socket T)) : C A :=
  sticks ← gets memory_sticks;
  stick ← lift (deref (sticks !! i));
  '(a, s) ← lift (f (socket_ms stick));
  _ ← modify (set_sticks (set_stick_socket i s)); mret a.

Definition registers_now : C t_registers := gets (fun c => registers (context c)).
Definition update_registers (f : t_registers -> t_registers) : C unit :=
  modify (set_context (set_registers f)).

(** A parameter that was never written is an indeterminate pointer. *)
Definition param (i : t_instruction) (n : nat) : C text :=
  lift (match parameters i !! n with Some p => Ok p | None => Undef Indeterminate end).
End state.

Abbreviation C K U T := (St (t_cpu K U T)).

(** ** The register file *)

Definition byte_registers : list text := [txt "AX"; txt "BX"; txt "CX"; txt "DX"].
Definition register_names : list text :=
  byte_registers ++ [txt "PC"; txt "EAX"; txt "EBX"; txt "ECX"; txt "EDX"; txt "SI"; txt "DI"].

(** What a register keeps of a value. *)
Definition register_value (n : text) (v : Z) : Z :=
  if decide (n ∈ byte_registers) then u8 v else v.

Ltac by_register H :=
  unfold register_names, byte_registers in H; cbn [app] in H;
  repeat (apply elem_of_cons in H as [-> | H]); [..|by apply elem_of_nil in H].

Lemma get_set_same r n v :
  n ∈ register_names -> get_register (set_register r n v) n = register_value n v.
Proof. intros H. destruct r. by_register H; reflexivity. Qed.

Lemma set_unknown r n v : n ∉ register_names -> set_register r n v = r.
Proof.
  intros Hn. destruct r. unfold set_register, register_names, byte_registers in *.
  cbn [app] in Hn. repeat (rewrite decide_False by (intros ->; set_solver)). done.
Qed.

Lemma get_unknown r n : n ∉ register_names -> get_register r n = 0.
Proof.
  intros Hn. unfold get_register, register_names, byte_registers in *.
  cbn [app] in Hn. repeat (rewrite decide_False by (intros ->; set_solver)). done.
Qed.

Lemma get_set_other r n n' v :
  n' ≠ n -> get_register (set_register r n v) n' = get_register r n'.
Proof.
  intros Hne. destruct (decide (n ∈ register_names)) as [H|H];
    [|by rewrite set_unknown].
  destruct r. by_register H; unfold get_register;
    repeat (case_decide; [by subst || reflexivity|]); reflexivity.
Qed.

Lemma set_register_wf r n v :
  registers_wf r -> in_u32 v -> registers_wf (set_register r n v).
Proof.
  intros [Hb Hw] Hv. destruct r. pose proof (u8_range v). unfold in_u32 in Hv.
  cbn in Hb, Hw. rewrite !Forall_cons in Hb; rewrite !Forall_cons in Hw; cbn beta in Hb, Hw.
  unfold set_register. repeat case_decide;
    (split; cbn; rewrite !Forall_cons; split_and!; (lia || apply Forall_nil_2)).
Qed.

Lemma get_register_range r n : registers_wf r -> in_u32 (get_register r n).
Proof.
  intros [Hb Hw]. destruct r. cbn in Hb, Hw. rewrite !Forall_cons in Hb; rewrite !Forall_cons in Hw; cbn beta in Hb, Hw.
  unfold get_register. repeat case_decide; cbn; ints; lia.
Qed.

(** C37: the register file: a write is read back, truncated to a byte by the
    8-bit registers; no other register changes; a name that is no register
    reads 0 and writing it does nothing; and registers stay in their widths. *)
Theorem register_file (r : t_registers) (n : text) (v : Z) :
  registers_wf r -> in_u32 v ->
  (n ∈ register_names -> get_register (set_register r n v) n = register_value n v) /\
  (forall n', n' ≠ n -> get_register (set_register r n v) n' = get_register r n') /\
  (n ∉ register_names -> set_register r n v = r /\ get_register r n = 0) /\
  registers_wf (set_register r n v) /\ in_u32 (get_register r n).
Proof.
  intros Hr Hv. split_and!; [by apply get_set_same|intros; by apply get_set_other| | |].
  - intros Hn. by rewrite set_unknown, get_unknown.
  - by apply set_register_wf.
  - by apply get_register_range.
Qed.

Lemma register_file_witness :
  let r := zero_registers in let n := txt "AX" in
  (n ∈ register_names -> get_register (set_register r n 300) n = register_value n 300) /\
  (forall n', n' ≠ n -> get_register (set_register r n 300) n' = get_register r n') /\
  (n ∉ register_names -> set_register r n 300 = r /\ get_register r n = 0) /\
  registers_wf (set_register r n 300) /\ in_u32 (get_register r n).
Proof.
  apply (register_file zero_registers (txt "AX") 300);
    [repeat constructor; done|done].
Defined.
