(* ===== verification/CpuConnect.v ===== *)
(** * CpuConnect: cpu/src/cpu/connections.c and kernel_memory_protocol.c

    The CPU's connections: the handshakes with the scheduler and Kernel Memory,
    the sticks Kernel Memory announces, and the loop that waits for a reply of
    Kernel Memory while it keeps announcing sticks.  [open_client] is
    [socket_create] of a client socket: whether the operating system connects
    to an address. *)

From Stdlib Require Import Strings.Byte Strings.String.
From S2P Require Import Prelude Bytes Msg Text Structs Fueled CpuState.

Section connections.
Context {K U T : Type} `{!Transport K, !Transport U, !Transport T}.
Context (open_km : text -> text -> t_socket K).
Context (open_ks : text -> text -> t_socket U).
Context (open_client : text -> text -> t_socket T).
Implicit Types (sticks : list (t_memory_stick_info T)).

(** ** connections.c *)

(** The handshake of [connect_to_kernel_scheduler] and
    [connect_to_kernel_memory]: the outcome of sending is only logged. *)
Definition handshake_with {X} `{!Transport X} (server : t_module_id) (s : t_socket X)
    : res (bool * t_socket X) :=
  '(_, s) ← send_handshake MID_CPU s;
  '(module_id, s) ← receive_handshake s;
  if decide (module_id ≠ server) then Ok (false, socket_close s) else Ok (true, s).

(** Both take the address from the configuration. *)
Definition connect_to_kernel_scheduler (config : t_properties) : C K U T bool :=
  ip ← lift (deref (config_get_string_value config (txt "KERNEL_SCHEDULER_IP")));
  port ← lift (deref (config_get_string_value config (txt "KERNEL_SCHEDULER_PORT")));
  _ ← modify (set_ks (open_ks ip port));
  on_ks (handshake_with MID_KERNEL_SCHEDULER).

Definition connect_to_kernel_memory (config : t_properties) : C K U T bool :=
  ip ← lift (deref (config_get_string_value config (txt "KERNEL_MEMORY_IP")));
  port ← lift (deref (config_get_string_value config (txt "KERNEL_MEMORY_PORT")));
  _ ← modify (set_km (open_km ip port));
  on_km (handshake_with MID_KERNEL_MEMORY).

Definition compute_offset sticks : Z :=
  foldl (fun offset stick => u32 (offset + ms_size stick)) 0 sticks.

Definition handshake_memory_stick (new_socket : t_socket T) : res (bool * t_socket T) :=
  '(sent, s) ← send_handshake MID_CPU new_socket;
  if negb sent then Ok (false, socket_close s) else
  '(module_id, s) ← receive_handshake s;
  if decide (module_id ≠ MID_MEMORY_STICK) then Ok (false, socket_close s)
  else Ok (true, s).

Definition notify_bsod : C K U T unit :=
  _ ← on_km (send_string OP_STICK_DISCONNECTED (lit "MS disconnected")); mret tt.

(** ** kernel_memory_protocol.c *)

Definition receive_max_segment_size : C K U T bool :=
  op_code ← on_km receive_op_code;
  '(buffer, _) ← on_km receive_buffer;
  if decide (op_code = op_value OP_MAX_SEGMENT_SIZE) then
    buffer ← lift (deref buffer);
    n ← lift (read_u32 buffer 0);
    _ ← modify (set_max_segment_size n); mret true
  else mret false.

(** [strcpy] into an array of [n] bytes. *)
Definition strcpy (n : nat) (src : buf) : res text :=
  src ← defined src; t ← str_read src;
  if decide (length t < n)%nat then Ok t else Undef OutOfBounds.

(** The address and the size of the stick, unless the packet has not three
    fields. *)
Definition parse_stick_packet (packet : list buf) : res (option (text * text * Z)) :=
  match packet with
  | [f0; f1; f2] =>
      stick_ip ← strcpy 16 f0; stick_port ← strcpy 6 f1; size ← read_u32 f2 0;
      Ok (Some (stick_ip, stick_port, size))
  | _ => Ok None
  end.

Definition connect_memory_stick : C K U T bool :=
  packet ← on_km receive_packet;
  fields ← lift (parse_stick_packet packet);
  match fields with
  | None => mret false
  | Some (stick_ip, stick_port, received_size) =>
      match open_client stick_ip stick_port with
      | None => mret false
      | Some h =>
          '(ok, s) ← lift (handshake_memory_stick (Some h));
          if negb ok then mret false else
          id ← gets cpu_id;
          '(sent, s) ← lift (send_string OP_ID_CPU (id ++ [x00]) s);
          if negb sent then mret false else
          _ ← modify (set_sticks (fun sticks =>
            sticks ++ [mk_memory_stick_info s received_size (compute_offset sticks)]));
          mret true
      end
  end.

(** One round of [listen_kernel_memory]: [None] goes on, [Some] returns. *)
Definition listen_kernel_memory_step : C K U T (option bool) :=
  op_code ← on_km receive_op_code;
  match op_of_value op_code with
  | Some OP_SEGMENT_TABLE | Some OP_SEND_CONTEXT | Some OP_SEND_INSTRUCTION =>
      mret (Some true)
  | Some OP_PACKET =>
      ok ← connect_memory_stick; mret (if (ok : bool) then None else Some false)
  | _ => mret (Some false)
  end.

Fixpoint listen_kernel_memory (fuel : nat) : C K U T bool :=
  match fuel with
  | O => lift (Undef OutOfFuel)
  | S fuel =>
      result ← listen_kernel_memory_step;
      match result with Some b => mret b | None => listen_kernel_memory fuel end
  end.
End connections.

(** ** The sticks a CPU knows *)

(** Each stick starts where the one before it ends; the total fits an address. *)
Fixpoint contiguous {T} (offset : Z) (sticks : list (t_memory_stick_info T)) : Prop :=
  match sticks with
  | [] => True
  | s :: r => ms_offset s = offset /\ 0 <= ms_size s /\ contiguous (offset + ms_size s) r
  end.

Definition total_sticks {T} (sticks : list (t_memory_stick_info T)) : Z :=
  sum_with ms_size sticks.

Lemma contiguous_sizes {T} o (sticks : list (t_memory_stick_info T)) :
  contiguous o sticks -> Forall (fun s => 0 <= ms_size s) sticks.
Proof.
  revert o. induction sticks as [|s sticks IH]; intros o; cbn; [done|].
  intros (_ & H & Hc). constructor; eauto.
Qed.

Lemma contiguous_app {T} o (s1 s2 : list (t_memory_stick_info T)) :
  contiguous o (s1 ++ s2) <->
  contiguous o s1 /\ contiguous (o + total_sticks s1) s2.
Proof.
  revert o. induction s1 as [|s s1 IH]; intros o; unfold total_sticks in *; cbn.
  - rewrite Z.add_0_r. naive_solver.
  - rewrite IH. replace (o + ms_size s + sum_with ms_size s1)
      with (o + (ms_size s + sum_with ms_size s1)) by lia. naive_solver.
Qed.

Lemma compute_offset_total {T} (sticks : list (t_memory_stick_info T)) :
  compute_offset sticks = u32 (total_sticks sticks).
Proof.
  unfold compute_offset, total_sticks.
  assert (forall a, foldl (fun o (s : t_memory_stick_info T) => u32 (o + ms_size s)) (u32 a)
                      sticks = u32 (a + sum_with ms_size sticks)) as H.
  { induction sticks as [|s sticks IH]; intros a; cbn; [by rewrite Z.add_0_r|].
    replace (u32 (u32 a + ms_size s)) with (u32 (a + ms_size s))
      by (unfold u32; by rewrite Zplus_mod_idemp_l).
    rewrite IH. f_equal. lia. }
  apply (H 0).
Qed.

(** A stick added where [connect_memory_stick] puts it. *)
Lemma contiguous_add {T} (sticks : list (t_memory_stick_info T)) s n :
  contiguous 0 sticks -> 0 <= n -> total_sticks sticks <= UINT32_MAX ->
  contiguous 0 (sticks ++ [mk_memory_stick_info s n (compute_offset sticks)]).
Proof.
  intros Hc Hn Ht. apply contiguous_app. split; [done|]. cbn.
  rewrite compute_offset_total. split; [|done].
  apply u32_id. split; [|done]. apply sum_with_nonneg. by eapply contiguous_sizes.
Qed.

(** ** Waiting for Kernel Memory *)

Lemma fueled_parse_stick_packet packet : fueled (parse_stick_packet packet).
Proof. unfold parse_stick_packet, strcpy, str_read. fueled. Qed.
#[export] Hint Resolve fueled_parse_stick_packet : fueled.

Section listening.
Context {U T : Type} `{!Transport U, !Transport T}.
Context (open_client : text -> text -> t_socket T).
Implicit Types (c : t_cpu wire U T) (w : wire).

(** A call that keeps the connection and reads no less than it did. *)
Lemma on_km_reads {A} (f : t_socket wire -> res (A * t_socket wire)) c w :
  socket_kernel_memory c = Some w -> reads 0 w (f (Some w)) ->
  match on_km f c with
  | Ok (_, c') => exists w', c' = set_km (Some w') c /\ (length (rx w') <= length (rx w))%nat
  | Undef u => u ≠ OutOfFuel
  end.
Proof.
  intros Hs Hf. unfold on_km. run_M. rewrite Hs, lift_M.
  destruct (f (Some w)) as [[a s]|u]; [|done]. destruct Hf as (w' & -> & Hw).
  run_M. exists w'. split; [done|lia].
Qed.

Lemma connect_memory_stick_reads c w :
  socket_kernel_memory c = Some w ->
  match connect_memory_stick open_client c with
  | Ok (_, c') => exists w', socket_kernel_memory c' = Some w' /\
                    (length (rx w') <= length (rx w))%nat
  | Undef u => u ≠ OutOfFuel
  end.
Proof.
  intros Hs. unfold connect_memory_stick. rewrite bind_M.
  pose proof (on_km_reads receive_packet c w Hs (receive_packet_reads w)) as H.
  destruct (on_km _ c) as [[packet c1]|u]; [|done]. destruct H as (w1 & -> & Hw).
  run_M. rewrite lift_M. pose proof (fueled_parse_stick_packet packet) as Hp.
  destruct (parse_stick_packet packet) as [[[[ip port] n]|]|u]; [| |congruence];
    run_M; [|by exists w1].
  destruct (open_client ip port) as [h|]; run_M; [|by exists w1].
  rewrite lift_M. assert (fueled (handshake_memory_stick (Some h))) as Hh
    by (unfold handshake_memory_stick; fueled).
  destruct (handshake_memory_stick _) as [[[] s]|u]; [| |congruence];
    run_M; cbn [negb]; [|by exists w1].
  run_M. rewrite lift_M. pose proof (fueled_send_string OP_ID_CPU (cpu_id c ++ [x00]) s) as Hi.
  cbn [set_km cpu_id]. destruct (send_string _ _ s) as [[[] s']|u]; [| |congruence];
    run_M; cbn [negb]; by exists w1.
Qed.

Lemma listen_kernel_memory_step_progress c w :
  socket_kernel_memory c = Some w ->
  match listen_kernel_memory_step open_client c with
  | Ok (None, c') => exists w', socket_kernel_memory c' = Some w' /\
                       (length (rx w') < length (rx w))%nat
  | Ok (Some _, _) => True
  | Undef u => u ≠ OutOfFuel
  end.
Proof.
  intros Hs. unfold listen_kernel_memory_step, on_km. rewrite bind_M. run_M.
  rewrite Hs, lift_M.
  destruct (receive_op_code_reads w) as [(z & -> & Hz)| ->]; [|done]. run_M.
  destruct (op_of_value z) as [o|] eqn:Eo; [|done].
  destruct (decide (o = OP_PACKET)) as [->|Hne]; [|by destruct o].
  rewrite bind_M. set (c1 := set_km _ c).
  pose proof (connect_memory_stick_reads c1 _ eq_refl) as H. cbn [rx] in H.
  destruct (connect_memory_stick open_client c1) as [[[] c2]|u]; [|done|done].
  destruct H as (w' & E & Hw). exists w'. split; [done|].
  rewrite length_drop in Hw. destruct (rx w) eqn:Er; [|cbn [length] in *; lia].
  rewrite Hz in Eo by done. done.
Qed.

(** waiting for a reply of Kernel Memory ends: the loop that connects to
    announced sticks meanwhile returns after at most one round per four bytes
    sent, also when Kernel Memory hangs up. *)
Theorem listen_kernel_memory_terminates c w :
  socket_kernel_memory c = Some w ->
  listen_kernel_memory open_client (S (length (rx w))) c ≠ Undef OutOfFuel.
Proof.
  cut (forall fuel c w, socket_kernel_memory c = Some w -> (length (rx w) < fuel)%nat ->
         listen_kernel_memory open_client fuel c ≠ Undef OutOfFuel).
  { intros H Hs. apply (H _ c w Hs). lia. }
  clear. intros fuel. induction fuel as [|fuel IH]; intros c w Hs Hf; [lia|].
  cbn [listen_kernel_memory]. rewrite bind_M.
  pose proof (listen_kernel_memory_step_progress c w Hs) as H.
  destruct (listen_kernel_memory_step open_client c) as [[[b|] c']|u]; [done| |congruence].
  destruct H as (w' & Hs' & Hw). apply (IH c' w'); [done|lia].
Qed.
End listening.

(** ** A stick is announced and joins *)

(** A stick that answers the handshake. *)
Definition greeting : wire := mk_wire (frame OP_HANDSHAKE (lit "memory_stick")) [] true.

Definition announcement (ip port : string) (size : Z) : list byte :=
  frame OP_PACKET (elements [lit ip; lit port; int_bytes size]).

Definition new_cpu (km : wire) : t_cpu wire wire wire :=
  mk_cpu (txt "1") (Some km) (Some (mk_wire [] [] true)) 64 []
    (mk_context zero_registers [] false).

Definition two_announcements : wire :=
  mk_wire (announcement "10.0.0.1" "9001" 32 ++ announcement "10.0.0.2" "9002" 16
           ++ int_bytes (op_value OP_SEND_CONTEXT)) [] true.

Example sticks_join :
  (let r := listen_kernel_memory (fun _ _ => Some greeting) 3 (new_cpu two_announcements) in
   match r with
   | Ok (b, c) => Some (b, (fun s => (ms_size s, ms_offset s)) <$> memory_sticks c)
   | Undef _ => None
   end) = Some (true, [(32, 0); (16, 32)]).
Proof. vm_compute. reflexivity. Qed.

Lemma listen_kernel_memory_terminates_witness :
  listen_kernel_memory (fun _ _ => Some greeting) (S (length (rx two_announcements)))
    (new_cpu two_announcements) ≠ Undef OutOfFuel.
Proof. apply (listen_kernel_memory_terminates _ (new_cpu two_announcements)). done. Defined.

(** ** What listening changes *)

Section joining.
Context {K U T : Type} `{!Transport K, !Transport U, !Transport T}.
Context (open_client : text -> text -> t_socket T).
Implicit Types (c : t_cpu K U T).

(** Sticks are only added at the end; the process's context stays. *)
Record joined (c c' : t_cpu K U T) : Prop := {
  jn_sticks : exists new, memory_sticks c' = memory_sticks c ++ new /\
    Forall (fun s => in_u32 (ms_size s)) new;
  jn_contiguous : contiguous 0 (memory_sticks c) ->
    total_sticks (memory_sticks c') <= UINT32_MAX -> contiguous 0 (memory_sticks c');
  jn_context : context c' = context c;
  jn_id : cpu_id c' = cpu_id c;
  jn_max : cpu_max_segment_size c' = cpu_max_segment_size c;
  jn_scheduler : socket_kernel_scheduler c' = socket_kernel_scheduler c }.

Lemma total_sticks_app (s1 s2 : list (t_memory_stick_info T)) :
  total_sticks (s1 ++ s2) = total_sticks s1 + total_sticks s2.
Proof. apply sum_with_app. Qed.

Lemma joined_km s c : joined c (set_km s c).
Proof. split; try done. exists []. by rewrite app_nil_r. Qed.

Lemma joined_add c s n :
  in_u32 n ->
  joined c (set_sticks (fun l => l ++ [mk_memory_stick_info s n (compute_offset l)]) c).
Proof.
  intros Hn. split; try done; cbn [set_sticks memory_sticks].
  - eexists. split; [done|]. by apply Forall_singleton.
  - unfold in_u32 in Hn. intros Hc Ht. apply contiguous_add; [done|lia|].
    rewrite total_sticks_app in Ht. unfold total_sticks at 2 in Ht. cbn in Ht. lia.
Qed.

#[export] Instance joined_trans : Transitive joined.
Proof.
  intros c1 c2 c3 [(n1 & E1 & F1) C1 X1 I1 M1 S1] [(n2 & E2 & F2) C2 X2 I2 M2 S2].
  split; [|intros Hc Ht; apply C2; [apply C1|]; try done|congruence..].
  - exists (n1 ++ n2). rewrite E2, E1, app_assoc. split; [done|]. by apply Forall_app.
  - rewrite E2, total_sticks_app in Ht. assert (0 <= total_sticks n2); [|lia].
    apply sum_with_nonneg. eapply Forall_impl; [exact F2|]. intros x Hx.
    unfold in_u32 in Hx. lia.
Qed.

Lemma on_km_joined {A} (f : t_socket K -> res (A * t_socket K)) c a c' :
  on_km f c = Ok (a, c') -> exists s, c' = set_km s c.
Proof.
  unfold on_km. run_M. rewrite lift_M. destruct (f _) as [[a' s]|u]; [|done].
  run_M. intros [= <- <-]. by eexists.
Qed.

Lemma parse_stick_packet_size packet ip port n :
  parse_stick_packet packet = Ok (Some (ip, port, n)) -> in_u32 n.
Proof.
  intros H. destruct packet as [|f0 [|f1 [|f2 []]]]; try done. cbn in H.
  inv_bind H as x1 E1. inv_bind H as x2 E2. inv_bind H as x3 E3.
  apply read_u32_range in E3. by simplify_eq.
Qed.

Lemma connect_memory_stick_joined c b c' :
  connect_memory_stick open_client c = Ok (b, c') -> joined c c'.
Proof.
  intros H. unfold connect_memory_stick in H.
  inv_M H as packet c1 E1. apply on_km_joined in E1 as [s1 ->].
  inv_M H as fields c2 E2. apply lift_Ok in E2 as [Ef ->].
  destruct fields as [[[ip port] n]|]; [|run_M_in H; simplify_eq; apply joined_km].
  destruct (open_client ip port); [|run_M_in H; simplify_eq; apply joined_km].
  inv_M H as [ok s2] c3 E3. apply lift_Ok in E3 as [_ ->].
  destruct ok; cbn [negb] in H; [|run_M_in H; simplify_eq; apply joined_km].
  inv_M H as i c4 E4. rewrite gets_M in E4. simplify_eq.
  inv_M H as [sent s3] c5 E5. apply lift_Ok in E5 as [_ ->].
  destruct sent; cbn [negb] in H; run_M_in H; simplify_eq; [|apply joined_km].
  etransitivity; [apply joined_km|apply joined_add].
  by eapply parse_stick_packet_size.
Qed.

(** whatever Kernel Memory sends while the CPU waits, sticks only join at
    the end of the list, each at the offset where the previous one ends as long
    as the total fits an address; and the running process's context does not
    change. *)
Theorem listen_kernel_memory_joins (fuel : nat) c b c' :
  listen_kernel_memory open_client fuel c = Ok (b, c') -> joined c c'.
Proof.
  revert c. induction fuel as [|fuel IH]; intros c H; [done|].
  cbn [listen_kernel_memory] in H. inv_M H as r c1 E.
  assert (joined c c1) as Hj.
  { unfold listen_kernel_memory_step in E. inv_M E as op c2 E2.
    apply on_km_joined in E2 as [s ->].
    destruct (op_of_value op) as [o|]; [|run_M_in E; simplify_eq; apply joined_km].
    destruct (decide (o = OP_PACKET)) as [->|Hne];
      [|destruct o; run_M_in E; try done; simplify_eq; apply joined_km].
    inv_M E as ok c3 E3. run_M_in E. simplify_eq.
    etransitivity; [apply joined_km|by eapply connect_memory_stick_joined]. }
  destruct r; [run_M_in H; by simplify_eq|].
  etransitivity; [done|by eapply IH].
Qed.
End joining.

Lemma listen_kernel_memory_joins_witness :
  let run := listen_kernel_memory (fun _ _ => Some greeting) 3 (new_cpu two_announcements) in
  exists c', run = Ok (true, c') /\ joined (new_cpu two_announcements) c'.
Proof.
  set (run := listen_kernel_memory _ _ _).
  destruct run as [[[] c']|] eqn:E; [|vm_compute in E; discriminate E..].
  exists c'. split; [done|]. exact (listen_kernel_memory_joins _ _ _ _ _ E).
Defined.
