(* ===== verification/CpuMemory.v ===== *)
(** * CpuMemory: cpu/src/cpu/memory.c

    The CPU's side of memory: translation of a logical address with the
    process's segment table, and transfers that span the connected sticks. *)

From Stdlib Require Import Strings.Byte Strings.String.
From S2P Require Import Prelude Bytes Msg Text Structs Peer MemoryStick.
From S2P Require Import CpuState CpuConnect.

Definition INVALID_ADDRESS : Z := UINT32_MAX.

(** The table's entries are the elements of the packet as they came. *)
Fixpoint find_segment_by_id (segment_table : list buf) (segment_number : Z)
    : res (option buf) :=
  match segment_table with
  | [] => Ok None
  | segment :: r =>
      id ← read_u32 segment 0;
      if decide (id = segment_number) then Ok (Some segment)
      else find_segment_by_id r segment_number
  end.

Section memory.
Context {K U T : Type} `{!Transport K, !Transport U, !Transport T}.

Definition notify_seg_fault : C K U T bool :=
  on_ks (send_string OP_SEG_FAULT (lit "SEGMENTATION FAULT")).

(** The [int] fields of the segment are converted to [uint32_t]. *)
Definition mmu (logical_address size : Z) : C K U T Z :=
  max ← gets cpu_max_segment_size;
  if decide (max = 0) then lift (Undef DivByZero) else
  let segment_number := logical_address / max in
  let offset := logical_address mod max in
  table ← gets (fun c => segment_table (context c));
  segment ← lift (find_segment_by_id table segment_number);
  match segment with
  | None => mret (INVALID_ADDRESS - 1)
  | Some segment =>
      seg_size ← lift (read_u32 segment 12);
      if decide (seg_size < u32 (offset + size)) then
        sent ← notify_seg_fault;
        mret (if (sent : bool) then INVALID_ADDRESS else INVALID_ADDRESS - 1)
      else base ← lift (read_u32 segment 8); mret (u32 (base + offset))
  end.

(** The stick and its index in the list. *)
Fixpoint find_stick (i : nat) (sticks : list (t_memory_stick_info T))
    (physical_address : Z) : option (nat * t_memory_stick_info T) :=
  match sticks with
  | [] => None
  | stick :: r =>
      if decide (ms_offset stick <= physical_address /\
                 physical_address < u32 (ms_offset stick + ms_size stick))
      then Some (i, stick) else find_stick (S i) r physical_address
  end.

(** [if (!send_packet(...)) notify_bsod] of both requests. *)
Definition send_request (i : nat) (packet : t_packet) : C K U T bool :=
  sent ← on_stick i (fun s => Ok (send_packet packet s));
  if (sent : bool) then mret true else _ ← notify_bsod; mret false.

Definition request_read (i : nat) (address_in_stick bytes_to_read : Z) : C K U T bool :=
  send_request i (packet_append (packet_append (create_packet OP_MEMORY_STICK_READ)
    (int_bytes address_in_stick)) (int_bytes bytes_to_read)).

Definition receive_read_response (i : nat) : C K U T (option buf) :=
  op_code ← on_stick i receive_op_code;
  if decide (op_code = op_value OP_MEMORY_STICK_READ_DONE)
  then on_stick i receive_string
  else _ ← notify_bsod; mret None.

Definition request_write (i : nat) (address_in_stick : Z) (data : list byte)
    (bytes_to_write : Z) : C K U T bool :=
  send_request i (packet_append (packet_append (packet_append
    (create_packet OP_MEMORY_STICK_WRITE) (int_bytes address_in_stick)) data)
    (int_bytes bytes_to_write)).

Definition receive_write_response (i : nat) : C K U T bool :=
  op_code ← on_stick i receive_op_code;
  _ ← on_stick i receive_string;
  if decide (op_code = op_value OP_MEMORY_STICK_WRITE_DONE) then mret true
  else if decide (op_code = op_value OP_CODE_ERROR)
  then _ ← notify_bsod; mret false
  else mret false.

(** What this stick transfers of the [remaining] bytes. *)
Definition transfer_size (stick : t_memory_stick_info T)
    (address_in_stick remaining : Z) : Z :=
  let available_bytes := u32 (ms_size stick - address_in_stick) in
  if decide (available_bytes < remaining) then available_bytes else remaining.

(** The loop of [read_memory]; [result] holds the [read_bytes] first bytes. *)
Fixpoint read_loop (fuel : nat) (physical_address size read_bytes : Z) (result : buf)
    : C K U T (option buf) :=
  if decide (size <= read_bytes) then mret (Some result) else
  match fuel with
  | O => lift (Undef OutOfFuel)
  | S fuel =>
      let address := u32 (physical_address + read_bytes) in
      sticks ← gets memory_sticks;
      match find_stick 0 sticks address with
      | None => mret None
      | Some (i, stick) =>
          let address_in_stick := u32 (address - ms_offset stick) in
          let bytes_to_read :=
            transfer_size stick address_in_stick (u32 (size - read_bytes)) in
          ok ← request_read i address_in_stick bytes_to_read;
          if negb ok then mret None else
          partial_read ← receive_read_response i;
          match partial_read with
          | None => mret None
          | Some partial_read =>
              if decide (l_size partial_read < bytes_to_read)
              then lift (Undef OutOfBounds) else
              read_loop fuel physical_address size (u32 (read_bytes + bytes_to_read))
                (result ++ take (Z.to_nat bytes_to_read) partial_read)
          end
      end
  end.

(** Every round transfers at least one byte. *)
Definition read_memory (physical_address size : Z) : C K U T (option buf) :=
  read_loop (Z.to_nat size) physical_address size 0 [].

(** [rest] is the data from [data_to_write + written_bytes] on. *)
Fixpoint write_loop (fuel : nat) (physical_address : Z) (rest : buf)
    (size written_bytes : Z) : C K U T bool :=
  if decide (size <= written_bytes) then mret true else
  match fuel with
  | O => lift (Undef OutOfFuel)
  | S fuel =>
      let address := u32 (physical_address + written_bytes) in
      sticks ← gets memory_sticks;
      match find_stick 0 sticks address with
      | None => mret false
      | Some (i, stick) =>
          let address_in_stick := u32 (address - ms_offset stick) in
          let bytes_to_write :=
            transfer_size stick address_in_stick (u32 (size - written_bytes)) in
          if decide (l_size rest < bytes_to_write) then lift (Undef OutOfBounds) else
          data ← lift (defined (take (Z.to_nat bytes_to_write) rest));
          ok ← request_write i address_in_stick data bytes_to_write;
          if negb ok then mret false else
          ok ← receive_write_response i;
          if negb ok then mret false else
          write_loop fuel physical_address (drop (Z.to_nat bytes_to_write) rest) size
            (u32 (written_bytes + bytes_to_write))
      end
  end.

Definition write_memory (physical_address : Z) (data_to_write : buf) (size : Z)
    : C K U T bool :=
  write_loop (Z.to_nat size) physical_address data_to_write size 0.
End memory.

(** ** The connected sticks as one memory *)

Section one_memory.
Context {K U T : Type} `{!Transport K, !Transport U, !Transport T, !Stick T}.
Implicit Types (c : t_cpu K U T) (st : t_memory_stick_info T).
Implicit Types (sticks : list (t_memory_stick_info T)).
Implicit Types (mem : list byte) (mems : list (list byte)).

(** A stick that is idle and holds [mem], known with its size. *)
Definition cpu_stick_ok st mem : Prop :=
  ms_size st = l_size mem /\ 0 < l_size mem <= INT_MAX - 100 /\
  exists h, socket_ms st = Some h /\ stick_holds h mem.

Record cpu_sticks_ok sticks mems : Prop := {
  cs_each : Forall2 cpu_stick_ok sticks mems;
  cs_contiguous : contiguous 0 sticks;
  cs_total : l_size (concat mems) <= UINT32_MAX }.

Definition with_sticks sticks c : t_cpu K U T := set_sticks (fun _ => sticks) c.

Lemma with_sticks_twice l1 l2 c : with_sticks l1 (with_sticks l2 c) = with_sticks l1 c.
Proof. done. Qed.

(** The stick that holds byte [pa]. *)
Record cpu_located sticks mems (pa : Z) (n : nat) st : Prop := {
  cl_split : exists s1 s2 m1 mem m2,
    sticks = s1 ++ st :: s2 /\ mems = m1 ++ mem :: m2 /\
    length s1 = length m1 /\ n = length s1 /\ cpu_stick_ok st mem /\
    ms_offset st = l_size (concat m1) /\
    ms_offset st <= pa < ms_offset st + l_size mem }.

Lemma cpu_find_stick_from_ok i base sticks mems pa :
  Forall2 cpu_stick_ok sticks mems -> contiguous base sticks -> 0 <= base ->
  base + l_size (concat mems) <= UINT32_MAX ->
  base <= pa < base + l_size (concat mems) ->
  exists s1 st s2 m1 mem m2, find_stick i sticks pa = Some (i + length s1, st)%nat /\
    sticks = s1 ++ st :: s2 /\ mems = m1 ++ mem :: m2 /\ length s1 = length m1 /\
    cpu_stick_ok st mem /\ ms_offset st = base + l_size (concat m1) /\
    ms_offset st <= pa < ms_offset st + l_size mem.
Proof.
  intros H. revert i base. induction H as [|st mem sticks mems Hst H IH];
    intros i base Hc Hb Ht Hpa; cbn [concat] in *.
  { unfold l_size in Hpa. cbn in Hpa. lia. }
  destruct Hc as (Eo & _ & Hc). rewrite l_size_app in *.
  pose proof (l_size_nonneg (concat mems)).
  pose proof Hst as (Es & Hm & _). cbn [find_stick]. rewrite Eo, Es.
  rewrite (u32_id (base + l_size mem)) by lia. case_decide as Hd.
  - exists [], st, sticks, [], mem, mems. rewrite Nat.add_0_r.
    change (l_size (concat [])) with 0. split_and!; done || lia.
  - destruct (IH (S i) (base + l_size mem)) as
      (s1 & st' & s2 & m1 & mem' & m2 & -> & -> & -> & Hl & Hok & Ho & Hr);
      [by rewrite <- Es|lia..|].
    exists (st :: s1), st', s2, (mem :: m1), mem', m2.
    cbn [concat length]. rewrite l_size_app.
    split_and!; try done; [|lia|lia..]. by rewrite Nat.add_succ_r.
Qed.

Lemma cpu_find_stick_ok sticks mems pa :
  cpu_sticks_ok sticks mems -> 0 <= pa < l_size (concat mems) ->
  exists n st, find_stick 0 sticks pa = Some (n, st) /\ cpu_located sticks mems pa n st.
Proof.
  intros [H Hc Ht] Hpa.
  destruct (cpu_find_stick_from_ok 0 0 sticks mems pa H Hc)
    as (s1 & st & s2 & m1 & mem & m2 & -> & E1 & E2 & Hl & Hok & Ho & Hr); [lia..|].
  eexists _, st. split; [done|]. constructor. exists s1, s2, m1, mem, m2.
  split_and!; done || lia.
Qed.

(** Replacing the stick in the middle by one of the same size. *)
Lemma cpu_sticks_replace s1 st s2 m1 mem m2 st' mem' :
  length s1 = length m1 ->
  cpu_sticks_ok (s1 ++ st :: s2) (m1 ++ mem :: m2) -> cpu_stick_ok st' mem' ->
  ms_size st' = ms_size st -> ms_offset st' = ms_offset st -> l_size mem' = l_size mem ->
  cpu_sticks_ok (s1 ++ st' :: s2) (m1 ++ mem' :: m2).
Proof.
  intros Hl [H Hc Ht] Hst Es Eo Em.
  apply Forall2_app_inv in H as [H1 H2]; [|done]. inversion H2; subst. split.
  - apply Forall2_app; [done|]. by constructor.
  - apply contiguous_app in Hc as [Hc1 Hc2]. apply contiguous_app. split; [done|].
    cbn in *. by rewrite Es, Eo.
  - rewrite concat_app in *. cbn [concat] in *. rewrite !l_size_app in *. lia.
Qed.

(** ** One request *)

Definition with_socket st s : t_memory_stick_info T :=
  mk_memory_stick_info s (ms_size st) (ms_offset st).

Lemma on_stick_middle {A} c s1 st s2 (f : t_socket T -> res (A * t_socket T)) :
  memory_sticks c = s1 ++ st :: s2 ->
  on_stick (length s1) f c
  = match f (socket_ms st) with
    | Ok (a, s) => Ok (a, with_sticks (s1 ++ with_socket st s :: s2) c)
    | Undef u => Undef u
    end.
Proof.
  intros E. unfold on_stick. run_M. rewrite E, list_lookup_middle by done.
  cbn [deref]. rewrite lift_M. run_M. rewrite lift_M.
  destruct (f (socket_ms st)) as [[a s]|u]; [|done]. run_M.
  unfold set_sticks, with_sticks, set_stick_socket. rewrite E.
  by rewrite alter_app_r_alt, Nat.sub_diag.
Qed.

(** A stick and its socket after a call. *)
Lemma with_socket_ok st mem h :
  cpu_stick_ok st mem -> stick_holds h mem -> cpu_stick_ok (with_socket st (Some h)) mem.
Proof. intros (E & Hm & _) Hh. split; [done|]. split; [done|]. by exists h. Qed.

Lemma request_read_ok c s1 st s2 mem off n :
  memory_sticks c = s1 ++ st :: s2 -> cpu_stick_ok st mem ->
  0 <= off -> 0 < n -> off + n <= l_size mem ->
  exists st1 st2, cpu_stick_ok st2 mem /\
    ms_size st2 = ms_size st /\ ms_offset st2 = ms_offset st /\
    request_read (length s1) off n c = Ok (true, with_sticks (s1 ++ st1 :: s2) c) /\
    receive_read_response (length s1) (with_sticks (s1 ++ st1 :: s2) c)
    = Ok (Some (written (slice off n mem)), with_sticks (s1 ++ st2 :: s2) c).
Proof.
  intros E Hst Ho Hn Hb. pose proof Hst as (_ & Hm & h & Hs & Hh).
  destruct (stick_read h mem off n Hh) as (h1 & h2 & h3 & E1 & E2 & E3 & Hh3); [lia..|].
  exists (with_socket st (Some h1)), (with_socket st (Some h3)).
  split; [by apply with_socket_ok|]. split_and!; [done|done| |].
  - unfold request_read, send_request. rewrite bind_M, (on_stick_middle c s1 st s2) by done.
    unfold send_packet. rewrite Hs.
    change (serialize_packet _) with (read_request off n). by rewrite E1.
  - unfold receive_read_response. rewrite bind_M, (on_stick_middle _ s1 (with_socket st (Some h1)) s2) by done.
    cbn [with_socket socket_ms]. rewrite E2. rewrite decide_True by done.
    rewrite (on_stick_middle _ s1 (with_socket (with_socket st (Some h1)) (Some h2)) s2) by done.
    cbn [with_socket socket_ms]. unfold receive_string. rewrite E3. done.
Qed.

Lemma request_write_ok c s1 st s2 mem off bs :
  memory_sticks c = s1 ++ st :: s2 -> cpu_stick_ok st mem ->
  0 <= off -> bs ≠ [] -> off + l_size bs <= l_size mem ->
  exists st1 st2, cpu_stick_ok st2 (overwrite (Z.to_nat off) bs mem) /\
    ms_size st2 = ms_size st /\ ms_offset st2 = ms_offset st /\
    request_write (length s1) off bs (l_size bs) c
    = Ok (true, with_sticks (s1 ++ st1 :: s2) c) /\
    receive_write_response (length s1) (with_sticks (s1 ++ st1 :: s2) c)
    = Ok (true, with_sticks (s1 ++ st2 :: s2) c).
Proof.
  intros E Hst Ho Hn Hb. pose proof Hst as (Es & Hm & h & Hs & Hh).
  destruct (stick_write h mem off bs Hh) as (h1 & h2 & h3 & b & E1 & E2 & E3 & Hh3);
    [done|done|lia|lia|].
  exists (with_socket st (Some h1)), (with_socket st (Some h3)).
  split.
  { unfold cpu_stick_ok, l_size in *. cbn [with_socket ms_size socket_ms].
    rewrite overwrite_length by lia. split; [done|]. split; [done|]. by exists h3. }
  split_and!; [done|done| |].
  - unfold request_write, send_request. rewrite bind_M, (on_stick_middle c s1 st s2) by done.
    unfold send_packet. rewrite Hs.
    change (serialize_packet _) with (write_request off bs). by rewrite E1.
  - unfold receive_write_response. rewrite bind_M, (on_stick_middle _ s1 (with_socket st (Some h1)) s2) by done.
    cbn [with_socket socket_ms]. rewrite E2, bind_M.
    rewrite (on_stick_middle _ s1 (with_socket (with_socket st (Some h1)) (Some h2)) s2) by done.
    cbn [with_socket socket_ms]. rewrite E3, decide_True by done. done.
Qed.

Lemma transfer_size_ok st mem off remaining :
  cpu_stick_ok st mem -> 0 <= off < l_size mem ->
  transfer_size st off remaining = Z.min remaining (l_size mem - off).
Proof.
  intros (E & Hm & _) Ho. unfold transfer_size. rewrite E.
  rewrite u32_id by (ints; lia). case_decide; lia.
Qed.

(** ** Reading and writing *)

(** The bytes of the memory from [pa] on, as far as the stick that holds [pa]
    goes. *)
Lemma slice_in_stick (m1 m2 : list (list byte)) mem off n :
  0 <= off -> 0 <= n -> off + n <= l_size mem ->
  slice off n mem = slice (l_size (concat m1) + off) n (concat (m1 ++ mem :: m2)).
Proof.
  intros Ho Hn Hb. rewrite concat_app. cbn [concat].
  rewrite <- (slice_chunk (l_size (concat m1) + off) n n (concat m1) mem (concat m2) off)
    by lia.
  unfold slice at 3. by rewrite Z.sub_diag, take_0, app_nil_r.
Qed.

Lemma overwrite_in_stick (m1 m2 : list (list byte)) mem off bs :
  0 <= off -> off + l_size bs <= l_size mem ->
  concat (m1 ++ overwrite (Z.to_nat off) bs mem :: m2)
  = overwrite (Z.to_nat (l_size (concat m1) + off)) bs (concat (m1 ++ mem :: m2)).
Proof.
  intros Ho Hb. rewrite !concat_app. cbn [concat]. unfold l_size in *.
  replace (Z.to_nat (Z.of_nat (length (concat m1)) + off))
    with (length (concat m1) + Z.to_nat off)%nat by lia.
  rewrite <- overwrite_shift. f_equal.
  rewrite <- (app_nil_r bs) at 2. rewrite overwrite_span by (lia || by left).
  by rewrite overwrite_nil.
Qed.

(** What a round of either loop does first: the stick that holds [addr], the
    offset in it and how much is transferred. *)
Record chunk_at sticks mems (addr remaining : Z) s1 st s2 m1 mem m2 (off k : Z) : Prop := {
  ch_sticks : sticks = s1 ++ st :: s2;
  ch_mems : mems = m1 ++ mem :: m2;
  ch_length : length s1 = length m1;
  ch_ok : cpu_stick_ok st mem;
  ch_find : find_stick 0 sticks addr = Some (length s1, st);
  ch_offset : u32 (addr - ms_offset st) = off;
  ch_size : transfer_size st off remaining = k;
  ch_addr : addr = l_size (concat m1) + off;
  ch_range : 0 <= off /\ 0 < k <= remaining /\ off + k <= l_size mem }.

Lemma chunk_at_ok sticks mems addr remaining :
  cpu_sticks_ok sticks mems -> 0 <= addr -> 0 < remaining ->
  addr + remaining <= l_size (concat mems) ->
  exists s1 st s2 m1 mem m2 off k,
    chunk_at sticks mems addr remaining s1 st s2 m1 mem m2 off k.
Proof.
  intros Hok Ha Hr Hb.
  destruct (cpu_find_stick_ok sticks mems addr Hok) as (n & st & E & [L]); [lia|].
  destruct L as (s1 & s2 & m1 & mem & m2 & Es & Em & Hl & -> & Hst & Eo & Hin).
  assert (u32 (addr - ms_offset st) = addr - ms_offset st) as Eu
    by (destruct Hst as (_ & ? & _); apply u32_id; ints; lia).
  exists s1, st, s2, m1, mem, m2, (addr - ms_offset st),
    (Z.min remaining (l_size mem - (addr - ms_offset st))).
  split; try done; [apply transfer_size_ok; [done|]|..]; lia.
Qed.

Lemma cpu_read_loop_ok fuel pa size br result c mems :
  cpu_sticks_ok (memory_sticks c) mems -> 0 <= br <= size -> 0 <= pa ->
  pa + size <= l_size (concat mems) -> (Z.to_nat (size - br) <= fuel)%nat ->
  exists sticks',
    read_loop fuel pa size br result c
    = Ok (Some (result ++ written (slice (pa + br) (size - br) (concat mems))),
          with_sticks sticks' c) /\ cpu_sticks_ok sticks' mems.
Proof.
  revert br result c. induction fuel as [|fuel IH]; intros br result c Hok Hbr Hpa Hb Hf;
    (destruct (decide (size <= br)) as [Hd|Hd];
      [exists (memory_sticks c); replace (size - br) with 0 by lia;
       unfold slice, written; rewrite take_0, app_nil_r; cbn [read_loop];
       rewrite decide_True by lia; by destruct c|]); [lia|].
  pose proof (cs_total _ _ Hok) as Ht. cbn [read_loop]. rewrite decide_False by lia.
  rewrite (u32_id (pa + br)), (u32_id (size - br)), bind_M, gets_M by lia.
  destruct (chunk_at_ok _ _ (pa + br) (size - br) Hok)
    as (s1 & st & s2 & m1 & mem & m2 & off & k & [Es -> Hl Hst -> -> -> Ea Hk]); [lia..|].
  destruct (request_read_ok c s1 st s2 mem off k) as (st1 & st2 & Hst2 & Ez & Ef & E1 & E2);
    [done|done|lia..|].
  rewrite bind_M, E1. cbn [negb]. rewrite bind_M, E2.
  assert (l_size (written (slice off k mem)) = k) as Hsz.
  { unfold written, l_size. rewrite length_fmap. apply (slice_length off k mem); lia. }
  rewrite decide_False, (u32_id (br + k)) by lia.
  rewrite (take_ge (written _)) by (unfold l_size in Hsz; lia).
  rewrite (slice_in_stick m1 m2), <- Ea by lia. rewrite Es in Hok.
  destruct (IH (br + k) (result ++ written (slice (pa + br) k (concat (m1 ++ mem :: m2))))
    (with_sticks (s1 ++ st2 :: s2) c)) as (sticks' & -> & H');
    [by eapply cpu_sticks_replace|lia..|].
  exists sticks'. split; [|done]. rewrite with_sticks_twice. do 3 f_equal.
  rewrite <- app_assoc. f_equal. unfold written. rewrite <- fmap_app. f_equal.
  replace (size - br) with (k + (size - (br + k))) by lia.
  rewrite slice_app by lia. do 2 f_equal; lia.
Qed.

Lemma read_memory_ok pa size c mems :
  cpu_sticks_ok (memory_sticks c) mems -> 0 <= pa -> 0 <= size ->
  pa + size <= l_size (concat mems) ->
  exists sticks',
    read_memory pa size c
    = Ok (Some (written (slice pa size (concat mems))), with_sticks sticks' c) /\
    cpu_sticks_ok sticks' mems.
Proof.
  intros Hok Hpa Hs Hb. unfold read_memory.
  destruct (cpu_read_loop_ok (Z.to_nat size) pa size 0 [] c mems Hok)
    as (sticks' & E & H'); [lia..|].
  rewrite Z.add_0_r, Z.sub_0_r in E. eauto.
Qed.

Lemma cpu_write_loop_step fuel pa bs wb c mems :
  cpu_sticks_ok (memory_sticks c) mems -> 0 <= wb -> 0 <= pa -> bs ≠ [] ->
  pa + (wb + l_size bs) <= l_size (concat mems) ->
  exists k sticks1 mems1, 0 < k <= l_size bs /\
    write_loop (S fuel) pa (written bs) (wb + l_size bs) wb c
    = write_loop fuel pa (written (drop (Z.to_nat k) bs)) (wb + l_size bs) (wb + k)
        (with_sticks sticks1 c) /\
    cpu_sticks_ok sticks1 mems1 /\
    concat mems1 = overwrite (Z.to_nat (pa + wb)) (take (Z.to_nat k) bs) (concat mems).
Proof.
  intros Hok Hwb Hpa Hne Hb. pose proof (l_size_pos bs Hne).
  pose proof (cs_total _ _ Hok) as Ht. cbn [write_loop]. rewrite decide_False by lia.
  rewrite (u32_id (pa + wb)), (u32_id (wb + l_size bs - wb)), bind_M, gets_M by lia.
  destruct (chunk_at_ok _ _ (pa + wb) (wb + l_size bs - wb) Hok)
    as (s1 & st & s2 & m1 & mem & m2 & off & k & [Es -> Hl Hst -> -> -> Ea Hk]); [lia..|].
  set (b1 := take (Z.to_nat k) bs).
  assert (l_size b1 = k) as Hb1 by (unfold b1, l_size in *; rewrite length_take; lia).
  rewrite decide_False by (unfold written, l_size in *; rewrite length_fmap; lia).
  unfold written. rewrite <- fmap_take, <- fmap_drop, bind_M, defined_Some, lift_M.
  fold b1 (written (drop (Z.to_nat k) bs)).
  destruct (request_write_ok c s1 st s2 mem off b1) as (st1 & st2 & Hst2 & Ez & Ef & E1 & E2);
    [done|done|lia|by intros E; rewrite E in Hb1; change (l_size []) with 0 in Hb1; lia|lia|].
  rewrite Hb1 in E1. rewrite bind_M, E1. cbn [negb]. rewrite bind_M, E2. cbn [negb].
  rewrite (u32_id (wb + k)) by lia. rewrite Es in Hok.
  exists k, (s1 ++ st2 :: s2), (m1 ++ overwrite (Z.to_nat off) b1 mem :: m2).
  split; [lia|]. split; [done|]. split.
  - eapply cpu_sticks_replace; [done..|].
    unfold l_size in *. f_equal. apply overwrite_length. lia.
  - fold b1. rewrite Ea. apply overwrite_in_stick; lia.
Qed.

Lemma cpu_write_loop_ok fuel pa bs wb c mems :
  cpu_sticks_ok (memory_sticks c) mems -> 0 <= wb -> 0 <= pa ->
  pa + (wb + l_size bs) <= l_size (concat mems) -> (length bs <= fuel)%nat ->
  exists sticks' mems',
    write_loop fuel pa (written bs) (wb + l_size bs) wb c
    = Ok (true, with_sticks sticks' c) /\
    cpu_sticks_ok sticks' mems' /\
    concat mems' = overwrite (Z.to_nat (pa + wb)) bs (concat mems).
Proof.
  revert bs wb c mems. induction fuel as [|fuel IH];
    intros bs wb c mems Hok Hwb Hpa Hb Hf;
    (destruct (decide (bs = [])) as [->|Hne];
      [exists (memory_sticks c), mems; change (l_size []) with 0;
       rewrite overwrite_nil; cbn [write_loop];
       rewrite decide_True by lia; by destruct c|]); [destruct bs; cbn in Hf; [done|lia]|].
  destruct (cpu_write_loop_step fuel pa bs wb c mems)
    as (k & sticks1 & mems1 & Hk & -> & Hok1 & Hc1); [done..|].
  pose proof (take_drop (Z.to_nat k) bs) as Ebs.
  set (b1 := take _ bs) in *. set (b2 := drop _ bs) in *.
  assert (l_size b1 = k) as Hb1 by (unfold b1, l_size in *; rewrite length_take; lia).
  assert (l_size bs = k + l_size b2) as Hsz by (rewrite <- Ebs, l_size_app; lia).
  rewrite Hsz in Hb, Hk |- *. pose proof (l_size_nonneg b2).
  assert (l_size (concat mems1) = l_size (concat mems)) as Hcs
    by (rewrite Hc1; unfold l_size in *; f_equal; apply overwrite_length; lia).
  destruct (IH b2 (wb + k) (with_sticks sticks1 c) mems1)
    as (sticks' & mems' & E & H1 & H2);
    [done|lia|lia|lia|unfold l_size in *; lia|].
  rewrite <- Z.add_assoc in E. exists sticks', mems'. rewrite E, H2, Hc1.
  split_and!; [done|done|]. rewrite <- Ebs.
  replace (Z.to_nat (pa + (wb + k))) with (Z.to_nat (pa + wb) + length b1)%nat
    by (unfold l_size in *; lia).
  apply overwrite_app. unfold l_size in *; lia.
Qed.

Lemma write_memory_ok pa bs c mems :
  cpu_sticks_ok (memory_sticks c) mems -> 0 <= pa ->
  pa + l_size bs <= l_size (concat mems) ->
  exists sticks' mems',
    write_memory pa (written bs) (l_size bs) c = Ok (true, with_sticks sticks' c) /\
    cpu_sticks_ok sticks' mems' /\
    concat mems' = overwrite (Z.to_nat pa) bs (concat mems).
Proof.
  intros Hok Hpa Hb. unfold write_memory.
  destruct (cpu_write_loop_ok (Z.to_nat (l_size bs)) pa bs 0 c mems Hok)
    as (sticks' & mems' & E & H1 & H2); [lia..|unfold l_size; lia|].
  rewrite Z.add_0_r in H2. exists sticks', mems'. done.
Qed.

(** the sticks a CPU is connected to behave as one byte array:
    [write_memory] overwrites exactly the given range, [read_memory] returns
    exactly the requested one, however they spread over the sticks; nothing
    else of the CPU changes. *)
Theorem cpu_memory_is_one_array pa bs c mems :
  cpu_sticks_ok (memory_sticks c) mems -> 0 <= pa ->
  pa + l_size bs <= l_size (concat mems) ->
  exists sticks1 mems1,
    write_memory pa (written bs) (l_size bs) c = Ok (true, with_sticks sticks1 c) /\
    cpu_sticks_ok sticks1 mems1 /\
    concat mems1 = overwrite (Z.to_nat pa) bs (concat mems) /\
    forall a n, 0 <= a -> 0 <= n -> a + n <= l_size (concat mems) ->
      exists sticks2,
        read_memory a n (with_sticks sticks1 c)
        = Ok (Some (written (slice a n (overwrite (Z.to_nat pa) bs (concat mems)))),
              with_sticks sticks2 c) /\
        cpu_sticks_ok sticks2 mems1.
Proof.
  intros Hok Hpa Hb.
  destruct (write_memory_ok pa bs c mems Hok Hpa Hb) as (sticks1 & mems1 & E & Hok1 & Hc).
  exists sticks1, mems1. split_and!; [done..|]. intros a n Ha Hn Hr.
  assert (l_size (concat mems1) = l_size (concat mems)) as Hl.
  { rewrite Hc. unfold l_size in *. f_equal. apply overwrite_length. lia. }
  rewrite <- Hc. apply (read_memory_ok a n (with_sticks sticks1 c)); done || lia.
Qed.
End one_memory.

(** ** Two sticks of 8 bytes *)

Definition cpu_stick_8 (offset : Z) : t_memory_stick_info stick_peer :=
  mk_memory_stick_info (Some (mk_peer (mk_ms (replicate 8 x00)) [] true)) 8 offset.

Definition cpu_of_two_sticks : t_cpu wire wire stick_peer :=
  mk_cpu (txt "1") (Some (mk_wire [] [] true)) (Some (mk_wire [] [] true)) 64
    [cpu_stick_8 0; cpu_stick_8 8] (mk_context zero_registers [] false).

Lemma cpu_of_two_sticks_ok :
  cpu_sticks_ok (memory_sticks cpu_of_two_sticks) [replicate 8 x00; replicate 8 x00].
Proof.
  split; [|done|vm_compute; congruence].
  repeat constructor; try done; eexists; split; done.
Qed.

Lemma cpu_memory_is_one_array_witness :
  let mems := [replicate 8 x00; replicate 8 x00] in
  exists sticks1 mems1,
    write_memory 6 (written (txt "abcd")) (l_size (txt "abcd")) cpu_of_two_sticks
    = Ok (true, with_sticks sticks1 cpu_of_two_sticks) /\
    cpu_sticks_ok sticks1 mems1 /\
    concat mems1 = overwrite (Z.to_nat 6) (txt "abcd") (concat mems) /\
    forall a n, 0 <= a -> 0 <= n -> a + n <= l_size (concat mems) ->
      exists sticks2,
        read_memory a n (with_sticks sticks1 cpu_of_two_sticks)
        = Ok (Some (written (slice a n (overwrite (Z.to_nat 6) (txt "abcd") (concat mems)))),
              with_sticks sticks2 cpu_of_two_sticks) /\
        cpu_sticks_ok sticks2 mems1.
Proof.
  apply (cpu_memory_is_one_array 6 (txt "abcd") cpu_of_two_sticks
    [replicate 8 x00; replicate 8 x00]);
    [apply cpu_of_two_sticks_ok|lia|vm_compute; congruence].
Defined.
