(* ===== verification/Mmu.v ===== *)
(** * Mmu: the CPU's translation against Kernel Memory's tables

    The segment table a CPU works with is the one Kernel Memory sent; these
    theorems compose [mmu] with the tables of MainMemory. *)

From Stdlib Require Import Strings.Byte Strings.String.
From S2P Require Import Prelude Bytes Msg Text Structs MainMemory Compaction Holes.
From S2P Require Import Segments Peer MemoryStick Sticks CpuState CpuConnect CpuMemory.

(** The entries of the packet with [pid]'s segments, as they arrive. *)
Definition entry (s : t_segment) : buf := written (segment_bytes s).
Definition process_table (pid : Z) (m : t_main_memory) : list buf :=
  entry <$> filter_process_segments (s32 pid) m.

Definition tables_typed (m : t_main_memory) : Prop := Forall segment_typed (segments m).

Definition has_id (n : Z) (s : t_segment) : bool := bool_decide (seg_id s = n).

Section entries.
Implicit Types (s : t_segment) (m : t_main_memory).

Lemma read_u32_image bs off z :
  take 4 (drop off bs) = int_bytes z -> (off + 4 <= length bs)%nat ->
  read_u32 (written bs) off = Ok (u32 z).
Proof.
  intros H Hl. unfold read_u32. erewrite read_bytes_at by done.
  cbn [mbind res_bind]. by rewrite bytes_u32_int_bytes.
Qed.

Lemma entry_fields s :
  segment_typed s ->
  read_u32 (entry s) 0 = Ok (seg_id s) /\ read_u32 (entry s) 8 = Ok (u32 (seg_base s)) /\
  read_u32 (entry s) 12 = Ok (u32 (seg_size s)).
Proof.
  intros (Hi & _). unfold entry.
  rewrite (read_u32_image _ 0 (seg_id s)), (read_u32_image _ 8 (seg_base s)),
    (read_u32_image _ 12 (seg_size s))
    by (reflexivity || (rewrite segment_bytes_length; lia)).
  by rewrite (u32_id (seg_id s)).
Qed.

Lemma find_segment_by_id_ok l n :
  Forall segment_typed l ->
  find_segment_by_id (entry <$> l) n = Ok (entry <$> l_find (has_id n) l).
Proof.
  induction 1 as [|s l Hs H IH]; [done|]. cbn [fmap list_fmap find_segment_by_id l_find].
  destruct (entry_fields s Hs) as (-> & _). cbn [mbind res_bind]. unfold has_id at 1.
  case_decide; [by rewrite bool_decide_true|by rewrite bool_decide_false].
Qed.

Lemma filter_typed pid m :
  tables_typed m -> Forall segment_typed (filter_process_segments pid m).
Proof.
  intros H. apply Forall_forall. intros s Hs. unfold filter_process_segments in Hs.
  apply list_elem_of_filter in Hs as [_ Hs]. by eapply Forall_forall in H.
Qed.

(** The process's segment that holds a logical address. *)
Definition segment_at (pid max la : Z) m : option t_segment :=
  l_find (has_id (la / max)) (filter_process_segments (s32 pid) m).

Lemma segment_at_Some pid max la m s :
  in_u32 pid -> segment_at pid max la m = Some s ->
  s ∈ segments m /\ seg_pid s = pid /\ seg_id s = la / max.
Proof.
  intros Hp H. unfold segment_at in H. apply l_find_Some in H as [Hi Hs].
  apply bool_decide_eq_true in Hi. unfold filter_process_segments in Hs.
  rewrite u32_s32, u32_id in Hs by done. by apply list_elem_of_filter in Hs as [? ?].
Qed.

Lemma segments_disjoint m s1 s2 :
  memory_wf m -> s1 ∈ segments m -> s2 ∈ segments m -> s1 ≠ s2 ->
  seg_base s1 + seg_size s1 <= seg_base s2 \/ seg_base s2 + seg_size s2 <= seg_base s1.
Proof.
  intros Hwf (l1 & l2 & E)%list_elem_of_split H2 Hne.
  assert (s2 ∈ l1 ++ l2) as (k1 & k2 & Ek)%list_elem_of_split
    by (rewrite E in H2; set_solver).
  pose proof (wf_tiled _ Hwf) as Ht. unfold extents in Ht.
  assert (segments m ≡ₚ s1 :: s2 :: k1 ++ k2) as Hp.
  { rewrite E, <- Permutation_middle, Ek. by rewrite <- Permutation_middle. }
  rewrite Hp in Ht. cbn in Ht. by apply tiled_disjoint in Ht.
Qed.
End entries.

Section mmu.
Context {K U T : Type} `{!Transport K, !Transport U, !Transport T}.
Implicit Types (c : t_cpu K U T) (m : t_main_memory).

(** A CPU that runs [pid] with the table [m] had for it. *)
Record runs_with (pid : Z) m c : Prop := {
  rw_wf : memory_wf m;
  rw_typed : tables_typed m;
  rw_pid : in_u32 pid;
  rw_max : 0 < cpu_max_segment_size c <= INT_MAX;
  rw_table : segment_table (context c) = process_table pid m }.

(** A segmentation fault, or no segment with that number. *)
Definition mmu_fails c (r : res (Z * t_cpu K U T)) : Prop :=
  r = Ok (INVALID_ADDRESS - 1, c) \/
  exists b s', send_string OP_SEG_FAULT (lit "SEGMENTATION FAULT")
                 (socket_kernel_scheduler c) = Ok (b, s') /\
    r = Ok (if (b : bool) then INVALID_ADDRESS else INVALID_ADDRESS - 1, set_ks s' c).

Lemma send_string_Ok {X} `{!Transport X} op str (s : t_socket X) :
  exists b s', send_string op (lit str) s = Ok (b, s') \/
    str_read (lit str) = Undef OutOfBounds.
Proof.
  unfold send_string. destruct (str_read (lit str)) as [m|u] eqn:E.
  - cbn [mbind res_bind]. destruct (socket_send _ _) as [b s']. eauto.
  - exists true, s. right. unfold str_read, at_index in E.
    destruct (c_str (lit str)); by simplify_eq.
Qed.

Lemma mmu_eq pid m c la size :
  runs_with pid m c -> 0 <= la -> 0 < size <= 65536 ->
  match segment_at pid (cpu_max_segment_size c) la m with
  | Some s =>
      if decide (la mod cpu_max_segment_size c + size <= seg_size s)
      then mmu la size c = Ok (seg_base s + la mod cpu_max_segment_size c, c)
      else mmu_fails c (mmu la size c)
  | None => mmu_fails c (mmu la size c)
  end.
Proof.
  intros [Hwf Hty Hp Hmax Htab] Hla Hsz. set (max := cpu_max_segment_size c) in *.
  pose proof (Z.mod_pos_bound la max ltac:(lia)) as Hmod.
  assert (mmu la size c
    = match segment_at pid max la m with
      | None => Ok (INVALID_ADDRESS - 1, c)
      | Some s => mbind (M := C K U T) (fun seg_size : Z =>
          if decide (seg_size < u32 (la mod max + size)) then
            sent ← notify_seg_fault;
            mret (if (sent : bool) then INVALID_ADDRESS else INVALID_ADDRESS - 1)
          else base ← lift (read_u32 (entry s) 8); mret (u32 (base + la mod max)))
          (lift (read_u32 (entry s) 12)) c
      end) as ->.
  { unfold mmu. rewrite bind_M, gets_M. fold max. rewrite decide_False by lia.
    rewrite bind_M, gets_M, Htab. unfold process_table.
    rewrite bind_M, find_segment_by_id_ok by by apply filter_typed.
    rewrite lift_M. unfold segment_at. by destruct (l_find _ _). }
  destruct (segment_at pid max la m) as [s|] eqn:Es; [|by left].
  apply segment_at_Some in Es as (Hin & _); [|done].
  pose proof (wf_segment _ _ Hwf Hin) as Hb. pose proof (wf_total _ Hwf) as Ht.
  assert (segment_typed s) as Hs by (by eapply Forall_forall in Hty).
  destruct (entry_fields s Hs) as (_ & E8 & E12).
  rewrite bind_M, E12, lift_M. rewrite (u32_id (seg_size s)), (u32_id (_ + size))
    by (ints; lia).
  case_decide as Hd; (case_decide as Hd2; [|]); try lia.
  - rewrite bind_M, E8, lift_M, (u32_id (seg_base s)), u32_id by (ints; lia). done.
  - right. unfold notify_seg_fault, on_ks. run_M. rewrite lift_M.
    destruct (send_string_Ok OP_SEG_FAULT "SEGMENTATION FAULT" (socket_kernel_scheduler c))
      as (b & s' & [E|E]); [|done]. rewrite E. exists b, s'. split; [done|].
    by run_M.
Qed.

(** [mmu] with the table Kernel Memory sent: an access of [size] bytes is
    translated to bytes of the one segment of the process with that number, at
    the same offset; an access past the segment's end sends the segmentation
    fault and yields no address; and the addresses that mean failure are never
    the translation of an access. *)
Theorem mmu_translates pid m c la size :
  runs_with pid m c -> 0 <= la -> 0 < size <= 65536 ->
  let max := cpu_max_segment_size c in
  match segment_at pid max la m with
  | Some s =>
      seg_pid s = pid /\ seg_id s = la / max /\ s ∈ segments m /\
      if decide (la mod max + size <= seg_size s)
      then mmu la size c = Ok (seg_base s + la mod max, c) /\
           0 <= seg_base s + la mod max < INVALID_ADDRESS - 1 /\
           seg_base s + la mod max + size <= seg_base s + seg_size s <= total_size m
      else mmu_fails c (mmu la size c)
  | None => mmu_fails c (mmu la size c)
  end.
Proof.
  intros Hr Hla Hsz max. pose proof (mmu_eq pid m c la size Hr Hla Hsz) as H.
  pose proof (Z.mod_pos_bound la max ltac:(destruct Hr; lia)) as Hmod.
  fold max in H. destruct (segment_at pid max la m) as [s|] eqn:Es; [|done].
  apply segment_at_Some in Es as (Hin & Hp & Hi); [|apply Hr].
  pose proof (wf_segment _ _ (rw_wf _ _ _ Hr) Hin) as Hb.
  pose proof (wf_total _ (rw_wf _ _ _ Hr)) as Ht.
  split_and!; [done..|]. case_decide; [|done].
  unfold INVALID_ADDRESS. ints. split; [done|lia].
Qed.

(** C4: processes do not see each other's memory: what [mmu] translates for two
    different processes, with the tables Kernel Memory sends for them, never
    overlaps. *)
Theorem mmu_isolates_processes pid1 pid2 m c1 c2 la1 la2 size1 size2 pa1 pa2 :
  runs_with pid1 m c1 -> runs_with pid2 m c2 -> pid1 ≠ pid2 ->
  0 <= la1 -> 0 <= la2 -> 0 < size1 <= 65536 -> 0 < size2 <= 65536 ->
  mmu la1 size1 c1 = Ok (pa1, c1) -> mmu la2 size2 c2 = Ok (pa2, c2) ->
  pa1 < INVALID_ADDRESS - 1 -> pa2 < INVALID_ADDRESS - 1 ->
  pa1 + size1 <= pa2 \/ pa2 + size2 <= pa1.
Proof.
  intros H1 H2 Hne Hl1 Hl2 Hs1 Hs2 E1 E2 Ha1 Ha2.
  assert (forall pid c la size pa, runs_with pid m c -> 0 <= la -> 0 < size <= 65536 ->
    mmu la size c = Ok (pa, c) -> pa < INVALID_ADDRESS - 1 ->
    exists s, s ∈ segments m /\ seg_pid s = pid /\
      seg_base s <= pa /\ pa + size <= seg_base s + seg_size s) as Hseg.
  { clear. intros pid c la size pa Hr Hla Hsz E Hpa.
    pose proof (mmu_eq pid m c la size Hr Hla Hsz) as H. rewrite E in H.
    pose proof (Z.mod_pos_bound la (cpu_max_segment_size c) ltac:(destruct Hr; lia)).
    assert (~ mmu_fails c (Ok (pa, c))) as Hnf.
    { intros [[= ?]|(b & s' & _ & [= ?])]; [lia|]. destruct b; lia. }
    destruct (segment_at _ _ _ m) as [s|] eqn:Es; [|done]. case_decide; [|done].
    apply segment_at_Some in Es as (Hin & Hp & _); [|apply Hr].
    simplify_eq. exists s. split_and!; done || lia. }
  destruct (Hseg _ _ _ _ _ H1 Hl1 Hs1 E1 Ha1) as (s1 & Hin1 & Hp1 & ? & ?).
  destruct (Hseg _ _ _ _ _ H2 Hl2 Hs2 E2 Ha2) as (s2 & Hin2 & Hp2 & ? & ?).
  destruct (segments_disjoint m s1 s2 (rw_wf _ _ _ H1)); [done..|congruence|lia|lia].
Qed.
End mmu.

(** ** The same address for Kernel Memory and for the CPUs

    STDIN, STDOUT and swap go through Kernel Memory's own translation. *)

(** The process's segments are numbered 0, 1, ... in table order. *)
Definition ids_are_ordinals (pid : Z) (m : t_main_memory) : Prop :=
  forall i s, l_get (filter_process_segments pid m) i = Some s -> seg_id s = i.

Section agreement.
Context {K U T : Type} `{!Transport K, !Transport U, !Transport T}.
Implicit Types (c : t_cpu K U T) (m : t_main_memory).

Lemma translate_by_ordinal pid la size m :
  memory_wf m -> in_u32 pid -> 0 < max_segment_size m <= INT_MAX -> 0 <= la ->
  translate_logical_address pid la size m
  = Ok match l_get (filter_process_segments pid m) (la / max_segment_size m) with
       | Some s => s32 (seg_base s + la mod max_segment_size m)
       | None => -1
       end.
Proof.
  intros Hwf Hp Hm Hla. unfold translate_logical_address.
  rewrite (u32_id (max_segment_size m)) by (ints; lia). rewrite decide_False by lia.
  assert (find_segment m pid (la / max_segment_size m)
    = l_get (filter_process_segments pid m) (la / max_segment_size m)) as ->.
  { unfold find_segment, filter_process_segments. rewrite (u32_id pid) by done.
    pose proof (Z.div_pos la (max_segment_size m)).
    rewrite find_segment_from_nth; [by rewrite Z.sub_0_r|lia| |lia].
    assert (l_size (segments m) <= total_size m); [|pose proof (wf_total _ Hwf); ints; lia].
    pose proof (wf_sum _ Hwf). pose proof (free_bytes_bounds _ Hwf). unfold used in *.
    pose proof (wf_segments_pos m Hwf) as Hpos.
    enough (l_size (segments m) <= sum_with seg_size (segments m)) by lia.
    clear -Hpos. induction Hpos as [|s l Hs _ IH]; [done|].
    unfold l_size in *. cbn [length sum_with]. lia. }
  by destruct (l_get _ _).
Qed.

Lemma ids_find pid m n :
  in_u32 pid -> ids_are_ordinals pid m -> 0 <= n ->
  l_get (filter_process_segments pid m) n = l_find (has_id n) (filter_process_segments pid m).
Proof.
  intros Hp Hids Hn. set (l := filter_process_segments pid m) in *.
  destruct (l_get l n) as [s|] eqn:Es.
  - assert (has_id n s = true) as Hs by (apply bool_decide_eq_true; by eapply Hids).
    destruct (l_find (has_id n) l) as [s'|] eqn:Ef.
    + apply l_find_Some in Ef as [Hi (i & Hl)%list_elem_of_lookup].
      apply bool_decide_eq_true in Hi. f_equal.
      assert (l_get l (Z.of_nat i) = Some s') as Hl' by by rewrite l_get_nat.
      pose proof (Hids _ _ Hl'). assert (Z.of_nat i = n) as E by lia.
      rewrite E in Hl'. congruence.
    + apply l_find_None in Ef. eapply Forall_forall in Ef; [by rewrite Ef in Hs|].
      apply l_get_Some in Es as [_ Es]. by eapply list_elem_of_lookup_2.
  - symmetry. apply l_find_None, Forall_forall. intros s (i & Hl)%list_elem_of_lookup.
    apply bool_decide_eq_false. intros E.
    assert (l_get l (Z.of_nat i) = Some s) as Hl' by by rewrite l_get_nat.
    pose proof (Hids _ _ Hl'). assert (Z.of_nat i = n) as E' by lia.
    rewrite E' in Hl'. congruence.
Qed.

(** C36: as long as a process's segments are numbered in table order, Kernel
    Memory translates every address the CPU accepts to the same physical
    address. *)
Theorem translations_agree pid m c la size :
  runs_with pid m c -> cpu_max_segment_size c = max_segment_size m ->
  ids_are_ordinals pid m -> 0 <= la -> 0 < size <= 65536 ->
  forall pa, mmu la size c = Ok (pa, c) -> pa < INVALID_ADDRESS - 1 ->
  translate_logical_address pid la size m = Ok pa.
Proof.
  intros Hr Emax Hids Hla Hsz pa E Hpa.
  pose proof (mmu_eq pid m c la size Hr Hla Hsz) as H. rewrite E in H.
  destruct Hr as [Hwf Hty Hp Hmax Htab]. rewrite Emax in *.
  pose proof (Z.mod_pos_bound la (max_segment_size m) ltac:(lia)).
  assert (~ mmu_fails c (Ok (pa, c))) as Hnf.
  { intros [[= ?]|(b & s' & _ & [= ?])]; [lia|]. destruct b; lia. }
  destruct (segment_at _ _ _ m) as [s|] eqn:Es; [|done]. case_decide; [|done]. simplify_eq.
  rewrite translate_by_ordinal by done. f_equal.
  pose proof Es as (Hin & _)%segment_at_Some; [|done]. unfold segment_at in Es.
  assert (filter_process_segments (s32 pid) m = filter_process_segments pid m) as Ef
    by (unfold filter_process_segments; by rewrite u32_s32).
  rewrite Ef in Es. rewrite ids_find, Es by (done || apply Z.div_pos; lia).
  pose proof (wf_segment _ _ Hwf Hin). pose proof (wf_total _ Hwf).
  rewrite s32_id by (ints; lia). done.
Qed.

(** once a process has freed segment 0 and kept segment [n], the CPU still
    translates addresses of segment [n] and Kernel Memory no longer finds it:
    STDIN, STDOUT and swap of those addresses fail. *)
Theorem translations_disagree_after_free pid m c s off size :
  runs_with pid m c -> cpu_max_segment_size c = max_segment_size m ->
  filter_process_segments pid m = [s] -> 0 < seg_id s ->
  0 <= off < max_segment_size m -> 0 < size <= 65536 -> off + size <= seg_size s ->
  let la := seg_id s * max_segment_size m + off in
  mmu la size c = Ok (seg_base s + off, c) /\
  translate_logical_address pid la size m = Ok (-1).
Proof.
  intros Hr Emax Hf Hi Ho Hsz Hb la. pose proof Hr as [Hwf Hty Hp Hmax Htab].
  rewrite Emax in *.
  assert (la / max_segment_size m = seg_id s) as Ediv.
  { unfold la. rewrite Z.div_add_l, Z.div_small by lia. lia. }
  assert (la mod max_segment_size m = off) as Emod.
  { unfold la. by rewrite Z.add_comm, Z_mod_plus_full, Z.mod_small by lia. }
  assert (0 <= la) as Hla by (unfold la; nia).
  split.
  - pose proof (mmu_eq pid m c la size Hr Hla Hsz) as H. rewrite Emax in H.
    unfold segment_at in H.
    assert (filter_process_segments (s32 pid) m = [s]) as Ef
      by (rewrite <- Hf; unfold filter_process_segments; by rewrite u32_s32).
    rewrite Ef in H. cbn [l_find] in H. unfold has_id in H.
    rewrite Ediv, bool_decide_true in H by done. rewrite Emod in H.
    by rewrite decide_True in H.
  - rewrite translate_by_ordinal, Hf, Ediv by done.
    rewrite l_get_out by (right; unfold l_size; cbn; lia). done.
Qed.
End agreement.

(** ** A memory with two processes *)

Definition two_processes : t_main_memory :=
  mk_main_memory 0 64 32 [mk_segment 0 1 0 16; mk_segment 1 2 16 16]
    [mk_hole 32 32] 0.

Definition cpu_running (pid : Z) : t_cpu wire wire wire :=
  mk_cpu (txt "1") (Some (mk_wire [] [] true)) (Some (mk_wire [] [] true)) 32 []
    (mk_context zero_registers (process_table pid two_processes) false).

Lemma two_processes_wf : memory_wf two_processes.
Proof.
  constructor; cbn.
  - ints. lia.
  - exists [(0, 16); (16, 16); (32, 32)]. split; [done|]. cbn. lia.
  - intros h1 h2 H1%list_elem_of_singleton H2%list_elem_of_singleton. subst. cbn. lia.
Qed.

Lemma two_processes_typed : tables_typed two_processes.
Proof. repeat constructor; cbn; ints; lia. Qed.

Lemma cpu_running_with pid : in_u32 pid -> runs_with pid two_processes (cpu_running pid).
Proof.
  intros Hp. split; [apply two_processes_wf|apply two_processes_typed|done| |done].
  cbn. ints. lia.
Qed.

Lemma mmu_translates_witness :
  mmu 4 8 (cpu_running 1) = Ok (4, cpu_running 1) /\ 0 <= 4 < INVALID_ADDRESS - 1 /\
  4 + 8 <= 16 <= 64.
Proof.
  assert (in_u32 1) as H1 by (ints; lia).
  exact (proj2 (proj2 (proj2 (mmu_translates 1 two_processes (cpu_running 1) 4 8
    (cpu_running_with 1 H1) ltac:(lia) ltac:(lia))))).
Defined.

Lemma mmu_isolates_processes_witness : 4 + 8 <= 20 \/ 20 + 4 <= 4.
Proof.
  apply (mmu_isolates_processes 1 2 two_processes (cpu_running 1) (cpu_running 2) 4 36 8 4);
    try apply cpu_running_with; try (ints; lia); try done; vm_compute; reflexivity.
Defined.

Lemma translations_agree_witness : translate_logical_address 1 4 8 two_processes = Ok 4.
Proof.
  apply (translations_agree 1 two_processes (cpu_running 1) 4 8);
    [apply cpu_running_with; ints; lia|done| |lia|lia|vm_compute; reflexivity|
     vm_compute; reflexivity].
  intros i s H. apply l_get_Some in H as [Hi H].
  destruct (Z.to_nat i) as [|n] eqn:E; [|by destruct n]. injection H as <-. cbn. lia.
Defined.

Lemma translations_disagree_after_free_witness :
  mmu 36 4 (cpu_running 2) = Ok (20, cpu_running 2) /\
  translate_logical_address 2 36 4 two_processes = Ok (-1).
Proof.
  apply (translations_disagree_after_free 2 two_processes (cpu_running 2)
    (mk_segment 1 2 16 16) 4 4);
    [apply cpu_running_with; ints; lia|done|vm_compute; reflexivity|cbn; lia..].
Defined.
