(* ===== verification/CpuExec.v ===== *)
(** * CpuExec: cpu/src/cpu/handlers.c, cpu.c, initializer.c and main.c

    The instructions and the instruction cycle: fetch from Kernel Memory, decode,
    execute, and the scheduler's answer after every instruction. *)

From Stdlib Require Import Strings.Byte Strings.String.
From S2P Require Import Prelude Bytes Msg Text Structs Peer MemoryStick.
From S2P Require Import CpuState CpuConnect CpuMemory.

Section handlers.
Context {K U T : Type} `{!Transport K, !Transport U, !Transport T}.
Implicit Types (instruction : t_instruction) (pid : Z).

Definition t_handler : Type := t_instruction -> Z -> C K U T t_extended_bool.

(** ** Instructions the CPU executes *)

Definition handler_noop : t_handler := fun instruction pid => mret EB_TRUE.

Definition handler_set : t_handler := fun instruction pid =>
  reg ← param instruction 0; p ← param instruction 1;
  value ← lift (atoi p);
  _ ← update_registers (fun r => set_register r reg (u32 value));
  mret EB_TRUE.

(** SUM and SUB: [f] on [uint32_t]. *)
Definition handler_arith (f : Z -> Z -> Z) : t_handler := fun instruction pid =>
  dest_reg ← param instruction 0; other ← param instruction 1;
  _ ← update_registers (fun r => set_register r dest_reg
        (u32 (f (get_register r dest_reg) (get_register r other))));
  mret EB_TRUE.

Definition handler_sum : t_handler := handler_arith Z.add.
Definition handler_sub : t_handler := handler_arith Z.sub.

Definition handler_jnz : t_handler := fun instruction pid =>
  p ← param instruction 0;
  reg_value ← gets (fun c => get_register (registers (context c)) p);
  if decide (reg_value = 0) then mret EB_TRUE else
  target ← param instruction 1; target ← lift (atoi target);
  _ ← update_registers (fun r => set_register r (txt "PC") (u32 target));
  mret EB_TRUE.

(** ** Instructions that touch memory *)

(** Translates; on the addresses that mean failure, what the handler returns. *)
Definition translate (address : t_registers -> Z) (on_fault : t_extended_bool)
    : C K U T (Z + t_extended_bool) :=
  la ← gets (fun c => address (registers (context c)));
  phys_addr ← mmu la 4;
  mret (if decide (phys_addr = INVALID_ADDRESS) then inr on_fault
        else if decide (phys_addr = INVALID_ADDRESS - 1) then inr EB_ERROR
        else inl phys_addr).

(** The value is read before the pointer is checked. *)
Definition handler_mov_in : t_handler := fun instruction pid =>
  phys_addr ← translate SI EB_FALSE;
  match phys_addr with
  | inr result => mret result
  | inl phys_addr =>
      read_value ← read_memory phys_addr 4;
      read_value ← lift (deref read_value);
      value ← lift (read_u32 read_value 0);
      reg ← param instruction 0;
      _ ← update_registers (fun r => set_register r reg value);
      mret EB_TRUE
  end.

Definition handler_mov_out : t_handler := fun instruction pid =>
  p ← param instruction 0;
  value ← gets (fun c => get_register (registers (context c)) p);
  phys_addr ← translate DI EB_FALSE;
  match phys_addr with
  | inr result => mret result
  | inl phys_addr =>
      ok ← write_memory phys_addr (written (int_bytes value)) 4;
      mret (if (ok : bool) then EB_TRUE else EB_ERROR)
  end.

(** Both translations ask for four bytes, whatever the number copied. *)
Definition handler_copy_mem : t_handler := fun instruction pid =>
  p ← param instruction 0;
  byte_count ← gets (fun c => get_register (registers (context c)) p);
  src_addr ← translate SI EB_FALSE;
  match src_addr with
  | inr result => mret result
  | inl src_addr =>
      dst_addr ← translate DI EB_TRUE;
      match dst_addr with
      | inr result => mret result
      | inl dst_addr =>
          read_bytes ← read_memory src_addr byte_count;
          match read_bytes with
          | None => mret EB_ERROR
          | Some read_bytes =>
              ok ← write_memory dst_addr read_bytes byte_count;
              mret (if (ok : bool) then EB_TRUE else EB_ERROR)
          end
      end
  end.

(** ** System calls *)

(** What every system call does with the outcome of sending. *)
Definition syscall (send : t_socket U -> res (bool * t_socket U)) : C K U T t_extended_bool :=
  sent ← on_ks send; mret (if (sent : bool) then EB_FALSE else EB_ERROR).

Definition syscall_name (op : t_op_code) : t_handler := fun instruction pid =>
  name ← param instruction 0; syscall (send_string op (name ++ [x00])).

Definition handler_mutex_create : t_handler := syscall_name OP_SYSCALL_MUTEX_CREATE.
Definition handler_mutex_lock : t_handler := syscall_name OP_SYSCALL_MUTEX_LOCK.
Definition handler_mutex_unlock : t_handler := syscall_name OP_SYSCALL_MUTEX_UNLOCK.

Definition syscall_struct (op : t_op_code) (data : list byte) : C K U T t_extended_bool :=
  syscall (fun s => Ok (send_buffer op data s)).

(** MEM_ALLOC and MEM_FREE: the segment table will change. *)
Definition syscall_segment (op : t_op_code) (data : t_syscall_memory)
    : C K U T t_extended_bool :=
  result ← syscall_struct op (syscall_memory_bytes data);
  _ ← when (bool_decide (result = EB_FALSE))
        (modify (set_context (set_segment_changed true)));
  mret result.

Definition handler_mem_alloc : t_handler := fun instruction pid =>
  id ← param instruction 0; id ← lift (atoi id);
  size ← param instruction 1; size ← lift (atoi size);
  syscall_segment OP_SYSCALL_MEM_ALLOC (mk_syscall_memory pid (u32 id) (u32 size)).

Definition handler_mem_free : t_handler := fun instruction pid =>
  id ← param instruction 0; id ← lift (atoi id);
  syscall_segment OP_SYSCALL_MEM_FREE (mk_syscall_memory pid (u32 id) 0).

Definition handler_sleep : t_handler := fun instruction pid =>
  time ← param instruction 0; time ← lift (atoi time);
  syscall_struct OP_SYSCALL_SLEEP (sleep_request_bytes (mk_sleep_request pid (u32 time))).

(** The registers that hold the address and the number of bytes. *)
Definition io_registers instruction : C K U T (Z * Z) :=
  r ← registers_now; address ← param instruction 0; count ← param instruction 1;
  mret (get_register r address, get_register r count).

Definition handler_stdout : t_handler := fun instruction pid =>
  '(address, count) ← io_registers instruction;
  syscall_struct OP_SYSCALL_STDOUT (stdout_request_bytes (mk_stdout_request pid count address)).

Definition handler_stdin : t_handler := fun instruction pid =>
  '(address, count) ← io_registers instruction;
  syscall_struct OP_SYSCALL_STDIN (stdin_request_bytes (mk_stdin_request pid count address)).

Definition handler_init_proc : t_handler := fun instruction pid =>
  p ← param instruction 1; priority ← lift (atoi p);
  path ← param instruction 0;
  packet ← lift (packet_append_string (create_packet OP_SYSCALL_INIT_PROC) (path ++ [x00]));
  syscall (fun s => Ok (send_packet (packet_append packet (int_bytes priority)) s)).

Definition handler_exit : t_handler := fun instruction pid =>
  syscall (send_string OP_SYSCALL_EXIT (lit "PROCESS FINISHED")).

(** The calls of [register_handlers], in order. *)
Definition handler_table : list (text * t_handler) :=
   [(txt "NOOP", handler_noop); (txt "SET", handler_set); (txt "SUM", handler_sum);
    (txt "SUB", handler_sub); (txt "JNZ", handler_jnz); (txt "MOV_IN", handler_mov_in);
    (txt "MOV_OUT", handler_mov_out); (txt "COPY_MEM", handler_copy_mem);
    (txt "MUTEX_CREATE", handler_mutex_create); (txt "MUTEX_LOCK", handler_mutex_lock);
    (txt "MUTEX_UNLOCK", handler_mutex_unlock); (txt "MEM_ALLOC", handler_mem_alloc);
    (txt "MEM_FREE", handler_mem_free); (txt "SLEEP", handler_sleep);
    (txt "STDOUT", handler_stdout); (txt "STDIN", handler_stdin);
    (txt "INIT_PROC", handler_init_proc); (txt "EXIT", handler_exit)].

Definition register_handlers : gmap text t_handler := list_to_map handler_table.
End handlers.

(** ** cpu.c: decoding *)

(** [instruction->parameters] has three elements. *)
Definition decode_stage (raw_instruction : text) : res t_instruction :=
  parts ← string_split raw_instruction (txt " ");
  match parts with
  | [] => Undef NullDeref
  | name :: parameters =>
      if decide (length parameters <= 3)%nat then Ok (mk_instruction name parameters)
      else Undef OutOfBounds
  end.

Section cycle.
Context {K U T : Type} `{!Transport K, !Transport U, !Transport T}.
Context (open_client : text -> text -> t_socket T).
(** Rounds of [listen_kernel_memory]. *)
Context (listen_fuel : nat).
Implicit Types (pid : Z).

Abbreviation listen := (listen_kernel_memory open_client listen_fuel).

Definition receive_pid : C K U T Z :=
  op_code ← on_ks receive_op_code;
  if decide (op_code = op_value OP_RESUME_PROCESS) then
    '(buffer, _) ← on_ks receive_buffer;
    buffer ← lift (deref buffer); lift (read_u32 buffer 0)
  else mret UINT32_MAX.

Definition request_context pid : C K U T bool :=
  on_km (fun s => Ok (send_buffer OP_REQUEST_CONTEXT (int_bytes pid) s)).

(** [memcpy] into the [sizeof(t_registers)] bytes of a new structure. *)
Definition receive_context : C K U T t_registers :=
  '(buffer, _) ← on_km receive_buffer;
  buffer ← lift (deref buffer);
  if decide (32 < length buffer)%nat then lift (Undef OutOfBounds) else
  lift (registers_of (take 32 (buffer ++ replicate 32 None))).

Definition receive_segment_table : C K U T (list buf) := on_km receive_packet.

Definition request_instruction pid (pc : Z) : C K U T bool :=
  on_km (fun s => Ok (send_packet (packet_append (packet_append
    (create_packet OP_NEXT_INSTRUCTION) (int_bytes pid)) (int_bytes pc)) s)).

Definition receive_instruction : C K U T (option buf) := on_km receive_string.

Definition fetch_stage pid (pc : Z) : C K U T (option buf) :=
  sent ← request_instruction pid pc;
  if negb sent then mret None else
  ok ← listen;
  if negb ok then mret None else receive_instruction.

Definition execute_stage (instruction : t_instruction) pid : C K U T t_extended_bool :=
  match register_handlers !! name instruction with
  | None => mret EB_ERROR
  | Some handler => handler instruction pid
  end.

Definition check_interrupt : C K U T t_extended_bool :=
  code ← on_ks receive_op_code;
  if decide (code = op_value OP_INTERRUPT) then
    interrupt_reason ← on_ks receive_string;
    interrupt_reason ← lift (deref interrupt_reason);
    interrupt_reason ← lift (c_text interrupt_reason);
    mret (if decide (interrupt_reason = txt "there is not enough memory for this instruction")
          then EB_NO_TABLE else EB_FALSE)
  else if decide (code = op_value OP_NO_INTERRUPT) then
    _ ← on_ks receive_string; mret EB_TRUE
  else mret EB_ERROR.

Definition send_updated_context pid (updated_context : t_registers) : C K U T bool :=
  on_km (fun s => Ok (send_packet (packet_append (packet_append
    (create_packet OP_UPDATED_CONTEXT) (int_bytes pid))
    (registers_bytes updated_context)) s)).

Definition update_segment_table pid : C K U T bool :=
  sent ← on_km (fun s => Ok (send_buffer OP_UPDATED_SEGMENT_TABLE (int_bytes pid) s));
  if negb sent then mret false else
  ok ← listen;
  if negb ok then mret false else
  table ← receive_segment_table;
  _ ← modify (set_context (set_segment_table table)); mret true.

(** After an instruction that left the program counter alone. *)
Definition advance_pc (initial_pc : Z) (r : t_registers) : t_registers :=
  if decide (initial_pc = PC r) then set_PC (u32 (PC r + 1)) r else r.

(** Fetches, decodes and executes one instruction; [None] when the instruction
    could not be fetched. *)
Definition run_instruction pid : C K U T (option t_extended_bool) :=
  r ← registers_now;
  raw_instruction ← fetch_stage pid (PC r);
  match raw_instruction with
  | None => mret None
  | Some raw_instruction =>
      raw_instruction ← lift (c_text raw_instruction);
      instruction ← lift (decode_stage raw_instruction);
      syscall ← execute_stage instruction pid;
      _ ← when (negb (bool_decide (syscall = EB_ERROR)))
            (update_registers (advance_pc (PC r)));
      mret (Some syscall)
  end.

(** What follows the instruction: the confirmation, the scheduler's answer and
    the new segment table.  [None] ends the cycle with a failure, otherwise
    [keep_going]. *)
Definition after_instruction pid (syscall : t_extended_bool) : C K U T (option bool) :=
  ok ← (if decide (syscall = EB_FALSE) then mret true
        else on_ks (send_string OP_CPU_CYCLE_OK (lit "OK")));
  if negb ok then mret None else
  interrupt ← check_interrupt;
  if decide (interrupt = EB_ERROR) then mret None else
  changed ← gets (fun c => segment_changed (context c));
  ok ← (if changed && bool_decide (interrupt ≠ EB_NO_TABLE) then
          ok ← update_segment_table pid;
          _ ← when ok (modify (set_context (set_segment_changed false))); mret ok
        else mret true);
  if negb ok then mret None else
  _ ← when (bool_decide (interrupt = EB_NO_TABLE))
        (modify (set_context (set_segment_changed false)));
  mret (Some (bool_decide (interrupt = EB_TRUE))).

(** One round of the loop of [run_instruction_cycle]. *)
Definition cycle_step pid : C K U T (option bool) :=
  syscall ← run_instruction pid;
  match syscall with
  | None | Some EB_ERROR => mret None
  | Some syscall => after_instruction pid syscall
  end.

Fixpoint run_instruction_cycle (fuel : nat) pid : C K U T bool :=
  match fuel with
  | O => lift (Undef OutOfFuel)
  | S fuel =>
      result ← cycle_step pid;
      match result with
      | None => mret false
      | Some true => run_instruction_cycle fuel pid
      | Some false => r ← registers_now; send_updated_context pid r
      end
  end.

(** The part of the loop that asks Kernel Memory for the process. *)
Definition load_process pid : C K U T bool :=
  ok ← request_context pid;
  if negb ok then mret false else
  ok ← listen;
  if negb ok then mret false else
  r ← receive_context;
  _ ← update_registers (fun _ => r);
  ok ← listen;
  if negb ok then mret false else
  table ← receive_segment_table;
  _ ← modify (set_context (set_segment_table table)); mret true.

(** One round of [run_instruction_loop]: whether to wait for the next process. *)
Definition run_instruction_loop_step (fuel : nat) : C K U T bool :=
  pid ← receive_pid;
  if decide (pid = UINT32_MAX) then mret false else
  ok ← load_process pid;
  if negb ok then mret false else run_instruction_cycle fuel pid.

Fixpoint run_instruction_loop (fuel : nat) : C K U T unit :=
  match fuel with
  | O => lift (Undef OutOfFuel)
  | S fuel =>
      ok ← run_instruction_loop_step fuel;
      if (ok : bool) then run_instruction_loop fuel else mret tt
  end.

(** ** main.c, after [init_module]: [false] is [EXIT_FAILURE] *)

Definition send_id {X} `{!Transport X} (id : text) (s : t_socket X)
    : res (bool * t_socket X) := send_string OP_ID_CPU (id ++ [x00]) s.

Definition main (open_km : text -> text -> t_socket K) (open_ks : text -> text -> t_socket U)
    (config : t_properties) (fuel : nat) : C K U T bool :=
  ok ← connect_to_kernel_scheduler open_ks config;
  if negb ok then mret false else
  id ← gets cpu_id;
  ok ← on_ks (send_id id);
  if negb ok then mret false else
  ok ← connect_to_kernel_memory open_km config;
  if negb ok then mret false else
  ok ← on_km (send_id id);
  if negb ok then mret false else
  ok ← receive_max_segment_size;
  if negb ok then mret false else
  _ ← modify (set_context (fun _ => mk_context zero_registers [] false));
  _ ← run_instruction_loop fuel;
  mret true.
End cycle.
