(* ===== verification/CpuIsa.v ===== *)
(** * CpuIsa: the memory instructions, end to end

    MOV_IN, MOV_OUT and COPY_MEM on a CPU that runs a process with the table
    Kernel Memory sent and is connected to idle sticks: translation, transfer
    over the sticks and registers together. *)

From Stdlib Require Import Strings.Byte Strings.String.
From S2P Require Import Prelude Bytes Msg Text Structs MainMemory Compaction Holes.
From S2P Require Import Segments Peer MemoryStick Sticks CpuState CpuConnect CpuMemory Mmu CpuExec.

Section memory_instructions.
Context {K U T : Type} `{!Transport K, !Transport U, !Transport T, !Stick T}.
Implicit Types (c : t_cpu K U T) (m : t_main_memory) (mems : list (list byte)).

(** The machine: a process's table and the sticks that hold its bytes. *)
Record machine (pid : Z) m mems c : Prop := {
  mc_runs : runs_with pid m c;
  mc_sticks : cpu_sticks_ok (memory_sticks c) mems;
  mc_total : total_size m <= l_size (concat mems);
  mc_registers : registers_wf (registers (context c)) }.

(** The four bytes at logical address [la] are physical bytes [pa] and on, in
    the segment [s] of the process. *)
Definition accessible (pid : Z) m c (la pa : Z) (s : t_segment) : Prop :=
  segment_at pid (cpu_max_segment_size c) la m = Some s /\
  la mod cpu_max_segment_size c + 4 <= seg_size s /\
  pa = seg_base s + la mod cpu_max_segment_size c.

Lemma accessible_in pid m c la pa s :
  runs_with pid m c -> 0 <= la -> accessible pid m c la pa s ->
  s ∈ segments m /\ seg_pid s = pid /\ seg_base s <= pa /\
  pa + 4 <= seg_base s + seg_size s <= total_size m /\ 0 <= seg_base s /\
  0 <= pa < INVALID_ADDRESS - 1.
Proof.
  intros Hr Hla (Hs & Hb & ->). apply segment_at_Some in Hs as (Hin & Hp & _); [|apply Hr].
  pose proof (wf_segment _ _ (rw_wf _ _ _ Hr) Hin). pose proof (wf_total _ (rw_wf _ _ _ Hr)).
  pose proof (Z.mod_pos_bound la (cpu_max_segment_size c) ltac:(destruct Hr; lia)).
  unfold INVALID_ADDRESS. ints. split_and!; done || lia.
Qed.

Lemma translate_ok pid m c (f : t_registers -> Z) e pa s :
  runs_with pid m c -> 0 <= f (registers (context c)) ->
  accessible pid m c (f (registers (context c))) pa s ->
  translate f e c = Ok (inl pa, c).
Proof.
  intros Hr Hla Ha. destruct (accessible_in _ _ _ _ _ _ Hr Hla Ha) as (_ & _ & _ & _ & _ & Hpa).
  destruct Ha as (Hs & Hb & E). unfold translate. rewrite bind_M, gets_M.
  pose proof (mmu_eq pid m c _ 4 Hr Hla ltac:(lia)) as H. rewrite Hs in H.
  rewrite decide_True in H by done. rewrite bind_M, H, <- E. cbv beta.
  rewrite !decide_False by lia. done.
Qed.

(** Otherwise the sticks and the context stay, and no address comes out. *)
Lemma translate_fails pid m c (f : t_registers -> Z) e :
  runs_with pid m c -> 0 <= f (registers (context c)) ->
  (forall pa s, ~ accessible pid m c (f (registers (context c))) pa s) ->
  exists r c', translate f e c = Ok (inr r, c') /\ (r = e \/ r = EB_ERROR) /\
    memory_sticks c' = memory_sticks c /\ context c' = context c.
Proof.
  intros Hr Hla Hn. set (la := f (registers (context c))) in *.
  assert (mmu_fails c (mmu la 4 c)) as Hf.
  { pose proof (mmu_eq pid m c la 4 Hr Hla ltac:(lia)) as H.
    destruct (segment_at _ _ la m) as [s|] eqn:Es; [|done]. case_decide; [|done].
    exfalso. by eapply (Hn _ s). }
  unfold translate. rewrite bind_M, gets_M. fold la. rewrite bind_M.
  destruct Hf as [->|(b & s' & _ & ->)]; cbv beta.
  - rewrite decide_False by (unfold INVALID_ADDRESS; lia). rewrite decide_True by done.
    do 2 eexists. split; [done|]. auto.
  - destruct b; [rewrite decide_True by done
      |rewrite decide_False by (unfold INVALID_ADDRESS; lia); rewrite decide_True by done];
      do 2 eexists; (split; [done|]); auto.
Qed.

Lemma accessible_dec pid m c la :
  (exists pa s, accessible pid m c la pa s) \/ (forall pa s, ~ accessible pid m c la pa s).
Proof.
  unfold accessible. destruct (segment_at _ _ la m) as [s|]; [|right; naive_solver].
  destruct (decide (la mod cpu_max_segment_size c + 4 <= seg_size s));
    [left; by repeat eexists|right]. intros pa s' ([= ->] & ? & _). done.
Qed.

Lemma machine_address pid m mems c n :
  machine pid m mems c -> 0 <= get_register (registers (context c)) n.
Proof. intros H. by destruct (get_register_range _ n (mc_registers _ _ _ _ H)). Qed.

(** ** MOV_OUT and MOV_IN *)

Lemma mov_out_ok pid m mems c reg ps name pa s :
  machine pid m mems c ->
  accessible pid m c (DI (registers (context c))) pa s ->
  exists sticks' mems',
    handler_mov_out (mk_instruction name (reg :: ps)) pid c
    = Ok (EB_TRUE, with_sticks sticks' c) /\
    cpu_sticks_ok sticks' mems' /\
    concat mems' = overwrite (Z.to_nat pa)
      (int_bytes (get_register (registers (context c)) reg)) (concat mems).
Proof.
  intros [Hr Hst Ht Hreg] Ha.
  assert (0 <= DI (registers (context c))) as Hla
    by (by destruct (get_register_range _ (txt "DI") Hreg)).
  destruct (accessible_in _ _ _ _ _ _ Hr Hla Ha) as (_ & _ & _ & Hb & _ & Hpa).
  unfold handler_mov_out. rewrite bind_M. cbn [param parameters]. unfold param. run_M.
  cbn [parameters lookup list_lookup]. rewrite lift_M. run_M.
  rewrite (translate_ok pid m c DI EB_FALSE pa s) by done. run_M.
  set (v := get_register _ reg).
  destruct (write_memory_ok pa (int_bytes v) c mems Hst) as (sticks' & mems' & E & H1 & H2);
    [lia|rewrite l_size_int_bytes; lia|].
  rewrite l_size_int_bytes in E. rewrite E. by exists sticks', mems'.
Qed.

Lemma mov_in_ok pid m mems c reg ps name pa s :
  machine pid m mems c ->
  accessible pid m c (SI (registers (context c))) pa s ->
  exists sticks',
    handler_mov_in (mk_instruction name (reg :: ps)) pid c
    = Ok (EB_TRUE, set_context (set_registers (fun r =>
        set_register r reg (bytes_u32 (slice pa 4 (concat mems))))) (with_sticks sticks' c)) /\
    cpu_sticks_ok sticks' mems.
Proof.
  intros [Hr Hst Ht Hreg] Ha.
  assert (0 <= SI (registers (context c))) as Hla
    by (by destruct (get_register_range _ (txt "SI") Hreg)).
  destruct (accessible_in _ _ _ _ _ _ Hr Hla Ha) as (_ & _ & _ & Hb & _ & Hpa).
  unfold handler_mov_in. rewrite bind_M.
  rewrite (translate_ok pid m c SI EB_FALSE pa s) by done. run_M.
  destruct (read_memory_ok pa 4 c mems Hst) as (sticks' & E & H1); [lia..|].
  rewrite E. run_M. cbn [deref]. rewrite lift_M. run_M. rewrite lift_M.
  pose proof (slice_length pa 4 (concat mems) ltac:(lia) ltac:(lia) ltac:(lia)) as Hl.
  assert (read_u32 (written (slice pa 4 (concat mems))) 0
          = Ok (bytes_u32 (slice pa 4 (concat mems)))) as ->.
  { unfold read_u32. unfold l_size in Hl. rewrite (read_bytes_at _ 0 4 (slice pa 4 (concat mems)));
      [done|rewrite drop_0, take_ge by lia; done|lia]. }
  unfold param. cbn [parameters lookup list_lookup]. run_M. rewrite lift_M. run_M.
  exists sticks'. split; [|done]. done.
Qed.

(** Using the sticks does not change what the machine is. *)
Lemma machine_with_sticks pid m mems mems' sticks c :
  machine pid m mems c -> cpu_sticks_ok sticks mems' ->
  l_size (concat mems') = l_size (concat mems) ->
  machine pid m mems' (with_sticks sticks c).
Proof.
  intros [[] Hst Ht Hreg] H El. split; [by split|done| |done]. by rewrite El.
Qed.

(** a register stored with MOV_OUT is what MOV_IN of the same address loads
    (truncated by an 8-bit register), on any layout of the sticks. *)
Theorem mov_out_mov_in pid m mems c reg1 reg2 pa s :
  machine pid m mems c ->
  accessible pid m c (DI (registers (context c))) pa s ->
  SI (registers (context c)) = DI (registers (context c)) -> reg2 ∈ register_names ->
  exists c1 c2,
    handler_mov_out (mk_instruction (txt "MOV_OUT") [reg1]) pid c = Ok (EB_TRUE, c1) /\
    handler_mov_in (mk_instruction (txt "MOV_IN") [reg2]) pid c1 = Ok (EB_TRUE, c2) /\
    get_register (registers (context c2)) reg2
    = register_value reg2 (get_register (registers (context c)) reg1).
Proof.
  intros Hm Ha Esi Hreg. pose proof Hm as [Hr _ Ht Hwf].
  assert (0 <= DI (registers (context c))) as Hla
    by (by destruct (get_register_range _ (txt "DI") Hwf)).
  destruct (accessible_in _ _ _ _ _ _ Hr Hla Ha) as (_ & _ & _ & Hb & _ & Hpa).
  destruct (mov_out_ok pid m mems c reg1 [] (txt "MOV_OUT") pa s Hm Ha)
    as (sticks1 & mems1 & E1 & Hok & Hc).
  set (v := get_register _ reg1) in *. pose proof (get_register_range _ reg1 Hwf) as Hv.
  assert (machine pid m mems1 (with_sticks sticks1 c)) as Hm1.
  { apply (machine_with_sticks _ _ mems); [done..|]. rewrite Hc.
    apply overwrite_size; [lia|]. rewrite l_size_int_bytes. lia. }
  destruct (mov_in_ok pid m mems1 (with_sticks sticks1 c) reg2 [] (txt "MOV_IN") pa s Hm1)
    as (sticks2 & E2 & _); [by cbn; rewrite Esi|].
  do 2 eexists. split_and!; [done|done|]. cbn [set_context set_registers context registers].
  rewrite get_set_same, Hc by done. f_equal. rewrite <- (l_size_int_bytes v).
  rewrite slice_overwrite by (rewrite ?l_size_int_bytes; lia).
  rewrite bytes_u32_int_bytes. by apply u32_id.
Qed.

(** C29: MOV_OUT is confined: whatever the registers hold it returns, and no byte
    of the sticks changes outside the segments of the running process. *)
Theorem mov_out_confined pid m mems c reg :
  machine pid m mems c ->
  exists r c' mems',
    handler_mov_out (mk_instruction (txt "MOV_OUT") [reg]) pid c = Ok (r, c') /\
    cpu_sticks_ok (memory_sticks c') mems' /\ context c' = context c /\
    length (concat mems') = length (concat mems) /\
    forall i, concat mems' !! i ≠ concat mems !! i ->
      exists s, s ∈ segments m /\ seg_pid s = pid /\
        seg_base s <= Z.of_nat i < seg_base s + seg_size s.
Proof.
  intros Hm. pose proof Hm as [Hr Hst Ht Hwf].
  assert (0 <= DI (registers (context c))) as Hla
    by (by destruct (get_register_range _ (txt "DI") Hwf)).
  destruct (accessible_dec pid m c (DI (registers (context c)))) as [(pa & s & Ha)|Hn].
  - destruct (mov_out_ok pid m mems c reg [] (txt "MOV_OUT") pa s Hm Ha)
      as (sticks1 & mems1 & -> & Hok & Hc).
    destruct (accessible_in _ _ _ _ _ _ Hr Hla Ha) as (Hin & Hp & Hlo & Hhi & _ & Hpa).
    eexists EB_TRUE, _, mems1. split_and!; [done|done|done| |].
    + rewrite Hc. apply overwrite_length. rewrite int_bytes_length. unfold l_size in *. lia.
    + intros i Hi. exists s. split_and!; [done|done|..]; apply Z.nlt_ge || apply Z.nle_gt;
        intros Hout; apply Hi; rewrite Hc; apply overwrite_lookup_out;
        rewrite int_bytes_length; unfold l_size in *; lia.
  - destruct (translate_fails pid m c DI EB_FALSE Hr Hla Hn) as (r & c' & E & _ & Es & Ec).
    exists r, c', mems. unfold handler_mov_out, param. cbn [parameters lookup list_lookup].
    run_M. rewrite lift_M. run_M. rewrite E. rewrite Es. split_and!; try done.
Qed.

(** COPY_MEM checks the first four bytes of each range only: it copies as
    many bytes as the register says, past the end of the destination's segment
    into whatever follows, and reports success. *)
Theorem copy_mem_ignores_segment_end pid m mems c reg pa pd s1 s2 :
  machine pid m mems c ->
  accessible pid m c (SI (registers (context c))) pa s1 ->
  accessible pid m c (DI (registers (context c))) pd s2 ->
  let n := get_register (registers (context c)) reg in
  pa + n <= l_size (concat mems) -> pd + n <= l_size (concat mems) ->
  exists sticks' mems',
    handler_copy_mem (mk_instruction (txt "COPY_MEM") [reg]) pid c
    = Ok (EB_TRUE, with_sticks sticks' c) /\
    concat mems' = overwrite (Z.to_nat pd) (slice pa n (concat mems)) (concat mems) /\
    cpu_sticks_ok sticks' mems' /\
    forall i, 0 <= i < n ->
      concat mems' !! Z.to_nat (pd + i) = concat mems !! Z.to_nat (pa + i).
Proof.
  intros Hm Ha1 Ha2 n Hb1 Hb2. pose proof Hm as [Hr Hst Ht Hwf].
  assert (0 <= SI (registers (context c))) as Hla1
    by (by destruct (get_register_range _ (txt "SI") Hwf)).
  assert (0 <= DI (registers (context c))) as Hla2
    by (by destruct (get_register_range _ (txt "DI") Hwf)).
  destruct (accessible_in _ _ _ _ _ _ Hr Hla1 Ha1) as (_ & _ & _ & _ & _ & Hpa).
  destruct (accessible_in _ _ _ _ _ _ Hr Hla2 Ha2) as (_ & _ & _ & _ & _ & Hpd).
  assert (0 <= n) as Hn by (by destruct (get_register_range _ reg Hwf)).
  assert (l_size (slice pa n (concat mems)) = n) as Hl by (apply slice_length; lia).
  unfold handler_copy_mem, param. cbn [parameters lookup list_lookup].
  run_M. rewrite lift_M. run_M. fold n.
  rewrite (translate_ok pid m c SI EB_FALSE pa s1) by done. run_M.
  rewrite (translate_ok pid m c DI EB_TRUE pd s2) by done. run_M.
  destruct (read_memory_ok pa n c mems Hst) as (sticks1 & -> & Hst1); [lia..|]. run_M.
  destruct (write_memory_ok pd (slice pa n (concat mems)) (with_sticks sticks1 c) mems Hst1)
    as (sticks2 & mems2 & E & Hst2 & Hc); [lia|lia|].
  rewrite Hl in E. rewrite E. exists sticks2, mems2. split_and!; [done..|].
  intros i Hi. rewrite Hc. unfold l_size in Hl, Hb1, Hb2.
  replace (Z.to_nat (pd + i)) with (Z.to_nat pd + Z.to_nat i)%nat by lia.
  rewrite overwrite_lookup_in by lia. unfold slice. rewrite lookup_take_lt by lia.
  rewrite lookup_drop. f_equal. lia.
Qed.
End memory_instructions.

(** ** Process 1 of [two_processes] on two sticks of 32 bytes *)

Definition stick_32 (offset : Z) : t_memory_stick_info stick_peer :=
  mk_memory_stick_info (Some (mk_peer (mk_ms (replicate 32 x00)) [] true)) 32 offset.

(** AX = 7 and EAX = 20; SI and DI as given. *)
Definition machine_1 (si di : Z) : t_cpu wire wire stick_peer :=
  mk_cpu (txt "1") (Some (mk_wire [] [] true)) (Some (mk_wire [] [] true)) 32
    [stick_32 0; stick_32 32]
    (mk_context (mk_registers 7 0 0 0 0 20 0 0 0 si di) (process_table 1 two_processes) false).

Abbreviation zeros := [replicate 32 x00; replicate 32 x00].

Lemma machine_1_ok si di :
  in_u32 si -> in_u32 di -> machine 1 two_processes zeros (machine_1 si di).
Proof.
  intros Hs Hd. unfold in_u32 in *. split.
  - split; [apply two_processes_wf|apply two_processes_typed|ints; lia|cbn; ints; lia|done].
  - split; [|done|vm_compute; congruence].
    repeat constructor; try done; eexists; split; done.
  - vm_compute. congruence.
  - split; cbn; rewrite !Forall_cons; split_and!; try apply Forall_nil_2; ints; lia.
Qed.

Lemma machine_1_accessible si di la :
  0 <= la <= 12 ->
  accessible 1 two_processes (machine_1 si di) la la (mk_segment 0 1 0 16).
Proof.
  intros Hla. unfold accessible, segment_at. cbn [machine_1 cpu_max_segment_size].
  rewrite Z.div_small, Z.mod_small by lia. split_and!; [done|cbn; lia|cbn; lia].
Qed.

Lemma mov_out_mov_in_witness :
  let c := machine_1 4 4 in
  exists c1 c2,
    handler_mov_out (mk_instruction (txt "MOV_OUT") [txt "EAX"]) 1 c = Ok (EB_TRUE, c1) /\
    handler_mov_in (mk_instruction (txt "MOV_IN") [txt "EBX"]) 1 c1 = Ok (EB_TRUE, c2) /\
    get_register (registers (context c2)) (txt "EBX")
    = register_value (txt "EBX") (get_register (registers (context c)) (txt "EAX")).
Proof.
  apply (mov_out_mov_in 1 two_processes zeros (machine_1 4 4) (txt "EAX") (txt "EBX") 4
    (mk_segment 0 1 0 16));
    [apply machine_1_ok; ints; lia|apply machine_1_accessible; lia|done|].
  apply (bool_decide_unpack (txt "EBX" ∈ register_names)). vm_compute. done.
Defined.

Lemma mov_out_confined_witness :
  exists r c' mems',
    handler_mov_out (mk_instruction (txt "MOV_OUT") [txt "EAX"]) 1 (machine_1 4 4)
    = Ok (r, c') /\
    cpu_sticks_ok (memory_sticks c') mems' /\ context c' = context (machine_1 4 4) /\
    length (concat mems') = length (concat zeros) /\
    forall i, concat mems' !! i ≠ concat zeros !! i ->
      exists s, s ∈ segments two_processes /\ seg_pid s = 1 /\
        seg_base s <= Z.of_nat i < seg_base s + seg_size s.
Proof.
  apply (mov_out_confined 1 two_processes zeros (machine_1 4 4) (txt "EAX")).
  apply machine_1_ok; ints; lia.
Defined.

(** Twenty bytes from 0 to 8: the last twelve are process 2's. *)
Lemma copy_mem_ignores_segment_end_witness :
  exists sticks' mems',
    handler_copy_mem (mk_instruction (txt "COPY_MEM") [txt "EAX"]) 1 (machine_1 0 8)
    = Ok (EB_TRUE, with_sticks sticks' (machine_1 0 8)) /\
    concat mems' = overwrite (Z.to_nat 8) (slice 0 20 (concat zeros)) (concat zeros) /\
    cpu_sticks_ok sticks' mems' /\
    forall i, 0 <= i < 20 ->
      concat mems' !! Z.to_nat (8 + i) = concat zeros !! Z.to_nat (0 + i).
Proof.
  apply (copy_mem_ignores_segment_end 1 two_processes zeros (machine_1 0 8) (txt "EAX") 0 8
    (mk_segment 0 1 0 16) (mk_segment 0 1 0 16));
    [apply machine_1_ok; ints; lia|apply machine_1_accessible; lia
    |apply machine_1_accessible; lia|vm_compute; congruence..].
Defined.
