(* ===== verification/CpuKm.v ===== *)
(** * CpuKm: a CPU connected to Kernel Memory

    The CPU's loop and Kernel Memory's loop for one CPU at the two ends of a
    socket: fetching, resuming and saving a process, and whole programs of
    register instructions. *)

From Stdlib Require Import Strings.Byte Strings.String.
From S2P Require Import Prelude Bytes Msg Text File Structs MainMemory Compaction Holes.
From S2P Require Import Segments Peer MemoryStick Sticks KmProcess CpuListener.
From S2P Require Import CpuState CpuConnect CpuMemory Mmu CpuExec.

Abbreviation km := (t_cpu_data wire wire).

(** One round of Kernel Memory's loop.  The socket is the one the request came
    on, not part of the state. *)
#[export] Instance km_server : Server km := fun d s =>
  '(connection_alive, d) ← listen_cpu_step (set_cpu_socket s d);
  Ok (connection_alive, set_cpu_socket None d, socket_cpu d).

Abbreviation km_peer := (peer km).

Section connection.
Context {U T : Type} `{!Transport U, !Transport T}.
Context (open_client : text -> text -> t_socket T) (listen_fuel : nat).
Implicit Types (c : t_cpu km_peer U T) (d : km).

(** [c] is connected to an idle Kernel Memory in state [d]. *)
Definition connected c d : Prop :=
  socket_kernel_memory c = Some (mk_peer d [] true) /\ socket_cpu d = None.

(** ** Frames read one after the other *)

Lemma receive_op_code_next d op payload rest :
  receive_op_code (Some (mk_peer d (frame op payload ++ rest) true))
  = Ok (op_value op,
        Some (mk_peer d (int_bytes (l_size payload) ++ payload ++ rest) true)).
Proof.
  rewrite receive_op_code_peer. cbn [pr_out]. by rewrite receive_op_code_frame.
Qed.

Lemma receive_buffer_next d payload rest :
  payload ≠ [] -> sendable payload ->
  receive_buffer (Some (mk_peer d (int_bytes (l_size payload) ++ payload ++ rest) true))
  = Ok (Some (written payload), l_size payload, Some (mk_peer d rest true)).
Proof.
  intros Hne Hs. rewrite receive_buffer_peer. cbn [pr_out].
  by rewrite receive_buffer_wire.
Qed.

Lemma receive_packet_next d els rest :
  Forall (fun v => v ≠ [] /\ sendable v) els -> sendable (elements els) ->
  receive_packet (Some (mk_peer d (int_bytes (l_size (elements els)) ++ elements els ++ rest)
    true))
  = Ok (written <$> els, Some (mk_peer d rest true)).
Proof.
  intros H Hs. pose proof (receive_packet_wire els rest [] true H Hs) as E.
  unfold receive_packet in *. rewrite receive_buffer_peer. cbn [pr_out].
  destruct (receive_buffer _) as [[[b z] s]|u]; [|done]. cbn [mbind res_bind on_peer] in *.
  destruct (packet_elements _ _); [|done]. cbn [mbind res_bind] in *. by simplify_eq.
Qed.

(** Calls on the socket, with the socket at hand. *)
Lemma on_km_eq {A} c s (f : t_socket km_peer -> res (A * t_socket km_peer)) :
  socket_kernel_memory c = s ->
  on_km f c = match f s with
              | Ok (a, s') => Ok (a, set_km s' c)
              | Undef u => Undef u
              end.
Proof.
  intros <-. unfold on_km. run_M. rewrite lift_M.
  destruct (f _) as [[a s]|u]; [|done]. by run_M.
Qed.

(** A request Kernel Memory serves with [reply]. *)
Lemma request_km c d d' op payload reply :
  connected c d ->
  listen_cpu_step (set_cpu_socket (Some (mk_wire (frame op payload) [] true)) d)
  = Ok (true, set_cpu_socket (Some (mk_wire [] reply true)) d') ->
  socket_send (socket_kernel_memory c) (frame op payload)
  = (true, Some (mk_peer (set_cpu_socket None d') reply true)).
Proof.
  intros [-> _] H. apply peer_request. rewrite app_nil_r.
  unfold serve, km_server. by rewrite H.
Qed.

Lemma listen_reply c d op payload rest :
  op = OP_SEND_CONTEXT \/ op = OP_SEND_INSTRUCTION \/ op = OP_SEGMENT_TABLE ->
  socket_kernel_memory c = Some (mk_peer d (frame op payload ++ rest) true) ->
  listen_kernel_memory open_client (S listen_fuel) c
  = Ok (true, set_km (Some (mk_peer d (int_bytes (l_size payload) ++ payload ++ rest) true)) c).
Proof.
  intros Hop Hs. cbn [listen_kernel_memory]. unfold listen_kernel_memory_step.
  rewrite bind_M, bind_M, (on_km_eq c _ _ Hs), receive_op_code_next.
  rewrite op_of_value_op_value. by destruct Hop as [->|[->| ->]].
Qed.

(** ** Fetching an instruction *)

Definition instruction_request (pid pc : Z) : list byte :=
  frame OP_NEXT_INSTRUCTION (elements [int_bytes pid; int_bytes pc]).

Lemma serve_instruction d pid pc p raw :
  in_u32 pid -> in_u32 pc -> find_process (cpu_processes d) pid = Ok (Some p) ->
  l_get (instructions p) pc = Some raw -> x00 ∉ raw ->
  listen_cpu_step (set_cpu_socket (Some (mk_wire (instruction_request pid pc) [] true)) d)
  = Ok (true, set_cpu_socket
      (Some (mk_wire [] (frame OP_SEND_INSTRUCTION (raw ++ [x00])) true)) d).
Proof.
  intros Hp Hpc Hf Hi Hz. unfold listen_cpu_step, instruction_request.
  cbn [set_cpu_socket socket_cpu]. rewrite <- (app_nil_r (frame _ _)) at 1.
  rewrite receive_op_code_frame. cbn [mbind res_bind]. rewrite op_of_value_op_value.
  unfold handle_next_instruction. cbn [set_cpu_socket socket_cpu cpu_processes].
  rewrite receive_packet_wire by
    (repeat constructor; (done || (unfold sendable, l_size; cbn; ints; lia))).
  cbn [mbind res_bind]. rewrite packet_pid_and_ok by done. cbn [mbind res_bind].
  rewrite read_pid by done. cbn [mbind res_bind]. rewrite Hf. cbn [mbind res_bind deref].
  rewrite Hi. cbn [at_index mbind res_bind].
  unfold send_string, str_read. rewrite c_str_app by done. cbn [at_index mbind res_bind].
  rewrite wire_send by apply serialize_packet_ne. done.
Qed.

(** What is left of the CPU once a reply has been read. *)
Lemma set_km_idle c d : connected c d -> set_km (Some (mk_peer d [] true)) c = c.
Proof. intros [E _]. unfold set_km. rewrite <- E. by destruct c. Qed.

Lemma fetch_ok c d pid pc p raw :
  connected c d -> in_u32 pid -> in_u32 pc ->
  find_process (cpu_processes d) pid = Ok (Some p) ->
  l_get (instructions p) pc = Some raw -> x00 ∉ raw -> sendable (raw ++ [x00]) ->
  fetch_stage open_client (S listen_fuel) pid pc c = Ok (Some (written (raw ++ [x00])), c).
Proof.
  intros Hc Hp Hpc Hf Hi Hz Hs. pose proof Hc as [Hk Hd].
  assert (set_cpu_socket None d = d) as Ed by (destruct d; cbn in *; by subst).
  unfold fetch_stage, request_instruction. rewrite bind_M, (on_km_eq c _ _ eq_refl).
  unfold send_packet.
  change (serialize_packet _) with (instruction_request pid pc).
  unfold instruction_request at 1.
  rewrite (request_km c d d OP_NEXT_INSTRUCTION _ (frame OP_SEND_INSTRUCTION (raw ++ [x00])))
    by (done || by eapply serve_instruction). rewrite Ed.
  cbn [negb]. rewrite bind_M.
  rewrite (listen_reply _ d OP_SEND_INSTRUCTION (raw ++ [x00]) []);
    [|by auto|by rewrite app_nil_r].
  cbn [negb]. unfold receive_instruction. rewrite (on_km_eq _ _ _ eq_refl).
  unfold receive_string. cbn [set_km socket_kernel_memory].
  rewrite receive_buffer_next by (done || by destruct raw). cbn [mbind res_bind].
  do 2 f_equal. transitivity (set_km (Some (mk_peer d [] true)) c);
    [done|by apply set_km_idle].
Qed.

(** ** Resuming and saving a process *)

Lemma table_packet_frame pid m :
  serialize_packet (segment_table_packet pid m)
  = frame OP_SEGMENT_TABLE (elements (segment_bytes <$> filter_process_segments (s32 pid) m)).
Proof.
  unfold frame, serialize_packet, segment_table_packet.
  rewrite add_segments_to_packet_stream, add_segments_to_packet_op. done.
Qed.

Definition loaded (r : t_registers) (table : list buf) c : t_cpu km_peer U T :=
  set_context (fun x => mk_context r table (segment_changed x)) c.

Lemma load_process_ok c d pid p :
  connected c d -> in_u32 pid -> find_process (cpu_processes d) pid = Ok (Some p) ->
  registers_wf (KmProcess.registers p) ->
  sendable (elements (segment_bytes <$> filter_process_segments (s32 pid) (cpu_memory d))) ->
  load_process open_client (S listen_fuel) pid c
  = Ok (true, loaded (KmProcess.registers p) (process_table pid (cpu_memory d)) c).
Proof.
  intros Hc Hp Hf Hr Hs. pose proof Hc as [Hk Hd].
  assert (set_cpu_socket None d = d) as Ed by (destruct d; cbn in *; by subst).
  pose proof (send_context_ok (set_cpu_socket (Some (mk_wire (context_request pid ++ []) [] true)) d)
    pid p [] [] Hp Hf eq_refl) as Hserve.
  unfold load_process, request_context. rewrite bind_M, (on_km_eq c _ _ eq_refl).
  unfold send_buffer. change (serialize_packet _) with (frame OP_REQUEST_CONTEXT (int_bytes pid)).
  rewrite (request_km c d d OP_REQUEST_CONTEXT (int_bytes pid) _ Hc)
    by (rewrite app_nil_r in Hserve; exact Hserve).
  cbn [negb app]. rewrite Ed, bind_M.
  rewrite (listen_reply _ d OP_SEND_CONTEXT (registers_bytes (KmProcess.registers p))
    (serialize_packet (segment_table_packet pid (cpu_memory d)))) by (done || by left).
  cbn [negb]. rewrite bind_M. unfold receive_context. rewrite bind_M, (on_km_eq _ _ _ eq_refl).
  cbn [set_km socket_kernel_memory].
  rewrite receive_buffer_next by (done || unfold sendable, l_size; cbn; ints; lia).
  cbn [deref]. rewrite bind_M, lift_M.
  rewrite decide_False by (unfold written; rewrite length_fmap, registers_bytes_length; lia).
  rewrite take_app_length' by (unfold written; by rewrite length_fmap, registers_bytes_length).
  rewrite registers_roundtrip, lift_M, bind_M by done.
  unfold update_registers. rewrite modify_M, bind_M.
  rewrite (listen_reply _ d OP_SEGMENT_TABLE
    (elements (segment_bytes <$> filter_process_segments (s32 pid) (cpu_memory d))) []);
    [|by auto|by rewrite app_nil_r, <- table_packet_frame].
  cbn [negb]. rewrite bind_M. unfold receive_segment_table. rewrite (on_km_eq _ _ _ eq_refl).
  cbn [set_km set_context socket_kernel_memory].
  rewrite receive_packet_next; [..|done].
  - rewrite bind_M, modify_M. destruct c; cbn in *; subst. cbn.
    do 3 f_equal. unfold process_table, entry. by rewrite <- list_fmap_compose.
  - apply Forall_fmap, Forall_forall. intros s _. split; [done|].
    unfold sendable, l_size. cbn. ints. lia.
Qed.

(** The context goes to Kernel Memory when the process leaves the CPU. *)
Lemma save_process_ok c d pid p r :
  connected c d -> in_u32 pid -> find_process (cpu_processes d) pid = Ok (Some p) ->
  processes_ok (cpu_processes d) -> registers_wf r ->
  exists c', send_updated_context pid r c = Ok (true, c') /\
    connected c' (set_cpu_processes (KmProcess.update_registers pid r (cpu_processes d)) d) /\
    context c' = context c /\ socket_kernel_scheduler c' = socket_kernel_scheduler c.
Proof.
  intros Hc Hp Hf Hok Hr. pose proof Hc as [Hk Hd].
  pose proof (save_context_ok (set_cpu_socket (Some (mk_wire (save_context_request pid r ++ [])
    [] true)) d) pid r p [] [] Hok Hp Hr Hf eq_refl) as Hserve.
  unfold send_updated_context. rewrite (on_km_eq c _ _ eq_refl). unfold send_packet.
  change (serialize_packet _) with (save_context_request pid r).
  unfold save_context_request at 1.
  rewrite (request_km c d
    (set_cpu_processes (KmProcess.update_registers pid r (cpu_processes d)) d)
    OP_UPDATED_CONTEXT _ [] Hc) by (rewrite app_nil_r in Hserve; exact Hserve).
  eexists. split; [done|]. split; [|done]. split; [|done].
  cbn [set_km socket_kernel_memory]. do 2 f_equal. destruct d; cbn in *. by subst.
Qed.
End connection.

(** ** The register instructions *)

(** What cpu/README.md says of NOOP, SET, SUM, SUB and JNZ: their effect on the
    registers, and whether the instruction sets the program counter. *)
Inductive isa : t_instruction -> t_registers -> t_registers -> bool -> Prop :=
  | isa_noop ps r : isa (mk_instruction (txt "NOOP") ps) r r false
  | isa_set dst v n ps r :
      atoi v = Ok n ->
      isa (mk_instruction (txt "SET") (dst :: v :: ps)) r (set_register r dst (u32 n))
        (bool_decide (dst = txt "PC"))
  | isa_sum dst src ps r :
      isa (mk_instruction (txt "SUM") (dst :: src :: ps)) r
        (set_register r dst (u32 (get_register r dst + get_register r src)))
        (bool_decide (dst = txt "PC"))
  | isa_sub dst src ps r :
      isa (mk_instruction (txt "SUB") (dst :: src :: ps)) r
        (set_register r dst (u32 (get_register r dst - get_register r src)))
        (bool_decide (dst = txt "PC"))
  | isa_jnz_taken reg target n ps r :
      get_register r reg ≠ 0 -> atoi target = Ok n ->
      isa (mk_instruction (txt "JNZ") (reg :: target :: ps)) r (set_PC (u32 n) r) true
  | isa_jnz_not_taken reg ps r :
      get_register r reg = 0 -> isa (mk_instruction (txt "JNZ") (reg :: ps)) r r false.

(** One instruction of a program: then the program counter moves on, unless the
    instruction set it. *)
Definition isa_step (program : list text) (r r' : t_registers) : Prop :=
  exists raw i r1 (sets_pc : bool),
    l_get program (PC r) = Some raw /\ (x00 ∉ raw) /\ sendable (raw ++ [x00]) /\
    decode_stage raw = Ok i /\ isa i r r1 sets_pc /\
    r' = if sets_pc then r1 else set_PC (u32 (PC r + 1)) r1.

(** No instruction sets the program counter to its own address. *)
Definition moving_step (program : list text) (r r' : t_registers) : Prop :=
  isa_step program r r' /\ PC r' ≠ PC r.

Lemma set_register_PC r dst n : dst ≠ txt "PC" -> PC (set_register r dst n) = PC r.
Proof.
  intros H. destruct r. unfold set_register. rewrite decide_False by done. by repeat case_decide.
Qed.

(** The code compares: it finds that the program counter was set when it
    changed. *)
Lemma isa_keeps_PC i r r1 b : isa i r r1 b -> b = false -> PC r1 = PC r.
Proof.
  intros [] Hb; try done; apply set_register_PC; by apply bool_decide_eq_false in Hb.
Qed.

Lemma set_PC_register r n : set_register r (txt "PC") n = set_PC n r.
Proof. by destruct r. Qed.

Lemma isa_wf i r r' b : registers_wf r -> isa i r r' b -> registers_wf r'.
Proof.
  intros H Hi. pose proof u32_range. destruct Hi; try done;
    try (apply set_register_wf; [done|unfold in_u32; auto]).
  rewrite <- set_PC_register. apply set_register_wf; [done|unfold in_u32; auto].
Qed.

Lemma isa_step_wf program r r' : registers_wf r -> isa_step program r r' -> registers_wf r'.
Proof.
  intros H (raw & i & r1 & b & _ & _ & _ & _ & Hi & ->). apply isa_wf in Hi; [|done].
  destruct b; [done|]. rewrite <- set_PC_register.
  apply set_register_wf; [done|]. unfold in_u32. apply u32_range.
Qed.

(** The dispatch table finds each handler. *)
Lemma handler_at {K U T} `{!Transport K, !Transport U, !Transport T} (n : nat) nm
    (h : t_handler (K := K) (U := U) (T := T)) :
  handler_table !! n = Some (nm, h) -> register_handlers !! nm = Some h.
Proof.
  intros H. unfold register_handlers. apply elem_of_list_to_map_1.
  - apply (bool_decide_unpack _). vm_compute. done.
  - by eapply list_elem_of_lookup_2.
Qed.

(** ** The scheduler's answers *)

(** [reason] is what the scheduler says. *)
Definition answer (go_on : bool) (reason : string) : list byte :=
  frame (if go_on then OP_NO_INTERRUPT else OP_INTERRUPT) (lit reason).

Section answers.
Context {K T : Type} `{!Transport K, !Transport T}.
Implicit Types (c : t_cpu K wire T).

Lemma on_ks_eq {A} c s (f : t_socket wire -> res (A * t_socket wire)) :
  socket_kernel_scheduler c = s ->
  on_ks f c = match f s with
              | Ok (a, s') => Ok (a, set_ks s' c)
              | Undef u => Undef u
              end.
Proof.
  intros <-. unfold on_ks. run_M. rewrite lift_M.
  destruct (f _) as [[a s]|u]; [|done]. by run_M.
Qed.

Definition plain_reason (reason : string) : Prop :=
  (x00 ∉ txt reason) /\ sendable (lit reason) /\
  txt reason ≠ txt "there is not enough memory for this instruction".

Lemma check_interrupt_reads c go_on reason rest sent :
  socket_kernel_scheduler c = Some (mk_wire (answer go_on reason ++ rest) sent true) ->
  x00 ∉ txt reason -> sendable (lit reason) ->
  check_interrupt c
  = Ok (if go_on then EB_TRUE
        else if decide (txt reason = txt "there is not enough memory for this instruction")
             then EB_NO_TABLE else EB_FALSE,
        set_ks (Some (mk_wire rest sent true)) c).
Proof.
  intros Hs Hz Hsend. unfold check_interrupt, answer in *.
  assert (lit reason ≠ []) as Hnil by (unfold lit; by destruct (list_byte_of_string reason)).
  rewrite bind_M, (on_ks_eq _ _ _ Hs), receive_op_code_frame.
  destruct go_on.
  - rewrite decide_False, decide_True by done.
    rewrite bind_M, (on_ks_eq _ _ _ eq_refl). cbn [set_ks socket_kernel_scheduler].
    unfold receive_string. by rewrite receive_buffer_wire.
  - rewrite decide_True by done.
    rewrite bind_M, (on_ks_eq _ _ _ eq_refl). cbn [set_ks socket_kernel_scheduler].
    unfold receive_string. rewrite receive_buffer_wire by done. cbn [mbind res_bind deref].
    rewrite bind_M, lift_M. unfold c_text. rewrite defined_Some. cbn [mbind res_bind].
    unfold str_read, lit. rewrite c_str_app by done. cbn [at_index].
    by rewrite bind_M, lift_M.
Qed.

Lemma check_interrupt_ok c go_on reason rest sent :
  socket_kernel_scheduler c = Some (mk_wire (answer go_on reason ++ rest) sent true) ->
  plain_reason reason ->
  check_interrupt c
  = Ok (if go_on then EB_TRUE else EB_FALSE, set_ks (Some (mk_wire rest sent true)) c).
Proof.
  intros Hs (Hz & Hsend & Hne). rewrite (check_interrupt_reads _ _ _ _ _ Hs) by done.
  by rewrite (decide_False _ _ Hne).
Qed.
End answers.

Section programs.
Context {T : Type} `{!Transport T}.
Context (open_client : text -> text -> t_socket T) (listen_fuel : nat).
Implicit Types (c : t_cpu km_peer wire T) (d : km).

Definition with_registers (r : t_registers) c : t_cpu km_peer wire T :=
  set_context (set_registers (fun _ => r)) c.

Lemma execute_isa c i pid r1 b :
  isa i (registers (context c)) r1 b ->
  execute_stage i pid c = Ok (EB_TRUE, with_registers r1 c).
Proof.
  intros H. unfold execute_stage. remember (registers (context c)) as r eqn:Er.
  destruct H; cbn [name].
  - rewrite (handler_at (K := km_peer) (U := wire) (T := T) 0 _ handler_noop eq_refl). subst.
    unfold with_registers, set_context, set_registers. by destruct c as [? ? ? ? ? []].
  - rewrite (handler_at (K := km_peer) (U := wire) (T := T) 1 _ handler_set eq_refl).
    unfold handler_set, param. cbn [parameters lookup list_lookup]. run_M.
    rewrite lift_M, bind_M, lift_M, bind_M, H, lift_M. subst. done.
  - rewrite (handler_at (K := km_peer) (U := wire) (T := T) 2 _ handler_sum eq_refl).
    unfold handler_sum, handler_arith, param. cbn [parameters lookup list_lookup]. run_M.
    rewrite lift_M, bind_M, lift_M. subst. done.
  - rewrite (handler_at (K := km_peer) (U := wire) (T := T) 3 _ handler_sub eq_refl).
    unfold handler_sub, handler_arith, param. cbn [parameters lookup list_lookup]. run_M.
    rewrite lift_M, bind_M, lift_M. subst. done.
  - rewrite (handler_at (K := km_peer) (U := wire) (T := T) 4 _ handler_jnz eq_refl).
    unfold handler_jnz, param. cbn [parameters lookup list_lookup]. run_M.
    rewrite lift_M, bind_M, gets_M, <- Er, decide_False by done.
    rewrite bind_M, lift_M, bind_M, H0, lift_M. subst. run_M.
    unfold update_registers. rewrite modify_M. unfold with_registers.
    rewrite <- set_PC_register. done.
  - rewrite (handler_at (K := km_peer) (U := wire) (T := T) 4 _ handler_jnz eq_refl).
    unfold handler_jnz, param. cbn [parameters lookup list_lookup]. run_M.
    rewrite lift_M, bind_M, gets_M, <- Er, decide_True by done. subst.
    unfold with_registers, set_context, set_registers. by destruct c as [? ? ? ? ? []].
Qed.

(** A CPU that runs [pid]: connected to a Kernel Memory that knows it, and to a
    scheduler that has sent [answers]. *)
Record running (pid : Z) (p : t_process) d answers sent c : Prop := {
  rn_km : connected c d;
  rn_pid : in_u32 pid;
  rn_process : find_process (cpu_processes d) pid = Ok (Some p);
  rn_scheduler : socket_kernel_scheduler c = Some (mk_wire answers sent true);
  rn_wf : registers_wf (registers (context c));
  rn_changed : segment_changed (context c) = false }.

Lemma pc_in_u32 r : registers_wf r -> in_u32 (PC r).
Proof. intros H. by apply (get_register_range r (txt "PC")). Qed.

Lemma run_instruction_isa pid p d answers sent c r' :
  running pid p d answers sent c ->
  moving_step (instructions p) (registers (context c)) r' ->
  run_instruction open_client (S listen_fuel) pid c
  = Ok (Some EB_TRUE, with_registers r' c).
Proof.
  intros [Hc Hp Hf Hs Hwf Hch] [(raw & i & r1 & b & Hget & Hz & Hsend & Hdec & Hisa & ->) Hpc].
  unfold run_instruction, registers_now. rewrite bind_M, gets_M, bind_M.
  rewrite (fetch_ok _ _ c d pid _ p raw) by (done || by apply pc_in_u32).
  unfold c_text, written. rewrite bind_M, defined_Some. cbn [mbind res_bind].
  unfold str_read. rewrite c_str_app, lift_M by done.
  cbn [at_index]. rewrite bind_M, Hdec, lift_M, bind_M, (execute_isa c i pid r1 b) by done.
  rewrite bool_decide_false by done. cbn [negb when]. unfold CpuState.update_registers.
  rewrite bind_M, modify_M. unfold with_registers, advance_pc. do 2 f_equal.
  unfold set_context, set_registers. cbn [context registers segment_table segment_changed].
  cbn. destruct b.
  - by rewrite decide_False by congruence.
  - apply isa_keeps_PC in Hisa; [|done]. by rewrite decide_True, Hisa by done.
Qed.

Definition cycle_ok : list byte := frame OP_CPU_CYCLE_OK (lit "OK").
Definition no_interrupt : list byte := frame OP_NO_INTERRUPT (lit "no preemption occurred").
Definition interrupt (reason : string) : list byte := frame OP_INTERRUPT (lit reason).

(** After the instruction: the answer decides whether the cycle goes on. *)
Lemma after_instruction_ok pid c go_on reason rest sent :
  socket_kernel_scheduler c = Some (mk_wire (answer go_on reason ++ rest) sent true) ->
  segment_changed (context c) = false -> plain_reason reason ->
  after_instruction open_client (S listen_fuel) pid EB_TRUE c
  = Ok (Some go_on, set_ks (Some (mk_wire rest (sent ++ cycle_ok) true)) c).
Proof.
  intros Hs Hch Hr. unfold after_instruction. rewrite decide_False by done.
  rewrite bind_M, (on_ks_eq _ _ _ Hs). sends.
  rewrite wire_send by apply serialize_packet_ne. cbn [negb].
  rewrite bind_M, (check_interrupt_ok _ go_on reason rest (sent ++ cycle_ok)) by done.
  destruct go_on; (rewrite decide_False by done; rewrite bind_M, gets_M;
    cbn [set_ks context]; by rewrite Hch).
Qed.

(** ** Programs *)

Fixpoint times {A} (n : nat) (l : list A) : list A :=
  match n with O => [] | S n => l ++ times n l end.

(** One round of the cycle is one step of the program. *)
Lemma cycle_step_ok pid p d go_on reason rest sent c r' :
  running pid p d (answer go_on reason ++ rest) sent c -> plain_reason reason ->
  moving_step (instructions p) (registers (context c)) r' ->
  exists c', cycle_step open_client (S listen_fuel) pid c = Ok (Some go_on, c') /\
    registers (context c') = r' /\ running pid p d rest (sent ++ cycle_ok) c'.
Proof.
  intros Hrun Hr Hstep. pose proof (run_instruction_isa _ _ _ _ _ _ _ Hrun Hstep) as E.
  destruct Hrun as [Hc Hp Hf Hs Hwf Hch]. unfold cycle_step. rewrite bind_M, E.
  rewrite (after_instruction_ok pid (with_registers r' c) go_on reason rest sent) by done.
  eexists. split; [done|]. split; [done|]. split; try done. cbn. by eapply isa_step_wf; [|apply Hstep].
Qed.

Lemma run_cycle_ok n fuel pid p d reason rest sent c r' :
  running pid p d (times n no_interrupt ++ interrupt reason ++ rest) sent c ->
  plain_reason reason -> processes_ok (cpu_processes d) ->
  nsteps (moving_step (instructions p)) (S n) (registers (context c)) r' ->
  (n < fuel)%nat ->
  exists c',
    run_instruction_cycle open_client (S listen_fuel) fuel pid c = Ok (true, c') /\
    connected c' (set_cpu_processes (KmProcess.update_registers pid r' (cpu_processes d)) d) /\
    socket_kernel_scheduler c'
    = Some (mk_wire rest (sent ++ times (S n) cycle_ok) true).
Proof.
  intros Hrun Hr Hok. revert fuel c sent Hrun. induction n as [|n IH];
    intros fuel c sent Hrun Hsteps Hf; (destruct fuel as [|fuel]; [lia|]);
    cbn [run_instruction_cycle]; rewrite bind_M;
    inversion Hsteps as [|? ? r1 ? Hstep Hrest]; subst.
  - inversion Hrest; subst. cbn [times app] in Hrun.
    destruct (cycle_step_ok pid p d false reason rest sent c r' Hrun Hr Hstep)
      as (c1 & -> & E1 & Hrun1).
    unfold registers_now. rewrite bind_M, gets_M, E1.
    destruct (save_process_ok c1 d pid p r') as (c2 & E & Hc2 & _ & Hs2);
      [apply Hrun1..|done|rewrite <- E1; apply Hrun1|].
    exists c2. rewrite E, Hs2. split_and!; [done|done|].
    cbn [times]. rewrite app_nil_r. apply Hrun1.
  - cbn [times] in Hrun. rewrite <- app_assoc in Hrun.
    destruct (cycle_step_ok pid p d true "no preemption occurred"
      (times n no_interrupt ++ interrupt reason ++ rest) sent c r1 Hrun)
      as (c1 & -> & E1 & Hrun1); [|done|].
    { split; [|split; [unfold sendable; vm_compute; congruence|vm_compute; congruence]].
      apply (bool_decide_unpack (x00 ∉ _)). vm_compute. done. }
    rewrite <- E1 in Hrest.
    destruct (IH fuel c1 (sent ++ cycle_ok) Hrun1 Hrest ltac:(lia)) as (c2 & -> & Hc2 & Hs2).
    exists c2. split_and!; [done|done|]. rewrite Hs2. cbn [times]. by rewrite <- app_assoc.
Qed.

Definition resume (pid : Z) : list byte := frame OP_RESUME_PROCESS (int_bytes pid).

Lemma receive_pid_ok c pid rest sent :
  in_u32 pid ->
  socket_kernel_scheduler c = Some (mk_wire (resume pid ++ rest) sent true) ->
  receive_pid c = Ok (pid, set_ks (Some (mk_wire rest sent true)) c).
Proof.
  intros Hp Hs. unfold receive_pid, resume in *.
  rewrite bind_M, (on_ks_eq _ _ _ Hs), receive_op_code_frame, decide_True by done.
  rewrite bind_M, (on_ks_eq _ _ _ eq_refl). cbn [set_ks socket_kernel_scheduler].
  rewrite receive_buffer_wire by apply int_bytes_element.
  cbn [deref]. rewrite bind_M, lift_M. by rewrite lift_M, read_pid.
Qed.

(** C3: a CPU and Kernel Memory run a program of register instructions (NOOP, SET,
    SUM, SUB and JNZ) as cpu/README.md says, as long as no instruction sets the
    program counter to its own address: when the scheduler dispatches a process
    and lets it run for [n + 1] instructions, the CPU fetches the context,
    executes exactly those steps of the process's script from its stored
    registers, confirms each of them to the scheduler, and Kernel Memory ends up
    with the resulting registers, for this process and no other.  The scheduler's
    reason to stop is another than a lack of memory. *)
Theorem cpu_runs_program n fuel pid p d reason rest sent c r' :
  connected c d -> in_u32 pid -> pid ≠ UINT32_MAX ->
  find_process (cpu_processes d) pid = Ok (Some p) -> processes_ok (cpu_processes d) ->
  registers_wf (KmProcess.registers p) -> segment_changed (context c) = false ->
  sendable (elements (segment_bytes <$> filter_process_segments (s32 pid) (cpu_memory d))) ->
  socket_kernel_scheduler c = Some (mk_wire
    (resume pid ++ times n no_interrupt ++ interrupt reason ++ rest) sent true) ->
  plain_reason reason ->
  nsteps (moving_step (instructions p)) (S n) (KmProcess.registers p) r' -> (n < fuel)%nat ->
  exists c' d',
    run_instruction_loop_step open_client (S listen_fuel) fuel c = Ok (true, c') /\
    connected c' d' /\
    find_process (cpu_processes d') pid = Ok (Some (KmProcess.set_registers r' p)) /\
    (forall pid', pid' ≠ pid ->
       find_process (cpu_processes d') pid' = find_process (cpu_processes d) pid') /\
    socket_kernel_scheduler c'
    = Some (mk_wire rest (sent ++ times (S n) cycle_ok) true).
Proof.
  intros Hc Hp Hne Hf Hok Hwf Hch Hsend Hs Hr Hsteps Hfuel.
  unfold run_instruction_loop_step.
  rewrite bind_M, (receive_pid_ok _ _ _ _ Hp Hs), decide_False by done.
  set (c1 := set_ks _ c).
  rewrite bind_M, (load_process_ok _ _ c1 d pid p) by done. cbn [negb].
  set (c2 := loaded _ _ c1).
  destruct (run_cycle_ok n fuel pid p d reason rest sent c2 r')
    as (c3 & -> & Hc3 & Hs3); [by split|done..|].
  exists c3, (set_cpu_processes (KmProcess.update_registers pid r' (cpu_processes d)) d).
  split_and!; try done.
  - by apply find_update_registers.
  - intros. by apply find_update_registers_ne.
Qed.
End programs.

(** ** A loop *)

Definition countdown : list text :=
  [txt "SET EAX 5"; txt "SET EBX 1"; txt "SUB EAX EBX"; txt "JNZ EAX 2"; txt "NOOP"].

Definition countdown_process : t_process :=
  mk_process 7 (txt "countdown") countdown zero_registers.

Definition km_with_countdown : km :=
  mk_cpu_data 1 None None [Some countdown_process] (init_main_memory 64 0 0).

Definition cpu_at_km : t_cpu km_peer wire wire :=
  mk_cpu (txt "1") (Some (mk_peer km_with_countdown [] true))
    (Some (mk_wire (resume 7 ++ times 3 no_interrupt
                    ++ interrupt "preemption by quantum end" ++ []) [] true)) 64 []
    (mk_context zero_registers [] false).

(** After SET, SET, SUB and the jump back. *)
Definition countdown_registers : t_registers := mk_registers 0 0 0 0 2 4 1 0 0 0 0.

Ltac isa_step_by rule :=
  split; [|done];
  eexists _, _, _, _; split_and!;
    [reflexivity|by apply (bool_decide_unpack (x00 ∉ _)); vm_compute
    |vm_compute; congruence|vm_compute; reflexivity|by eapply rule|vm_compute; reflexivity].

Lemma countdown_steps :
  nsteps (moving_step countdown) 4 zero_registers countdown_registers.
Proof.
  eapply (nsteps_l _ _ _ (mk_registers 0 0 0 0 1 5 0 0 0 0 0)); [isa_step_by isa_set|].
  eapply (nsteps_l _ _ _ (mk_registers 0 0 0 0 2 5 1 0 0 0 0)); [isa_step_by isa_set|].
  eapply (nsteps_l _ _ _ (mk_registers 0 0 0 0 3 4 1 0 0 0 0)); [isa_step_by isa_sub|].
  eapply (nsteps_l _ _ _ countdown_registers); [isa_step_by isa_jnz_taken|].
  constructor.
Qed.

Lemma cpu_runs_program_witness :
  exists c' d',
    run_instruction_loop_step (fun _ _ => None) 1 4 cpu_at_km = Ok (true, c') /\
    connected c' d' /\
    find_process (cpu_processes d') 7
    = Ok (Some (KmProcess.set_registers countdown_registers countdown_process)) /\
    (forall pid', pid' ≠ 7 ->
       find_process (cpu_processes d') pid'
       = find_process (cpu_processes km_with_countdown) pid') /\
    socket_kernel_scheduler c' = Some (mk_wire [] ([] ++ times 4 cycle_ok) true).
Proof.
  apply (cpu_runs_program (fun _ _ => None) 0 3 4 7 countdown_process km_with_countdown
    "preemption by quantum end" [] [] cpu_at_km countdown_registers);
    [split; reflexivity|ints; lia|ints; lia|reflexivity| | |reflexivity
    |vm_compute; congruence|reflexivity| |apply countdown_steps|lia].
  - apply Forall_singleton. by eexists.
  - split; cbn; rewrite !Forall_cons; split_and!; try apply Forall_nil_2; ints; lia.
  - split; [|split; vm_compute; congruence].
    apply (bool_decide_unpack (x00 ∉ _)). vm_compute. done.
Defined.

(** A jump to itself: by the manual the program counter stays, but the CPU takes
    the instruction for one that did not set it, and moves on. *)
Definition spin : list text := [txt "JNZ EAX 0"; txt "EXIT"].
Definition spinning : t_registers := set_register zero_registers (txt "EAX") 1.
Definition cpu_spinning : t_cpu km_peer wire wire :=
  mk_cpu (txt "1")
    (Some (mk_peer (mk_cpu_data 1 None None [Some (mk_process 7 (txt "spin") spin spinning)]
                      (init_main_memory 64 0 0)) [] true))
    (Some (mk_wire [] [] true)) 64 [] (mk_context spinning [] false).

Lemma self_jump_moves_on :
  isa_step spin spinning spinning /\
  exists c', run_instruction (fun _ _ => None) 1 7 cpu_spinning = Ok (Some EB_TRUE, c') /\
    PC (registers (context c')) = 1.
Proof.
  split; [|by eexists; split; [vm_compute; reflexivity|]].
  eexists _, _, _, _. split_and!;
    [reflexivity|by apply (bool_decide_unpack (x00 ∉ _)); vm_compute
    |vm_compute; congruence|vm_compute; reflexivity|by eapply isa_jnz_taken|vm_compute; reflexivity].
Qed.
