(* ===== verification/CpuScheduler.v ===== *)
(** * CpuScheduler: a CPU and the scheduler's thread that serves it

    CpuThread.v says what the scheduler decides after an instruction and what
    it sends; here the CPU (CpuExec.v) reads it. *)

From Stdlib Require Import Strings.Byte Strings.String.
From S2P Require Import Prelude Bytes Msg Text File Structs Peer MemoryStick Sticks KmProcess.
From S2P Require Import SchedState Pcb ReadyQueue ProcessLists KmReply Queues QueuesWf.
From S2P Require Import Mutex MutexWf Routines IoModule IoConnection CpuConnection.
From S2P Require Import OtherThreads CpuThread.
From S2P Require Import CpuState CpuConnect CpuMemory CpuExec CpuKm.

Abbreviation queues_of x := (k_queues (kernel x)).

(** What the CPU makes of a reason. *)
Definition understood (r : t_preemption_reason) : t_extended_bool :=
  match r with
  | PR_NO_PREEMPTION => EB_TRUE
  | PR_NOT_ENOUGH_MEMORY => EB_NO_TABLE
  | _ => EB_FALSE
  end.

Section reading.
Context {K T : Type} `{!Transport K, !Transport T}.
Implicit Types (c : t_cpu K wire T).

(** The CPU reads the scheduler's decision. *)
Lemma reads_verdict c r rest out :
  socket_kernel_scheduler c = Some (mk_wire (verdict r ++ rest) out true) ->
  check_interrupt c = Ok (understood r, set_ks (Some (mk_wire rest out true)) c).
Proof.
  intros Hs. rewrite (check_interrupt_reads c (bool_decide (r = PR_NO_PREEMPTION))
    (PREEMPTION_REASONS r) rest out).
  - by destruct r.
  - rewrite Hs. unfold verdict, answer. by destruct r.
  - apply (bool_decide_unpack _). by destruct r; vm_compute.
  - by destruct r.
Qed.

(** The CPU reads the process it runs next. *)
Lemma reads_pid c p rest out :
  socket_kernel_scheduler c
  = Some (mk_wire (frame OP_RESUME_PROCESS (int_bytes p) ++ rest) out true) ->
  0 <= p <= UINT32_MAX ->
  receive_pid c = Ok (p, set_ks (Some (mk_wire rest out true)) c).
Proof.
  intros Hs Hp. unfold receive_pid. rewrite bind_M, (on_ks_eq _ _ _ Hs), receive_op_code_frame.
  rewrite decide_True by done. rewrite bind_M, (on_ks_eq _ _ _ eq_refl).
  cbn [set_ks socket_kernel_scheduler].
  rewrite receive_buffer_wire by apply int_bytes_element.
  run_M. rewrite lift_M. cbn [deref]. rewrite lift_M.
  rewrite (read_u32_at _ 0 p) by done. done.
Qed.
End reading.

Section together.
Context {U V : Type} `{!Transport U, !Transport V}.
Context (others : Z -> Prop).
Context (fuel : nat) (interfere : option Z -> t_queues U -> t_queues U).
Context (Hwait : waits V fuel interfere).
Context {K T : Type} `{!Transport K, !Transport T}.
Implicit Types (x : t_cpu_state U V wire) (c : t_cpu K wire T).

End together.

